(* ===== verification/_CoqProject ===== *)
-Q . S2P
Prelude.v
PyStr.v
PyRe.v
PyEff.v
Tables.v
Usage.v
Regexps.v
Lint.v
JUnit.v
Cleanse.v
Expr.v
Includes.v
Paths.v
FileChecks.v
Nesting.v
Spacing.v
BraceDepth.v
Braces.v
Style.v
IncludeChecks.v
Language.v
Constructs.v
Driver.v
Reports.v
ClangFormat.v
ClangTidy.v
TidyThreads.v
