(* ===== verification/Prelude.v ===== *)
(** * A verification of the Python programs of the BusTub repository

    The repository holds a C++ database system and, under [src/build_support], the Python programs that guard its
    style.  This library models these programs and proves what they do:

    - [cpplint.py], the style checker.  It reads a file, builds four views of its lines (raw, without raw strings, without
      comments, without strings), and runs its checks over them line by line.  The checks consult module-level
      state (options, filters, NOLINT suppressions, counters) and per-file objects (the include state, the function
      state, the nesting stack), and report through [Error].
    - [run_clang_format.py], which compares every source file with what clang-format makes of it.
    - [run_clang_tidy.py] with [run_clang_tidy_extra.py], which feeds the files of a compilation database to threads that
      run clang-tidy and write its output under a lock.

    ** Conventions

    The language is Python 3.  A text is a list of code points ([list N]); positions and line numbers are [Z] and negative
    indices count from the end as in Python.  A function that can raise, or that reads or writes module state, is a
    computation of [PyEff.M]: it takes the state and returns a value or an exception together with the
    state reached.  Python lists used as stacks are kept with their last element first.  Objects that are shared and
    mutated (the blocks of the nesting stack) live on a heap.  A set is iterated in the order of
    [elements], where Python fixes none; no theorem rests on that order.  A loop that is not structural runs on fuel and raises
    [OutOfFuel] without it; the bounds are the length of the line, of the file or of the path, and the theorems that a function
    ends normally show that they are enough.

    What is not under [src] is a parameter: the Unicode tables beyond ASCII ([UnicodeDB], below), which paths exist and the
    working directory ([Paths.FileSystem]), the text of the headers and sources that are opened ([IncludeChecks.FileReader]), the files and
    directories, configuration files, globs, standard input and version that the driver asks for ([Driver.DriverEnv]), the directory tree,
    clang-format and difflib ([ClangFormat.FormatEnv], with the hypothesis [diff_law]), the file system, clang-tidy and the helper processes
    ([ClangTidy.TidyEnv], with [climb_law]).  Three hypotheses speak of these parameters: [Paths.no_svn_root] (no Subversion directory at
    a file system root, where the source loops for ever), [Language.parens_unique] (no character beyond ASCII folds to a parenthesis) and
    [PyStr.words_not_spaces] (no letter or digit is white space).  Every
    theorem with a hypothesis is followed, in its file, by an instance at concrete inputs.

    ** The program logic

    [PyEff.runs I X m Q] says that from a state with the invariant [I] the computation [m] ends in a state with [I], with a value
    that satisfies [Q] or an exception in [X]; [ends] is its variant for code that may leave the invariant behind when it
    raises.  What the checks ask of the error function they are given is the class [Lint.Reporter]: it has to run on reports that are in order
    ([Lint.message_ok]: a line of the file or a marker, or, in the category build/include only, no line; a known category; a confidence of at most
    5) and that name the file.  Every check has a triple, proved against that class and registered in the hint
    database [runs], so that a check is shown to report nothing else and to raise nothing of its own;
    what the checks of a whole file ask on top of that is [Lint.FileReporter].  [Driver.Error_reporter], [Reports.reported_reporter] and
    [Reports.silenced_reporter] are the instances for [Error].  Two checks do read past an end: [Driver.hazard] says on
    which files, and only there an [IndexError] is allowed.  The triples
    of [ProcessLine], [ProcessFileData], [ProcessFile] and [main] are put together from these.

    ** Files

    - [Prelude]: texts, literals, the Unicode parameter, tactics, hints and generic lemmas.
    - [PyStr], [PyRe], [PyEff]: the string methods, regular expressions and effects of Python that the programs use.  [PyRe] parses
      the patterns of the source and matches them with backtracking; its relational semantics [sem] is what proofs about
      patterns rest on ([mtch_correct]).
    - [Tables]: the constant tables of cpplint.py (lines 270 to 611); [Usage]: its usage text.
    - [Regexps]: [Match], [Search], [ReplaceAll]; module [Cached] has them with the cache of compiled patterns and shows that the
      cache changes no answer.
    - [Lint]: the module state [world] and [_CppLintState]; extensions, NOLINT comments, filters, counters, [_ShouldPrintError],
      [Error].  Theorems: which messages are printed, what a report changes, that the internal assertion is unreachable, how
      filters are accepted, backed up and restored, that counters add up, what a NOLINT comment suppresses.
    - [JUnit]: [FormatJUnitXML] and the text of an XML tree, with a strict reader of XML.  Theorem: from the report the reader gets the counts and the
      failures of every file, in the order they came.
    - [Cleanse]: raw strings, comments, [_CollapseStrings], [CleansedLines].  Theorems: removing multi-line comments is a
      one-pass state machine that keeps line numbers; removing raw strings and building the views never fail and keep the
      number of lines; [IsCppString] counts open quotes.
    - [Expr]: [CloseExpression] and [ReverseCloseExpression].  Theorems: they find the partner bracket given by the grammar of
      balanced text, undo each other, and end on every text.
    - [Includes]: [_IncludeState] and [_FunctionState].  Theorems: the section order is checked exactly, headers are found
      where they were recorded, long functions are reported exactly.
    - [Paths]: [os.path], [FileInfo], [PathSplitToList], [GetHeaderGuardCPPVariable].  Theorems: termination of the climbs (and where
      one does not end), round trips of paths, what the header guard is and when it is an identifier.
    - [FileChecks]: the checks of a whole file and of single lines up to [IsForwardClassDeclaration].
    - [Nesting]: blocks, [NestingState] and its [Update].  Theorems: the stacks of shared mutable blocks refine stacks of
      values, conditional sections, with further branches and nested ones, restore the stack, [Update] and [InTemplateArgumentList] end on every line.
    - [BraceDepth]: what [Update] does with braces.  Theorem: over lines of statements the depth of the stack is the depth of the braces.
    - [Spacing], [Braces], [Style]: the checks of [CheckStyle] and of function lengths and namespaces.  Theorems: hiding operator names keeps the
      columns, the operands of an assertion are its text, every dictionary lookup succeeds, every loop ends.
    - [IncludeChecks]: the kind of a header, include directives, include-what-you-use.  Theorems: the scan for used headers, with its short cut,
      finds the last use of every header, and exactly what neither the file nor a header of its module includes is reported, in order.
    - [Language], [Constructs]: the other checks of a line.  Theorems: [_GetTextInside] returns the balanced text, its assertions hold where it is
      called; which commas separate the arguments of a constructor, and when the loop runs past the last one.
    - [Driver]: from [ProcessLine] to [main].  Theorems: the program ends, and only in the ways that are listed with their causes
      ([Driver.bad_option], [Driver.crash]), with an [IndexError] only for
      files with a line at which a check reads past an end; the exit status; what a file leaves
      behind; which configuration files apply and in which order; line endings, the settings that a command line makes, and directories.
      Reading a configuration file gives lines and then, possibly, an exception: an [IOError] skips the rest of it, any other, as of the decoding,
      ends the program.  Sample runs of [main] are evaluated.
    - [Reports]: the output of [ProcessFileData] as a whole.  Theorems: it is a list of reports about the file that the filters and the verbosity
      let through, each counted once and written once in the output format; a NOLINT comment keeps what it covers out of that list from its
      line on.
    - [ClangFormat]: run_clang_format.py.  Theorem: what [check] answers.
    - [ClangTidy], [TidyThreads]: run_clang_tidy.py.  [ClangTidy] has what runs before and after the threads; [TidyThreads] has the threads, the queue, the
      lock and the shared output as a step relation ([tidy_step], with time-outs of the queue, the death of a thread and Ctrl-C), and [main] around
      it.  Theorems: every file is worked on once, what is written under the lock stays in one piece, the queue can always be joined (or never, for a
      name the filter does not match or a thread that died), the exit status and all other endings.  The file of fixes may not open,
      and the removal of the temporary directory may fail.

    ** Not modelled

    The C++ sources, their tests and the vendored code; argparse in the two smaller programs; in run_clang_tidy.py, [update_progress], which is never called,
    failures of [mkdtemp] and [mkstemp], and an interrupt outside the block that expects one; in
    cpplint.py, the test for Python 2, the encodings of the standard streams, and the messages of [_root_debug], which is off.  Regular expressions
    in a configuration file are read with the syntax that [PyRe] knows, which is less than that of [re]; the integer logarithm in the
    length of functions is exact, where the source uses floating point. *)

From stdpp Require Export prelude gmap list fin_maps.
From Stdlib Require Export ZArith NArith Lia.
From Stdlib Require Import Strings.Byte.

(** * Text

    A Python 3 [str] is a sequence of Unicode code points, here a list of [N].
    Literals are written between double quotes in the scope [py]; because a
    literal cannot hold a double quote itself, the backquote (which occurs in no
    literal of the scripts) stands for it. *)

Abbreviation str := (list N).

Inductive literal : Set :=
| Literal (cs : list N).

Definition literal_of_bytes (bs : list byte) : literal :=
  Literal (map (fun b => let c := Byte.to_N b in if N.eqb c 96 then 34%N else c) bs).

Definition literal_to_bytes (l : literal) : option (list byte) :=
  match l with
  | Literal cs =>
      fold_right (fun c acc => match Byte.of_N (if N.eqb c 34 then 96%N else c), acc with
                               | Some b, Some bs => Some (b :: bs)
                               | _, _ => None
                               end) (Some []) cs
  end.

Declare Scope py_scope.
Delimit Scope py_scope with py.
String Notation literal literal_of_bytes literal_to_bytes : py_scope.
Bind Scope py_scope with literal.
Open Scope py_scope.

(** The text a literal denotes, inserted silently where a [str] is expected. *)
Definition lit (l : literal) : str := match l with Literal cs => cs end.
Coercion lit : literal >-> list.
Arguments lit : simpl never.

(** The only code point of a one-character literal. *)
Definition ch (l : literal) : N := match l with Literal (c :: _) => c | Literal [] => 0%N end.
Arguments ch !l /.

(** A table of texts. *)
Definition lits (l : list literal) : list str := map lit l.

(** Control characters, which literals do not spell. *)
Definition c_nul : N := 0%N.
Definition c_tab : N := 9%N.
Definition c_nl : N := 10%N.
Definition c_cr : N := 13%N.
Definition nl : str := [c_nl].

(** Equality of texts, as a boolean. *)
Definition str_eqb (s t : str) : bool := bool_decide (s = t).

(** Membership of a text in a Python list or tuple of texts. *)
Definition mem_str (s : str) (l : list str) : bool := bool_decide (s ∈ l).

(** Python truthiness of a text: the empty text is false. *)
Definition nonempty {A} (s : list A) : bool := match s with [] => false | _ :: _ => true end.

(** * The Unicode character database

    The facts of the [unicodedata] and [re] tables that the scripts consult.  They
    are consulted for code points above 127 only (the ASCII part is written out
    in [PyStr]), so every theorem holds whatever version of Unicode the
    interpreter was built with. *)
Class UnicodeDB := {
  udb_word : N -> bool;          (* matched by the regular expression \w *)
  udb_digit : N -> bool;         (* matched by the regular expression \d *)
  udb_isdigit : N -> bool;       (* str.isdigit of one character *)
  udb_fold : N -> N;             (* the representative used when case is ignored *)
  udb_upper : N -> str;          (* str.upper of one character *)
  udb_lower : N -> str;          (* str.lower of one character *)
  udb_wide : N -> bool;          (* East Asian width W or F *)
  udb_combining : N -> bool;     (* non-zero canonical combining class *)
  udb_nfc : str -> str;          (* normal form C *)
  udb_decimal : N -> option N;   (* the value of a decimal digit *)
  udb_repr : N -> str            (* the character as repr shows it *)
}.

(** A database in which nothing above ASCII has a property: used to run examples. *)
Definition ascii_db : UnicodeDB := {|
  udb_word := fun _ => false;
  udb_digit := fun _ => false;
  udb_isdigit := fun _ => false;
  udb_fold := fun c => c;
  udb_upper := fun c => [c];
  udb_lower := fun c => [c];
  udb_wide := fun _ => false;
  udb_combining := fun _ => false;
  udb_nfc := fun s => s;
  udb_decimal := fun _ => None;
  udb_repr := fun c => [c]
|}.

(** * Tactics and hints of the development *)

(** Comparisons of code points are evaluated on constants only. *)
#[global] Arguments N.eqb !_ !_ / : simpl nomatch.
#[global] Arguments N.leb !_ !_ / : simpl nomatch.
#[global] Arguments N.ltb !_ !_ / : simpl nomatch.

Create HintDb py.
Create Rewrite HintDb pylen.

(** Case analysis on the boolean tests and matches that a goal or a hypothesis branches on. *)
Ltac split_if :=
  match goal with
  | |- context [if ?b then _ else _] => destruct b eqn:?
  | H : context [if ?b then _ else _] |- _ => destruct b eqn:?
  end.

Ltac split_match :=
  match goal with
  | |- context [match ?b with _ => _ end] => destruct b eqn:?
  | H : context [match ?b with _ => _ end] |- _ => destruct b eqn:?
  end.

(** Turn boolean facts into propositions. *)
Ltac bool_facts :=
  repeat match goal with
  | H : (_ && _)%bool = true |- _ => apply andb_true_iff in H; destruct H
  | H : (_ || _)%bool = false |- _ => apply orb_false_iff in H; destruct H
  | H : negb _ = true |- _ => apply negb_true_iff in H
  | H : negb _ = false |- _ => apply negb_false_iff in H
  | H : (_ =? _)%N = true |- _ => apply N.eqb_eq in H
  | H : (_ =? _)%N = false |- _ => apply N.eqb_neq in H
  | H : (_ =? _)%Z = true |- _ => apply Z.eqb_eq in H
  | H : (_ =? _)%Z = false |- _ => apply Z.eqb_neq in H
  | H : (_ <? _)%Z = true |- _ => apply Z.ltb_lt in H
  | H : (_ <? _)%Z = false |- _ => apply Z.ltb_ge in H
  | H : (_ <=? _)%Z = true |- _ => apply Z.leb_le in H
  | H : (_ <=? _)%Z = false |- _ => apply Z.leb_gt in H
  | H : (_ <=? _)%N = true |- _ => apply N.leb_le in H
  | H : (_ <=? _)%N = false |- _ => apply N.leb_gt in H
  | H : bool_decide _ = true |- _ => apply bool_decide_eq_true in H
  | H : bool_decide _ = false |- _ => apply bool_decide_eq_false in H
  end.

(** * Generic lemmas *)

Lemma str_eqb_eq (s t : str) : str_eqb s t = true <-> s = t.
Proof. apply bool_decide_eq_true. Qed.

Lemma str_eqb_refl (s : str) : str_eqb s s = true.
Proof. by apply str_eqb_eq. Qed.

Lemma mem_str_elem (s : str) (l : list str) : mem_str s l = true <-> s ∈ l.
Proof. apply bool_decide_eq_true. Qed.

Lemma drop_cons_lookup {A} (l : list A) (n : nat) (x : A) :
  l !! n = Some x -> drop n l = x :: drop (S n) l.
Proof. intros H. by apply drop_S. Qed.

Lemma length_drop_lt {A} (l : list A) (n : nat) :
  0 < n -> l <> [] -> length (drop n l) < length l.
Proof. intros Hn Hl. destruct l; [done|]. rewrite length_drop. simpl. lia. Qed.

Lemma rev_case {A} (l : list A) : l = [] \/ exists l' x, l = l' ++ [x].
Proof. destruct l using rev_ind; [by left | right; eauto]. Qed.

Lemma Forall_impl_in {A} (P Q : A -> Prop) (l : list A) :
  (forall x, x ∈ l -> P x -> Q x) -> Forall P l -> Forall Q l.
Proof. rewrite !Forall_forall. eauto. Qed.

Lemma forallb_ext_eq {A} (f g : A -> bool) (l : list A) : (forall x, f x = g x) -> forallb f l = forallb g l.
Proof. intros H. induction l as [|x l IH]; simpl; [done|]. by rewrite H, IH. Qed.

Lemma option_not_none {A} (o : option A) : o <> None <-> exists x, o = Some x.
Proof. destruct o; split; try done; eauto. by intros [x ?]. Qed.

#[export] Hint Resolve str_eqb_refl : py.
#[export] Hint Rewrite @length_app @length_take @length_drop @length_map @length_rev
  @length_insert @length_replicate : pylen.

(** Arithmetic on lengths of texts. *)
Ltac len_lia := repeat (autorewrite with pylen in * || simpl in *); try lia.
