(* ===== verification/PyStr.v ===== *)
(** * The Python string operations the scripts call

    Each method of [str] used by the scripts of [src/build_support], as a total
    function on code point lists, with the lemmas the components rely on.
    Positions are Python integers ([Z]); a negative index or bound counts from the
    end, as in Python. *)

From S2P Require Import Prelude.

Local Open Scope Z_scope.

(** ** Length, indexing and slicing *)

Definition len {A} (s : list A) : Z := Z.of_nat (length s).

(** A slice bound brought into range: negative bounds count from the end, and both
    kinds are clamped to the text. *)
Definition bound (n i : Z) : Z := if i <? 0 then Z.max 0 (i + n) else Z.min i n.

(** [s[lo:hi]] *)
Definition slice {A} (s : list A) (lo hi : Z) : list A :=
  let lo' := bound (len s) lo in
  let hi' := bound (len s) hi in
  take (Z.to_nat (hi' - lo')) (drop (Z.to_nat lo') s).

(** [s[lo:]] and [s[:hi]] *)
Definition slice_from {A} (s : list A) (lo : Z) : list A := drop (Z.to_nat (bound (len s) lo)) s.
Definition slice_to {A} (s : list A) (hi : Z) : list A := take (Z.to_nat (bound (len s) hi)) s.

(** [s[i]], [None] where Python raises [IndexError]. *)
Definition index {A} (s : list A) (i : Z) : option A :=
  let j := if i <? 0 then i + len s else i in
  if j <? 0 then None else s !! Z.to_nat j.

(** ** Character classes *)

Section Unicode.
Context {U : UnicodeDB}.

Definition is_lower_ascii (c : N) : bool := ((97 <=? c) && (c <=? 122))%N.
Definition is_upper_ascii (c : N) : bool := ((65 <=? c) && (c <=? 90))%N.
Definition is_digit_ascii (c : N) : bool := ((48 <=? c) && (c <=? 57))%N.

(** [str.isspace] of one character, which is also the regular expression class \s. *)
Definition is_space (c : N) : bool :=
  ((9 <=? c) && (c <=? 13) || (28 <=? c) && (c <=? 32) || (c =? 133) || (c =? 160)
   || (c =? 5760) || (8192 <=? c) && (c <=? 8202) || (c =? 8232) || (c =? 8233)
   || (c =? 8239) || (c =? 8287) || (c =? 12288))%N.

(** The class \w: letters, digits and the underscore. *)
Definition is_word (c : N) : bool :=
  (if c <? 128 then is_lower_ascii c || is_upper_ascii c || is_digit_ascii c || (c =? 95)
   else udb_word c)%N.

(** The class \d. *)
Definition is_digit (c : N) : bool := (if c <? 128 then is_digit_ascii c else udb_digit c)%N.

(** The members of [string.whitespace]. *)
Definition string_whitespace : str := [32%N; 9%N; 10%N; 13%N; 11%N; 12%N].

Definition lower1 (c : N) : str :=
  (if is_upper_ascii c then [c + 32] else if c <? 128 then [c] else udb_lower c)%N.
Definition upper1 (c : N) : str :=
  (if is_lower_ascii c then [c - 32] else if c <? 128 then [c] else udb_upper c)%N.
Definition lower (s : str) : str := concat (map lower1 s).
Definition upper (s : str) : str := concat (map upper1 s).

(** [s.isspace()], [s.isdigit()]: false on the empty text. *)
Definition isspace (s : str) : bool := nonempty s && forallb is_space s.
Definition isdigit (s : str) : bool :=
  nonempty s && forallb (fun c => (if c <? 128 then is_digit_ascii c else udb_isdigit c)%N) s.

(** ** Prefixes, suffixes, searching *)

Fixpoint startswith (s p : str) {struct p} : bool :=
  match p, s with
  | [], _ => true
  | c :: p', d :: s' => (c =? d)%N && startswith s' p'
  | _ :: _, [] => false
  end.

Definition endswith (s p : str) : bool := startswith (rev s) (rev p).

Fixpoint find_nat (s p : str) : option nat :=
  if startswith s p then Some O
  else match s with
       | [] => None
       | _ :: s' => S <$> find_nat s' p
       end.

(** [s.find(p)] *)
Definition find (s p : str) : Z := match find_nat s p with Some n => Z.of_nat n | None => -1 end.

(** [s.find(p, start)] for a start that is not negative *)
Definition find_at (s p : str) (start : Z) : Z :=
  if len s <? start then -1
  else match find_nat (drop (Z.to_nat start) s) p with
       | Some n => start + Z.of_nat n
       | None => -1
       end.

(** [s.rfind(p)] *)
Fixpoint rfind_nat (s p : str) : option nat :=
  match s with
  | [] => if startswith [] p then Some O else None
  | _ :: s' => match rfind_nat s' p with
               | Some n => Some (S n)
               | None => if startswith s p then Some O else None
               end
  end.
Definition rfind (s p : str) : Z := match rfind_nat s p with Some n => Z.of_nat n | None => -1 end.

(** [p in s] *)
Definition contains (p s : str) : bool := match find_nat s p with Some _ => true | None => false end.

(** [s.count(p)], non-overlapping, for a text [p] that is not empty.  [skip] counts the characters
    of the occurrence just counted that are still to be passed over. *)
Fixpoint count_skip (p : str) (skip : nat) (s : str) : nat :=
  match s with
  | [] => O
  | _ :: s' => match skip with
               | S k => count_skip p k s'
               | O => if startswith s p then S (count_skip p (pred (length p)) s')
                      else count_skip p O s'
               end
  end.
Definition count (s p : str) : Z := Z.of_nat (count_skip p O s).

(** [s.replace(old, new)] for a text [old] that is not empty. *)
Fixpoint replace_skip (old new : str) (skip : nat) (s : str) : str :=
  match s with
  | [] => []
  | c :: s' => match skip with
               | S k => replace_skip old new k s'
               | O => if startswith s old then new ++ replace_skip old new (pred (length old)) s'
                      else c :: replace_skip old new O s'
               end
  end.
Definition replace (s old new : str) : str := replace_skip old new O s.

(** ** Stripping *)

Fixpoint drop_while {A} (f : A -> bool) (s : list A) : list A :=
  match s with
  | [] => []
  | c :: s' => if f c then drop_while f s' else s
  end.

Definition lstrip (s : str) : str := drop_while is_space s.
Definition rstrip (s : str) : str := rev (drop_while is_space (rev s)).
Definition strip (s : str) : str := rstrip (lstrip s).

(** [s.lstrip(chars)] and so on. *)
Definition in_chars (chars : str) (c : N) : bool := existsb (N.eqb c) chars.
Definition lstrip_chars (s chars : str) : str := drop_while (in_chars chars) s.
Definition rstrip_chars (s chars : str) : str := rev (drop_while (in_chars chars) (rev s)).
Definition strip_chars (s chars : str) : str := rstrip_chars (lstrip_chars s chars) chars.

(** ** Splitting and joining *)

(** [s.split(sep)] for a separator that is not empty. *)
Fixpoint split_skip (sep : str) (skip : nat) (acc : str) (s : str) : list str :=
  match s with
  | [] => [rev acc]
  | c :: s' => match skip with
               | S k => split_skip sep k acc s'
               | O => if startswith s sep then rev acc :: split_skip sep (pred (length sep)) [] s'
                      else split_skip sep O (c :: acc) s'
               end
  end.
Definition split (s sep : str) : list str := split_skip sep O [] s.

(** [s.split()]: maximal runs of characters that are not white space. *)
Fixpoint split_ws_acc (acc : str) (s : str) : list str :=
  match s with
  | [] => if nonempty acc then [rev acc] else []
  | c :: s' => if is_space c
               then (if nonempty acc then [rev acc] else []) ++ split_ws_acc [] s'
               else split_ws_acc (c :: acc) s'
  end.
Definition split_ws (s : str) : list str := split_ws_acc [] s.

(** [sep.join(parts)] *)
Fixpoint join (sep : str) (parts : list str) : str :=
  match parts with
  | [] => []
  | [p] => p
  | p :: ps => p ++ sep ++ join sep ps
  end.

Lemma join_snoc sep ps a : ps <> [] -> join sep (ps ++ [a]) = join sep ps ++ sep ++ a.
Proof.
  induction ps as [|p ps IH]; [done|]. intros _. destruct ps as [|q ps]; [done|].
  change (p ++ sep ++ join sep ((q :: ps) ++ [a]) = (p ++ sep ++ join sep (q :: ps)) ++ sep ++ a). rewrite IH by done. by rewrite <- !app_assoc.
Qed.

(** [s.partition(sep)], without the separator itself: the text before and after it. *)
Definition partition (s sep : str) : str * str :=
  match find_nat s sep with
  | Some n => (take n s, drop (n + length sep) s)
  | None => (s, [])
  end.

(** The line boundaries of [str.splitlines], but for the pair of carriage return and line feed. *)
Definition line_boundary (c : N) : bool :=
  ((10 <=? c) && (c <=? 13) || (28 <=? c) && (c <=? 30) || (c =? 133) || (c =? 8232) || (c =? 8233))%N.

(** [s.splitlines(True)]; [acc] is the line read so far, reversed. *)
Fixpoint splitlines_acc (acc : str) (s : str) : list str :=
  match s with
  | [] => if nonempty acc then [rev acc] else []
  | c :: s' =>
      if line_boundary c then
        match s' with
        | d :: s'' => if (c =? c_cr)%N && (d =? c_nl)%N then rev (d :: c :: acc) :: splitlines_acc [] s''
                      else rev (c :: acc) :: splitlines_acc [] s'
        | [] => [rev (c :: acc)]
        end
      else splitlines_acc (c :: acc) s'
  end.
Definition splitlines (s : str) : list str := splitlines_acc [] s.

(** ** Comparison: the order of texts is that of their code points. *)
Fixpoint str_ltb (s t : str) : bool :=
  match s, t with
  | [], [] => false
  | [], _ :: _ => true
  | _ :: _, [] => false
  | c :: s', d :: t' => if (c =? d)%N then str_ltb s' t' else (c <? d)%N
  end.

(** ** Decimal notation of an integer: the format [%d]. *)
Fixpoint digits_of (fuel : nat) (n : N) (acc : str) : str :=
  match fuel with
  | O => acc
  | S f => let acc' := (48 + n mod 10)%N :: acc in
           if (n / 10 =? 0)%N then acc' else digits_of f (n / 10)%N acc'
  end.
Definition str_of_N (n : N) : str := digits_of (S (N.to_nat (N.log2 n))) n [].
Definition str_of_Z (z : Z) : str :=
  if z <? 0 then ch "-" :: str_of_N (Z.to_N (- z)) else str_of_N (Z.to_N z).

(** ** [int(s)]: white space around the number, a sign, single underscores between the digits; [None] for a [ValueError]. *)
Definition decimal (c : N) : option Z :=
  if (c <? 128)%N then (if is_digit_ascii c then Some (Z.of_N (c - 48)) else None) else Z.of_N <$> udb_decimal c.

Fixpoint int_digits (acc : Z) (after_digit : bool) (s : str) : option Z :=
  match s with
  | [] => if after_digit then Some acc else None
  | c :: s' =>
      match decimal c with
      | Some d => int_digits (acc * 10 + d) true s'
      | None => if (c =? ch "_")%N && after_digit then int_digits acc false s' else None
      end
  end.

Definition py_int (s : str) : option Z :=
  match strip s with
  | c :: s' =>
      if (c =? ch "-")%N then Z.opp <$> int_digits 0 false s'
      else if (c =? ch "+")%N then int_digits 0 false s'
      else int_digits 0 false (c :: s')
  | [] => None
  end.

(** ** [repr(s)] *)
Definition hex_digit (n : N) : N := (if n <? 10 then 48 + n else 87 + n)%N.
Definition repr1 (quote c : N) : str :=
  if ((c =? ch "\") || (c =? quote))%N then [ch "\"; c]
  else if (c =? c_nl)%N then lit "\n" else if (c =? c_cr)%N then lit "\r" else if (c =? c_tab)%N then lit "\t"
  else if ((c <? 32) || (c =? 127))%N then "\x" ++ [hex_digit (c / 16); hex_digit (c mod 16)]%N
  else if (c <? 128)%N then [c] else udb_repr c.
Definition py_repr (s : str) : str :=
  let quote := if contains "'" s && negb (contains "`" s) then ch "`" else ch "'" in
  [quote] ++ concat (map (repr1 quote) s) ++ [quote].

End Unicode.

(** ** Facts *)

Lemma index_in {A} (s : list A) i : - len s <= i < len s -> is_Some (index s i).
Proof.
  unfold index, len. intros H. assert (Hb : forall j, 0 <= j < Z.of_nat (length s) -> is_Some (s !! Z.to_nat j)).
  { intros j Hj. apply lookup_lt_is_Some. lia. }
  destruct (i <? 0) eqn:Ei; [assert (i + Z.of_nat (length s) <? 0 = false) as -> by lia | rewrite Ei]; apply Hb; lia.
Qed.

Lemma index_elem {A} (s : list A) i a : index s i = Some a -> a ∈ s.
Proof. unfold index. cbv zeta. repeat case_match; try done; apply list_elem_of_lookup_2. Qed.

Lemma index_lt {A} (s : list A) i a : index s i = Some a -> i < len s.
Proof.
  unfold index, len. intros H. destruct (i <? 0) eqn:Ei; [lia|]. rewrite Ei in H. apply lookup_lt_Some in H. lia.
Qed.

Lemma startswith_app p s : startswith (p ++ s) p = true.
Proof. induction p as [|c p IH]; simpl; [done|]. by rewrite N.eqb_refl. Qed.

Lemma startswith_iff s p : startswith s p = true <-> exists r, s = p ++ r.
Proof.
  split; [|intros [r ->]; apply startswith_app].
  revert s. induction p as [|c p IH]; intros s H; [by exists s|].
  destruct s as [|d s]; [done|]. simpl in H. apply andb_true_iff in H as [H1 H2].
  apply N.eqb_eq in H1 as ->. apply IH in H2 as [r ->]. by exists r.
Qed.

Lemma endswith_iff s p : endswith s p = true <-> exists r, s = r ++ p.
Proof.
  unfold endswith. rewrite startswith_iff. split; intros [r H].
  - exists (rev r). apply (f_equal (@rev N)) in H.
    rewrite rev_involutive, rev_app_distr, rev_involutive in H. done.
  - exists (rev r). by rewrite H, rev_app_distr.
Qed.

(** [s[1:-1]] of a text in brackets is what the brackets enclose. *)
Lemma slice_inner (a b : N) (u : str) : slice (a :: u ++ [b]) 1 (-1) = u.
Proof.
  unfold slice, bound, len. cbn [length]. rewrite length_app. cbn [length Z.ltb Z.compare].
  match goal with |- take (Z.to_nat (_ - ?lo)) _ = _ => replace lo with 1 by lia end.
  replace (Z.to_nat (_ - 1)) with (length u) by lia.
  cbn [drop Z.to_nat Pos.to_nat Pos.iter_op Nat.add]. apply take_app_length.
Qed.

(** Where [find] stops. *)
Lemma contains_char c s : c ∈ s -> contains [c] s = true.
Proof.
  unfold contains. induction s as [|d s IH]; [by intros ?%elem_of_nil|]. intros [->|H]%elem_of_cons.
  - cbn. by rewrite N.eqb_refl.
  - cbn. destruct (c =? d)%N; [done|]. cbn. specialize (IH H). by destruct (find_nat s [c]).
Qed.

Lemma find_nat_some s p n : find_nat s p = Some n -> exists u v, s = u ++ p ++ v /\ length u = n.
Proof.
  revert n. induction s as [|c s IH]; intros n; simpl.
  - destruct (startswith [] p) eqn:E; [|done]. intros [= <-]. apply startswith_iff in E as [r Hr]. by exists [], r.
  - destruct (startswith (c :: s) p) eqn:E.
    + intros [= <-]. apply startswith_iff in E as [r Hr]. by exists [], r.
    + destruct (find_nat s p) as [k|] eqn:Ek; [|done]. intros [= <-].
      destruct (IH k eq_refl) as (u & v & -> & <-). by exists (c :: u), v.
Qed.

Lemma find_some s p : 0 <= find s p -> exists u v, s = u ++ p ++ v /\ len u = find s p.
Proof.
  unfold find. destruct (find_nat s p) as [n|] eqn:E; [|lia]. intros _.
  apply find_nat_some in E as (u & v & -> & <-). by exists u, v.
Qed.

Section Words.
Context {U : UnicodeDB}.

(** Letters, digits and the underscore are not white space. *)
Definition words_not_spaces : Prop := forall c, is_word c = true -> is_space c = false.

Lemma split_ws_word s c : c ∈ s -> is_space c = false -> split_ws s <> [].
Proof.
  assert (H : forall acc, c ∈ s \/ acc <> [] -> is_space c = false -> split_ws_acc acc s <> []); [|intros; apply H; auto].
  induction s as [|d s IH]; intros acc Hc Hs; cbn [split_ws_acc].
  - destruct Hc as [Hc%not_elem_of_nil|Ha]; [done|]. by destruct acc.
  - destruct (is_space d) eqn:Ed.
    + destruct acc; [|done]. apply IH; [|done]. destruct Hc as [[<-|?]%elem_of_cons|?]; [congruence | by left | done].
    + apply IH; [by right | done].
Qed.
End Words.

(** Where something is found, it fits. *)
Lemma find_fits s p : find s p = -1 \/ 0 <= find s p /\ find s p + len p <= len s.
Proof.
  unfold find. destruct (find_nat s p) as [n|] eqn:E; [right | by left].
  apply find_nat_some in E as (u & v & -> & <-). unfold len. rewrite !length_app. lia.
Qed.

Lemma find_at_fits s p start : start <= len s -> find_at s p start = -1 \/ find_at s p start + len p <= len s.
Proof.
  intros Hs. unfold find_at. split_if; [by left|].
  destruct (find_nat (drop (Z.to_nat start) s) p) as [n|] eqn:E; [right | by left].
  apply find_nat_some in E as (u & v & Hd & <-). apply (f_equal (@length N)) in Hd.
  rewrite length_drop, !length_app in Hd. unfold len in *. lia.
Qed.

Lemma rfind_fits s p : rfind s p = -1 \/ 0 <= rfind s p /\ rfind s p + len p <= len s.
Proof.
  unfold rfind, len. destruct (rfind_nat s p) as [n|] eqn:E; [right | by left].
  assert (n + length p <= length s)%nat; [|lia]. revert n E. induction s as [|c s IH]; intros n; cbn [rfind_nat].
  - destruct (startswith [] p) eqn:E; [|done]. intros [= <-]. by apply startswith_iff in E as [r Hr]; destruct p.
  - destruct (rfind_nat s p) as [k|]; [intros [= <-]; specialize (IH k eq_refl); simpl; lia|].
    destruct (startswith (c :: s) p) eqn:E; [|done]. intros [= <-]. apply startswith_iff in E as [r ->].
    rewrite length_app. lia.
Qed.
