(* ===== verification/PyRe.v ===== *)
(** * Python regular expressions

    The part of the [re] module the scripts use: patterns are parsed from the
    texts that appear in the source ([re_parse]) into the type [re], and matched by a
    backtracking matcher ([mtch]) with the priorities and the zero-width rule of
    Python's own engine.  The matcher is total: a repetition makes at most as many
    rounds as the text that is left allows, so no fuel is needed.

    [sem] gives a pattern its meaning as a relation between the position where a
    match starts and the positions where it may end.  [mtch_correct]
    shows that the matcher finds a match exactly when that relation
    has one. *)

From S2P Require Import Prelude PyStr.

(** ** Patterns *)

Inductive item : Set :=
| IChar (c : N)
| IRange (a b : N)
| ISpace (neg : bool)
| IWord (neg : bool)
| IDigit (neg : bool).

Inductive re : Set :=
| REmpty
| RChar (c : N)
| RAny
| RSet (neg : bool) (items : list item)
| RSeq (a b : re)
| RAlt (a b : re)
| RRep (greedy : bool) (min : nat) (max : option nat) (a : re)
| RGroup (n : nat) (a : re)
| RBackref (n : nat)
| RBol
| REol
| RWordB
| RLook (positive : bool) (a : re).

Record flags := { f_icase : bool; f_multiline : bool; f_dotall : bool }.

Definition no_flags : flags := {| f_icase := false; f_multiline := false; f_dotall := false |}.

(** ** Parsing the notation of the [re] module *)

Definition simple_escape (c : N) : option N :=
  if (c =? ch "n")%N then Some 10%N
  else if (c =? ch "r")%N then Some 13%N
  else if (c =? ch "t")%N then Some 9%N
  else if (c =? ch "f")%N then Some 12%N
  else if (c =? ch "v")%N then Some 11%N
  else if (c =? ch "a")%N then Some 7%N
  else if is_lower_ascii c || is_upper_ascii c || is_digit_ascii c then None
  else Some c.

Definition class_escape (c : N) : option item :=
  if (c =? ch "s")%N then Some (ISpace false)
  else if (c =? ch "S")%N then Some (ISpace true)
  else if (c =? ch "w")%N then Some (IWord false)
  else if (c =? ch "W")%N then Some (IWord true)
  else if (c =? ch "d")%N then Some (IDigit false)
  else if (c =? ch "D")%N then Some (IDigit true)
  else IChar <$> simple_escape c.

(** One member of a bracketed set, before a possible range is recognised. *)
Definition parse_member (s : str) : option (item * str) :=
  match s with
  | [] => None
  | c :: s' =>
      if (c =? ch "\")%N
      then match s' with
           | [] => None
           | d :: s'' => match class_escape d with Some i => Some (i, s'') | None => None end
           end
      else Some (IChar c, s')
  end.

(** The members of a bracketed set up to its closing bracket; the first member may be a bracket. *)
Fixpoint parse_set (fuel : nat) (first : bool) (acc : list item) (s : str) : option (list item * str) :=
  match fuel with
  | O => None
  | S f =>
      match s with
      | [] => None
      | c :: s' =>
          if (c =? ch "]")%N && negb first then Some (rev acc, s')
          else
            match parse_member s with
            | None => None
            | Some (i, r) =>
                match i, r with
                | IChar a, d :: e :: r' =>
                    if (d =? ch "-")%N && negb (e =? ch "]")%N then
                      match parse_member (e :: r') with
                      | Some (IChar b, r'') =>
                          if (b <? a)%N then None else parse_set f false (IRange a b :: acc) r''
                      | _ => None
                      end
                    else parse_set f false (i :: acc) r
                | _, _ => parse_set f false (i :: acc) r
                end
            end
      end
  end.

Fixpoint parse_number (acc : N) (seen : bool) (s : str) : option N * str :=
  match s with
  | c :: s' => if is_digit_ascii c
               then parse_number (10 * acc + (c - 48))%N true s'
               else (if seen then Some acc else None, s)
  | [] => (if seen then Some acc else None, s)
  end.

(** The bounds of a repetition in braces: [{m}], [{m,}], [{,n}] or [{m,n}], the opening brace read
    already.  [None] when the text is no such thing: the brace is then an ordinary
    character. *)
Definition parse_braces (s : str) : option (N * option N * str) :=
  match parse_number 0 false s with
  | (lo, c :: r) =>
      if (c =? ch "}")%N then match lo with Some n => Some (n, Some n, r) | None => None end
      else if (c =? ch ",")%N then
        match parse_number 0 false r with
        | (hi, d :: r') => if (d =? ch "}")%N then Some (default 0%N lo, hi, r') else None
        | _ => None
        end
      else None
  | _ => None
  end.

(** The quantifiers after an atom. *)
Definition parse_quant (s : str) : option (N * option N * str) :=
  match s with
  | c :: r =>
      if (c =? ch "*")%N then Some (0%N, None, r)
      else if (c =? ch "+")%N then Some (1%N, None, r)
      else if (c =? ch "?")%N then Some (0%N, Some 1%N, r)
      else if (c =? ch "{")%N then parse_braces r
      else None
  | [] => None
  end.

(** [sre_constants.MAXREPEAT] *)
Definition MAXREPEAT : N := 4294967295%N.

(** The bounds are in order and not too large. *)
Definition repeat_ok (lo : N) (hi : option N) : bool :=
  ((lo <? MAXREPEAT) && match hi with Some n => (n <? MAXREPEAT) && (lo <=? n) | None => true end)%N.

Definition is_anchor (a : re) : bool := match a with RBol | REol | RWordB => true | _ => false end.

(** The atom with what follows it; an anchor is not repeated. *)
Definition with_quant (a : re) (s : str) : option (re * str) :=
  match parse_quant s with
  | None => Some (a, s)
  | Some (lo, hi, r) =>
      if is_anchor a || negb (repeat_ok lo hi) then None
      else
        let rep greedy := RRep greedy (N.to_nat lo) (N.to_nat <$> hi) a in
        match r with
        | q :: r' => if (q =? ch "?")%N then Some (rep false, r') else Some (rep true, r)
        | [] => Some (rep true, r)
        end
  end.

(** The atom that an escape outside a set denotes. *)
Definition escape_atom (c : N) : option re :=
  if (c =? ch "b")%N then Some RWordB
  else if ((49 <=? c) && (c <=? 57))%N then Some (RBackref (N.to_nat (c - 48)))
  else match class_escape c with
       | Some (IChar d) => Some (RChar d)
       | Some i => Some (RSet false [i])
       | None => None
       end.

Inductive paren : Set := PGroup | PPlain | PLook (positive : bool).

(** What an opening parenthesis introduces. *)
Definition parse_paren (s : str) : option (paren * str) :=
  match s with
  | a :: b :: r =>
      if (a =? ch "?")%N then
        if (b =? ch ":")%N then Some (PPlain, r)
        else if (b =? ch "=")%N then Some (PLook true, r)
        else if (b =? ch "!")%N then Some (PLook false, r)
        else None
      else Some (PGroup, s)
  | _ => Some (PGroup, s)
  end.

(** A sequence of alternatives up to a closing parenthesis or the end of the pattern.  [g] is the
    number of groups opened so far.  [alts] holds the alternatives already read, and [cur]
    the atoms of the current one, both latest first. *)
Definition seq_of (cur : list re) : re := fold_left (fun acc a => RSeq a acc) cur REmpty.
Definition alt_of (alts : list re) (last : re) : re := fold_left (fun acc a => RAlt a acc) alts last.

Fixpoint parse_alt (fuel : nat) (g : nat) (alts cur : list re) (s : str) : option (re * nat * str) :=
  match fuel with
  | O => None
  | S f =>
      match s with
      | [] => Some (alt_of alts (seq_of cur), g, [])
      | c :: r =>
          if (c =? ch ")")%N then Some (alt_of alts (seq_of cur), g, s)
          else if (c =? ch "|")%N then parse_alt f g (seq_of cur :: alts) [] r
          else if (c =? ch "(")%N then
            match parse_paren r with
            | None => None
            | Some (kind, r1) =>
                let n := match kind with PGroup => S g | _ => g end in
                match parse_alt f n [] [] r1 with
                | Some (a, g', d :: r2) =>
                    if (d =? ch ")")%N then
                      let a' := match kind with
                                | PGroup => RGroup n a
                                | PPlain => a
                                | PLook b => RLook b a
                                end in
                      match with_quant a' r2 with
                      | Some (q, r3) => parse_alt f g' alts (q :: cur) r3
                      | None => None
                      end
                    else None
                | _ => None
                end
            end
          else
            let atom :=
              if (c =? ch ".")%N then Some (RAny, r)
              else if (c =? ch "^")%N then Some (RBol, r)
              else if (c =? ch "$")%N then Some (REol, r)
              else if (c =? ch "\")%N then
                match r with
                | [] => None
                | d :: r' => match escape_atom d with Some a => Some (a, r') | None => None end
                end
              else if (c =? ch "[")%N then
                match r with
                | d :: r' =>
                    if (d =? ch "^")%N
                    then match parse_set f true [] r' with
                         | Some (its, r'') => Some (RSet true its, r'') | None => None end
                    else match parse_set f true [] r with
                         | Some (its, r'') => Some (RSet false its, r'') | None => None end
                | [] => None
                end
              else if match parse_quant s with Some _ => true | None => false end then None
              else Some (RChar c, r) in
            match atom with
            | None => None
            | Some (a, r1) =>
                match with_quant a r1 with
                | Some (q, r2) => parse_alt f g alts (q :: cur) r2
                | None => None
                end
            end
      end
  end.

Record regex := { rx_flags : flags; rx_groups : nat; rx_re : re }.

(** [re.compile(p, flags)]; a leading [(?i)] sets the case flag. *)
Definition re_compile (fl : flags) (p : str) : option regex :=
  let '(fl, p) :=
    if startswith p "(?i)"
    then ({| f_icase := true; f_multiline := f_multiline fl; f_dotall := f_dotall fl |}, drop 4 p)
    else (fl, p) in
  match parse_alt (S (length p)) 0 [] [] p with
  | Some (r, g, []) => Some {| rx_flags := fl; rx_groups := g; rx_re := r |}
  | _ => None
  end.
Definition re_parse (p : str) : option regex := re_compile no_flags p.

(** [re.escape] *)
Definition re_special : str := "()[]{}?*+-|^$\.&~# " ++ [9%N; 10%N; 13%N; 11%N; 12%N].
Definition re_escape (s : str) : str :=
  concat (map (fun c => if in_chars re_special c then [ch "\"; c] else [c]) s).

(** ** Matching *)

Section Matching.
Context {U : UnicodeDB}.

(** Where the matcher stands: the text before it (nearest character first), the text after it, and
    the spans of the groups matched so far. *)
Record mstate := MState { before : str; after : str; caps : list (nat * (nat * nat)) }.

Definition pos (st : mstate) : nat := length (before st).
Definition with_caps (st : mstate) (c : list (nat * (nat * nat))) : mstate :=
  MState (before st) (after st) c.
Definition set_cap (n : nat) (from : nat) (st : mstate) : mstate :=
  with_caps st ((n, (from, pos st)) :: caps st).

Fixpoint get_cap (n : nat) (c : list (nat * (nat * nat))) : option (nat * nat) :=
  match c with
  | [] => None
  | (m, sp) :: c' => if Nat.eqb n m then Some sp else get_cap n c'
  end.

(** The characters of the whole text between two positions. *)
Definition subtext (st : mstate) (sp : nat * nat) : str :=
  take (snd sp - fst sp) (drop (fst sp) (rev (before st) ++ after st)).

Definition fold1 (c : N) : N :=
  (if is_upper_ascii c then c + 32 else if c <? 128 then c else udb_fold c)%N.

Definition eq_char (fl : flags) (c d : N) : bool :=
  if f_icase fl then (fold1 c =? fold1 d)%N else (c =? d)%N.

Definition item_has (fl : flags) (c : N) (i : item) : bool :=
  match i with
  | IChar d => eq_char fl c d
  | IRange a b =>
      ((a <=? c) && (c <=? b))%N
      || f_icase fl && (((a <=? fold1 c) && (fold1 c <=? b))
                        || existsb (fun u => (a <=? u) && (u <=? b)) (upper1 c))%N
  | ISpace neg => xorb neg (is_space c)
  | IWord neg => xorb neg (is_word c)
  | IDigit neg => xorb neg (is_digit c)
  end.

Definition set_has (fl : flags) (neg : bool) (items : list item) (c : N) : bool :=
  xorb neg (existsb (item_has fl c) items).

(** The patterns that consume exactly one character, as a test on it. *)
Definition one_char (fl : flags) (r : re) : option (N -> bool) :=
  match r with
  | RChar d => Some (fun c => eq_char fl c d)
  | RAny => Some (fun c => f_dotall fl || negb (c =? c_nl)%N)
  | RSet neg items => Some (set_has fl neg items)
  | _ => None
  end.

Definition step1 (f : N -> bool) (st : mstate) : option mstate :=
  match after st with
  | c :: rest => if f c then Some (MState (c :: before st) rest (caps st)) else None
  | [] => None
  end.

Definition at_bol (fl : flags) (st : mstate) : bool :=
  match before st with
  | [] => true
  | c :: _ => f_multiline fl && (c =? c_nl)%N
  end.

Definition at_eol (fl : flags) (st : mstate) : bool :=
  match after st with
  | [] => true
  | [c] => (c =? c_nl)%N
  | c :: _ => f_multiline fl && (c =? c_nl)%N
  end.

Definition at_word_boundary (st : mstate) : bool :=
  let w l := match l with c :: _ => is_word c | [] => false end in
  xorb (w (before st)) (w (after st)).

Definition orelse {A} (o p : option A) : option A := match o with Some _ => o | None => p end.

Fixpoint advance (n : nat) (st : mstate) : mstate :=
  match n with
  | O => st
  | S n' => match after st with
            | c :: rest => advance n' (MState (c :: before st) rest (caps st))
            | [] => st
            end
  end.

(** The rounds of a repetition.  [cnt] rounds are done and [last] is where the latest optional
    round started: a round that consumed nothing is not followed by another one. *)
Fixpoint rep_loop (body : (mstate -> option mstate) -> mstate -> option mstate)
    (greedy : bool) (min : nat) (max : option nat) (k : mstate -> option mstate)
    (rounds : nat) (cnt : nat) (last : option nat) (st : mstate) : option mstate :=
  match rounds with
  | O => None
  | S rounds' =>
      if Nat.ltb cnt min then body (rep_loop body greedy min max k rounds' (S cnt) last) st
      else
        let more :=
          if match max with Some m => Nat.ltb cnt m | None => true end
             && negb (bool_decide (last = Some (pos st)))
          then body (rep_loop body greedy min max k rounds' (S cnt) (Some (pos st))) st
          else None in
        if greedy then orelse more (k st) else orelse (k st) more
  end.

(** [mtch fl r k st] matches [r] at [st] and then runs [k] on what is left, trying the ways [r] can match
    in the order of their priority until [k] accepts one. *)
Fixpoint mtch (fl : flags) (r : re) (k : mstate -> option mstate) (st : mstate) : option mstate :=
  match r with
  | REmpty => k st
  | RChar d => match step1 (fun c => eq_char fl c d) st with Some st' => k st' | None => None end
  | RAny => match step1 (fun c => f_dotall fl || negb (c =? c_nl)%N) st with
            | Some st' => k st' | None => None end
  | RSet neg items => match step1 (set_has fl neg items) st with
                      | Some st' => k st' | None => None end
  | RSeq a b => mtch fl a (mtch fl b k) st
  | RAlt a b => orelse (mtch fl a k st) (mtch fl b k st)
  | RRep greedy min max a =>
      rep_loop (mtch fl a) greedy min max k (min + length (after st) + 2) 0 None st
  | RGroup n a => mtch fl a (fun st' => k (set_cap n (pos st) st')) st
  | RBackref n =>
      match get_cap n (caps st) with
      | None => None
      | Some sp =>
          let t := subtext st sp in
          if forallb (fun '(c, d) => eq_char fl c d) (combine t (after st))
             && Nat.leb (length t) (length (after st))
          then k (advance (length t) st) else None
      end
  | RBol => if at_bol fl st then k st else None
  | REol => if at_eol fl st then k st else None
  | RWordB => if at_word_boundary st then k st else None
  | RLook positive a =>
      match mtch fl a Some st with
      | Some st' => if positive then k (with_caps st (caps st')) else None
      | None => if positive then None else k st
      end
  end.

(** A match object: the text, the span of the whole match, and the spans of the groups. *)
Record match_obj := MatchObj { m_text : str; m_span : nat * nat; m_caps : list (nat * (nat * nat)) }.

(** The state in front of position [p] of the text [s]. *)
Definition state_at (s : str) (p : nat) : mstate := MState (rev (take p s)) (drop p s) [].

(** Match at position [p]; with [advancing], an empty match is not accepted. *)
Definition match_here (rx : regex) (advancing : bool) (s : str) (p : nat) : option match_obj :=
  match mtch (rx_flags rx) (rx_re rx)
          (fun st => if advancing && Nat.eqb (pos st) p then None else Some st) (state_at s p) with
  | Some st => Some (MatchObj s (p, pos st) (caps st))
  | None => None
  end.

(** The first match at position [p] or after it; only [p] itself must be left when [advancing]. *)
Fixpoint search_from (n : nat) (rx : regex) (advancing : bool) (s : str) (p : nat) : option match_obj :=
  orelse (match_here rx advancing s p)
         match n with
         | O => None
         | S n' => search_from n' rx false s (S p)
         end.

Definition rx_match (rx : regex) (s : str) : option match_obj := match_here rx false s 0.
Definition rx_search (rx : regex) (s : str) : option match_obj := search_from (length s) rx false s 0.

(** [m.start(n)], [m.end(n)], [m.group(n)] *)
Definition m_group_span (m : match_obj) (n : nat) : option (nat * nat) :=
  match n with O => Some (m_span m) | S _ => get_cap n (m_caps m) end.
Definition group (m : match_obj) (n : nat) : option str :=
  match m_group_span m n with
  | Some (a, b) => Some (take (b - a) (drop a (m_text m)))
  | None => None
  end.
(** The text of a group that took part in the match. *)
Definition group_str (m : match_obj) (n : nat) : str := default [] (group m n).
Definition m_start (m : match_obj) (n : nat) : Z :=
  match m_group_span m n with Some (a, _) => Z.of_nat a | None => (-1)%Z end.
Definition m_end (m : match_obj) (n : nat) : Z :=
  match m_group_span m n with Some (_, b) => Z.of_nat b | None => (-1)%Z end.

(** All matches from left to right, as [finditer] yields them: after an empty match the next one
    must not be empty at the same place. *)
Fixpoint all_matches (fuel : nat) (rx : regex) (advancing : bool) (s : str) (p : nat) : list match_obj :=
  match fuel with
  | O => []
  | S f =>
      match search_from (length s - p) rx advancing s p with
      | None => []
      | Some m => let '(a, b) := m_span m in m :: all_matches f rx (Nat.eqb a b) s b
      end
  end.
Definition rx_finditer (rx : regex) (s : str) : list match_obj :=
  all_matches (2 * length s + 2) rx false s 0.

(** [re.findall] of a pattern with one group *)
Definition rx_findall1 (rx : regex) (s : str) : list str := map (fun m => group_str m 1) (rx_finditer rx s).

(** [re.sub] with a replacement computed from each match *)
Fixpoint stitch (rep : match_obj -> str) (ms : list match_obj) (s : str) (p : nat) : str :=
  match ms with
  | [] => drop p s
  | m :: ms' => let '(a, b) := m_span m in
                take (a - p) (drop p s) ++ rep m ++ stitch rep ms' s b
  end.
Definition rx_sub (rx : regex) (rep : match_obj -> str) (s : str) : str :=
  stitch rep (rx_finditer rx s) s 0.

(** [re.split] of a pattern without groups *)
Fixpoint pieces (ms : list match_obj) (s : str) (p : nat) : list str :=
  match ms with
  | [] => [drop p s]
  | m :: ms' => let '(a, b) := m_span m in take (a - p) (drop p s) :: pieces ms' s b
  end.
Definition rx_split (rx : regex) (s : str) : list str := pieces (rx_finditer rx s) s 0.


(** ** The meaning of a pattern *)

Inductive iter (R : mstate -> mstate -> Prop) : nat -> mstate -> mstate -> Prop :=
| iter_O st : iter R O st st
| iter_S n st st1 st2 : R st st1 -> iter R n st1 st2 -> iter R (S n) st st2.

Definition rounds_ok (min : nat) (max : option nat) (n : nat) : Prop :=
  min <= n /\ match max with Some m => n <= Nat.max min m | None => True end.

(** [sem fl r st st'] : [r] can match from [st] up to [st']. *)
Fixpoint sem (fl : flags) (r : re) (st st' : mstate) : Prop :=
  match r with
  | REmpty => st' = st
  | RChar d => step1 (fun c => eq_char fl c d) st = Some st'
  | RAny => step1 (fun c => f_dotall fl || negb (c =? c_nl)%N) st = Some st'
  | RSet neg items => step1 (set_has fl neg items) st = Some st'
  | RSeq a b => exists mid, sem fl a st mid /\ sem fl b mid st'
  | RAlt a b => sem fl a st st' \/ sem fl b st st'
  | RRep _ min max a => exists n, rounds_ok min max n /\ iter (sem fl a) n st st'
  | RGroup n a => exists mid, sem fl a st mid /\ st' = set_cap n (pos st) mid
  | RBackref n =>
      exists sp, get_cap n (caps st) = Some sp /\
      forallb (fun '(c, d) => eq_char fl c d) (combine (subtext st sp) (after st))
      && Nat.leb (length (subtext st sp)) (length (after st)) = true /\
      st' = advance (length (subtext st sp)) st
  | RBol => at_bol fl st = true /\ st' = st
  | REol => at_eol fl st = true /\ st' = st
  | RWordB => at_word_boundary st = true /\ st' = st
  | RLook true a => exists mid, sem fl a st mid /\ st' = with_caps st (caps mid)
  | RLook false a => (~ exists mid, sem fl a st mid) /\ st' = st
  end.

(** Patterns without back references; all but two of the patterns of the scripts. *)
Fixpoint no_backref (r : re) : bool :=
  match r with
  | RBackref _ => false
  | RSeq a b | RAlt a b => no_backref a && no_backref b
  | RRep _ _ _ a | RGroup _ a | RLook _ a => no_backref a
  | _ => true
  end.

(** Two states at the same place of the same text. *)
Definition same (st st' : mstate) : Prop := before st = before st' /\ after st = after st'.

(** A continuation whose success does not depend on the captured groups. *)
Definition blind (k : mstate -> option mstate) : Prop :=
  forall st st', same st st' -> k st <> None -> k st' <> None.

(** The text is never changed, and matching moves to the right. *)
Definition moves (st st' : mstate) : Prop :=
  rev (before st) ++ after st = rev (before st') ++ after st' /\ pos st <= pos st'.

Lemma same_sym st st' : same st st' -> same st' st.
Proof. by intros [? ?]. Qed.

Lemma same_trans st1 st2 st3 : same st1 st2 -> same st2 st3 -> same st1 st3.
Proof. intros [??] [??]; split; congruence. Qed.

Lemma moves_refl st : moves st st.
Proof. by split. Qed.

Lemma moves_trans st1 st2 st3 : moves st1 st2 -> moves st2 st3 -> moves st1 st3.
Proof. intros [H ?] [H' ?]; split; [by rewrite H | lia]. Qed.

Lemma moves_same st st' : moves st st' -> pos st = pos st' -> same st st'.
Proof.
  unfold pos. intros [H _] E. apply app_inj_1 in H as [H Ha]; [| by rewrite !length_rev].
  apply (f_equal (@rev N)) in H. rewrite !rev_involutive in H. by split.
Qed.

Lemma moves_after st st' : moves st st' -> length (after st') + pos st' = length (after st) + pos st.
Proof. intros [H _]. apply (f_equal length) in H. unfold pos. len_lia. Qed.

Lemma step1_moves f st st' : step1 f st = Some st' -> moves st st' /\ pos st' = S (pos st).
Proof.
  unfold step1. intros H. destruct (after st) as [|c rest] eqn:E; [done|].
  destruct (f c); [|done]. injection H as <-. unfold moves, pos. simpl.
  rewrite E, <- app_assoc. simpl. split; [split; [done | lia] | done].
Qed.

Lemma step1_same f st1 st2 st1' :
  same st1 st2 -> step1 f st1 = Some st1' -> exists st2', step1 f st2 = Some st2' /\ same st1' st2'.
Proof.
  unfold step1, same. intros [Hb Ha]. rewrite <- Ha, <- Hb.
  destruct (after st1) as [|c rest]; [done|]. destruct (f c); [|done].
  intros H; injection H as <-. eexists. split; [done|]. done.
Qed.

Lemma advance_moves n st : moves st (advance n st).
Proof.
  revert st. induction n as [|n IH]; intros st; simpl; [apply moves_refl|].
  destruct (after st) as [|c rest] eqn:E; [apply moves_refl|].
  eapply moves_trans; [|apply IH]. unfold moves, pos. simpl. rewrite E, <- app_assoc. simpl.
  split; [done | lia].
Qed.

Lemma iter_moves R n st st' :
  (forall a b, R a b -> moves a b) -> iter R n st st' -> moves st st'.
Proof. intros HR. induction 1; eauto using moves_refl, moves_trans. Qed.

Lemma sem_moves fl r st st' : sem fl r st st' -> moves st st'.
Proof.
  revert st st'. induction r; simpl; intros st st' H;
    try (subst; apply moves_refl); try (by eapply step1_moves);
    try (destruct H as [_ ->]; apply moves_refl).
  - destruct H as (mid & H1 & H2). eauto using moves_trans.
  - destruct H as [H|H]; eauto.
  - destruct H as (n & _ & H). eauto using iter_moves.
  - destruct H as (mid & H & ->). by apply IHr in H.
  - destruct H as (sp & _ & _ & ->). apply advance_moves.
  - destruct positive; [destruct H as (mid & _ & ->) | destruct H as [_ ->]]; by split.
Qed.

(** Where a pattern without back references can match does not depend on earlier captures. *)
Definition insensitive (R : mstate -> mstate -> Prop) : Prop :=
  forall st1 st2 st1', same st1 st2 -> R st1 st1' -> exists st2', R st2 st2' /\ same st1' st2'.

Lemma iter_insensitive R n : insensitive R -> insensitive (iter R n).
Proof.
  intros HR. induction n as [|n IH]; intros st1 st2 st1' Hs H; inversion H; subst.
  - exists st2. split; [constructor | done].
  - edestruct HR as (mid & Hm & Hs'); [done..|].
    edestruct IH as (st2' & Hi & Hs''); [done..|]. exists st2'. split; [by econstructor | done].
Qed.

Lemma at_bol_same fl st1 st2 : same st1 st2 -> at_bol fl st1 = at_bol fl st2.
Proof. unfold at_bol. by intros [-> _]. Qed.

Lemma at_eol_same fl st1 st2 : same st1 st2 -> at_eol fl st1 = at_eol fl st2.
Proof. unfold at_eol. by intros [_ ->]. Qed.

Lemma at_wb_same st1 st2 : same st1 st2 -> at_word_boundary st1 = at_word_boundary st2.
Proof. unfold at_word_boundary. by intros [-> ->]. Qed.

Lemma pos_same st1 st2 : same st1 st2 -> pos st1 = pos st2.
Proof. unfold pos. by intros [-> _]. Qed.

Lemma sem_insensitive fl r : no_backref r = true -> insensitive (sem fl r).
Proof.
  induction r; simpl; intros Hn st1 st2 st1' Hs H; bool_facts; subst; eauto using step1_same.
  - destruct H as (mid & Ha & Hb). edestruct IHr1 as (m2 & ? & ?); [done..|].
    edestruct IHr2 as (m3 & ? & ?); [done..|]. eauto.
  - destruct H as [H|H]; [edestruct IHr1 as (m2 & ? & ?) | edestruct IHr2 as (m2 & ? & ?)]; eauto.
  - destruct H as (n & Hr & Hi). edestruct (iter_insensitive (sem fl r) n) as (m2 & ? & ?); eauto.
  - destruct H as (mid & Ha & ->). edestruct IHr as (m2 & ? & ?); [done..|]. eexists. split; eauto.
  - done.
  - destruct H as [H ->]. rewrite (at_bol_same _ _ _ Hs) in H. eauto.
  - destruct H as [H ->]. rewrite (at_eol_same _ _ _ Hs) in H. eauto.
  - destruct H as [H ->]. rewrite (at_wb_same _ _ Hs) in H. eauto.
  - destruct positive.
    + destruct H as (mid & Ha & ->). edestruct IHr as (m2 & ? & ?); [done..|]. eexists. split; eauto.
    + destruct H as [H ->]. exists st2. repeat split; try apply Hs. intros (mid & Hm). apply H.
      edestruct IHr as (m2 & ? & ?); [done | apply same_sym, Hs | done |]. eauto.
Qed.

(** *** The matcher agrees with the meaning *)

Lemma orelse_some {A} (o p : option A) : orelse o p <> None <-> o <> None \/ p <> None.
Proof. destruct o; simpl; split; intros H; [by left | done | by right | by destruct H]. Qed.

Lemma orelse_eq {A} (o p : option A) x : orelse o p = Some x -> o = Some x \/ p = Some x.
Proof. destruct o; simpl; tauto. Qed.

Section Repetition.
Context (R : mstate -> mstate -> Prop) (body : (mstate -> option mstate) -> mstate -> option mstate).
Context (greedy : bool) (min : nat) (max : option nat).

Hypothesis body_sound : forall k st o, body k st = Some o -> exists st', R st st' /\ k st' = Some o.

Lemma rep_loop_sound k rounds cnt last st o :
  match max with Some m => cnt <= Nat.max min m | None => True end ->
  rep_loop body greedy min max k rounds cnt last st = Some o ->
  exists n st', rounds_ok min max (cnt + n) /\ iter R n st st' /\ k st' = Some o.
Proof.
  revert cnt last st. induction rounds as [|rounds IH]; intros cnt last st Hc H; simpl in H; [done|].
  assert (Hround : forall last', match max with Some m => S cnt <= Nat.max min m | None => True end ->
            body (rep_loop body greedy min max k rounds (S cnt) last') st = Some o ->
            exists n st', rounds_ok min max (cnt + n) /\ iter R n st st' /\ k st' = Some o).
  { intros last' Hc' (st1 & HR & H1)%body_sound. apply IH in H1 as (n & st' & Hr & Hi & Hk); [|done].
    exists (S n), st'. rewrite Nat.add_succ_r. split; [done|]. split; [by econstructor | done]. }
  destruct (Nat.ltb_spec cnt min) as [Hlt|Hge].
  { eapply Hround; [|done]. destruct max; [lia | done]. }
  assert (Hstop : k st = Some o -> exists n st', rounds_ok min max (cnt + n) /\ iter R n st st' /\ k st' = Some o).
  { intros Hk. exists 0, st. rewrite Nat.add_0_r. repeat split; try done. constructor. }
  match type of H with context [if ?b then body _ _ else None] => destruct b eqn:Hb end.
  - assert (match max with Some m => S cnt <= Nat.max min m | None => True end).
    { apply andb_true_iff in Hb as [Hb _]. destruct max; [apply Nat.ltb_lt in Hb; lia | done]. }
    destruct greedy; apply orelse_eq in H as [H|H]; eauto.
  - destruct greedy; apply orelse_eq in H as [H|H]; done || eauto.
Qed.

Hypothesis body_complete : forall k st st', blind k -> R st st' -> k st' <> None -> body k st <> None.
Hypothesis body_blind : forall k, blind k -> blind (body k).
Hypothesis R_moves : forall st st', R st st' -> moves st st'.
Hypothesis R_insensitive : insensitive R.

Lemma rep_loop_blind k rounds cnt last :
  blind k -> blind (rep_loop body greedy min max k rounds cnt last).
Proof.
  intros Hk. revert cnt last. induction rounds as [|rounds IH]; intros cnt last st st' Hs; simpl; [done|].
  rewrite (pos_same _ _ Hs). destruct (cnt <? min)%nat; [by apply body_blind|].
  destruct greedy; rewrite !orelse_some; intros [H|H];
    [left | right; by eapply Hk | left; by eapply Hk | right];
    (split_if; [eapply body_blind; [apply IH | exact Hs | exact H] | done]).
Qed.

Lemma rep_loop_complete k n st st' :
  blind k -> iter R n st st' -> k st' <> None ->
  forall rounds cnt last,
  (min - cnt) + length (after st) + 2 <= rounds ->
  rounds_ok min max (cnt + n) ->
  (forall p, last = Some p -> p < pos st) ->
  rep_loop body greedy min max k rounds cnt last st <> None.
Proof.
  intros Hk. revert st st'. induction n as [|n IH]; intros st st' Hi Hk' rounds cnt last Hf Hr Hl;
    inversion Hi as [|? ? st1 ? HR Hi']; subst; (destruct rounds as [|rounds]; [lia|]); simpl.
  - destruct (Nat.ltb_spec cnt min) as [Hlt|Hge]; [destruct Hr; lia|].
    destruct greedy; rewrite orelse_some; tauto.
  - assert (Hm := R_moves _ _ HR). assert (Ha := moves_after _ _ Hm). destruct Hm as [Ht Hp].
    destruct (Nat.ltb_spec cnt min) as [Hlt|Hge].
    { eapply body_complete; [by apply rep_loop_blind | exact HR |].
      eapply IH; [done | done | lia | by rewrite Nat.add_succ_l, <- Nat.add_succ_r |].
      intros p Hlp. specialize (Hl p Hlp). lia. }
    destruct (decide (pos st = pos st1)) as [E|NE].
    { destruct (iter_insensitive R n R_insensitive st1 st st') as (st2 & Hi2 & Hs2);
        [by apply same_sym, moves_same | done |].
      assert (rounds_ok min max (cnt + n)) as Hr'.
      { destruct Hr as [? Hr]. split; [lia|]. destruct max; [lia | done]. }
      assert (k st2 <> None) as Hk2 by (by eapply Hk).
      pose proof (IH st st2 Hi2 Hk2 (S rounds) cnt last Hf Hr' Hl) as HH.
      simpl in HH. by destruct (Nat.ltb_spec cnt min); [lia|]. }
    assert (last <> Some (pos st)) as Hne by (intros ->; specialize (Hl _ eq_refl); lia).
    match goal with |- context [if ?b then body _ _ else None] => assert (b = true) as -> end.
    { rewrite bool_decide_eq_false_2 by done. simpl. rewrite andb_true_r.
      destruct Hr as [_ Hr]. destruct max; [apply Nat.ltb_lt; lia | done]. }
    assert (body (rep_loop body greedy min max k rounds (S cnt) (Some (pos st))) st <> None).
    { eapply body_complete; [by apply rep_loop_blind | exact HR |].
      eapply IH; [done | done | lia | by rewrite Nat.add_succ_l, <- Nat.add_succ_r |].
      intros p [= <-]. lia. }
    destruct greedy; rewrite orelse_some; tauto.
Qed.

End Repetition.

Definition sound_at (fl : flags) (r : re) : Prop :=
  forall k st o, mtch fl r k st = Some o -> exists st', sem fl r st st' /\ k st' = Some o.
Definition complete_at (fl : flags) (r : re) : Prop :=
  forall k st st', blind k -> sem fl r st st' -> k st' <> None -> mtch fl r k st <> None.

Lemma blind_some : blind Some.
Proof. by intros st st' _ _. Qed.

Lemma mtch_blind fl r k : no_backref r = true -> blind k -> blind (mtch fl r k).
Proof.
  revert k. induction r; simpl; intros k Hn Hk st st' Hs; bool_facts;
    try (by apply Hk);
    try (intros H; destruct (step1 _ st) as [s1|] eqn:E; [|done];
         destruct (step1_same _ _ _ _ Hs E) as (s2 & -> & Hs2); by eapply Hk).
  - apply IHr1; auto.
  - rewrite !orelse_some. intros [Hx|Hx]; [left; eapply IHr1 | right; eapply IHr2]; eauto.
  - replace (length (after st')) with (length (after st)) by (by destruct Hs as [_ ->]).
    apply rep_loop_blind; eauto.
  - rewrite (pos_same _ _ Hs). apply IHr; auto.
    intros s1 s2 Hs'. unfold set_cap. rewrite (pos_same _ _ Hs'). by apply Hk.
  - done.
  - rewrite (at_bol_same _ _ _ Hs). destruct (at_bol fl st'); [by apply Hk | done].
  - rewrite (at_eol_same _ _ _ Hs). destruct (at_eol fl st'); [by apply Hk | done].
  - rewrite (at_wb_same _ _ Hs). destruct (at_word_boundary st'); [by apply Hk | done].
  - pose proof (IHr Some Hn blind_some st st' Hs) as H1.
    pose proof (IHr Some Hn blind_some st' st (same_sym _ _ Hs)) as H2.
    destruct (mtch fl r Some st) as [m1|], (mtch fl r Some st') as [m2|]; destruct positive;
      try done; try (by apply Hk); try (by destruct H1); try (by destruct H2).
Qed.

Lemma mtch_char_sound f (k : mstate -> option mstate) st o :
  match step1 f st with Some st' => k st' | None => None end = Some o ->
  exists st', step1 f st = Some st' /\ k st' = Some o.
Proof. destruct (step1 f st); [eauto | done]. Qed.

Lemma mtch_correct fl r : no_backref r = true -> sound_at fl r /\ complete_at fl r.
Proof.
  unfold sound_at, complete_at.
  induction r; simpl; intros Hn; bool_facts;
    try (destruct (IHr Hn) as [IHs IHc]); try (destruct IHr1 as [IHs1 IHc1], IHr2 as [IHs2 IHc2]; [done..|]);
    (split; [intros k st o | intros k st st' Hb]); try (by apply mtch_char_sound);
    try (intros Hx ?; by rewrite Hx).
  - eauto.
  - by intros ->.
  - intros (st1 & H1 & (st2 & H2 & H3)%IHs2)%IHs1. eauto.
  - intros (mid & H1 & H2) Hk. eauto using mtch_blind.
  - intros [(st' & ? & ?)%IHs1 | (st' & ? & ?)%IHs2]%orelse_eq; eauto.
  - rewrite orelse_some. intros [Hx|Hx] Hk; eauto.
  - intros Ho. eapply (rep_loop_sound (sem fl r)) in Ho as (n & st' & ? & ? & ?); [eauto | done |].
    destruct max; [lia | done].
  - intros (n & Hr & Hi) Hk. eapply (rep_loop_complete (sem fl r)); eauto using mtch_blind, sem_moves, sem_insensitive; try done; lia.
  - intros (st' & ? & ?)%IHs. eauto.
  - intros (mid & H1 & ->) Hk. eapply IHc; [|done|done].
    intros s1 s2 Hs'. unfold set_cap. rewrite (pos_same _ _ Hs'). by apply Hb.
  - done.
  - done.
  - destruct (at_bol fl st); [eauto | done].
  - by intros [-> ->].
  - destruct (at_eol fl st); [eauto | done].
  - by intros [-> ->].
  - destruct (at_word_boundary st); [eauto | done].
  - by intros [-> ->].
  - destruct positive, (mtch fl r Some st) as [mid|] eqn:E; try done; intros Ho.
    + apply IHs in E as (st' & ? & [= ->]). eauto.
    + exists st. repeat split; [|done]. intros (mid & Hm). by eapply (IHc Some st mid blind_some) in Hm.
  - destruct positive.
    + intros (mid & Hm & ->) Hk. assert (mtch fl r Some st <> None) as Hne by eauto using blind_some.
      destruct (mtch fl r Some st) as [s1|]; [|done].
      by apply (Hb (with_caps st (caps mid))).
    + intros [Hm ->] Hk. destruct (mtch fl r Some st) as [s1|] eqn:E; [|done].
      apply IHs in E as (s2 & ? & _). destruct Hm. eauto.
Qed.

(** *** Searching *)

Lemma match_here_iff rx s p :
  no_backref (rx_re rx) = true ->
  match_here rx false s p <> None <-> exists st', sem (rx_flags rx) (rx_re rx) (state_at s p) st'.
Proof.
  intros Hn. destruct (mtch_correct (rx_flags rx) _ Hn) as [Hs Hc]. unfold match_here.
  destruct (mtch _ _ _ _) as [st|] eqn:E; split; try done.
  - intros _. apply Hs in E as (st' & ? & _). eauto.
  - intros (st' & Hm). exfalso. apply (Hc (fun st => Some st) _ _ blind_some Hm); [done | exact E].
Qed.

Lemma search_from_iff n rx s p :
  no_backref (rx_re rx) = true ->
  search_from n rx false s p <> None <->
  exists q st', p <= q <= p + n /\ sem (rx_flags rx) (rx_re rx) (state_at s q) st'.
Proof.
  intros Hn. revert p. induction n as [|n IH]; intros p; simpl; rewrite orelse_some, match_here_iff by done.
  - split.
    + intros [(st' & H)|?]; [|done]. exists p, st'. split; [lia | done].
    + intros (q & st' & ? & H). left. exists st'. by replace p with q by lia.
  - rewrite IH. split.
    + intros [(st' & H) | (q & st' & ? & H)]; [exists p, st' | exists q, st']; (split; [lia | done]).
    + intros (q & st' & ? & H). destruct (decide (q = p)) as [->|]; [left; eauto|].
      right. exists q, st'. split; [lia | done].
Qed.

Lemma rx_match_iff rx s :
  no_backref (rx_re rx) = true ->
  rx_match rx s <> None <-> exists st', sem (rx_flags rx) (rx_re rx) (state_at s 0) st'.
Proof. apply match_here_iff. Qed.

Lemma rx_search_iff rx s :
  no_backref (rx_re rx) = true ->
  rx_search rx s <> None <->
  exists q st', q <= length s /\ sem (rx_flags rx) (rx_re rx) (state_at s q) st'.
Proof.
  intros Hn. unfold rx_search. rewrite search_from_iff by done.
  split; intros (q & st' & ? & ?); exists q, st'; (split; [lia | done]).
Qed.

(** A match object describes a way the pattern can match. *)
Lemma match_here_sound rx adv s p m :
  no_backref (rx_re rx) = true -> match_here rx adv s p = Some m ->
  exists st', sem (rx_flags rx) (rx_re rx) (state_at s p) st' /\ m = MatchObj s (p, pos st') (caps st').
Proof.
  intros Hn. unfold match_here. destruct (mtch _ _ _ _) as [st|] eqn:E; [|done]. intros [= <-].
  apply (mtch_correct (rx_flags rx) _ Hn) in E as (st' & ? & Hk). destruct (adv && _); [done|]. injection Hk as ->. eauto.
Qed.

Lemma search_from_sound n rx adv s p m :
  no_backref (rx_re rx) = true -> search_from n rx adv s p = Some m ->
  exists q st', p <= q <= p + n /\ sem (rx_flags rx) (rx_re rx) (state_at s q) st' /\
                m = MatchObj s (q, pos st') (caps st').
Proof.
  intros Hn. revert adv p. induction n as [|n IH]; intros adv p; simpl; intros [H|H]%orelse_eq; try done.
  - apply match_here_sound in H as (st' & ? & ?); [|done]. exists p, st'. split; [lia | done].
  - apply match_here_sound in H as (st' & ? & ?); [|done]. exists p, st'. split; [lia | done].
  - apply IH in H as (q & st' & ? & ?). exists q, st'. split; [lia | done].
Qed.

(** *** What groups capture

    A captured text is always one that the pattern inside the group can match. *)

Definition text (st : mstate) : str := rev (before st) ++ after st.

(** [r] can match the text [w], somewhere. *)
Definition spells (fl : flags) (r : re) (w : str) : Prop :=
  exists s1 s2, sem fl r s1 s2 /\ after s1 = w ++ after s2.

(** The patterns inside the group with number [n]. *)
Fixpoint group_bodies (n : nat) (r : re) : list re :=
  match r with
  | RSeq a b | RAlt a b => group_bodies n a ++ group_bodies n b
  | RRep _ _ _ a | RLook _ a => group_bodies n a
  | RGroup m a => (if Nat.eqb n m then [a] else []) ++ group_bodies n a
  | _ => []
  end.

Definition captured (fl : flags) (n : nat) (r : re) (st st' : mstate) : Prop :=
  get_cap n (caps st') = get_cap n (caps st) \/
  exists b s1 s2, b ∈ group_bodies n r /\ text s1 = text st /\ sem fl b s1 s2 /\
                  get_cap n (caps st') = Some (pos s1, pos s2).

Lemma moves_text st st' : moves st st' -> text st = text st'.
Proof. by intros [H _]. Qed.

Lemma advance_caps n st : caps (advance n st) = caps st.
Proof. revert st. induction n as [|n IH]; intros st; simpl; [done|]. destruct (after st); [done|]. by rewrite IH. Qed.

Lemma step1_caps f st st' : step1 f st = Some st' -> caps st' = caps st.
Proof. unfold step1. destruct (after st) as [|c rest]; [done|]. destruct (f c); [|done]. by intros [= <-]. Qed.

Lemma captured_mono fl n r r' st st' :
  group_bodies n r ⊆ group_bodies n r' -> captured fl n r st st' -> captured fl n r' st st'.
Proof. intros Hs [H|(b & s1 & s2 & Hb & H)]; [by left | right; exists b, s1, s2; split; [by apply Hs | done]]. Qed.

Lemma captured_trans fl n r st1 st2 st3 :
  text st1 = text st2 -> captured fl n r st1 st2 -> captured fl n r st2 st3 -> captured fl n r st1 st3.
Proof.
  intros Ht H12 [H|(b & s1 & s2 & Hb & Ht' & H)].
  - destruct H12 as [H12|(b & s1 & s2 & Hb & Ht' & Hs & H12)];
      [left; congruence | right; exists b, s1, s2; repeat split; try done; congruence].
  - right. exists b, s1, s2. repeat split; try done; [congruence | apply H | apply H].
Qed.

Lemma sem_captured fl n r st st' : sem fl r st st' -> captured fl n r st st'.
Proof.
  revert st st'. induction r; simpl; intros st st' H; try (subst; by left);
    try (left; by apply step1_caps in H as ->); try (destruct H as [_ ->]; by left).
  - destruct H as (mid & H1 & H2). apply (captured_trans _ _ _ _ mid).
    + eapply moves_text, sem_moves; eauto.
    + eapply captured_mono, IHr1, H1. intros x; simpl; set_solver.
    + eapply captured_mono, IHr2, H2. intros x; simpl; set_solver.
  - destruct H as [H|H]; [eapply captured_mono, IHr1, H | eapply captured_mono, IHr2, H]; intros x; simpl; set_solver.
  - destruct H as (k & _ & Hi). apply (captured_mono fl n r); [done|].
    induction Hi as [|k s1 s2 s3 HR Hi IH]; [by left|].
    apply (captured_trans _ _ _ _ s2); [eapply moves_text, sem_moves; eauto | by apply IHr | done].
  - destruct H as (mid & H & ->). destruct (Nat.eqb_spec n n0) as [->|Hne].
    + right. exists r, st, mid. simpl. rewrite Nat.eqb_refl. split; [set_solver | done].
    + apply IHr, (captured_mono fl n r (RGroup n0 r)) in H; [|intros x; simpl; set_solver].
      apply Nat.eqb_neq in Hne. unfold captured, set_cap in *.
      cbn [with_caps caps get_cap]. rewrite Hne. exact H.
  - destruct H as (sp & _ & _ & ->). left. by rewrite advance_caps.
  - destruct positive; [|destruct H as [_ ->]; by left]. destruct H as (mid & H & ->).
    apply IHr in H. by eapply (captured_mono fl n r).
Qed.

Lemma sem_spells_at fl r s1 s2 : sem fl r s1 s2 -> exists w, after s1 = w ++ after s2 /\ length w = pos s2 - pos s1 /\
  w = take (pos s2 - pos s1) (drop (pos s1) (text s1)).
Proof.
  intros H. apply sem_moves in H as [Ht Hp]. unfold pos, text in *.
  assert (Hl := f_equal length Ht). rewrite !length_app, !length_rev in Hl.
  rewrite drop_app_length' by (by rewrite length_rev).
  exists (take (length (before s2) - length (before s1)) (after s1)). split; [|split; [rewrite length_take; lia | done]].
  rewrite <- (take_drop (length (before s2) - length (before s1)) (after s1)) at 1. f_equal.
  apply (f_equal (drop (length (before s2)))) in Ht.
  rewrite drop_app_ge in Ht by (rewrite length_rev; lia).
  rewrite drop_app_length' in Ht by (by rewrite length_rev). by rewrite length_rev in Ht.
Qed.

(** The text of a group of a match object. *)
Lemma group_spells rx s q st' n a :
  q <= length s -> sem (rx_flags rx) (rx_re rx) (state_at s q) st' ->
  group (MatchObj s (q, pos st') (caps st')) (S n) = Some a ->
  exists b, b ∈ group_bodies (S n) (rx_re rx) /\ spells (rx_flags rx) b a.
Proof.
  intros Hq Hs Hg. unfold group, m_group_span in Hg. simpl m_caps in Hg.
  destruct (get_cap (S n) (caps st')) as [[x y]|] eqn:E; [|done]. injection Hg as <-.
  apply (sem_captured _ (S n)) in Hs as [Hs|(b & s1 & s2 & Hb & Ht & Hs & Hc)]; [by rewrite Hs in E|].
  exists b. split; [done|]. rewrite E in Hc. injection Hc as -> ->.
  destruct (sem_spells_at _ _ _ _ Hs) as (w & Hw & _ & Ew).
  exists s1, s2. split; [done|]. rewrite Hw. f_equal. rewrite Ew, Ht. unfold text, state_at. simpl.
  by rewrite rev_involutive, take_drop.
Qed.

Lemma spells_seq fl a b w : spells fl (RSeq a b) w -> exists u v, w = u ++ v /\ spells fl a u /\ spells fl b v.
Proof.
  intros (s1 & s3 & (s2 & H1 & H2) & Hw).
  destruct (sem_spells_at _ _ _ _ H1) as (u & Hu & _). destruct (sem_spells_at _ _ _ _ H2) as (v & Hv & _).
  exists u, v. split; [|split; [by exists s1, s2 | by exists s2, s3]].
  rewrite Hu, Hv, app_assoc in Hw. by apply app_inv_tail in Hw.
Qed.

Lemma spells_empty fl w : spells fl REmpty w -> w = [].
Proof.
  intros (s1 & s2 & -> & Hw). apply (f_equal length) in Hw. rewrite length_app in Hw.
  destruct w; [done | simpl in Hw; lia].
Qed.

Lemma spells_one fl r f w : one_char fl r = Some f -> spells fl r w -> exists c, w = [c] /\ f c = true.
Proof.
  intros Hf (s1 & s2 & Hs & Hw).
  assert (step1 f s1 = Some s2) as H1 by (destruct r; simpl in Hf; try done; by injection Hf as <-).
  unfold step1 in H1. destruct (after s1) as [|c rest] eqn:E; [done|]. destruct (f c) eqn:Ec; [|done].
  injection H1 as <-. simpl in Hw. exists c. split; [|done].
  apply (app_inv_tail rest). by rewrite <- Hw.
Qed.

Lemma spells_rep fl g min max r w :
  spells fl (RRep g min max r) w ->
  exists ws, w = concat ws /\ Forall (spells fl r) ws /\ rounds_ok min max (length ws).
Proof.
  intros (s1 & s2 & (n & Hr & Hi) & Hw). revert w Hw.
  assert (exists ws, after s1 = concat ws ++ after s2 /\ Forall (spells fl r) ws /\ length ws = n) as (ws & E & Hf & <-).
  { clear Hr. induction Hi as [|n s1 s2 s3 HR Hi (ws & E & Hf & <-)]; [by exists []|].
    destruct (sem_spells_at _ _ _ _ HR) as (u & Hu & _). exists (u :: ws). simpl. split; [|split; [|done]].
    - by rewrite Hu, E, app_assoc.
    - constructor; [by exists s1, s2 | done]. }
  intros w Hw. exists ws. split; [|done]. rewrite E in Hw. by apply app_inv_tail in Hw.
Qed.

(** The state after a match of a one-character pattern, and after running through a text. *)
Lemma state_at_0 s : state_at s 0 = MState [] s [].
Proof. by destruct s. Qed.

Lemma step1_iff f st st' :
  step1 f st = Some st' <->
  exists c rest, after st = c :: rest /\ f c = true /\ st' = MState (c :: before st) rest (caps st).
Proof.
  unfold step1. destruct (after st) as [|c rest]; [split; [done | by intros (?&?&?&_)]|].
  destruct (f c) eqn:E; split.
  - intros [= <-]. eauto.
  - by intros (? & ? & [= <- <-] & _ & ->).
  - done.
  - intros (? & ? & [= <- <-] & ? & _). congruence.
Qed.

(** Running a one-character pattern any number of times. *)
Lemma iter_class f n st st' :
  iter (fun a b => step1 f a = Some b) n st st' <->
  exists u r, after st = u ++ r /\ length u = n /\ forallb f u = true /\
              st' = MState (rev u ++ before st) r (caps st).
Proof.
  revert st. induction n as [|n IH]; intros st; split.
  - intros H; inversion H; subst. exists [], (after st'). by destruct st'.
  - intros (u & r & Ha & Hl & _ & ->). destruct u; [|done]. simpl in *. subst. destruct st; constructor.
  - intros H; inversion H as [|? ? st1 ? H1 H2]; subst. apply IH in H2 as (u & r & Ha & Hl & Hf & ->).
    apply step1_iff in H1 as (c & rest & Hc & Hfc & ->). simpl in *. subst rest.
    exists (c :: u), r. rewrite Hc. simpl. rewrite Hfc, Hf, Hl, <- app_assoc. done.
  - intros (u & r & Ha & Hl & Hf & ->). destruct u as [|c u]; [done|]. simpl in *.
    apply andb_true_iff in Hf as [Hc Hf]. apply iter_S with (MState (c :: before st) (u ++ r) (caps st)).
    + apply step1_iff. eauto.
    + apply IH. exists u, r. simpl. rewrite <- app_assoc. repeat split; [by injection Hl | done].
Qed.

(** A greedy run of a one-character pattern tries the longest run first. *)
Fixpoint greedy_run (f : N -> bool) (k : mstate -> option mstate) (b a : str)
    (c : list (nat * (nat * nat))) : option mstate :=
  match a with
  | d :: a' => if f d then orelse (greedy_run f k (d :: b) a' c) (k (MState b a c)) else k (MState b a c)
  | [] => k (MState b a c)
  end.

Lemma rep_loop_class f k rounds cnt last b a c :
  length a + 2 <= rounds -> (forall p, last = Some p -> p < length b) ->
  rep_loop (fun k st => match step1 f st with Some st' => k st' | None => None end)
    true 0 None k rounds cnt last (MState b a c) = greedy_run f k b a c.
Proof.
  revert rounds cnt last b. induction a as [|d a IH]; intros rounds cnt last b Hr Hl;
    (destruct rounds as [|rounds]; [simpl in Hr; lia|]); simpl.
  - unfold step1, pos. simpl. by destruct (negb _).
  - unfold step1, pos. simpl. rewrite bool_decide_eq_false_2; [|intros ->; specialize (Hl _ eq_refl); lia].
    simpl. destruct (f d); [|done]. rewrite IH; [done | simpl in Hr; lia |].
    intros p [= <-]. simpl. lia.
Qed.

(** If the continuation accepts after the longest run, that is the match found; if the
    continuation also needs a character the class does not have, it is the only one. *)
Lemma greedy_run_span f k b u r c :
  forallb f u = true -> match r with d :: _ => f d = false | [] => True end ->
  k (MState (rev u ++ b) r c) <> None ->
  greedy_run f k b (u ++ r) c = k (MState (rev u ++ b) r c).
Proof.
  revert b. induction u as [|d u IH]; intros b Hf Hr Hk; simpl.
  - destruct r as [|d r]; [done|]. simpl. by rewrite Hr.
  - simpl in Hf. apply andb_true_iff in Hf as [Hd Hf]. rewrite Hd.
    simpl in Hk. rewrite <- app_assoc in *. rewrite IH by done. simpl.
    by destruct (k _).
Qed.

Lemma greedy_run_none f k b u r c :
  forallb f u = true -> match r with d :: _ => f d = false | [] => True end ->
  (forall v w, u = v ++ w -> k (MState (rev v ++ b) (w ++ r) c) = None) ->
  greedy_run f k b (u ++ r) c = None.
Proof.
  revert b. induction u as [|d u IH]; intros b Hf Hr Hk; simpl.
  - specialize (Hk [] [] eq_refl). simpl in Hk. destruct r as [|d r]; [done|]. simpl. by rewrite Hr.
  - simpl in Hf. apply andb_true_iff in Hf as [Hd Hf]. rewrite Hd.
    rewrite IH; [by apply (Hk [] (d :: u)) | done | done |].
    intros v w ->. specialize (Hk (d :: v) w eq_refl). simpl in Hk. by rewrite <- app_assoc in Hk.
Qed.

(** Every text is a run of characters with a property followed by one without. *)
Lemma span_ex (f : N -> bool) (s : str) :
  exists u r, s = u ++ r /\ forallb f u = true /\ match r with d :: _ => f d = false | [] => True end.
Proof.
  induction s as [|d s (u & r & -> & Hu & Hr)]; [by exists [], []|].
  destruct (f d) eqn:E.
  - exists (d :: u), r. simpl. by rewrite E.
  - by exists [], (d :: u ++ r).
Qed.

(** ** Characters a match cannot do without *)

(** The least number of characters a pattern consumes. *)
Fixpoint min_len (r : re) : nat :=
  match r with
  | RChar _ | RAny | RSet _ _ => 1
  | RSeq a b => min_len a + min_len b
  | RAlt a b => Nat.min (min_len a) (min_len b)
  | RRep _ min _ a => min * min_len a
  | RGroup _ a => min_len a
  | _ => 0
  end.

Lemma sem_min_len fl r st st' : sem fl r st st' -> pos st + min_len r <= pos st'.
Proof.
  revert st st'. induction r; simpl; intros st st' H;
    try (apply step1_moves in H as [_ ?]; lia); try (subst; lia);
    try (destruct H as [_ ->]; lia).
  - destruct H as (mid & H1%IHr1 & H2%IHr2). lia.
  - destruct H as [H%IHr1|H%IHr2]; lia.
  - destruct H as (k & [Hk _] & Hi).
    assert (pos st + k * min_len r <= pos st') as Hp; [|assert (min * min_len r <= k * min_len r) by (by apply Nat.mul_le_mono_r); lia].
    clear Hk. induction Hi as [|k s1 s2 s3 HR Hi IH]; [lia|]. apply IHr in HR. simpl. lia.
  - destruct H as (mid & H%IHr & ->). unfold set_cap, pos in *. simpl in *. lia.
  - destruct H as (sp & _ & _ & ->). destruct (advance_moves (length (subtext st sp)) st). lia.
  - destruct positive; [|destruct H as [_ ->]; lia]. destruct H as (mid & _ & ->). unfold with_caps, pos. simpl. lia.
Qed.

Lemma spells_min_len fl r w : spells fl r w -> min_len r <= length w.
Proof.
  intros (s1 & s2 & H & Hw). apply sem_min_len in H as Hl. apply sem_moves in H as [Ht _].
  apply (f_equal length) in Ht, Hw. unfold pos in Hl. rewrite !length_app, !length_rev in Ht.
  rewrite length_app in Hw. lia.
Qed.

(** A character that every match of a pattern consumes. *)
Fixpoint needs (c : N) (r : re) : bool :=
  match r with
  | RChar d => (c =? d)%N
  | RSeq a b => needs c a || needs c b
  | RAlt a b => needs c a && needs c b
  | RRep _ (S _) _ a => needs c a
  | RGroup _ a => needs c a
  | _ => false
  end.

Lemma sem_needs fl c r st st' :
  f_icase fl = false -> needs c r = true -> sem fl r st st' -> c ∈ after st.
Proof.
  intros Hfl. revert st st'. induction r; simpl; intros st st' Hn H; try done.
  - apply N.eqb_eq in Hn as <-. apply step1_iff in H as (d & rest & -> & E & _).
    unfold eq_char in E. rewrite Hfl in E. apply N.eqb_eq in E as ->. left.
  - destruct H as (mid & H1 & H2). apply orb_true_iff in Hn as [Hn|Hn]; [by eapply IHr1|].
    destruct (sem_spells_at _ _ _ _ H1) as (w & -> & _). apply elem_of_app. right. by eapply IHr2.
  - apply andb_true_iff in Hn as [Ha Hb]. destruct H; eauto.
  - destruct min as [|min]; [done|]. destruct H as (k & [Hk _] & Hi). inversion Hi; subst; [lia | eauto].
  - destruct H as (mid & H & _). eauto.
Qed.

(** A text without such a character is not matched anywhere. *)
Lemma match_here_needs c rx s p :
  no_backref (rx_re rx) = true -> f_icase (rx_flags rx) = false -> needs c (rx_re rx) = true ->
  c ∉ s -> match_here rx false s p = None.
Proof.
  intros Hb Hf Hn Hc. destruct (match_here rx false s p) as [m|] eqn:E; [|done].
  apply match_here_sound in E as (st' & Hs & _); [|done].
  apply (sem_needs _ c) in Hs; [|done|done]. simpl in Hs. exfalso. apply Hc. rewrite <- (take_drop p s).
  apply elem_of_app. by right.
Qed.

Lemma search_from_needs c n rx s p :
  no_backref (rx_re rx) = true -> f_icase (rx_flags rx) = false -> needs c (rx_re rx) = true ->
  c ∉ s -> search_from n rx false s p = None.
Proof.
  intros Hb Hf Hn Hc. revert p. induction n as [|n IH]; intros p; simpl; by rewrite ?IH, (match_here_needs c).
Qed.

Lemma rx_sub_needs c rx rep s :
  no_backref (rx_re rx) = true -> f_icase (rx_flags rx) = false -> needs c (rx_re rx) = true ->
  c ∉ s -> rx_sub rx rep s = s.
Proof.
  intros Hb Hf Hn Hc. unfold rx_sub, rx_finditer.
  replace (2 * length s + 2) with (S (2 * length s + 1)) by lia. cbn [all_matches].
  by rewrite (search_from_needs c).
Qed.

(** Erasing matches leaves characters of the text only. *)
Lemma stitch_erase rep ms s p c : (forall m, rep m = []) -> c ∈ stitch rep ms s p -> c ∈ s.
Proof.
  intros Hr. revert p. induction ms as [|m ms IH]; intros p; simpl.
  - apply subseteq_drop.
  - destruct (m_span m) as [a b]. rewrite Hr, !elem_of_app. intros [H|[H|H]]; [|by apply not_elem_of_nil in H|by eapply IH].
    by eapply subseteq_drop, subseteq_take.
Qed.

End Matching.
