(* ===== verification/PyEff.v ===== *)
(** * Effects: exceptions and module state

    The functions of the scripts read and write module-level objects and raise
    exceptions.  They are translated into [M W A]: a computation over a state
    [W] that ends with a value or an exception, keeping the state reached in both
    cases, as Python does.

    [spec] is the unary program logic the components use: a precondition on the state and a
    postcondition on the outcome and the state reached. *)

From S2P Require Import Prelude PyStr.

Inductive exn : Set :=
| IndexError
| KeyError
| AttributeError
| NameError
| AssertionError
| IOError
| ValueError (msg : str)
| ReError                 (* what compiling a pattern raises: re.error, or OverflowError for a repetition that is too large *)
| SystemExit (code : Z)
| UnicodeDecodeError
| OutOfFuel.

Inductive result (A : Type) : Type :=
| Ok (a : A)
| Raise (e : exn).
Arguments Ok {A} a.
Arguments Raise {A} e.

Definition M (W A : Type) : Type := W -> result A * W.

Section Ops.
Context {W : Type}.

Definition ret {A} (a : A) : M W A := fun w => (Ok a, w).
Definition raise {A} (e : exn) : M W A := fun w => (Raise e, w).
Definition bind {A B} (m : M W A) (f : A -> M W B) : M W B :=
  fun w => match m w with
           | (Ok a, w') => f a w'
           | (Raise e, w') => (Raise e, w')
           end.
Definition get : M W W := fun w => (Ok w, w).
Definition gets {A} (f : W -> A) : M W A := fun w => (Ok (f w), w).
Definition modify (f : W -> W) : M W unit := fun w => (Ok tt, f w).
Definition when (b : bool) (m : M W unit) : M W unit := if b then m else ret tt.

(** A value that is missing where Python would raise. *)
Definition or_raise {A} (e : exn) (o : option A) : M W A :=
  match o with Some a => ret a | None => raise e end.

(** [for x in l: f(x)] *)
Fixpoint for_each {A} (l : list A) (f : A -> M W unit) : M W unit :=
  match l with
  | [] => ret tt
  | x :: l' => bind (f x) (fun _ => for_each l' f)
  end.

(** [for x in l] with a variable carried from one round to the next *)
Fixpoint fold_m {A B} (f : B -> A -> M W B) (l : list A) (b : B) : M W B :=
  match l with
  | [] => ret b
  | x :: l' => bind (f b x) (fun b' => fold_m f l' b')
  end.

(** [try: m except: h] *)
Definition catch {A} (m : M W A) (h : exn -> M W A) : M W A :=
  fun w => match m w with
           | (Ok a, w') => (Ok a, w')
           | (Raise e, w') => h e w'
           end.

End Ops.

Declare Scope eff_scope.
Delimit Scope eff_scope with eff.
Notation "x <- m ;; k" := (bind m (fun x => k)) (at level 100, m at next level, right associativity,
  format "'[v' x  <-  m ;; '/' k ']'") : eff_scope.
Notation "m ;; k" := (bind m (fun _ => k)) (at level 100, right associativity,
  format "'[v' m ;; '/' k ']'") : eff_scope.
Open Scope eff_scope.

(** ** Specifications *)

Section Spec.
Context {W : Type}.

Definition spec {A} (P : W -> Prop) (m : M W A) (Q : result A -> W -> Prop) : Prop :=
  forall w, P w -> Q (fst (m w)) (snd (m w)).

(** A computation that keeps a property of the state, whatever it returns or raises. *)
Definition keeps {A} (I : W -> Prop) (m : M W A) : Prop := spec I m (fun _ w => I w).

(** A computation that ends normally and leaves the state alone. *)
Definition pure_with {A} (m : M W A) (a : A) : Prop := forall w, m w = (Ok a, w).

Lemma keeps_ret {A} I (a : A) : keeps I (ret a).
Proof. by intros w Hw. Qed.

Lemma keeps_raise {A} I e : keeps I (raise (A := A) e).
Proof. by intros w Hw. Qed.

Lemma keeps_bind {A B} I (m : M W A) (f : A -> M W B) :
  keeps I m -> (forall a, keeps I (f a)) -> keeps I (bind m f).
Proof.
  intros Hm Hf w Hw. specialize (Hm w Hw). unfold bind. destruct (m w) as [[a|e] w']; simpl in *; [|done].
  by apply Hf.
Qed.

Lemma keeps_get I : keeps I get.
Proof. by intros w Hw. Qed.

Lemma keeps_gets {A} I (f : W -> A) : keeps I (gets f).
Proof. by intros w Hw. Qed.

Lemma keeps_modify (I : W -> Prop) f : (forall w, I w -> I (f w)) -> keeps I (modify f).
Proof. intros H w Hw. by apply H. Qed.

Lemma keeps_when I b m : keeps I m -> keeps I (when b m).
Proof. destruct b; [done | intros _; apply keeps_ret]. Qed.

Lemma keeps_or_raise {A} I e (o : option A) : keeps I (or_raise e o).
Proof. destruct o; [apply keeps_ret | apply keeps_raise]. Qed.

Lemma keeps_for_each {A} I (l : list A) f : (forall x, x ∈ l -> keeps I (f x)) -> keeps I (for_each l f).
Proof.
  induction l as [|x l IH]; intros Hf; simpl; [apply keeps_ret|].
  apply keeps_bind; [apply Hf; left | intros _; apply IH; intros y Hy; apply Hf; by right].
Qed.

Lemma keeps_fold_m {A B} I (f : B -> A -> M W B) l b :
  (forall b x, keeps I (f b x)) -> keeps I (fold_m f l b).
Proof.
  intros Hf. revert b. induction l as [|x l IH]; intros b; simpl; [apply keeps_ret|].
  apply keeps_bind; auto.
Qed.

Lemma keeps_catch {A} I (m : M W A) h :
  keeps I m -> (forall e, keeps I (h e)) -> keeps I (catch m h).
Proof.
  intros Hm Hh w Hw. specialize (Hm w Hw). unfold catch. destruct (m w) as [[a|e] w']; simpl in *; [done|].
  by apply Hh.
Qed.

(** The triple of the program logic: from a state with the invariant [I] the computation reaches a state with the invariant, with a value
    that satisfies [Q] or an exception that satisfies [E].  With an [E] that is never satisfied it says that the computation ends normally. *)
Definition runs {A} (I : W -> Prop) (E : exn -> Prop) (m : M W A) (Q : A -> Prop) : Prop :=
  spec I m (fun r w => I w /\ match r with Ok a => Q a | Raise e => E e end).

Section Rules.
Context (I : W -> Prop) (E : exn -> Prop).

Lemma runs_ret {A} (a : A) (Q : A -> Prop) : Q a -> runs I E (ret a) Q.
Proof. by intros H w Hw. Qed.

Lemma runs_raise {A} e (Q : A -> Prop) : E e -> runs I E (raise e) Q.
Proof. by intros H w Hw. Qed.

Lemma runs_bind {A B} (m : M W A) (k : A -> M W B) (Q : A -> Prop) R :
  runs I E m Q -> (forall a, Q a -> runs I E (k a) R) -> runs I E (bind m k) R.
Proof.
  intros Hm Hk w Hw. destruct (Hm w Hw) as [Hw' H]. unfold bind. destruct (m w) as [[a|e] w']; cbn [fst snd] in *; [|done].
  by apply Hk.
Qed.

Lemma runs_weaken {A} (m : M W A) (Q R : A -> Prop) : runs I E m Q -> (forall a, Q a -> R a) -> runs I E m R.
Proof. intros Hm HQ w Hw. destruct (Hm w Hw) as [? H]. split; [done|]. destruct (fst (m w)); auto. Qed.

Lemma runs_any {A} (m : M W A) (Q : A -> Prop) : runs I E m Q -> runs I E m (fun _ => True).
Proof. intros H. by eapply runs_weaken. Qed.

Lemma runs_or_raise {A} e (o : option A) (Q : A -> Prop) a : o = Some a -> Q a -> runs I E (or_raise e o) Q.
Proof. intros -> H. by apply runs_ret. Qed.

(** A value that may be missing. *)
Lemma runs_or_raise_may {A} e (o : option A) : E e -> runs I E (or_raise e o) (fun a => o = Some a).
Proof. intros He. destruct o; [by apply runs_ret | by apply runs_raise]. Qed.

(** An item of a sequence. *)
Lemma runs_index {A} e (l : list A) i :
  (- len l <= i < len l)%Z -> runs I E (or_raise e (index l i)) (fun a => index l i = Some a).
Proof. intros H. destruct (index_in l i H) as [a Ha]. rewrite Ha. by apply runs_ret. Qed.

Lemma runs_when b (m : M W unit) (Q : unit -> Prop) : runs I E m Q -> Q tt -> runs I E (when b m) Q.
Proof. intros Hm HQ. destruct b; [done | by apply runs_ret]. Qed.

Lemma runs_when_cond b (m : M W unit) : (b = true -> runs I E m (fun _ => True)) -> runs I E (when b m) (fun _ => True).
Proof. intros Hm. destruct b; [by apply Hm | by apply runs_ret]. Qed.

Lemma runs_get : runs I E get I.
Proof. by intros w Hw. Qed.

Lemma runs_gets {A} (f : W -> A) : runs I E (gets f) (fun _ => True).
Proof. by intros w Hw. Qed.

Lemma runs_modify f : (forall w, I w -> I (f w)) -> runs I E (modify f) (fun _ => True).
Proof. intros Hf w Hw. split; [by apply Hf | done]. Qed.

Lemma runs_for_each {A} (l : list A) f :
  (forall x, x ∈ l -> runs I E (f x) (fun _ => True)) -> runs I E (for_each l f) (fun _ => True).
Proof.
  induction l as [|x l IH]; intros Hf; simpl; [by apply runs_ret|].
  eapply runs_bind; [apply Hf; left|]. intros _ _. apply IH. intros y Hy. apply Hf. by right.
Qed.

Lemma runs_fold_m {A B} (f : B -> A -> M W B) (R : B -> Prop) l b :
  R b -> (forall b x, R b -> x ∈ l -> runs I E (f b x) R) -> runs I E (fold_m f l b) R.
Proof.
  revert b. induction l as [|x l IH]; intros b Hb Hf; simpl; [by apply runs_ret|].
  eapply runs_bind; [apply Hf; [done|left]|]. intros b' Hb'. apply IH; [done|]. intros b2 y H2 Hy. apply Hf; [done|by right].
Qed.

End Rules.

(** Two ways to put a triple together from separate facts. *)
Lemma runs_total {A} I E (m : M W A) (Q : A -> Prop) : (forall w, exists a, m w = (Ok a, w) /\ Q a) -> runs I E m Q.
Proof. intros H w Hw. destruct (H w) as (a & -> & Ha). done. Qed.

Lemma runs_keeps {A} I E (m : M W A) Q : runs I E m Q -> keeps I m.
Proof. intros H w Hw. apply (H w Hw). Qed.

(** The weaker triple of code that may leave the state without its invariant when it raises. *)
Definition ends {A} (I : W -> Prop) (E : exn -> Prop) (m : M W A) (Q : A -> Prop) : Prop :=
  spec I m (fun r w => match r with Ok a => I w /\ Q a | Raise e => E e end).

Section WeakRules.
Context (I : W -> Prop) (E : exn -> Prop).

Lemma ends_runs {A} (m : M W A) (Q : A -> Prop) : runs I E m Q -> ends I E m Q.
Proof. intros H w Hw. destruct (H w Hw) as [HI HQ]. destruct (fst (m w)); auto. Qed.

Lemma ends_bind {A B} (m : M W A) (k : A -> M W B) (Q : A -> Prop) R :
  ends I E m Q -> (forall a, Q a -> ends I E (k a) R) -> ends I E (bind m k) R.
Proof.
  intros Hm Hk w Hw. specialize (Hm w Hw). unfold bind. destruct (m w) as [[a|e] w']; cbn [fst snd] in *; [|done].
  by apply Hk; apply Hm.
Qed.

(** A last step that leaves the invariant behind. *)
Lemma ends_then {A B} (m : M W A) (k : A -> M W B) (Q : A -> Prop) (J : W -> Prop) :
  ends I E m Q -> (forall a, Q a -> spec I (k a) (fun r w => match r with Ok _ => J w | Raise e => E e end)) ->
  spec I (bind m k) (fun r w => match r with Ok _ => J w | Raise e => E e end).
Proof.
  intros Hm Hk w Hw. specialize (Hm w Hw). unfold bind. destruct (m w) as [[a|e] w']; cbn [fst snd] in *; [|done].
  by apply Hk; apply Hm.
Qed.

Lemma ends_weaken {A} (m : M W A) (Q R : A -> Prop) : ends I E m Q -> (forall a, Q a -> R a) -> ends I E m R.
Proof. intros Hm HQ w Hw. specialize (Hm w Hw). destruct (fst (m w)); [|done]. destruct Hm. auto. Qed.

Lemma ends_for_each {A} (l : list A) f :
  (forall x, x ∈ l -> ends I E (f x) (fun _ => True)) -> ends I E (for_each l f) (fun _ => True).
Proof.
  induction l as [|x l IH]; intros Hf; simpl; [by apply ends_runs, runs_ret|].
  eapply ends_bind; [apply Hf; left|]. intros _ _. apply IH. intros y Hy. apply Hf. by right.
Qed.

End WeakRules.

Lemma bind_ok {A B} (m : M W A) (f : A -> M W B) w b w' :
  bind m f w = (Ok b, w') <-> exists a w1, m w = (Ok a, w1) /\ f a w1 = (Ok b, w').
Proof.
  unfold bind. destruct (m w) as [[a|e] w1]; split.
  - eauto.
  - by intros (? & ? & [= <- <-] & ?).
  - done.
  - by intros (? & ? & ? & _).
Qed.

Lemma bind_ret_l {A B} (a : A) (f : A -> M W B) w : bind (ret a) f w = f a w.
Proof. done. Qed.

Lemma bind_assoc {A B C} (m : M W A) (f : A -> M W B) (g : B -> M W C) w :
  bind (bind m f) g w = bind m (fun a => bind (f a) g) w.
Proof. unfold bind. by destruct (m w) as [[a|e] w']. Qed.

End Spec.

Lemma for_each_ext {W A} (f g : A -> M W unit) l w : (forall x w, f x w = g x w) -> for_each l f w = for_each l g w.
Proof.
  intros H. revert w. induction l as [|x l IH]; intros w; [done|]. cbn [for_each]. unfold bind. rewrite H.
  destruct (g x w) as [[[]|e] w']; [apply IH | done].
Qed.

Lemma for_each_filter {W A} (b : A -> bool) (f : A -> M W unit) l w :
  for_each l (fun x => when (b x) (f x)) w = for_each (List.filter b l) f w.
Proof.
  revert w. induction l as [|x l IH]; intros w; [done|]. cbn [for_each List.filter]. unfold when at 1. destruct (b x); cbn [for_each].
  - unfold bind. destruct (f x w) as [[[]|e] w']; [apply IH | done].
  - apply IH.
Qed.

Create HintDb keeps.
#[export] Hint Resolve keeps_ret keeps_raise keeps_bind keeps_get keeps_gets keeps_when keeps_or_raise
  keeps_for_each keeps_fold_m keeps_catch : keeps.

(** Walk through a computation, splitting its branches, and leave the primitive updates. *)
Ltac keeps_step :=
  match goal with
  | |- keeps _ (bind _ _) => apply keeps_bind; [|intros ?]
  | |- keeps _ (ret _) => apply keeps_ret
  | |- keeps _ (raise _) => apply keeps_raise
  | |- keeps _ get => apply keeps_get
  | |- keeps _ (gets _) => apply keeps_gets
  | |- keeps _ (when _ _) => apply keeps_when
  | |- keeps _ (or_raise _ _) => apply keeps_or_raise
  | |- keeps _ (for_each _ _) => apply keeps_for_each; intros ? ?
  | |- keeps _ (fold_m _ _ _) => apply keeps_fold_m; intros ? ?
  | |- keeps _ (if ?b then _ else _) => destruct b
  | |- keeps _ (match ?b with _ => _ end) => destruct b
  | |- keeps _ (let '(_, _) := ?p in _) => destruct p
  end.
Ltac keeps_walk := repeat keeps_step; auto with keeps.

(** The same walk for triples.  The facts about calls are in the hint database [runs]; a call that is not there is walked through
    itself, and nothing is kept about its value. *)
Create HintDb runs.

(** Arithmetic on positions and line numbers; components add what they know of the sizes involved. *)
Ltac size_facts := idtac.
Ltac line_lia := size_facts; lia.
#[export] Hint Extern 1 (_ <= _ < _)%Z => line_lia : runs.
#[export] Hint Extern 1 (_ <= _ <= _)%Z => line_lia : runs.
#[export] Hint Resolve runs_index : runs.

Ltac runs_step :=
  lazymatch goal with
  | |- runs _ _ (bind _ _) _ =>
      first [ eapply runs_bind; [solve [eauto with runs]|let H := fresh "H" in intros ? H; cbv beta in H]
            | eapply (runs_bind _ _ _ _ (fun _ => True)); [|intros ? _] ]
  | |- runs _ _ (ret _) _ => apply runs_ret; try exact I
  | |- runs _ _ (raise _) _ => apply runs_raise; try solve [eauto with runs]
  | |- runs _ _ get _ => eapply runs_any, runs_get
  | |- runs _ _ (gets _) _ => apply runs_gets
  | |- runs _ _ (when _ _) _ => let e := fresh "Ewhen" in apply runs_when_cond; intros e
  | |- runs _ _ (or_raise _ _) _ => eapply runs_any, runs_or_raise_may; try solve [eauto with runs]
  | |- runs _ _ (for_each _ _) _ => apply runs_for_each; intros ? ?
  | |- runs _ _ (if ?b then _ else _) _ => let e := fresh "Eif" in destruct b eqn:e
  | |- runs _ _ (let '(_, _) := ?p in _) _ => destruct p
  | |- runs _ _ (match ?b with _ => _ end) _ => let e := fresh "Em" in destruct b eqn:e
  end.
Ltac runs_walk :=
  repeat (cbv beta iota zeta; first [ solve [eauto with runs] | solve [eapply runs_any; eauto with runs] | runs_step ]).
