(* ===== verification/Tables.v ===== *)
(** * The constant tables of cpplint.py

    Category names, header names and the tables derived from them, in the order of the source. *)

From S2P Require Import Prelude PyStr.

(** The categories of error messages. *)
Definition _ERROR_CATEGORIES : list str := lits [
  "build/class"; "build/c++11"; "build/c++14"; "build/c++tr1"; "build/deprecated";
  "build/endif_comment"; "build/explicit_make_pair"; "build/forward_decl"; "build/header_guard";
  "build/include"; "build/include_subdir"; "build/include_alpha"; "build/include_order";
  "build/include_what_you_use"; "build/namespaces_literals"; "build/namespaces";
  "build/printf_format"; "build/storage_class"; "legal/copyright"; "readability/alt_tokens";
  "readability/braces"; "readability/casting"; "readability/check"; "readability/constructors";
  "readability/fn_size"; "readability/inheritance"; "readability/multiline_comment";
  "readability/multiline_string"; "readability/namespace"; "readability/nolint"; "readability/nul";
  "readability/strings"; "readability/todo"; "readability/utf8"; "runtime/arrays";
  "runtime/casting"; "runtime/explicit"; "runtime/int"; "runtime/init";
  "runtime/invalid_increment"; "runtime/member_string_references"; "runtime/memset";
  "runtime/indentation_namespace"; "runtime/operator"; "runtime/printf"; "runtime/printf_format";
  "runtime/references"; "runtime/string"; "runtime/threadsafe_fn"; "runtime/vlog";
  "whitespace/blank_line"; "whitespace/braces"; "whitespace/comma"; "whitespace/comments";
  "whitespace/empty_conditional_body"; "whitespace/empty_if_body"; "whitespace/empty_loop_body";
  "whitespace/end_of_line"; "whitespace/ending_newline"; "whitespace/forcolon";
  "whitespace/indent"; "whitespace/line_length"; "whitespace/newline"; "whitespace/operators";
  "whitespace/parens"; "whitespace/semicolon"; "whitespace/tab"; "whitespace/todo"
].

(** Categories no longer enforced that may still be named by a NOLINT comment. *)
Definition _LEGACY_ERROR_CATEGORIES : list str := lits [
  "readability/streams"; "readability/function"
].

(** The filters in force before any [--filter] flag. *)
Definition _DEFAULT_FILTERS : list str := lits [
  "-build/include_alpha"
].

(** Categories suppressed in C files. *)
Definition _DEFAULT_C_SUPPRESSED_CATEGORIES : list str := lits [
  "readability/casting"
].

(** Categories suppressed in Linux kernel files. *)
Definition _DEFAULT_KERNEL_SUPPRESSED_CATEGORIES : list str := lits [
  "whitespace/tab"
].

(** The standard C++ headers (a [frozenset] in the source). *)
Definition _CPP_HEADERS : list str := lits [
  "algobase.h"; "algo.h"; "alloc.h"; "builtinbuf.h"; "bvector.h"; "complex.h"; "defalloc.h";
  "deque.h"; "editbuf.h"; "fstream.h"; "function.h"; "hash_map"; "hash_map.h"; "hash_set";
  "hash_set.h"; "hashtable.h"; "heap.h"; "indstream.h"; "iomanip.h"; "iostream.h"; "istream.h";
  "iterator.h"; "list.h"; "map.h"; "multimap.h"; "multiset.h"; "ostream.h"; "pair.h";
  "parsestream.h"; "pfstream.h"; "procbuf.h"; "pthread_alloc"; "pthread_alloc.h"; "rope"; "rope.h";
  "ropeimpl.h"; "set.h"; "slist"; "slist.h"; "stack.h"; "stdiostream.h"; "stl_alloc.h";
  "stl_relops.h"; "streambuf.h"; "stream.h"; "strfile.h"; "strstream.h"; "tempbuf.h"; "tree.h";
  "type_traits.h"; "vector.h"; "algorithm"; "array"; "atomic"; "bitset"; "chrono"; "codecvt";
  "complex"; "condition_variable"; "deque"; "exception"; "forward_list"; "fstream"; "functional";
  "future"; "initializer_list"; "iomanip"; "ios"; "iosfwd"; "iostream"; "istream"; "iterator";
  "limits"; "list"; "locale"; "map"; "memory"; "mutex"; "new"; "numeric"; "ostream"; "queue";
  "random"; "ratio"; "regex"; "scoped_allocator"; "set"; "sstream"; "stack"; "stdexcept";
  "streambuf"; "string"; "strstream"; "system_error"; "thread"; "tuple"; "typeindex"; "typeinfo";
  "type_traits"; "unordered_map"; "unordered_set"; "utility"; "valarray"; "vector"; "shared_mutex";
  "any"; "charconv"; "codecvt"; "execution"; "filesystem"; "memory_resource"; "optional";
  "string_view"; "variant"; "cassert"; "ccomplex"; "cctype"; "cerrno"; "cfenv"; "cfloat";
  "cinttypes"; "ciso646"; "climits"; "clocale"; "cmath"; "csetjmp"; "csignal"; "cstdalign";
  "cstdarg"; "cstdbool"; "cstddef"; "cstdint"; "cstdio"; "cstdlib"; "cstring"; "ctgmath"; "ctime";
  "cuchar"; "cwchar"; "cwctype"
].

(** The suffixes of test file names. *)
Definition _test_suffixes : list str := lits [
  "_test"; "_regtest"; "_unittest"
].

(** The assertion macros. *)
Definition _CHECK_MACROS : list str := lits [
  "DCHECK"; "CHECK"; "EXPECT_TRUE"; "ASSERT_TRUE"; "EXPECT_FALSE"; "ASSERT_FALSE"
].

(** The comparison operators and the suffix of the macro that replaces them, and the same for the
    macros that expect falsehood. *)
Definition check_ops : list (str * str) := [
  (lit "==", lit "EQ"); (lit "!=", lit "NE"); (lit ">=", lit "GE"); (lit ">", lit "GT");
  (lit "<=", lit "LE"); (lit "<", lit "LT")
].
Definition check_inv_ops : list (str * str) := [
  (lit "==", lit "NE"); (lit "!=", lit "EQ"); (lit ">=", lit "LT"); (lit ">", lit "LE");
  (lit "<=", lit "GT"); (lit "<", lit "GE")
].

(** [_CHECK_REPLACEMENT[macro][op]], [None] where Python raises [KeyError]. *)
Definition _CHECK_REPLACEMENT (macro op : str) : option str :=
  let look (prefix : str) (ops : list (str * str)) :=
    (fun p => prefix ++ snd p) <$> List.find (fun p => str_eqb (fst p) op) ops in
  if str_eqb macro "DCHECK" then look "DCHECK_" check_ops
  else if str_eqb macro "CHECK" then look "CHECK_" check_ops
  else if str_eqb macro "EXPECT_TRUE" then look "EXPECT_" check_ops
  else if str_eqb macro "ASSERT_TRUE" then look "ASSERT_" check_ops
  else if str_eqb macro "EXPECT_FALSE" then look "EXPECT_" check_inv_ops
  else if str_eqb macro "ASSERT_FALSE" then look "ASSERT_" check_inv_ops
  else None.

(** Alternative tokens and what they stand for. *)
Definition _ALT_TOKEN_REPLACEMENT : list (str * str) := [
  (lit "and", lit "&&");
  (lit "bitor", lit "|");
  (lit "or", lit "||");
  (lit "xor", lit "^");
  (lit "compl", lit "~");
  (lit "bitand", lit "&");
  (lit "and_eq", lit "&=");
  (lit "or_eq", lit "|=");
  (lit "xor_eq", lit "^=");
  (lit "not", lit "!");
  (lit "not_eq", lit "!=")
].

(** The kinds of headers and the states of inline assembly, numbered as in the source. *)
Definition _C_SYS_HEADER : Z := 1.
Definition _CPP_SYS_HEADER : Z := 2.
Definition _LIKELY_MY_HEADER : Z := 3.
Definition _POSSIBLE_MY_HEADER : Z := 4.
Definition _OTHER_HEADER : Z := 5.

Inductive asm_state : Set := _NO_ASM | _INSIDE_ASM | _END_ASM | _BLOCK_ASM.

#[export] Instance asm_state_eq_dec : EqDecision asm_state.
Proof. solve_decision. Defined.
