(* ===== verification/Regexps.v ===== *)
(** * The regular expression helpers of cpplint.py and its compile cache

    [Match], [Search] and [ReplaceAll] are the functions the checks call.  Module
    [Cached] models them as written, with the module-level dictionary
    [_regexp_compile_cache]; the module shows that the
    cache never changes an answer, which is why the rest of the development
    uses the functions without it. *)

From S2P Require Import Prelude PyStr PyRe PyEff.

Section Regexps.
Context {U : UnicodeDB}.

(** [re.compile(pattern).match(s)]; a pattern the compiler rejects matches nothing here, see
    [Cached.Match] for the exception. *)
Definition Match (pattern s : str) : option match_obj :=
  match re_parse pattern with Some rx => rx_match rx s | None => None end.

Definition Search (pattern s : str) : option match_obj :=
  match re_parse pattern with Some rx => rx_search rx s | None => None end.

(** The replacement text with its group references filled in. *)
Fixpoint expand (rep : str) (m : match_obj) : str :=
  match rep with
  | c :: ((d :: rest) as tl) =>
      if (c =? ch "\")%N && is_digit_ascii d then group_str m (N.to_nat (d - 48)) ++ expand rest m
      else c :: expand tl m
  | _ => rep
  end.

Definition ReplaceAll (pattern rep s : str) : str :=
  match re_parse pattern with Some rx => rx_sub rx (expand rep) s | None => s end.

(** The truth value of a match. *)
Definition is_some {A} (o : option A) : bool := match o with Some _ => true | None => false end.
Definition MatchB (pattern s : str) : bool := is_some (Match pattern s).
Definition SearchB (pattern s : str) : bool := is_some (Search pattern s).

(** [re.search(pattern, s, re.I)] *)
Definition SearchI (pattern s : str) : option match_obj :=
  match re_compile {| f_icase := true; f_multiline := false; f_dotall := false |} pattern with
  | Some rx => rx_search rx s | None => None end.

(** [re.finditer], [re.findall] (one group), [re.split] *)
Definition FindIter (pattern s : str) : list match_obj :=
  match re_parse pattern with Some rx => rx_finditer rx s | None => [] end.
Definition FindAll1 (pattern s : str) : list str :=
  match re_parse pattern with Some rx => rx_findall1 rx s | None => [] end.
Definition ReSplit (pattern s : str) : list str :=
  match re_parse pattern with Some rx => rx_split rx s | None => [s] end.

End Regexps.

(** ** The compile cache *)
Module Cached.
Section Cached.
Context {U : UnicodeDB}.

Abbreviation cache := (gmap str regex).

(** [if pattern not in _regexp_compile_cache: ...] *)
Definition ensure (pattern : str) : M cache unit :=
  c <- get;;
  match c !! pattern with
  | Some _ => ret tt
  | None => rx <- or_raise ReError (re_parse pattern);; modify (fun c => <[pattern := rx]> c)
  end.

Definition compiled (pattern : str) : M cache regex :=
  c <- get;; or_raise KeyError (c !! pattern).

Definition Match (pattern s : str) : M cache (option match_obj) :=
  ensure pattern;; rx <- compiled pattern;; ret (rx_match rx s).

Definition ReplaceAll (pattern rep s : str) : M cache str :=
  ensure pattern;; rx <- compiled pattern;; ret (rx_sub rx (expand rep) s).

Definition Search (pattern s : str) : M cache (option match_obj) :=
  ensure pattern;; rx <- compiled pattern;; ret (rx_search rx s).

(** Every entry of the cache is what compiling its key gives. *)
Definition cache_ok (c : cache) : Prop := forall p rx, c !! p = Some rx -> re_parse p = Some rx.

(** The cache after a call with a pattern that compiles. *)
Definition filled (c : cache) (p : str) (rx : regex) : cache :=
  match c !! p with Some _ => c | None => <[p := rx]> c end.

Lemma cache_ok_filled c p rx : cache_ok c -> re_parse p = Some rx -> cache_ok (filled c p rx).
Proof.
  unfold filled. intros Hc Hp. destruct (c !! p); [done|].
  intros q rq. destruct (decide (p = q)) as [<-|]; simplify_map_eq; [congruence | apply Hc].
Qed.

Lemma with_compiled {A} (f : regex -> A) (c : cache) p rx :
  cache_ok c -> re_parse p = Some rx ->
  (ensure p;; rx' <- compiled p;; ret (f rx')) c = (Ok (f rx), filled c p rx).
Proof.
  intros Hc Hp. unfold ensure, compiled, filled, bind, get, modify, ret. simpl.
  destruct (c !! p) as [rx0|] eqn:E; simpl.
  - apply Hc in E as E'. rewrite E. simpl. congruence.
  - rewrite Hp. simpl. by rewrite lookup_insert_eq.
Qed.

Lemma with_uncompilable {A} (f : regex -> A) (c : cache) p :
  cache_ok c -> re_parse p = None ->
  (ensure p;; rx' <- compiled p;; ret (f rx')) c = (Raise ReError, c).
Proof.
  intros Hc Hp. unfold ensure, bind, get. simpl. destruct (c !! p) eqn:E.
  - apply Hc in E. congruence.
  - by rewrite Hp.
Qed.

(** C36. The cached [Match], [Search] and [ReplaceAll] of cpplint.py give, on every pattern that compiles,
    the same answer as compiling the pattern afresh, whatever calls filled the cache before;
    they keep the cache consistent and afterwards hold the pattern in it; a pattern that does not
    compile raises and leaves the cache as it was. *)
Theorem cached_regexp_correct (c : cache) (p rep s : str) (Hc : cache_ok c) :
  match re_parse p with
  | Some rx =>
      Match p s c = (Ok (Regexps.Match p s), filled c p rx) /\
      Search p s c = (Ok (Regexps.Search p s), filled c p rx) /\
      ReplaceAll p rep s c = (Ok (Regexps.ReplaceAll p rep s), filled c p rx) /\
      cache_ok (filled c p rx) /\ filled c p rx !! p = Some rx
  | None =>
      Match p s c = (Raise ReError, c) /\ Search p s c = (Raise ReError, c) /\
      ReplaceAll p rep s c = (Raise ReError, c)
  end.
Proof.
  unfold Match, Search, ReplaceAll, Regexps.Match, Regexps.Search, Regexps.ReplaceAll.
  destruct (re_parse p) as [rx|] eqn:E.
  - rewrite !(with_compiled _ c p rx) by done. repeat split; [by apply cache_ok_filled|].
    unfold filled. destruct (c !! p) as [rx0|] eqn:E'; [apply Hc in E' as E2; congruence | apply lookup_insert_eq].
  - by rewrite !(with_uncompilable _ c p) by done.
Qed.

End Cached.

Lemma cached_regexp_correct_witness :
  let c : gmap str regex := ∅ in cache_ok c /\
  fst (Match (U := ascii_db) "a+" "aab" c) = Ok (Regexps.Match (U := ascii_db) "a+" "aab").
Proof.
  assert (Hc : cache_ok ∅) by (by intros p rx H).
  split; [exact Hc|].
  pose proof (cached_regexp_correct (U := ascii_db) ∅ "a+" "b" "aab" Hc) as H.
  destruct (re_parse "a+") as [rx|] eqn:E; [|by vm_compute in E].
  destruct H as [H _]. by rewrite H.
Defined.

End Cached.

(** ** Reasoning about a match *)

Section Facts.
Context {U : UnicodeDB}.

Lemma SearchB_iff pattern rx s :
  re_parse pattern = Some rx -> no_backref (rx_re rx) = true ->
  SearchB pattern s = true <->
  exists q st', q <= length s /\ sem (rx_flags rx) (rx_re rx) (state_at s q) st'.
Proof.
  intros Hp Hn. unfold SearchB, Search. rewrite Hp, <- rx_search_iff by done.
  destruct (rx_search rx s); simpl; split; done.
Qed.

Lemma MatchB_iff pattern rx s :
  re_parse pattern = Some rx -> no_backref (rx_re rx) = true ->
  MatchB pattern s = true <-> exists st', sem (rx_flags rx) (rx_re rx) (state_at s 0) st'.
Proof.
  intros Hp Hn. unfold MatchB, Match. rewrite Hp, <- rx_match_iff by done.
  destruct (rx_match rx s); simpl; split; done.
Qed.

Lemma Search_sound pattern rx s m :
  re_parse pattern = Some rx -> no_backref (rx_re rx) = true -> Search pattern s = Some m ->
  exists q st', q <= length s /\ sem (rx_flags rx) (rx_re rx) (state_at s q) st' /\
                m = MatchObj s (q, pos st') (caps st').
Proof.
  intros Hp Hn. unfold Search. rewrite Hp. intros H.
  apply search_from_sound in H as (q & st' & ? & H & ?); [|done]. exists q, st'. split; [lia | done].
Qed.

Lemma Match_sound pattern rx s m :
  re_parse pattern = Some rx -> no_backref (rx_re rx) = true -> Match pattern s = Some m ->
  exists st', sem (rx_flags rx) (rx_re rx) (state_at s 0) st' /\ m = MatchObj s (0, pos st') (caps st').
Proof. intros Hp Hn. unfold Match. rewrite Hp. by apply match_here_sound. Qed.

Lemma Search_group pattern rx s m n a :
  re_parse pattern = Some rx -> no_backref (rx_re rx) = true -> Search pattern s = Some m ->
  group m (S n) = Some a -> exists b, b ∈ group_bodies (S n) (rx_re rx) /\ spells (rx_flags rx) b a.
Proof.
  intros Hp Hn H. destruct (Search_sound _ _ _ _ Hp Hn H) as (q & st' & Hq & Hs & ->). by apply group_spells.
Qed.

Lemma Match_group pattern rx s m n a :
  re_parse pattern = Some rx -> no_backref (rx_re rx) = true -> Match pattern s = Some m ->
  group m (S n) = Some a -> exists b, b ∈ group_bodies (S n) (rx_re rx) /\ spells (rx_flags rx) b a.
Proof.
  intros Hp Hn H. destruct (Match_sound _ _ _ _ Hp Hn H) as (st' & Hs & ->). apply group_spells; [lia | done].
Qed.

Lemma spells_char c w : spells no_flags (RChar c) w -> w = [c].
Proof.
  intros H. eapply spells_one in H as (d & -> & E); [|reflexivity]. by apply N.eqb_eq in E as ->.
Qed.

(** A run of a class is made of characters of the class. *)
Lemma spells_class fl g min max r f w :
  one_char fl r = Some f -> spells fl (RRep g min max r) w -> forallb f w = true.
Proof.
  intros Hf (ws & -> & Hws & _)%spells_rep. induction Hws as [|v ws Hv Hws IH]; simpl; [done|].
  eapply spells_one in Hv as (c & -> & Hc); [|exact Hf]. simpl. by rewrite Hc.
Qed.

(** Building a match: runs of a class, and single characters. *)
Lemma sem_star fl g f r u b rest c :
  one_char fl r = Some f -> forallb f u = true ->
  sem fl (RRep g 0 None r) (MState b (u ++ rest) c) (MState (rev u ++ b) rest c).
Proof.
  intros Hf Hu. exists (length u). split; [split; [lia | done]|].
  assert (sem fl r = fun a b => step1 f a = Some b) as -> by (destruct r; simpl in Hf; try done; by injection Hf as <-).
  apply iter_class. by exists u, rest.
Qed.

Lemma sem_one fl f r d b rest c :
  one_char fl r = Some f -> f d = true -> sem fl r (MState b (d :: rest) c) (MState (d :: b) rest c).
Proof.
  intros Hf Hd. assert (step1 f (MState b (d :: rest) c) = Some (MState (d :: b) rest c)) as H.
  { apply step1_iff. by exists d, rest. }
  destruct r; simpl in Hf; try done; by injection Hf as <-.
Qed.

(** A pattern that compiles and whose matches all hold the character [c]. *)
Definition pattern_needs (pattern : str) (c : N) : bool :=
  match re_parse pattern with
  | Some rx => no_backref (rx_re rx) && negb (f_icase (rx_flags rx)) && needs c (rx_re rx)
  | None => false
  end.

Lemma pattern_needs_rx pattern c :
  pattern_needs pattern c = true ->
  exists rx, re_parse pattern = Some rx /\ no_backref (rx_re rx) = true /\
             f_icase (rx_flags rx) = false /\ needs c (rx_re rx) = true.
Proof.
  unfold pattern_needs. destruct (re_parse pattern) as [rx|]; [|done]. intros H. bool_facts. eauto.
Qed.

Lemma Match_needs pattern c s : pattern_needs pattern c = true -> c ∉ s -> Match pattern s = None.
Proof.
  intros (rx & Hp & Hb & Hf & Hn)%pattern_needs_rx Hc. unfold Match. rewrite Hp. by apply (match_here_needs c).
Qed.

Lemma Search_needs pattern c s : pattern_needs pattern c = true -> c ∉ s -> Search pattern s = None.
Proof.
  intros (rx & Hp & Hb & Hf & Hn)%pattern_needs_rx Hc. unfold Search. rewrite Hp. by apply (search_from_needs c).
Qed.

Lemma ReplaceAll_needs pattern c rep s :
  pattern_needs pattern c = true -> c ∉ s -> ReplaceAll pattern rep s = s.
Proof.
  intros (rx & Hp & Hb & Hf & Hn)%pattern_needs_rx Hc. unfold ReplaceAll. rewrite Hp. by apply (rx_sub_needs c).
Qed.

Lemma ReplaceAll_erase pattern s c : c ∈ ReplaceAll pattern [] s -> c ∈ s.
Proof. unfold ReplaceAll. destruct (re_parse pattern); [by apply stitch_erase | done]. Qed.

(** Groups are parts of the text. *)
Lemma group_elem m n c : c ∈ group_str m n -> c ∈ m_text m.
Proof.
  unfold group_str, group. destruct (m_group_span m n) as [[a b]|]; simpl; [|by intros ?%not_elem_of_nil].
  intros H. by eapply subseteq_drop, subseteq_take.
Qed.

Lemma Match_text pattern s m : Match pattern s = Some m -> m_text m = s.
Proof.
  unfold Match, rx_match, match_here. destruct (re_parse pattern) as [rx|]; [|done].
  destruct (mtch _ _ _ _); [|done]. by intros [= <-].
Qed.

(** *** Taking a match apart

    [sem_parts] splits a match of a sequence of patterns into its parts; each part then consumes a text
    ([sem_part]), and a group around a part is that text ([group_part]). *)

Fixpoint group_free (r : re) : bool :=
  match r with
  | RGroup _ _ => false
  | RSeq a b | RAlt a b => group_free a && group_free b
  | RRep _ _ _ a | RLook _ a => group_free a
  | _ => true
  end.

Lemma sem_group_free fl r st st' : group_free r = true -> sem fl r st st' -> caps st' = caps st.
Proof.
  revert st st'. induction r; simpl; intros st st' Hg H; bool_facts; try (by subst);
    try (by apply step1_caps in H); try (by destruct H as [_ ->]).
  - destruct H as (mid & H2 & H3). apply IHr1 in H2; [|done]. apply IHr2 in H3; [|done]. congruence.
  - destruct H as [H|H]; eauto.
  - destruct H as (k & _ & Hi). induction Hi as [|k s1 s2 s3 HR Hi IH]; [done|]. rewrite IH. by apply IHr.
  - destruct H as (sp & _ & _ & ->). apply advance_caps.
  - destruct positive; [|by destruct H as [_ ->]]. destruct H as (mid & H & ->). simpl. by apply IHr.
Qed.

Lemma sem_part fl r st st' :
  group_free r = true -> sem fl r st st' ->
  exists w rest, st' = MState (rev w ++ before st) rest (caps st) /\ after st = w ++ rest /\ spells fl r w.
Proof.
  intros Hg H. destruct (sem_spells_at _ _ _ _ H) as (w & Hw & Hl & _). exists w, (after st').
  split; [|split; [done | by exists st, st']].
  apply sem_group_free in H as Hc; [|done]. apply sem_moves in H as [Ht _].
  rewrite Hw, app_assoc in Ht. apply app_inv_tail in Ht.
  destruct st' as [b' a' c']. simpl in *. subst c'. f_equal.
  apply (f_equal (@rev N)) in Ht. by rewrite rev_app_distr, !rev_involutive in Ht.
Qed.

(** The text of a group whose span runs over [w]. *)
Lemma group_part s sp cs n b w :
  get_cap (S n) cs = Some (length b, length (rev w ++ b)) -> (exists r, s = rev b ++ w ++ r) ->
  group_str (MatchObj s sp cs) (S n) = w.
Proof.
  intros Hc [r ->]. unfold group_str, group, m_group_span. simpl m_caps. rewrite Hc. cbn [m_text].
  rewrite length_app, length_rev, drop_app_length' by (by rewrite length_rev).
  cbn [default]. unfold id. by rewrite Nat.add_sub, take_app_length.
Qed.

Lemma drop_S_tail {A} (s : list A) p : drop (S p) s = tail (drop p s).
Proof. revert p. induction s as [|x s IH]; intros p; [by destruct p|]. destruct p; [by destruct s | apply (IH p)]. Qed.

(** *** Replacing single characters *)

Section OneClass.
Context (rx : regex) (f : N -> bool).
Context (Hrx : exists r, rx_re rx = RSeq r REmpty /\ one_char (rx_flags rx) r = Some f).

Lemma one_class_here adv s p :
  match_here rx adv s p =
  match drop p s with
  | c :: _ => if f c then Some (MatchObj s (p, S p) []) else None
  | [] => None
  end.
Proof.
  destruct Hrx as (r & Hr & Hf). unfold match_here, state_at. rewrite Hr. cbn [mtch].
  assert (Hm : forall k st, mtch (rx_flags rx) r k st = match step1 f st with Some st' => k st' | None => None end).
  { intros k st. destruct r; simpl in Hf; try done; by injection Hf as <-. }
  rewrite Hm. unfold step1. cbn [after before caps]. destruct (drop p s) as [|c v] eqn:E; [done|].
  destruct (f c); [|done].
  assert (Hl : length (rev (take p s)) = p).
  { apply (f_equal length) in E. rewrite length_drop in E. simpl in E. rewrite length_rev, length_take. lia. }
  unfold pos at 1. cbn [before length]. rewrite Hl, (proj2 (Nat.eqb_neq (S p) p)), andb_false_r by lia.
  unfold pos. cbn [before length caps]. by rewrite Hl.
Qed.

Lemma one_class_search n adv s p u c v :
  length u <= n -> drop p s = u ++ c :: v -> f c = true -> forallb (fun d => negb (f d)) u = true ->
  search_from n rx adv s p = Some (MatchObj s ((p + length u)%nat, S (p + length u)) []).
Proof.
  revert n adv p. induction u as [|d u IH]; intros n adv p Hn E Hc Hu.
  - simpl. replace (p + 0) with p by lia.
    destruct n; simpl; rewrite one_class_here, E; simpl; by rewrite Hc.
  - simpl in Hu. apply andb_true_iff in Hu as [Hd%negb_true_iff Hu]. destruct n as [|n]; [simpl in Hn; lia|]. cbn [search_from].
    rewrite one_class_here, E. simpl. rewrite Hd. simpl. rewrite IH; [|simpl in Hn; lia|by rewrite drop_S_tail, E|done|done].
    replace (S p + length u) with (p + S (length u)) by lia. done.
Qed.

Lemma one_class_none n adv s p :
  forallb (fun d => negb (f d)) (drop p s) = true -> search_from n rx adv s p = None.
Proof.
  revert adv p. induction n as [|n IH]; intros adv p H; simpl; rewrite one_class_here.
  - destruct (drop p s) as [|c v]; [done|]. simpl in H. apply andb_true_iff in H as [->%negb_true_iff _]. done.
  - destruct (drop p s) as [|c v] eqn:E; simpl in H.
    + simpl. apply IH. rewrite drop_S_tail, E. done.
    + apply andb_true_iff in H as [->%negb_true_iff Hv]. simpl. apply IH. by rewrite drop_S_tail, E.
Qed.
Lemma one_class_stitch rep t fuel adv s p :
  (forall m, rep m = t) -> (length s < fuel + p)%nat -> (p <= length s)%nat ->
  stitch rep (all_matches fuel rx adv s p) s p = concat (map (fun c => if f c then t else [c]) (drop p s)).
Proof.
  intros Hrep. revert adv p. induction fuel as [|fuel IH]; intros adv p Hl Hp; [lia|]. cbn [all_matches].
  destruct (span_ex (fun d => negb (f d)) (drop p s)) as (u & r & E & Hu & Hr).
  assert (Hid : concat (map (fun c => if f c then t else [c]) u) = u).
  { clear -Hu. induction u as [|c u IHu]; simpl in *; [done|]. apply andb_true_iff in Hu as [->%negb_true_iff Hu]. simpl. by rewrite IHu. }
  pose proof (f_equal length E) as Hlen. rewrite length_drop, length_app in Hlen.
  destruct r as [|c v].
  - rewrite one_class_none by (rewrite E, app_nil_r; done). cbn [stitch]. by rewrite E, app_nil_r, Hid.
  - apply negb_false_iff in Hr. simpl in Hlen.
    rewrite (one_class_search _ adv s p u c v) by (done || lia). cbn [m_span stitch].
    rewrite Hrep, IH by lia. rewrite E, map_app, concat_app, Hid. cbn [map concat]. rewrite Hr.
    replace (p + length u - p) with (length u) by lia. rewrite take_app_length. do 3 f_equal.
    replace (S (p + length u)) with (p + S (length u)) by lia. rewrite <- drop_drop, E.
    by rewrite drop_app_ge, Nat.sub_succ_l, Nat.sub_diag by lia.
Qed.

Lemma one_class_sub rep t s :
  (forall m, rep m = t) -> rx_sub rx rep s = concat (map (fun c => if f c then t else [c]) s).
Proof. intros Hrep. unfold rx_sub, rx_finditer. by rewrite (one_class_stitch rep t) by (done || lia). Qed.

End OneClass.

Lemma expand_plain rep m : ch "\" ∉ rep -> expand rep m = rep.
Proof.
  intros H. induction rep as [|c rep IH]; [done|]. apply not_elem_of_cons in H as [Hc H]. specialize (IH H).
  destruct rep as [|d rep]; [done|]. transitivity (c :: expand (d :: rep) m); [|by rewrite IH].
  cbn [expand]. replace (c =? ch "\")%N with false; [done|]. symmetry. apply N.eqb_neq. congruence.
Qed.

(** Replacing every character of a class by a text. *)
Lemma ReplaceAll_class pattern rx r f rep s :
  re_parse pattern = Some rx -> rx_re rx = RSeq r REmpty -> one_char (rx_flags rx) r = Some f -> ch "\" ∉ rep ->
  ReplaceAll pattern rep s = concat (map (fun c => if f c then rep else [c]) s).
Proof.
  intros Hp Hr Hf Hb. unfold ReplaceAll. rewrite Hp. apply one_class_sub; [eauto|]. intros m. by apply expand_plain.
Qed.

(** Bounds of groups by positions. *)
Lemma group_len s sp cs n a b :
  get_cap (S n) cs = Some (a, b) -> length (group_str (MatchObj s sp cs) (S n)) <= b - a.
Proof.
  intros H. unfold group_str, group, m_group_span. cbn [m_caps m_text]. rewrite H. cbn [default]. unfold id.
  rewrite length_take. lia.
Qed.

Lemma sem_end fl r s st : sem fl r (state_at s 0) st -> pos st <= length s.
Proof.
  rewrite state_at_0. intros [Ht _]%sem_moves. apply (f_equal length) in Ht. cbn [before after] in Ht.
  rewrite !length_app, !length_rev in Ht. unfold pos. cbn [length] in Ht. lia.
Qed.

(** *** Patterns with finitely many words *)

Fixpoint words (r : re) : option (list str) :=
  match r with
  | REmpty => Some [[]]
  | RChar c => Some [[c]]
  | RSeq a b =>
      match words a, words b with Some ws, Some vs => Some (flat_map (fun w => map (app w) vs) ws) | _, _ => None end
  | RAlt a b => match words a, words b with Some ws, Some vs => Some (ws ++ vs) | _, _ => None end
  | _ => None
  end.

Lemma spells_words r ws w : words r = Some ws -> spells no_flags r w -> w ∈ ws.
Proof.
  revert ws w. induction r; cbn [words]; intros ws w Hws Hw; try done.
  - injection Hws as <-. apply spells_empty in Hw as ->. by left.
  - injection Hws as <-. apply spells_char in Hw as ->. by left.
  - destruct (words r1) as [w1|]; [|done]. destruct (words r2) as [w2|]; [|done]. injection Hws as <-.
    apply spells_seq in Hw as (u & v & -> & Hu & Hv). apply list_elem_of_In, in_flat_map. exists u.
    split; [by apply list_elem_of_In, IHr1|]. apply in_map, list_elem_of_In. by apply IHr2.
  - destruct (words r1) as [w1|]; [|done]. destruct (words r2) as [w2|]; [|done]. injection Hws as <-.
    destruct Hw as (s1 & s2 & [Hs|Hs] & Hw); apply elem_of_app; [left; apply IHr1 | right; apply IHr2]; try done; by exists s1, s2.
Qed.

(** All matches are matches. *)
Lemma sem_pos fl r s q st : sem fl r (state_at s q) st -> pos st <= length s.
Proof.
  intros [Ht _]%sem_moves. apply (f_equal length) in Ht. cbn [state_at before after] in Ht.
  rewrite !length_app, !length_rev, length_take, length_drop in Ht. unfold pos. lia.
Qed.

Lemma FindIter_sound pattern rx s m :
  re_parse pattern = Some rx -> no_backref (rx_re rx) = true -> m ∈ FindIter pattern s ->
  exists q st', q <= length s /\ sem (rx_flags rx) (rx_re rx) (state_at s q) st' /\ m = MatchObj s (q, pos st') (caps st').
Proof.
  intros Hp Hn. unfold FindIter. rewrite Hp. unfold rx_finditer. assert (H0 : 0 <= length s) by lia. revert H0.
  generalize 0 as p, (2 * length s + 2) as fuel, false as adv.
  intros p fuel. revert p. induction fuel as [|fuel IH]; intros p adv H0; cbn [all_matches]; [by intros ?%not_elem_of_nil|].
  destruct (search_from _ _ _ _ _) as [m'|] eqn:E; [|by intros ?%not_elem_of_nil].
  apply search_from_sound in E as (q & st' & Hq & Hs & ->); [|done]. cbn [m_span].
  intros [->|H]%elem_of_cons.
  - exists q, st'. split; [lia | done].
  - eapply IH; [|exact H]. by apply sem_pos in Hs.
Qed.

End Facts.

Ltac sem_parts :=
  cbn [rx_re rx_flags] in *;
  repeat match goal with
  | H : sem _ (RSeq _ _) _ _ |- _ => let s := fresh "st" in let H1 := fresh "Hsem" in destruct H as (s & H1 & H)
  | H : sem _ (RGroup _ _) _ _ |- _ => let s := fresh "st" in destruct H as (s & H & ->)
  | H : sem _ RBol _ _ |- _ => destruct H as [? ->]
  | H : sem _ REol _ _ |- _ => destruct H as [? ->]
  | H : sem _ RWordB _ _ |- _ => destruct H as [? ->]
  | H : sem _ REmpty _ _ |- _ => cbn [sem] in H; subst
  end.

Ltac sem_words :=
  repeat match goal with
  | H : sem _ _ _ _ |- _ =>
      let w := fresh "w" in let r := fresh "rest" in let E := fresh "E" in
      apply sem_part in H as (w & r & -> & E & H); [|reflexivity]
  end;
  unfold set_cap, with_caps, pos in *;
  rewrite ?state_at_0 in *;
  cbn [before after caps] in *;
  repeat match goal with E : ?r = _ ++ _ |- _ => is_var r; subst r end.

(** The text of group [n] in the goal, by its span. *)
Ltac group_is :=
  eapply group_part;
  [reflexivity | rewrite ?rev_app_distr, ?rev_involutive; cbn [rev app]; rewrite ?app_nil_r;
                 eexists; rewrite <- ?app_assoc; cbn [app]; reflexivity].

(** The positions of the parts of a match. *)
Ltac sem_bounds :=
  repeat match goal with
  | H : sem _ _ _ _ |- _ => let Hm := fresh "Hmin" in apply sem_min_len in H as Hm; clear H
  end.

Section Room.
Context {U : UnicodeDB}.

(** The text of a group and what must follow it fit into the text matched. *)
Lemma group_room fl n r1 r2 s s0 st :
  sem fl (RSeq (RGroup (S n) r1) r2) s0 st -> group_bodies (S n) r2 = [] -> pos st <= length s ->
  length (group_str (MatchObj s (0, pos st) (caps st)) (S n)) + min_len r2 <= length s.
Proof.
  intros (s1 & (g & Hg & ->) & H2) Hb Hend. apply sem_min_len in H2 as Hmin.
  destruct (sem_captured _ (S n) _ _ _ H2) as [Hc|(b & ? & ? & Hin & _)]; [|rewrite Hb in Hin; by apply not_elem_of_nil in Hin].
  unfold set_cap, with_caps in Hc. cbn [caps get_cap] in Hc. rewrite Nat.eqb_refl in Hc. apply group_len with (s := s) (sp := (0, pos st)) in Hc.
  unfold set_cap, with_caps, pos in *. cbn [before] in *. lia.
Qed.

Lemma Match_group_first pattern rx s m n r1 r2 :
  re_parse pattern = Some rx -> rx_re rx = RSeq (RGroup (S n) r1) r2 -> no_backref (rx_re rx) = true ->
  group_bodies (S n) r2 = [] -> Match pattern s = Some m -> length (group_str m (S n)) + min_len r2 <= length s.
Proof.
  intros Hp Hr Hn Hb H. eapply Match_sound in H as (st & Hs & ->); [|done..]. apply sem_end in Hs as Hend.
  rewrite Hr in Hs. by eapply group_room.
Qed.

Lemma Match_group_then pattern rx s m n r0 r1 r2 :
  re_parse pattern = Some rx -> rx_re rx = RSeq r0 (RSeq (RGroup (S n) r1) r2) -> no_backref (rx_re rx) = true ->
  group_bodies (S n) r2 = [] -> Match pattern s = Some m -> length (group_str m (S n)) + min_len r2 <= length s.
Proof.
  intros Hp Hr Hn Hb H. eapply Match_sound in H as (st & Hs & ->); [|done..]. apply sem_end in Hs as Hend.
  rewrite Hr in Hs. destruct Hs as (mid & _ & Hs). by eapply group_room.
Qed.

(** A group the pattern begins with takes part in every match. *)
Lemma Match_first_group pattern rx s m n r1 r2 :
  re_parse pattern = Some rx -> rx_re rx = RSeq (RGroup (S n) r1) r2 -> no_backref (rx_re rx) = true ->
  group_bodies (S n) r2 = [] -> Match pattern s = Some m -> is_Some (group m (S n)).
Proof.
  intros Hp Hr Hn Hb H. eapply Match_sound in H as (st & Hs & ->); [|done..]. rewrite Hr in Hs.
  destruct Hs as (s1 & (g & Hg & ->) & H2).
  destruct (sem_captured _ (S n) _ _ _ H2) as [Hc|(b & ? & ? & Hin & _)]; [|rewrite Hb in Hin; by apply not_elem_of_nil in Hin].
  unfold set_cap, with_caps in Hc. cbn [caps get_cap] in Hc. rewrite Nat.eqb_refl in Hc.
  unfold group, m_group_span. cbn [m_caps]. rewrite Hc. eauto.
Qed.

(** Where a search ends. *)
Lemma Search_end pattern rx s m :
  re_parse pattern = Some rx -> no_backref (rx_re rx) = true -> Search pattern s = Some m ->
  (Z.of_nat (min_len (rx_re rx)) <= m_end m 0 <= len s)%Z.
Proof.
  intros Hp Hn H. eapply Search_sound in H as (q & st & Hq & Hs & ->); [|done..]. apply sem_pos in Hs as Hend.
  apply sem_min_len in Hs. unfold m_end, len. cbn [m_group_span m_span]. lia.
Qed.

(** A character the pattern needs is in the text, so looking for it succeeds. *)
Lemma find_needed pattern c s :
  pattern_needs pattern c = true -> SearchB pattern s = true \/ MatchB pattern s = true ->
  (0 <= find s [c] < len s)%Z.
Proof.
  intros Hn Hm. assert (Hc : c ∈ s).
  { apply dec_stable. intros Hc. unfold SearchB, MatchB in Hm. rewrite (Search_needs pattern c), (Match_needs pattern c) in Hm by done.
    by destruct Hm. }
  pose proof (find_fits s [c]) as Hf. apply contains_char in Hc. unfold contains, find in *. change (len [c]) with 1%Z in Hf.
  destruct (find_nat s [c]); [lia | done].
Qed.
End Room.

(** The position after a group is one of the line. *)
Ltac group_range :=
  let H := fresh "H" in
  intros H; first [eapply Match_group_then in H; [|vm_compute; reflexivity | reflexivity | reflexivity | reflexivity]
                  |eapply Match_group_first in H; [|vm_compute; reflexivity | reflexivity | reflexivity | reflexivity]];
  cbn [min_len] in H; unfold len; lia.
