(* ===== verification/Lint.v ===== *)
(** * Module state of cpplint.py: options, NOLINT suppressions, filters, counters

    [world] gathers the module-level variables the functions of cpplint.py share: the
    [_CppLintState] object, the two suppression dictionaries, the option variables,
    and what has been written to the two output streams. *)

From S2P Require Import Prelude PyStr PyRe PyEff Tables Regexps.

Local Open Scope Z_scope.

(** A line number as the error function receives it; [CheckHeaderFileIncluded] may pass [None]. *)
Abbreviation lineno := (option Z).

Record failure := Failure {
  fl_file : str; fl_line : lineno; fl_message : str; fl_category : str; fl_confidence : Z }.

(** The [_CppLintState] object. *)
Record _CppLintState := LintState {
  verbose_level : Z;
  error_count : Z;
  filters : list str;
  _filters_backup : list str;
  counting : str;
  errors_by_category : gmap str Z;
  quiet : bool;
  output_format : str;
  _junit_errors : list str;
  _junit_failures : list failure
}.

Definition _CppLintState_init : _CppLintState := {|
  verbose_level := 1;
  error_count := 0;
  filters := _DEFAULT_FILTERS;
  _filters_backup := _DEFAULT_FILTERS;
  counting := "total";
  errors_by_category := ∅;
  quiet := false;
  output_format := "emacs";
  _junit_errors := [];
  _junit_failures := []
|}.

Record world := World {
  _cpplint_state : _CppLintState;
  _error_suppressions : gmap (option str) (gset Z);
  _global_error_suppressions : gmap str bool;
  _root : option str;
  _repository : option str;
  _excludes : option (gset str);
  _quiet : bool;
  _line_length : Z;
  _hpp_headers : gset str;
  _valid_extensions : gset str;
  stdout : list str;
  stderr : list str
}.

Definition world_init : world := {|
  _cpplint_state := _CppLintState_init;
  _error_suppressions := ∅;
  _global_error_suppressions := ∅;
  _root := None;
  _repository := None;
  _excludes := None;
  _quiet := false;
  _line_length := 80;
  _hpp_headers := ∅;
  _valid_extensions := ∅;
  stdout := [];
  stderr := []
|}.

Abbreviation P := (M world).

(** The type of the [error] argument of the check functions. *)
Abbreviation error_fn := (str -> lineno -> str -> Z -> str -> P unit).

(** ** Updates of single variables *)

Definition with_lint (f : _CppLintState -> _CppLintState) (w : world) : world :=
  World (f (_cpplint_state w)) (_error_suppressions w) (_global_error_suppressions w) (_root w)
    (_repository w) (_excludes w) (_quiet w) (_line_length w) (_hpp_headers w) (_valid_extensions w)
    (stdout w) (stderr w).
Definition with_suppressions (f : gmap (option str) (gset Z) -> gmap (option str) (gset Z)) (w : world) : world :=
  World (_cpplint_state w) (f (_error_suppressions w)) (_global_error_suppressions w) (_root w)
    (_repository w) (_excludes w) (_quiet w) (_line_length w) (_hpp_headers w) (_valid_extensions w)
    (stdout w) (stderr w).
Definition with_global_suppressions (f : gmap str bool -> gmap str bool) (w : world) : world :=
  World (_cpplint_state w) (_error_suppressions w) (f (_global_error_suppressions w)) (_root w)
    (_repository w) (_excludes w) (_quiet w) (_line_length w) (_hpp_headers w) (_valid_extensions w)
    (stdout w) (stderr w).
Definition with_line_length (n : Z) (w : world) : world :=
  World (_cpplint_state w) (_error_suppressions w) (_global_error_suppressions w) (_root w)
    (_repository w) (_excludes w) (_quiet w) n (_hpp_headers w) (_valid_extensions w)
    (stdout w) (stderr w).
Definition with_root (r : option str) (w : world) : world :=
  World (_cpplint_state w) (_error_suppressions w) (_global_error_suppressions w) r
    (_repository w) (_excludes w) (_quiet w) (_line_length w) (_hpp_headers w) (_valid_extensions w)
    (stdout w) (stderr w).
Definition with_repository (r : option str) (w : world) : world :=
  World (_cpplint_state w) (_error_suppressions w) (_global_error_suppressions w) (_root w)
    r (_excludes w) (_quiet w) (_line_length w) (_hpp_headers w) (_valid_extensions w)
    (stdout w) (stderr w).
Definition with_excludes (e : option (gset str)) (w : world) : world :=
  World (_cpplint_state w) (_error_suppressions w) (_global_error_suppressions w) (_root w)
    (_repository w) e (_quiet w) (_line_length w) (_hpp_headers w) (_valid_extensions w)
    (stdout w) (stderr w).
Definition with_headers (h v : gset str) (w : world) : world :=
  World (_cpplint_state w) (_error_suppressions w) (_global_error_suppressions w) (_root w)
    (_repository w) (_excludes w) (_quiet w) (_line_length w) h v (stdout w) (stderr w).
Definition write_stdout (s : str) (w : world) : world :=
  World (_cpplint_state w) (_error_suppressions w) (_global_error_suppressions w) (_root w)
    (_repository w) (_excludes w) (_quiet w) (_line_length w) (_hpp_headers w) (_valid_extensions w)
    (stdout w ++ [s]) (stderr w).
Definition write_stderr (s : str) (w : world) : world :=
  World (_cpplint_state w) (_error_suppressions w) (_global_error_suppressions w) (_root w)
    (_repository w) (_excludes w) (_quiet w) (_line_length w) (_hpp_headers w) (_valid_extensions w)
    (stdout w) (stderr w ++ [s]).

Definition set_filters (f : list str) (s : _CppLintState) : _CppLintState :=
  LintState (verbose_level s) (error_count s) f (_filters_backup s) (counting s) (errors_by_category s)
    (quiet s) (output_format s) (_junit_errors s) (_junit_failures s).
Definition set_backup (f : list str) (s : _CppLintState) : _CppLintState :=
  LintState (verbose_level s) (error_count s) (filters s) f (counting s) (errors_by_category s)
    (quiet s) (output_format s) (_junit_errors s) (_junit_failures s).
Definition set_counts (n : Z) (m : gmap str Z) (s : _CppLintState) : _CppLintState :=
  LintState (verbose_level s) n (filters s) (_filters_backup s) (counting s) m
    (quiet s) (output_format s) (_junit_errors s) (_junit_failures s).
Definition set_verbose (v : Z) (s : _CppLintState) : _CppLintState :=
  LintState v (error_count s) (filters s) (_filters_backup s) (counting s) (errors_by_category s)
    (quiet s) (output_format s) (_junit_errors s) (_junit_failures s).
Definition set_quiet (q : bool) (s : _CppLintState) : _CppLintState :=
  LintState (verbose_level s) (error_count s) (filters s) (_filters_backup s) (counting s)
    (errors_by_category s) q (output_format s) (_junit_errors s) (_junit_failures s).
Definition set_counting (c : str) (s : _CppLintState) : _CppLintState :=
  LintState (verbose_level s) (error_count s) (filters s) (_filters_backup s) c (errors_by_category s)
    (quiet s) (output_format s) (_junit_errors s) (_junit_failures s).
Definition set_output (o : str) (s : _CppLintState) : _CppLintState :=
  LintState (verbose_level s) (error_count s) (filters s) (_filters_backup s) (counting s)
    (errors_by_category s) (quiet s) o (_junit_errors s) (_junit_failures s).
Definition set_junit (e : list str) (f : list failure) (s : _CppLintState) : _CppLintState :=
  LintState (verbose_level s) (error_count s) (filters s) (_filters_backup s) (counting s)
    (errors_by_category s) (quiet s) (output_format s) e f.

(** Side conditions of a report. *)
Ltac solve_message :=
  split; [cbn beta iota; line_lia | split; [vm_compute; reflexivity |
    repeat match goal with |- context [if ?b then _ else _] => destruct b end; (split; [lia | left; lia])]].

Section Lint.
Context {U : UnicodeDB}.

(** The [_CppLintState] object, read and updated. *)
Definition lint : P _CppLintState := gets _cpplint_state.
Definition upd_lint (f : _CppLintState -> _CppLintState) : P unit := modify (with_lint f).

(** ** File extensions *)

Definition ext_set (val : str) : gset str := list_to_set (map strip (split val ",")).

Definition ProcessHppHeadersOption (val : str) : P unit :=
  modify (fun w => with_headers (ext_set val) (_valid_extensions w) w).

Definition GetHeaderExtensions : P (gset str) :=
  w <- get;;
  ret (if negb (bool_decide (_hpp_headers w = ∅)) then _hpp_headers w
       else if negb (bool_decide (_valid_extensions w = ∅))
       then filter (fun h => contains "h" h = true) (_valid_extensions w)
       else list_to_set (lits ["h"; "hh"; "hpp"; "hxx"; "h++"; "cuh"])).

Definition IsHeaderExtension (file_extension : str) : P bool :=
  hs <- GetHeaderExtensions;; ret (bool_decide (file_extension ∈ hs)).

Definition GetAllExtensions : P (gset str) :=
  hs <- GetHeaderExtensions;;
  w <- get;;
  ret (hs ∪ (if negb (bool_decide (_valid_extensions w = ∅)) then _valid_extensions w
             else list_to_set (lits ["c"; "cc"; "cpp"; "cxx"; "c++"; "cu"]))).

Definition ProcessExtensionsOption (val : str) : P unit :=
  modify (fun w => with_headers (_hpp_headers w) (ext_set val) w).

Definition GetNonHeaderExtensions : P (gset str) :=
  al <- GetAllExtensions;; hs <- GetHeaderExtensions;; ret (al ∖ hs).

Definition _IsSourceExtension (s : str) : P bool :=
  es <- GetNonHeaderExtensions;; ret (bool_decide (s ∈ es)).

(** ** NOLINT suppressions *)

(** [_error_suppressions.setdefault(key, set()).add(linenum)] *)
Definition add_suppression (key : option str) (linenum : Z) : P unit :=
  modify (with_suppressions (fun m => <[key := {[linenum]} ∪ default ∅ (m !! key)]> m)).

Definition _RE_NOLINT : str := "\bNOLINT(NEXTLINE)?\b(\([^)]+\))?".

Definition ParseNolintSuppressions (filename raw_line : str) (linenum : Z) (error : error_fn) : P unit :=
  match Search _RE_NOLINT raw_line with
  | None => ret tt
  | Some matched =>
      let suppressed_line := if nonempty (group_str matched 1) then linenum + 1 else linenum in
      match group matched 2 with
      | None => add_suppression None suppressed_line
      | Some category =>
          if str_eqb category "(*)" then add_suppression None suppressed_line
          else if startswith category "(" && endswith category ")" then
            let category := slice category 1 (-1) in
            if mem_str category _ERROR_CATEGORIES then add_suppression (Some category) suppressed_line
            else when (negb (mem_str category _LEGACY_ERROR_CATEGORIES))
                   (error filename (Some linenum) "readability/nolint" 5
                      ("Unknown NOLINT error category: " ++ category))
          else ret tt
      end
  end.

Definition _SEARCH_C_FILE : str := "\b(?:LINT_C_FILE|vim?:\s*.*(\s*|:)filetype=c(\s*|:|$))".
Definition _SEARCH_KERNEL_FILE : str := "\b(?:LINT_KERNEL_FILE)".

Definition suppress_globally (cats : list str) : P unit :=
  for_each cats (fun c => modify (with_global_suppressions (fun m => <[c := true]> m))).

Definition ProcessGlobalSuppresions (lines : list str) : P unit :=
  for_each lines (fun line =>
    when (SearchB _SEARCH_C_FILE line) (suppress_globally _DEFAULT_C_SUPPRESSED_CATEGORIES);;
    when (SearchB _SEARCH_KERNEL_FILE line) (suppress_globally _DEFAULT_KERNEL_SUPPRESSED_CATEGORIES)).

Definition ResetNolintSuppressions : P unit :=
  modify (with_suppressions (fun _ => ∅));; modify (with_global_suppressions (fun _ => ∅)).

(** [linenum in _error_suppressions.get(key, set())] *)
Definition line_suppressed (w : world) (key : option str) (linenum : lineno) : bool :=
  match linenum with
  | Some n => bool_decide (n ∈ default ∅ (_error_suppressions w !! key))
  | None => false
  end.

Definition suppressed_in (w : world) (category : str) (linenum : lineno) : bool :=
  default false (_global_error_suppressions w !! category)
  || line_suppressed w (Some category) linenum || line_suppressed w None linenum.

Definition IsErrorSuppressedByNolint (category : str) (linenum : lineno) : P bool :=
  gets (fun w => suppressed_in w category linenum).

(** ** The methods of [_CppLintState] *)

Definition SetOutputFormat (f : str) : P unit := upd_lint (set_output f).
Definition SetQuiet (q : bool) : P bool := s <- lint;; upd_lint (set_quiet q);; ret (quiet s).
Definition SetVerboseLevel (level : Z) : P Z :=
  s <- lint;; upd_lint (set_verbose level);; ret (verbose_level s).
Definition SetCountingStyle (c : str) : P unit := upd_lint (set_counting c).

(** A filter is accepted when it starts with [+] or [-]. *)
Definition filter_ok (filt : str) : bool := startswith filt "+" || startswith filt "-".

Definition clean_filters (arg : str) : list str :=
  List.filter nonempty (map strip (split arg ",")).

Definition AddFilters (arg : str) : P unit :=
  upd_lint (fun s => set_filters (filters s ++ clean_filters arg) s);;
  s <- lint;;
  for_each (filters s) (fun filt =>
    when (negb (filter_ok filt))
      (raise (ValueError ("Every filter in --filters must start with + or - (" ++ filt ++ " does not)")))).

Definition SetFilters (arg : str) : P unit :=
  upd_lint (set_filters _DEFAULT_FILTERS);; AddFilters arg.

Definition BackupFilters : P unit := upd_lint (fun s => set_backup (filters s) s).
Definition RestoreFilters : P unit := upd_lint (fun s => set_filters (_filters_backup s) s).

Definition ResetErrorCounts : P unit := upd_lint (set_counts 0 ∅).

Definition bump (m : gmap str Z) (category : str) : gmap str Z :=
  <[category := default 0 (m !! category) + 1]> m.

Definition IncrementErrorCount (category : str) : P unit :=
  upd_lint (fun s =>
    let m :=
      if str_eqb (counting s) "toplevel" || str_eqb (counting s) "detailed" then
        let category := if negb (str_eqb (counting s) "detailed")
                        then default [] (head (split category "/")) else category in
        bump (errors_by_category s) category
      else errors_by_category s in
    set_counts (error_count s + 1) m s).

Definition PrintInfo (message : str) : P unit :=
  w <- get;;
  when (negb (_quiet w) && negb (str_eqb (output_format (_cpplint_state w)) "junit"))
    (modify (write_stdout message)).

Definition PrintError (message : str) : P unit :=
  s <- lint;;
  if str_eqb (output_format s) "junit"
  then upd_lint (fun s => set_junit (_junit_errors s ++ [message]) (_junit_failures s) s)
  else modify (write_stderr message).

Definition AddJUnitFailure (filename : str) (linenum : lineno) (message category : str) (confidence : Z) : P unit :=
  upd_lint (fun s => set_junit (_junit_errors s)
    (_junit_failures s ++ [Failure filename linenum message category confidence]) s).

(** The categories in the order [sorted] gives them. *)
Definition sorted_counts (m : gmap str Z) : list (str * Z) :=
  let ins := fix ins (x : str * Z) (l : list (str * Z)) :=
    match l with
    | [] => [x]
    | y :: l' => if str_ltb (fst x) (fst y) then x :: l else y :: ins x l'
    end in
  fold_right ins [] (map_to_list m).

Definition PrintErrorCounts : P unit :=
  s <- lint;;
  for_each (sorted_counts (errors_by_category s)) (fun '(category, count) =>
    PrintInfo ("Category '" ++ category ++ "' errors found: " ++ str_of_Z count ++ nl));;
  when (0 <? error_count s) (PrintInfo ("Total errors found: " ++ str_of_Z (error_count s) ++ nl)).

(** ** Reporting an error *)

(** One filter applied to the verdict so far; [None] is the failed assertion. *)
Definition apply_filter (category : str) (verdict : option bool) (one_filter : str) : option bool :=
  match verdict with
  | None => None
  | Some is_filtered =>
      if startswith one_filter "-" then
        Some (if startswith category (slice_from one_filter 1) then true else is_filtered)
      else if startswith one_filter "+" then
        Some (if startswith category (slice_from one_filter 1) then false else is_filtered)
      else None
  end.

Definition _ShouldPrintError (category : str) (confidence : Z) (linenum : lineno) : P bool :=
  sup <- IsErrorSuppressedByNolint category linenum;;
  if sup : bool then ret false else
  s <- lint;;
  if confidence <? verbose_level s then ret false else
  is_filtered <- or_raise AssertionError (fold_left (apply_filter category) (filters s) (Some false));;
  ret (negb is_filtered).

Definition show_line (linenum : lineno) : str :=
  match linenum with Some n => str_of_Z n | None => "None" end.

(** What [Error] does with a message it prints, by output format. *)
Definition emit (filename : str) (linenum : lineno) (category : str) (confidence : Z) (message : str) : P unit :=
  s <- lint;;
  if str_eqb (output_format s) "vs7" then
    PrintError (filename ++ "(" ++ show_line linenum ++ "): error cpplint: [" ++ category ++ "] "
                ++ message ++ " [" ++ str_of_Z confidence ++ "]" ++ nl)
  else if str_eqb (output_format s) "eclipse" then
    modify (write_stderr (filename ++ ":" ++ show_line linenum ++ ": warning: " ++ message ++ "  ["
                          ++ category ++ "] [" ++ str_of_Z confidence ++ "]" ++ nl))
  else if str_eqb (output_format s) "junit" then
    AddJUnitFailure filename linenum message category confidence
  else
    modify (write_stderr (filename ++ ":" ++ show_line linenum ++ ":  " ++ message ++ "  ["
                          ++ category ++ "] [" ++ str_of_Z confidence ++ "]" ++ nl)).

Definition Error (filename : str) (linenum : lineno) (category : str) (confidence : Z) (message : str) : P unit :=
  b <- _ShouldPrintError category confidence linenum;;
  when b (IncrementErrorCount category;; emit filename linenum category confidence message).

(** ** Filters: the last filter that applies decides *)

Definition filter_applies (category filt : str) : bool := startswith category (slice_from filt 1).

(** The reference: look at the filters from the last to the first; the first one found that is a
    prefix of the category lets the message pass if it starts with [+]; a message no filter is about passes. *)
Definition passes_filters (category : str) (fs : list str) : bool :=
  match List.find (filter_applies category) (rev fs) with
  | Some f => startswith f "+"
  | None => true
  end.

Definition filters_wf (s : _CppLintState) : Prop :=
  Forall (fun f => filter_ok f = true) (filters s) /\
  Forall (fun f => filter_ok f = true) (_filters_backup s).

Lemma filter_ok_sign f : filter_ok f = true -> startswith f "-" = negb (startswith f "+").
Proof.
  unfold filter_ok, lit. destruct f as [|c f]; [done|]. simpl. rewrite !andb_true_r.
  destruct (N.eqb_spec 43 c), (N.eqb_spec 45 c); subst; done.
Qed.

Lemma fold_filters category fs :
  Forall (fun f => filter_ok f = true) fs ->
  fold_left (apply_filter category) fs (Some false) = Some (negb (passes_filters category fs)).
Proof.
  induction fs as [|f fs IH] using rev_ind; intros Hf; [done|].
  apply Forall_app in Hf as [Hfs Hf]. apply Forall_inv in Hf.
  rewrite fold_left_app, IH by done. cbn [fold_left]. unfold apply_filter, passes_filters.
  rewrite rev_app_distr. cbn [rev app List.find]. fold (filter_applies category f).
  rewrite (filter_ok_sign f Hf).
  destruct (filter_applies category f); by destruct (startswith f "+").
Qed.

(** Whether a message is printed, as a function of the state. *)
Definition printed (w : world) (category : str) (confidence : Z) (linenum : lineno) : bool :=
  negb (suppressed_in w category linenum)
  && (verbose_level (_cpplint_state w) <=? confidence)
  && passes_filters category (filters (_cpplint_state w)).

Lemma ShouldPrintError_eq w category confidence linenum :
  filters_wf (_cpplint_state w) ->
  _ShouldPrintError category confidence linenum w = (Ok (printed w category confidence linenum), w).
Proof.
  intros [Hf _]. unfold _ShouldPrintError, IsErrorSuppressedByNolint, lint, printed, bind, gets. simpl.
  destruct (suppressed_in w category linenum); [done|]. simpl.
  rewrite Z.leb_antisym. destruct (confidence <? _); [done|]. simpl.
  rewrite fold_filters by done. simpl. by rewrite negb_involutive.
Qed.

(** C7. Which messages are printed: [_ShouldPrintError] answers yes exactly when no NOLINT comment or global
    directive suppresses the category on that line, the confidence reaches the verbosity level, and the
    last filter that is a prefix of the category (if any) starts with a plus sign.  It changes nothing and,
    given filters that [AddFilters] accepted, its internal assertion never fails. *)
Theorem ShouldPrintError_spec w category confidence linenum
    (Hf : filters_wf (_cpplint_state w)) :
  _ShouldPrintError category confidence linenum w =
  (Ok (negb (suppressed_in w category linenum)
       && (verbose_level (_cpplint_state w) <=? confidence)
       && passes_filters category (filters (_cpplint_state w))), w).
Proof. by apply ShouldPrintError_eq. Qed.

(** ** Accepting filters *)

Definition filter_error (filt : str) : exn :=
  ValueError ("Every filter in --filters must start with + or - (" ++ filt ++ " does not)").

Lemma check_filters (fs : list str) (w : world) :
  for_each fs (fun filt => when (negb (filter_ok filt)) (raise (filter_error filt))) w =
  (match List.find (fun f => negb (filter_ok f)) fs with
   | Some bad => Raise (filter_error bad) | None => Ok tt end, w).
Proof.
  induction fs as [|f fs IH]; [done|]. simpl. unfold bind, when.
  destruct (filter_ok f); simpl; [apply IH | done].
Qed.

Lemma AddFilters_eq arg w :
  AddFilters arg w =
  (match List.find (fun f => negb (filter_ok f)) (filters (_cpplint_state w) ++ clean_filters arg) with
   | Some bad => Raise (filter_error bad) | None => Ok tt end,
   with_lint (fun s => set_filters (filters s ++ clean_filters arg) s) w).
Proof. unfold AddFilters, upd_lint, lint, bind, modify, gets. simpl. apply check_filters. Qed.

(** What [AddFilters] complains of is one of the new filters, if the ones there are in order. *)
Lemma AddFilters_bad arg w e w' :
  filters_wf (_cpplint_state w) -> AddFilters arg w = (Raise e, w') ->
  exists bad, e = filter_error bad /\ bad ∈ clean_filters arg /\ filter_ok bad = false.
Proof.
  intros [Hf _]. rewrite AddFilters_eq. destruct (List.find _ _) as [bad|] eqn:E; [|done]. intros [= <- _]. exists bad.
  apply List.find_some in E as [Hin Hbad%negb_true_iff]. split; [done|]. split; [|done].
  apply list_elem_of_In, elem_of_app in Hin as [Hin|Hin]; [|done]. rewrite Forall_forall in Hf. specialize (Hf _ Hin). cbv beta in Hf. congruence.
Qed.

Lemma find_bad_none fs :
  List.find (fun f => negb (filter_ok f)) fs = None <-> Forall (fun f => filter_ok f = true) fs.
Proof.
  induction fs as [|f fs IH]; simpl; [by split; constructor|].
  rewrite Forall_cons, <- IH. destruct (filter_ok f); simpl; split; [tauto | tauto | done | by intros []].
Qed.

(** Setting the filters: [SetFilters] replaces the filters by the default ones followed by the trimmed,
    non-empty entries of its comma-separated argument, and succeeds exactly when every one of them starts
    with a sign; otherwise it raises [ValueError] about the first offender, with the new (ill-formed) list left
    in place. *)
Theorem SetFilters_spec arg w :
  SetFilters arg w =
  (match List.find (fun f => negb (filter_ok f)) (clean_filters arg) with
   | Some bad => Raise (filter_error bad) | None => Ok tt end,
   with_lint (set_filters (_DEFAULT_FILTERS ++ clean_filters arg)) w).
Proof.
  unfold SetFilters, upd_lint, bind, modify. simpl. by rewrite AddFilters_eq.
Qed.

(** ** Counters *)

Definition category_sum (m : gmap str Z) : Z := map_fold (fun _ v acc => v + acc) 0 m.

Lemma category_sum_insert m k v :
  m !! k = None -> category_sum (<[k := v]> m) = v + category_sum m.
Proof. intros H. unfold category_sum. rewrite map_fold_insert_L; [done | intros; lia | done]. Qed.

Lemma category_sum_bump m k : category_sum (bump m k) = category_sum m + 1.
Proof.
  unfold bump. destruct (m !! k) as [v|] eqn:E; simpl.
  - rewrite <- (insert_delete_id m k v E) at 2.
    rewrite <- insert_delete_eq, !category_sum_insert by (apply lookup_delete_eq). lia.
  - rewrite category_sum_insert by done. lia.
Qed.

(** Counting by category is on. *)
Definition counts_categories (s : _CppLintState) : bool :=
  str_eqb (counting s) "toplevel" || str_eqb (counting s) "detailed".

Definition counts_ok (w : world) : Prop :=
  let s := _cpplint_state w in
  (if counts_categories s then category_sum (errors_by_category s) = error_count s
   else errors_by_category s = ∅) /\ 0 <= error_count s.

Lemma keeps_lint I : keeps I lint.
Proof. apply keeps_gets. Qed.

Lemma keeps_lint_update (I : _CppLintState -> Prop) f :
  (forall s, I s -> I (f s)) -> keeps (fun w => I (_cpplint_state w)) (upd_lint f).
Proof. intros H. apply keeps_modify. intros w Hw. by apply H. Qed.

Lemma IncrementErrorCount_counts category : keeps counts_ok (IncrementErrorCount category).
Proof.
  apply keeps_modify. intros w [H Hp]. unfold counts_ok in *. simpl.
  unfold counts_categories in *. simpl in *.
  destruct (str_eqb (counting (_cpplint_state w)) "toplevel" || str_eqb (counting (_cpplint_state w)) "detailed");
    (split; [|lia]); [by rewrite category_sum_bump, H | done].
Qed.

Lemma lint_update_counts f :
  (forall s, counting (f s) = counting s /\ errors_by_category (f s) = errors_by_category s /\
             error_count (f s) = error_count s) -> keeps counts_ok (upd_lint f).
Proof.
  intros H. apply keeps_modify. intros w [Hw Hp]. unfold counts_ok, counts_categories in *. simpl.
  destruct (H (_cpplint_state w)) as (-> & -> & ->). done.
Qed.

Lemma write_counts f : (forall w, _cpplint_state (f w) = _cpplint_state w) -> keeps counts_ok (modify f).
Proof. intros H. apply keeps_modify. intros w Hw. unfold counts_ok. by rewrite H. Qed.

Lemma PrintError_counts message : keeps counts_ok (PrintError message).
Proof. unfold PrintError. keeps_walk; [apply keeps_lint | by apply lint_update_counts | by apply write_counts]. Qed.

Lemma emit_counts filename linenum category confidence message :
  keeps counts_ok (emit filename linenum category confidence message).
Proof.
  unfold emit, AddJUnitFailure. keeps_walk; auto using keeps_lint, PrintError_counts, write_counts.
  by apply lint_update_counts.
Qed.

Lemma Error_counts filename linenum category confidence message :
  keeps counts_ok (Error filename linenum category confidence message).
Proof.
  unfold Error, _ShouldPrintError, IsErrorSuppressedByNolint, lint.
  keeps_walk; auto using IncrementErrorCount_counts, emit_counts.
Qed.

(** The statistics add up: after [ResetErrorCounts], any sequence of reported errors keeps the total number of
    errors equal to the sum of the per-category counters when categories are counted (by top level or in
    detail), and leaves the per-category table empty when only the total is. *)
Theorem error_counts_add_up (errors : list (str * lineno * str * Z * str)) w :
  let run := ResetErrorCounts;;
             for_each errors (fun '(f, l, c, k, m) => Error f l c k m) in
  let s := _cpplint_state (snd (run w)) in
  (if counts_categories s then category_sum (errors_by_category s) = error_count s
   else errors_by_category s = ∅) /\ 0 <= error_count s.
Proof.
  cbv zeta.
  assert (Hreset : counts_ok (snd (ResetErrorCounts w))).
  { unfold counts_ok. simpl. split; [|done]. by destruct (counts_categories _). }
  refine (keeps_for_each counts_ok errors _ _ _ Hreset).
  intros [[[[f l] c] k] m] _. apply Error_counts.
Qed.

(** ** Backup and restore *)

Definition backup_is (b : list str) (w : world) : Prop := _filters_backup (_cpplint_state w) = b.

Lemma AddFilters_backup b arg : keeps (backup_is b) (AddFilters arg).
Proof. intros w Hw. by rewrite AddFilters_eq. Qed.

(** Filters are restored: whatever a file's configuration adds to the filters between [BackupFilters] and
    [RestoreFilters] (also when the additions raise), the filters after the restore are those before the
    backup. *)
Theorem RestoreFilters_roundtrip (cfg_filters : list str) w :
  let during := for_each cfg_filters AddFilters in
  filters (_cpplint_state (snd ((BackupFilters;; catch during (fun _ => ret tt);; RestoreFilters) w)))
  = filters (_cpplint_state w).
Proof.
  cbv zeta. set (b := filters (_cpplint_state w)).
  assert (Hk : keeps (backup_is b) (catch (for_each cfg_filters AddFilters) (fun _ => ret tt))).
  { apply keeps_catch; [|by keeps_walk]. apply keeps_for_each. intros; apply AddFilters_backup. }
  specialize (Hk (snd (BackupFilters w)) eq_refl).
  unfold bind at 1. unfold BackupFilters at 1, upd_lint at 1, modify at 1. unfold bind.
  change (with_lint (fun s => set_backup (filters s) s) w) with (snd (BackupFilters w)).
  unfold catch in *. destruct (for_each cfg_filters AddFilters (snd (BackupFilters w))) as [[[]|e] w1]; exact Hk.
Qed.

(** ** File extensions *)

(** The known extensions are split in two: [GetAllExtensions] is the union of the header extensions and of
    the other extensions, which have nothing in common, and [_IsSourceExtension] and [IsHeaderExtension] are never
    both true; asking changes nothing. *)
Theorem extensions_partition w ext :
  exists hs srcs,
    GetHeaderExtensions w = (Ok hs, w) /\ GetNonHeaderExtensions w = (Ok srcs, w) /\
    GetAllExtensions w = (Ok (hs ∪ srcs), w) /\ hs ## srcs /\
    IsHeaderExtension ext w = (Ok (bool_decide (ext ∈ hs)), w) /\
    _IsSourceExtension ext w = (Ok (bool_decide (ext ∈ srcs)), w).
Proof.
  eexists _, _. split; [reflexivity|]. split; [reflexivity|]. split.
  - unfold GetAllExtensions, bind. simpl. set (hs := if negb _ then _ else _). set (al := if negb _ then _ else _).
    assert (hs ∪ al = hs ∪ (hs ∪ al) ∖ hs) as <-; [|done]. apply set_eq. intros x.
    destruct (decide (x ∈ hs)); set_solver.
  - split; [set_solver | by split].
Qed.

(** ** Reporting *)

(** Everything reported so far: lines on standard error and entries kept for the JUnit report. *)
Definition reports (w : world) : nat :=
  (length (stderr w) + length (_junit_errors (_cpplint_state w)) + length (_junit_failures (_cpplint_state w)))%nat.

Lemma emit_reports filename linenum category confidence message w :
  exists w', emit filename linenum category confidence message w = (Ok tt, w') /\
    reports w' = S (reports w) /\ error_count (_cpplint_state w') = error_count (_cpplint_state w) /\
    filters (_cpplint_state w') = filters (_cpplint_state w) /\
    _filters_backup (_cpplint_state w') = _filters_backup (_cpplint_state w).
Proof.
  unfold emit, PrintError, AddJUnitFailure, lint, upd_lint, bind, gets, modify. simpl.
  repeat split_if; eexists; (split; [reflexivity|]); unfold reports; simpl; repeat split; len_lia.
Qed.

Lemma Error_outcome w filename linenum category confidence message
    (Hf : filters_wf (_cpplint_state w)) :
  exists w', Error filename linenum category confidence message w = (Ok tt, w') /\
    filters_wf (_cpplint_state w') /\
    if printed w category confidence linenum
    then error_count (_cpplint_state w') = error_count (_cpplint_state w) + 1 /\ reports w' = S (reports w)
    else w' = w.
Proof.
  unfold Error, bind. rewrite ShouldPrintError_eq by done.
  destruct (printed w category confidence linenum); [|by exists w].
  unfold when, IncrementErrorCount, upd_lint, modify.
  match goal with |- context [with_lint ?f w] => set (w1 := with_lint f w) end.
  destruct (emit_reports filename linenum category confidence message w1) as (w2 & -> & Hr & Hc & Hfl & Hb).
  exists w2. split; [done|]. unfold filters_wf. rewrite Hfl, Hb, Hc, Hr. done.
Qed.

(** Reporting: with well-formed filters [Error] never raises; a message that is to be printed adds one to the
    error count and exactly one report (a line of output or a JUnit entry) in every output format, and any other
    message leaves the state untouched. *)
Theorem Error_spec w filename linenum category confidence message
    (Hf : filters_wf (_cpplint_state w)) :
  exists w', Error filename linenum category confidence message w = (Ok tt, w') /\
    filters_wf (_cpplint_state w') /\
    if printed w category confidence linenum
    then error_count (_cpplint_state w') = error_count (_cpplint_state w) + 1 /\ reports w' = S (reports w)
    else w' = w.
Proof. by apply Error_outcome. Qed.

(** ** Calls that reach the filters *)

Inductive lint_call : Type :=
| CallSetFilters (arg : str)
| CallAddFilters (arg : str)
| CallBackup
| CallRestore
| CallError (filename : str) (linenum : lineno) (category : str) (confidence : Z) (message : str)
| CallVerbose (level : Z)
| CallReset.

Definition run_call (c : lint_call) : P unit :=
  match c with
  | CallSetFilters arg => SetFilters arg
  | CallAddFilters arg => AddFilters arg
  | CallBackup => BackupFilters
  | CallRestore => RestoreFilters
  | CallError f l c k m => Error f l c k m
  | CallVerbose v => SetVerboseLevel v;; ret tt
  | CallReset => ResetErrorCounts
  end.

(** One call that ended normally. *)
Inductive lint_step : world -> world -> Prop :=
| lint_step_call c w w' : run_call c w = (Ok tt, w') -> lint_step w w'.

Lemma AddFilters_wf arg w w' :
  filters_wf (_cpplint_state w) -> AddFilters arg w = (Ok tt, w') -> filters_wf (_cpplint_state w').
Proof.
  intros [Hf Hb]. rewrite AddFilters_eq. destruct (List.find _ _) eqn:E; [done|].
  apply find_bad_none in E. intros [= <-]. by split.
Qed.

Lemma lint_step_wf w w' : lint_step w w' -> filters_wf (_cpplint_state w) -> filters_wf (_cpplint_state w').
Proof.
  intros [c w0 w1 H] Hw. destruct c; simpl in H.
  - unfold SetFilters, bind in H. simpl in H. eapply AddFilters_wf; [|exact H].
    destruct Hw. split; [repeat constructor | done].
  - by eapply AddFilters_wf.
  - injection H as <-. destruct Hw. by split.
  - injection H as <-. destruct Hw. by split.
  - destruct (Error_outcome w0 filename linenum category confidence message Hw) as (w2 & H2 & Hwf & _). congruence.
  - injection H as <-. done.
  - injection H as <-. done.
Qed.

Lemma lint_steps_wf w w' : rtc lint_step w w' -> filters_wf (_cpplint_state w) -> filters_wf (_cpplint_state w').
Proof. induction 1; eauto using lint_step_wf. Qed.

(** C18. The assertion in [_ShouldPrintError] is unreachable: in every state reached from the initial one by calls that
    set, add, back up, restore filters, report errors, change the verbosity or reset the counters, and that
    ended normally, reporting any error ends normally too. *)
Theorem Error_never_asserts w filename linenum category confidence message
    (Hr : rtc lint_step world_init w) :
  exists w', Error filename linenum category confidence message w = (Ok tt, w').
Proof.
  assert (Hf : filters_wf (_cpplint_state w)).
  { eapply lint_steps_wf; [done|]. split; repeat constructor. }
  destruct (Error_outcome w filename linenum category confidence message Hf) as (w' & H & _). eauto.
Qed.

(** ** NOLINT comments *)

(** The comment found on a line: whether it speaks of the next line, and its argument with its parentheses. *)
Definition nolint_directive (raw_line : str) : option (bool * option str) :=
  match Search _RE_NOLINT raw_line with
  | Some m => Some (nonempty (group_str m 1), group m 2)
  | None => None
  end.

(** The categories an argument stands for: all of them, or one known category. *)
Definition nolint_covers (arg : option str) (category : str) : bool :=
  match arg with
  | None => true
  | Some a => str_eqb a "(*)" || str_eqb a ("(" ++ category ++ ")") && mem_str category _ERROR_CATEGORIES
  end.

Definition nolint_known (arg : option str) : bool :=
  match arg with
  | None => true
  | Some a => str_eqb a "(*)" || existsb (fun c => str_eqb a ("(" ++ c ++ ")"))
                                   (_ERROR_CATEGORIES ++ _LEGACY_ERROR_CATEGORIES)
  end.

Lemma group2_parens raw_line m a :
  Search _RE_NOLINT raw_line = Some m -> group m 2 = Some a -> exists u, a = "(" ++ u ++ ")".
Proof.
  intros H Ha. eapply Search_group in H as (b & Hb & Hs); [|by vm_compute|done|exact Ha].
  vm_compute in Hb. apply list_elem_of_singleton in Hb as ->.
  apply spells_seq in Hs as (u1 & v1 & -> & H1%spells_char & Hs).
  apply spells_seq in Hs as (u2 & v2 & -> & _ & Hs).
  apply spells_seq in Hs as (u3 & v3 & -> & H3%spells_char & H4%spells_empty).
  exists u2. by subst.
Qed.

Lemma line_suppressed_add w key n key' l :
  line_suppressed (snd (add_suppression key n w)) key' l =
  line_suppressed w key' l || bool_decide (key' = key) && bool_decide (l = Some n).
Proof.
  unfold line_suppressed. destruct l as [l|]; [|by rewrite andb_comm].
  simpl. destruct (decide (key' = key)) as [->|Hne].
  - rewrite lookup_insert_eq. simpl. rewrite (bool_decide_eq_true_2 (key = key)) by done. simpl.
    apply eq_bool_prop_intro. rewrite orb_True, !bool_decide_spec. set_solver.
  - rewrite lookup_insert_ne by done. by rewrite (bool_decide_eq_false_2 (key' = key)), orb_false_r by done.
Qed.

(** Adding a suppression for a known category or for all of them. *)
Lemma suppressed_add w key n category l :
  suppressed_in (snd (add_suppression key n w)) category l =
  suppressed_in w category l
  || bool_decide (l = Some n) && match key with None => true | Some c => bool_decide (category = c) end.
Proof.
  unfold suppressed_in. rewrite !line_suppressed_add. simpl.
  destruct (default false (_global_error_suppressions w !! category)); [done|]. simpl.
  destruct key as [c|].
  - rewrite (bool_decide_eq_false_2 (None = Some c)) by done. simpl.
    rewrite (bool_decide_ext (Some category = Some c) (category = c)) by (split; congruence).
    destruct (line_suppressed w (Some category) l), (line_suppressed w None l), (bool_decide (l = Some n)),
      (bool_decide (category = c)); done.
  - rewrite (bool_decide_eq_false_2 (Some category = None)) by done. simpl.
    destruct (line_suppressed w (Some category) l), (line_suppressed w None l), (bool_decide (l = Some n)); done.
Qed.

Lemma parens_inj (u v : str) : "(" ++ u ++ ")" = "(" ++ v ++ ")" -> u = v.
Proof. intros [= H]. by apply app_inv_tail in H. Qed.

Lemma parens_eqb (u v : str) : str_eqb ("(" ++ u ++ ")") ("(" ++ v ++ ")") = bool_decide (v = u).
Proof.
  unfold str_eqb. apply bool_decide_ext. split; [intros H%parens_inj | intros ->]; done.
Qed.

Lemma inner_arg u : slice ("(" ++ u ++ ")") 1 (-1) = u.
Proof. apply slice_inner. Qed.

Lemma known_arg u :
  existsb (fun c => str_eqb ("(" ++ u ++ ")") ("(" ++ c ++ ")")) (_ERROR_CATEGORIES ++ _LEGACY_ERROR_CATEGORIES)
  = mem_str u _ERROR_CATEGORIES || mem_str u _LEGACY_ERROR_CATEGORIES.
Proof.
  rewrite existsb_app. f_equal; apply eq_bool_prop_intro; unfold mem_str; rewrite bool_decide_spec;
    (split; [intros (c & Hc & E%str_eqb_eq%parens_inj)%Is_true_true%existsb_exists; subst; by apply list_elem_of_In
            |intros H; apply Is_true_true, existsb_exists; exists u; split; [by apply list_elem_of_In | apply str_eqb_refl]]).
Qed.

Lemma covers_arg u category :
  str_eqb ("(" ++ u ++ ")") ("(" ++ category ++ ")") && mem_str category _ERROR_CATEGORIES
  = bool_decide (category = u) && mem_str category _ERROR_CATEGORIES.
Proof. by rewrite parens_eqb. Qed.

Lemma covers_known arg category : nolint_covers arg category = true -> nolint_known arg = true.
Proof.
  unfold nolint_covers, nolint_known. destruct arg as [a|]; [|done]. rewrite !orb_true_iff, andb_true_iff. intros [?|[E Hc]]; [by left | right].
  apply existsb_exists. exists category. split; [|done]. apply list_elem_of_In, elem_of_app. left. by apply bool_decide_eq_true in Hc.
Qed.

Lemma ParseNolintSuppressions_eq filename raw_line linenum (error : error_fn) w :
  match nolint_directive raw_line with
  | None => ParseNolintSuppressions filename raw_line linenum error w = (Ok tt, w)
  | Some (next, arg) =>
      if nolint_known arg then
        exists f, let w' := with_suppressions f w in ParseNolintSuppressions filename raw_line linenum error w = (Ok tt, w') /\
          forall category l,
            suppressed_in w' category l =
            suppressed_in w category l
            || bool_decide (l = Some (if next then linenum + 1 else linenum)) && nolint_covers arg category
      else
        ParseNolintSuppressions filename raw_line linenum error w =
        error filename (Some linenum) "readability/nolint" 5
          ("Unknown NOLINT error category: " ++ slice (default [] arg) 1 (-1)) w
  end.
Proof.
  unfold nolint_directive, ParseNolintSuppressions.
  destruct (Search _RE_NOLINT raw_line) as [m|] eqn:Es; [|done].
  set (target := if nonempty (group_str m 1) then linenum + 1 else linenum).
  unfold nolint_known, nolint_covers. destruct (group m 2) as [a|] eqn:Ea; cbv beta iota.
  2: { eexists. split; [reflexivity|]. intros category l. by rewrite (suppressed_add w None target). }
  destruct (group2_parens _ _ _ Es Ea) as [u ->].
  destruct (str_eqb ("(" ++ u ++ ")") "(*)") eqn:Estar; rewrite ?orb_true_l, ?orb_false_l.
  { eexists. split; [reflexivity|]. intros category l. by rewrite (suppressed_add w None target). }
  rewrite (proj2 (startswith_iff ("(" ++ u ++ ")") "(")) by (by exists (u ++ ")")).
  rewrite (proj2 (endswith_iff ("(" ++ u ++ ")") ")")) by (exists ("(" ++ u); by rewrite app_assoc).
  rewrite andb_true_l, known_arg. cbv beta iota delta [default id]. rewrite !inner_arg.
  destruct (mem_str u _ERROR_CATEGORIES) eqn:Eu; rewrite ?orb_true_l, ?orb_false_l.
  - eexists. split; [reflexivity|]. intros category l.
    rewrite (suppressed_add w (Some u) target), covers_arg, orb_false_l. do 2 f_equal.
    destruct (decide (category = u)) as [->|]; [by rewrite Eu, andb_true_r | by rewrite bool_decide_eq_false_2].
  - destruct (mem_str u _LEGACY_ERROR_CATEGORIES) eqn:El; [|done].
    exists (fun m => m). replace (with_suppressions (fun m => m) w) with w by (by destruct w).
    split; [done|]. intros category l. rewrite covers_arg, orb_false_l.
    destruct (decide (category = u)) as [->|]; [by rewrite Eu, !andb_false_r, orb_false_r|].
    by rewrite (bool_decide_eq_false_2 (category = u)), andb_false_l, andb_false_r, orb_false_r by done.
Qed.

(** C20. What a NOLINT comment does: without one, [ParseNolintSuppressions] does nothing; a comment whose argument is
    missing, [*], or a known category suppresses exactly that (everything, or the one category) on exactly
    one line, its own or, for NOLINTNEXTLINE, the next, on top of what was suppressed before; a category
    that is neither current nor legacy is reported, once, and suppresses nothing. *)
Theorem ParseNolintSuppressions_spec filename raw_line linenum (error : error_fn) w :
  match nolint_directive raw_line with
  | None => ParseNolintSuppressions filename raw_line linenum error w = (Ok tt, w)
  | Some (next, arg) =>
      if nolint_known arg then
        exists w', ParseNolintSuppressions filename raw_line linenum error w = (Ok tt, w') /\
          forall category l,
            suppressed_in w' category l =
            suppressed_in w category l
            || bool_decide (l = Some (if next then linenum + 1 else linenum)) && nolint_covers arg category
      else
        ParseNolintSuppressions filename raw_line linenum error w =
        error filename (Some linenum) "readability/nolint" 5
          ("Unknown NOLINT error category: " ++ slice (default [] arg) 1 (-1)) w
  end.
Proof.
  pose proof (ParseNolintSuppressions_eq filename raw_line linenum error w) as H. destruct (nolint_directive raw_line) as [[next arg]|]; [|done].
  destruct (nolint_known arg); [|done]. destruct H as (f & H1 & H2). eauto.
Qed.

(** A reset forgets every suppression: after [ResetNolintSuppressions] no category is suppressed on any line. *)
Theorem ResetNolintSuppressions_spec w category linenum :
  IsErrorSuppressedByNolint category linenum (snd (ResetNolintSuppressions w)) =
  (Ok false, snd (ResetNolintSuppressions w)).
Proof. unfold IsErrorSuppressedByNolint, gets, suppressed_in, line_suppressed. simpl. by destruct linenum. Qed.

(** ** What the checks promise, and what they ask of the error function

    A check only reports well-formed messages about the file it is given: about one of its [N] lines (their numbers begin with 0, which stands for the
    file as a whole too) or, in the category build/include only, without a line, in a category of [_ERROR_CATEGORIES], with a confidence between 0 and 5 (below 0 only for long functions, when the
    verbosity is negative).  A check that is given a reporter for such messages keeps
    every property of the module state that the reporter and new suppressions keep, and raises nothing but what the reporter raises.  The checks
    of a whole file moreover forget the suppressions of the file before, and suppress categories for all lines. *)
Definition message_ok (N : Z) (linenum : option Z) (category : str) (confidence : Z) : Prop :=
  match linenum with Some n => 0 <= n < N | None => category = "build/include" end /\
  mem_str category _ERROR_CATEGORIES = true /\ confidence <= 5 /\ (0 <= confidence \/ category = "readability/fn_size").

#[export] Instance message_ok_dec N linenum category confidence : Decision (message_ok N linenum category confidence).
Proof. unfold message_ok. destruct linenum; apply _. Defined.

Class Reporter (N : Z) (filename : str) (I : world -> Prop) (X : exn -> Prop) (error : error_fn) : Prop := {
  report_runs l k n m : message_ok N l k n -> runs I X (error filename l k n m) (fun _ => True);
  suppress_line key n w : I w -> I (snd (add_suppression key n w))
}.

Class FileReporter (N : Z) (filename : str) (I : world -> Prop) (X : exn -> Prop) (error : error_fn) : Prop := {
  #[global] line_reporter :: Reporter N filename I X error;
  forget_lines w : I w -> I (with_suppressions (fun _ => ∅) w);
  suppress_file f w : I w -> I (with_global_suppressions f w)
}.

Section Checks.
Context (N : Z) (filename : str) (I : world -> Prop) (X : exn -> Prop) (error : error_fn) {R : Reporter N filename I X error}.

Lemma lint_runs : runs I X lint (fun _ => True).
Proof. apply runs_gets. Qed.

Lemma ParseNolintSuppressions_runs raw_line linenum :
  0 <= linenum < N -> runs I X (ParseNolintSuppressions filename raw_line linenum error) (fun _ => True).
Proof.
  intros Hl. assert (Hadd : forall k n, runs I X (add_suppression k n) (fun _ => True))
    by (intros k n w Hw; split; [by apply suppress_line | done]).
  unfold ParseNolintSuppressions. runs_walk. apply report_runs. solve_message.
Qed.

Section Whole.
Context {F : FileReporter N filename I X error}.

Lemma ProcessGlobalSuppresions_runs lines : runs I X (ProcessGlobalSuppresions lines) (fun _ => True).
Proof.
  assert (Hs : forall cs, runs I X (suppress_globally cs) (fun _ => True)).
  { intros cs. apply runs_for_each. intros; apply runs_modify. intros; by apply suppress_file. }
  unfold ProcessGlobalSuppresions. runs_walk.
Qed.

Lemma ResetNolintSuppressions_runs : runs I X ResetNolintSuppressions (fun _ => True).
Proof.
  eapply runs_bind; [apply runs_modify; intros; by apply forget_lines|]. intros _ _.
  apply runs_modify; intros; by apply suppress_file.
Qed.
End Whole.

Lemma GetHeaderExtensions_runs : runs I X GetHeaderExtensions (fun _ => True).
Proof. unfold GetHeaderExtensions. runs_walk. Qed.

Lemma GetAllExtensions_runs : runs I X GetAllExtensions (fun _ => True).
Proof. pose proof GetHeaderExtensions_runs. unfold GetAllExtensions. runs_walk. Qed.

Lemma GetNonHeaderExtensions_runs : runs I X GetNonHeaderExtensions (fun _ => True).
Proof. pose proof GetHeaderExtensions_runs. pose proof GetAllExtensions_runs. unfold GetNonHeaderExtensions. runs_walk. Qed.

Lemma IsHeaderExtension_runs e : runs I X (IsHeaderExtension e) (fun _ => True).
Proof. pose proof GetHeaderExtensions_runs. unfold IsHeaderExtension. runs_walk. Qed.

Lemma _IsSourceExtension_runs e : runs I X (_IsSourceExtension e) (fun _ => True).
Proof. pose proof GetNonHeaderExtensions_runs. unfold _IsSourceExtension. runs_walk. Qed.

End Checks.

End Lint.

#[export] Hint Extern 1 (message_ok _ _ _ _) => solve_message : runs.
#[export] Hint Resolve report_runs lint_runs ParseNolintSuppressions_runs ProcessGlobalSuppresions_runs
  ResetNolintSuppressions_runs GetHeaderExtensions_runs GetAllExtensions_runs GetNonHeaderExtensions_runs IsHeaderExtension_runs
  _IsSourceExtension_runs : runs.

(** ** Instances *)

Lemma Error_spec_witness :
  filters_wf _CppLintState_init /\
  exists w', Error "a.cc" (Some 3) "whitespace/tab" 1 "Tab found; better to use spaces" world_init = (Ok tt, w') /\
    reports w' = 1%nat.
Proof.
  assert (Hf : filters_wf _CppLintState_init) by (split; repeat constructor).
  split; [exact Hf|].
  destruct (Error_spec world_init "a.cc" (Some 3) "whitespace/tab" 1 "Tab found; better to use spaces" Hf)
    as (w' & H & _ & Hp).
  exists w'. split; [exact H|]. exact (proj2 Hp).
Defined.

Lemma ShouldPrintError_spec_witness :
  filters_wf _CppLintState_init /\
  fst (_ShouldPrintError "build/include_alpha" 4 (Some 3) world_init) = Ok false.
Proof.
  assert (Hf : filters_wf _CppLintState_init) by (split; repeat constructor).
  split; [exact Hf|].
  rewrite (ShouldPrintError_spec world_init "build/include_alpha" 4 (Some 3) Hf). reflexivity.
Defined.

Lemma Error_never_asserts_witness :
  exists w w', rtc lint_step world_init w /\ Error "a.h" (Some 1) "build/include" 5 "x" w = (Ok tt, w').
Proof.
  set (w := snd (SetFilters "-whitespace,+build" world_init)).
  assert (Hr : rtc lint_step world_init w).
  { apply rtc_once. apply (lint_step_call (CallSetFilters "-whitespace,+build")). vm_compute. reflexivity. }
  destruct (Error_never_asserts w "a.h" (Some 1) "build/include" 5 "x" Hr) as (w' & H).
  exists w, w'. split; [exact Hr | exact H].
Defined.
