(* ===== verification/JUnit.v ===== *)
(** * The JUnit report

    Models [_CppLintState.FormatJUnitXML] of cpplint.py: the tree it builds, and the text [xml.etree.ElementTree.tostring] makes of it
    (with the escapes of Python 3.9 and later). *)

From S2P Require Import Prelude PyStr PyRe PyEff Tables Regexps Lint.

Local Open Scope Z_scope.

(** ** Elements *)

Inductive element : Type :=
| Element (tag : str) (attrib : list (str * str)) (text : str) (children : list element).

Section JUnit.
Context {U : UnicodeDB}.

Definition escape_cdata1 (c : N) : str :=
  if (c =? ch "&")%N then lit "&amp;" else if (c =? ch "<")%N then lit "&lt;" else if (c =? ch ">")%N then lit "&gt;" else [c].
Definition escape_attrib1 (c : N) : str :=
  if (c =? ch "`")%N then lit "&quot;" else if (c =? c_cr)%N then lit "&#13;" else if (c =? c_nl)%N then lit "&#10;"
  else if (c =? c_tab)%N then lit "&#09;" else escape_cdata1 c.
Definition _escape_cdata (text : str) : str := concat (map escape_cdata1 text).
Definition _escape_attrib (text : str) : str := concat (map escape_attrib1 text).

(** An element without text or children is closed at once. *)
Fixpoint tostring (e : element) : str :=
  match e with
  | Element tag attrib text children =>
      let head := "<" ++ tag ++ concat (map (fun kv => " " ++ fst kv ++ "=`" ++ _escape_attrib (snd kv) ++ "`") attrib) in
      if nonempty text || nonempty children
      then head ++ ">" ++ _escape_cdata text ++ concat (map tostring children) ++ "</" ++ tag ++ ">"
      else head ++ " />"
  end.

(** ** The report *)

(** [failures_by_file[failed_file].append(failure)]: the files in the order they first failed, each with its failures. *)
Fixpoint add_failure (f : failure) (by_file : list (str * list failure)) : list (str * list failure) :=
  match by_file with
  | [] => [(fl_file f, [f])]
  | (file, fs) :: rest =>
      if str_eqb file (fl_file f) then (file, fs ++ [f]) :: rest else (file, fs) :: add_failure f rest
  end.

Definition group_failures (fs : list failure) : list (str * list failure) :=
  fold_left (fun by_file f => add_failure f by_file) fs [].

Definition failure_text (f : failure) : str :=
  show_line (fl_line f) ++ ": " ++ fl_message f ++ " [" ++ fl_category f ++ "] [" ++ str_of_Z (fl_confidence f) ++ "]".

Definition failed_case (g : str * list failure) : element :=
  Element "testcase" [(lit "name", fst g)] []
    [Element "failure" [] (join nl (map failure_text (snd g))) []].

Definition testsuite (s : _CppLintState) : element :=
  let num_errors := len (_junit_errors s) in
  let num_failures := len (_junit_failures s) in
  let suite (tests : Z) :=
    Element "testsuite" [(lit "name", lit "cpplint"); (lit "errors", str_of_Z num_errors);
                         (lit "failures", str_of_Z num_failures); (lit "tests", str_of_Z tests)] [] in
  if (num_errors =? 0) && (num_failures =? 0) then
    suite 1 [Element "testcase" [(lit "name", lit "passed")] [] []]
  else
    suite (num_errors + num_failures)
      ((if 0 <? num_errors then
          [Element "testcase" [(lit "name", lit "errors")] [] [Element "error" [] (join nl (_junit_errors s)) []]]
        else [])
       ++ (if 0 <? num_failures then map failed_case (group_failures (_junit_failures s)) else [])).

Definition FormatJUnitXML (s : _CppLintState) : str :=
  "<?xml version=`1.0` encoding=`UTF-8` ?>" ++ nl ++ tostring (testsuite s).

(** ** Grouping *)

(** The names of the files, each at its first failure. *)
Fixpoint first_files (seen : list str) (fs : list failure) : list str :=
  match fs with
  | [] => []
  | f :: fs' => if mem_str (fl_file f) seen then first_files seen fs' else fl_file f :: first_files (seen ++ [fl_file f]) fs'
  end.

Lemma first_files_spec seen fs :
  NoDup (first_files seen fs) /\ forall x, x ∈ first_files seen fs <-> x ∉ seen /\ exists f, f ∈ fs /\ fl_file f = x.
Proof.
  revert seen. induction fs as [|f fs IH]; intros seen; cbn [first_files]; [split; [constructor | set_solver]|].
  unfold mem_str. case_bool_decide as E.
  - destruct (IH seen) as [Hn Hx]. split; [done|]. intros x. rewrite Hx. set_solver.
  - destruct (IH (seen ++ [fl_file f])) as [Hn Hx]. split.
    + constructor; [|done]. rewrite Hx. set_solver.
    + intros x. rewrite elem_of_cons, Hx. destruct (decide (x = fl_file f)); set_solver.
Qed.

Lemma first_files_elem fs x : x ∈ first_files [] fs <-> exists f, f ∈ fs /\ fl_file f = x.
Proof. rewrite (proj2 (first_files_spec [] fs)). set_solver. Qed.

Definition of_file (fs : list failure) (file : str) : str * list failure :=
  (file, List.filter (fun f => str_eqb (fl_file f) file) fs).

Lemma str_eqb_sym s t : str_eqb s t = str_eqb t s.
Proof. unfold str_eqb. apply bool_decide_ext. done. Qed.

Lemma filter_none {A} (b : A -> bool) l : (forall x, x ∈ l -> b x = false) -> List.filter b l = [].
Proof.
  induction l as [|x l IH]; intros H; [done|]. cbn [List.filter]. rewrite H by left. apply IH. intros y Hy. apply H. by right.
Qed.

Lemma of_file_snoc fs f file : of_file (fs ++ [f]) file = (file, snd (of_file fs file) ++ if str_eqb (fl_file f) file then [f] else []).
Proof. unfold of_file. rewrite List.filter_app. cbn [List.filter snd]. by destruct (str_eqb _ _). Qed.

Lemma add_failure_known fs f files :
  NoDup files -> fl_file f ∈ files -> add_failure f (map (of_file fs) files) = map (of_file (fs ++ [f])) files.
Proof.
  assert (Hother : forall files, fl_file f ∉ files -> map (of_file fs) files = map (of_file (fs ++ [f])) files).
  { intros l Hl. apply map_ext_in. intros y Hy%list_elem_of_In. rewrite of_file_snoc. unfold str_eqb.
    rewrite bool_decide_eq_false_2, app_nil_r by congruence. done. }
  induction files as [|x files IH]; intros Hn Hin; [by apply elem_of_nil in Hin|]. apply NoDup_cons in Hn as [Hx Hn].
  cbn [map]. rewrite (of_file_snoc fs f x). unfold of_file at 1. cbn [add_failure]. rewrite (str_eqb_sym x).
  destruct (str_eqb (fl_file f) x) eqn:E.
  - apply str_eqb_eq in E. subst x. by rewrite <- Hother.
  - apply elem_of_cons in Hin as [Hq|Hin]; [by rewrite Hq, str_eqb_refl in E|]. rewrite IH by done. by rewrite app_nil_r.
Qed.

Lemma add_failure_new f by_file : fl_file f ∉ map fst by_file -> add_failure f by_file = by_file ++ [(fl_file f, [f])].
Proof.
  induction by_file as [|[x l] rest IH]; intros H; [done|]. cbn [map fst] in H. rewrite elem_of_cons in H. cbn [add_failure].
  unfold str_eqb. rewrite bool_decide_eq_false_2 by (intros ->; tauto). rewrite IH by tauto. done.
Qed.

Lemma group_from fs done_ files :
  NoDup files -> (forall f, f ∈ done_ -> fl_file f ∈ files) ->
  fold_left (fun by_file f => add_failure f by_file) fs (map (of_file done_) files) =
  map (of_file (done_ ++ fs)) (files ++ first_files files fs).
Proof.
  revert done_ files. induction fs as [|f fs IH]; intros d files Hn Hd; cbn [fold_left first_files]; [by rewrite !app_nil_r|].
  assert (Hf : forall x, x ∈ d ++ [f] -> fl_file x ∈ files ++ [fl_file f]).
  { intros x [Hx|Hx]%elem_of_app; apply elem_of_app; [by left; apply Hd | right; apply list_elem_of_singleton in Hx; subst; left]. }
  rewrite (cons_middle f d fs), app_assoc. unfold mem_str. case_bool_decide as E.
  - rewrite add_failure_known by done. apply IH; [done|]. intros x Hx. apply Hf in Hx. apply elem_of_app in Hx as [?|Hx%list_elem_of_singleton]; [done|].
    by rewrite Hx.
  - rewrite add_failure_new. 2: { rewrite map_map. unfold of_file. cbn [fst]. by rewrite map_id. }
    replace (map (of_file d) files ++ [(fl_file f, [f])]) with (map (of_file (d ++ [f])) (files ++ [fl_file f])).
    + rewrite IH; [by rewrite <- (app_assoc files) | | done]. apply NoDup_app. split_and!; [done| |apply NoDup_singleton]. by intros y Hy ->%list_elem_of_singleton.
    + rewrite map_app. cbn [map]. f_equal.
      * apply map_ext_in. intros y Hy%list_elem_of_In. rewrite of_file_snoc. unfold str_eqb.
        rewrite bool_decide_eq_false_2, app_nil_r by congruence. done.
      * rewrite of_file_snoc, str_eqb_refl. unfold of_file. cbn [snd]. rewrite filter_none; [done|].
        intros x Hx. apply not_true_iff_false. intros Hq%str_eqb_eq. apply E. rewrite <- Hq. by apply Hd.
Qed.

(** Grouping of failures: the report has one group for each file with failures, in the order in which the files first failed; a group
    holds exactly the failures of its file, in the order in which they were reported. *)
Theorem group_failures_spec fs : group_failures fs = map (of_file fs) (first_files [] fs).
Proof. apply (group_from fs [] []); [constructor | by intros ? ?%elem_of_nil]. Qed.

(** ** Reading the report back

    A reader for documents without comments and declarations: names, attributes in double quotes, text with the usual entities.  It refuses
    the characters that XML does not allow, and those that an XML reader would change where they stand for themselves: a carriage return anywhere,
    a tab or a line break in an attribute.  Tags have to match. *)

(** A character that stands for itself in an attribute, or in text. *)
Definition attrib_char (c : N) : bool :=
  ((32 <=? c) && (c <=? 55295) || (57344 <=? c) && (c <=? 65533) || (65536 <=? c) && (c <=? 1114111))%N.
Definition text_char (c : N) : bool := attrib_char c || (c =? c_tab)%N || (c =? c_nl)%N.

Definition entities : list (str * N) :=
  [(lit "amp;", ch "&"); (lit "lt;", ch "<"); (lit "gt;", ch ">"); (lit "quot;", ch "`"); (lit "#13;", c_cr); (lit "#10;", c_nl); (lit "#09;", c_tab)].

Definition read_entity (s : str) : option (N * str) :=
  match List.find (fun e => startswith s (fst e)) entities with
  | Some (name, c) => Some (c, drop (length name) s)
  | None => None
  end.

(** The text up to a character that ends it. *)
Definition read_char (plain : N -> bool) (c : N) (s : str) : option (N * str) :=
  if (c =? ch "&")%N then read_entity s else if plain c then Some (c, s) else None.

Fixpoint read_text (n : nat) (plain : N -> bool) (stop : N) (s : str) : option (str * str) :=
  match n, s with
  | S n', c :: s' =>
      if (c =? stop)%N then Some ([], s)
      else
        match read_char plain c s' with
        | Some (d, rest) => prod_map (cons d) id <$> read_text n' plain stop rest
        | None => None
        end
  | _, _ => None
  end.

Definition name_char (c : N) : bool := is_lower_ascii c.

Fixpoint read_name (s : str) : str * str :=
  match s with
  | c :: s' => if name_char c then prod_map (cons c) id (read_name s') else ([], s)
  | [] => ([], [])
  end.

Fixpoint read_attrib (n : nat) (s : str) : option (list (str * str) * str) :=
  match n with
  | O => None
  | S n' =>
      if startswith s " />" || startswith s ">" then Some ([], s)
      else if startswith s " " then
        let '(key, s1) := read_name (drop 1 s) in
        if nonempty key && startswith s1 "=`" then
          match read_text (length s1) attrib_char (ch "`") (drop 2 s1) with
          | Some (v, s2) => prod_map (cons (key, v)) id <$> read_attrib n' (drop 1 s2)
          | None => None
          end
        else None
      else None
  end.

Fixpoint read_children (read : str -> option (element * str)) (n : nat) (s : str) : option (list element * str) :=
  if startswith s "</" then Some ([], s)
  else
    match n with
    | O => None
    | S n' =>
        match read s with
        | Some (e, rest) => prod_map (cons e) id <$> read_children read n' rest
        | None => None
        end
    end.

Fixpoint read_element (depth : nat) (s : str) : option (element * str) :=
  match depth with
  | O => None
  | S depth' =>
      let '(tag, s1) := read_name (drop 1 s) in
      match (if startswith s "<" && nonempty tag then read_attrib (length s) s1 else None) with
      | None => None
      | Some (attrib, s2) =>
          if startswith s2 " />" then Some (Element tag attrib [] [], drop 3 s2)
          else
            match read_text (length s) text_char (ch "<") (drop 1 s2) with
            | None => None
            | Some (text, s3) =>
                match read_children (read_element depth') (length s) s3 with
                | None => None
                | Some (children, s4) =>
                    if startswith s4 ("</" ++ tag ++ ">") then Some (Element tag attrib text children, drop (length tag + 3) s4) else None
                end
            end
      end
  end.

(** Names are in lower case, as all names of the report are. *)
Definition named (n : str) : Prop := n <> [] /\ Forall (fun c => name_char c = true) n.

(** Text that XML can carry: no control characters but tabs and line breaks, and in attributes, where they are escaped, carriage returns. *)
Definition clean_text (s : str) : Prop := Forall (fun c => text_char c = true) s.
Definition clean_attrib (s : str) : Prop := Forall (fun c => text_char c || (c =? c_cr)%N = true) s.

Inductive document : nat -> element -> Prop :=
| document_element d tag attrib text children :
    named tag -> Forall (fun kv => named (fst kv) /\ clean_attrib (snd kv)) attrib -> clean_text text -> Forall (document d) children ->
    document (S d) (Element tag attrib text children).

Lemma read_name_ok n c rest :
  Forall (fun c => name_char c = true) n -> name_char c = false -> read_name (n ++ c :: rest) = (n, c :: rest).
Proof. intros Hn Hc. induction Hn as [|d n Hd Hn IH]; cbn [app read_name]; [by rewrite Hc|]. by rewrite Hd, IH. Qed.

(** An escape never starts with the character that ends the text, and is read back as the character it stands for. *)
Definition escapes (esc : N -> str) (clean plain : N -> bool) (stop : N) : Prop :=
  forall c s, clean c = true -> exists x l, esc c ++ s = x :: l /\ (x =? stop)%N = false /\ read_char plain x l = Some (c, s).

Lemma escape_cdata1_ok : escapes escape_cdata1 text_char text_char (ch "<").
Proof.
  intros c s Hcl. unfold escape_cdata1, read_char. case N.eqb_spec; [intros ->|intros Ha]. { eexists _, _. by split_and!. }
  case N.eqb_spec; [intros ->|intros Hl]. { eexists _, _. by split_and!. }
  case N.eqb_spec; [intros ->|intros Hg]. { eexists _, _. by split_and!. }
  exists c, s. rewrite !(proj2 (N.eqb_neq _ _)), Hcl by done. by split_and!.
Qed.

Lemma escape_attrib1_ok : escapes escape_attrib1 (fun c => text_char c || (c =? c_cr)%N) attrib_char (ch "`").
Proof.
  intros c s Hcl. unfold escape_attrib1, escape_cdata1, read_char. case N.eqb_spec; [intros ->|intros Hq]. { eexists _, _. by split_and!. }
  repeat (case N.eqb_spec; [intros ->; eexists _, _; by split_and!|]). intros Hg Hl Ha Ht Hn Hr.
  unfold text_char in Hcl. rewrite (proj2 (N.eqb_neq _ _) Ht), (proj2 (N.eqb_neq _ _) Hn), (proj2 (N.eqb_neq _ _) Hr), !orb_false_r in Hcl.
  exists c, s. rewrite !(proj2 (N.eqb_neq _ _)), Hcl by done. by split_and!.
Qed.

Lemma read_text_ok esc clean plain stop t rest n :
  escapes esc clean plain stop -> Forall (fun c => clean c = true) t -> (length t < n)%nat ->
  read_text n plain stop (concat (map esc t) ++ stop :: rest) = Some (t, stop :: rest).
Proof.
  intros He Ht. revert n. induction Ht as [|c t Hc Ht IH]; intros [|n] Hn; cbn [length] in Hn; try lia; cbn [map concat app].
  - cbn [read_text]. by rewrite N.eqb_refl.
  - rewrite <- app_assoc. destruct (He c (concat (map esc t) ++ stop :: rest) Hc) as (x & l & -> & Hx & Hd). cbn [read_text].
    rewrite Hx, Hd, IH by lia. done.
Qed.

Lemma escaped_length esc clean plain stop t :
  escapes esc clean plain stop -> Forall (fun c => clean c = true) t -> (length t <= length (concat (map esc t)))%nat.
Proof.
  intros He. induction 1 as [|c t Hc Ht IH]; [done|]. cbn [map concat length]. rewrite length_app.
  destruct (He c [] Hc) as (x & l & E & _). apply (f_equal length) in E. rewrite length_app in E. cbn in E. lia.
Qed.

Definition attrib_text (attrib : list (str * str)) : str :=
  concat (map (fun kv => " " ++ fst kv ++ "=`" ++ _escape_attrib (snd kv) ++ "`") attrib).

(** What follows the attributes. *)
Definition tag_end (s : str) : Prop := exists r, s = ">" ++ r \/ s = " />" ++ r.

Lemma name_not_punct k : named k -> exists c k', k = c :: k' /\ name_char c = true.
Proof. intros [Hk Hf]. destruct Hf as [|c k Hc Hf]; [done | eauto]. Qed.

Lemma attrib_opens c rest : name_char c = true -> startswith (" " ++ c :: rest) " />" || startswith (" " ++ c :: rest) ">" = false.
Proof.
  intros Hc. assert (Hn : (ch "/" =? c)%N = false) by (apply N.eqb_neq; by intros <-).
  change ((ch "/" =? c)%N && startswith rest ">" || false = false). by rewrite Hn.
Qed.

Lemma read_attrib_ok attrib s n :
  Forall (fun kv => named (fst kv) /\ clean_attrib (snd kv)) attrib -> tag_end s -> (length attrib < n)%nat ->
  read_attrib n (attrib_text attrib ++ s) = Some (attrib, s).
Proof.
  intros Ha Hs. revert n. induction Ha as [|[k v] attrib [Hk Hv] Ha IH]; intros [|n] Hn; cbn [length] in Hn; try lia.
  - cbn [attrib_text map concat app read_attrib]. destruct Hs as (r & [-> | ->]); done.
  - change (attrib_text ((k, v) :: attrib)) with ((" " ++ k ++ "=`" ++ _escape_attrib v ++ "`") ++ attrib_text attrib).
    rewrite <- !app_assoc. cbn [read_attrib]. cbn [fst snd] in Hk, Hv. destruct (name_not_punct k Hk) as (c & k' & -> & Hc).
    match goal with |- (if ?b then _ else _) = _ => replace b with false by (symmetry; exact (attrib_opens c _ Hc)) end. cbv iota.
    match goal with |- (if ?b then _ else _) = _ => change b with true end. cbv iota.
    set (val := concat (map escape_attrib1 v) ++ ch "`" :: (attrib_text attrib ++ s)).
    match goal with |- context [drop 1 ?x] => change (drop 1 x) with ((c :: k') ++ ch "=" :: ch "`" :: val) end.
    rewrite read_name_ok by (apply Hk || done). change (drop 2 (ch "=" :: ch "`" :: val)) with val.
    match goal with |- (if ?b then _ else _) = _ => change b with true end. cbv iota. unfold val at 2.
    rewrite (read_text_ok _ _ _ _ _ _ _ escape_attrib1_ok Hv).
    + match goal with |- context [drop 1 ?x] => change (drop 1 x) with (attrib_text attrib ++ s) end. by rewrite IH by lia.
    + unfold val. cbn [length]. rewrite length_app. pose proof (escaped_length _ _ _ _ v escape_attrib1_ok Hv). lia.
Qed.

Lemma tostring_eq tag attrib text children :
  tostring (Element tag attrib text children) =
  ch "<" :: tag ++ attrib_text attrib ++
    (if nonempty text || nonempty children
     then ch ">" :: concat (map escape_cdata1 text) ++ concat (map tostring children) ++ ch "<" :: ch "/" :: tag ++ [ch ">"]
     else lit " />").
Proof. cbn [tostring]. split_if; unfold attrib_text, _escape_cdata, lit; cbn; by rewrite <- !app_assoc. Qed.

Lemma tag_end_char (attrib : list (str * str)) s :
  tag_end s -> exists c r, attrib_text attrib ++ s = c :: r /\ name_char c = false.
Proof. destruct attrib as [|[k v] l]; intros (r & [-> | ->]); eexists _, _; by split. Qed.

Lemma read_children_ok d children n close :
  (forall e rest, document d e -> read_element d (tostring e ++ rest) = Some (e, rest)) ->
  Forall (document d) children -> (length children <= n)%nat ->
  read_children (read_element d) n (concat (map tostring children) ++ ch "<" :: ch "/" :: close) = Some (children, ch "<" :: ch "/" :: close).
Proof.
  intros IHd Hc. revert n. induction Hc as [|e children He Hc IH]; intros n Hn; [by destruct n|].
  destruct n as [|n]; cbn [length] in Hn; [lia|]. cbn [map concat]. rewrite <- app_assoc. cbn [read_children].
  rewrite IHd by done. destruct He as [d tag attrib text ch' Ht _ _ _]. rewrite tostring_eq.
  destruct (name_not_punct tag Ht) as (c & k & -> & Hk). rewrite IH by lia.
  replace (startswith _ "</") with false; [done|]. symmetry. cbn [app].
  change ((ch "/" =? c)%N && true = false). rewrite (proj2 (N.eqb_neq _ _)); [done|]. by intros <-.
Qed.

Lemma children_length children : (length children <= length (concat (map tostring children)))%nat.
Proof. induction children as [|[tag a t l] cs IH]; [done|]. cbn [map concat]. rewrite tostring_eq, length_app. cbn [length]. lia. Qed.

Lemma attrib_length attrib : (length attrib <= length (attrib_text attrib))%nat.
Proof.
  unfold attrib_text. induction attrib as [|[k v] l IH]; [done|]. cbn [map concat length].
  rewrite length_app, (length_app (lit " ")). change (length (lit " ")) with 1%nat. lia.
Qed.

Lemma starts_lt children x : exists y, concat (map tostring children) ++ ch "<" :: x = ch "<" :: y.
Proof. destruct children as [|[tag a t l] cs]; [by eexists|]. cbn [map concat]. rewrite tostring_eq. by eexists. Qed.

Lemma drop_close tag rest : drop (length tag + 3) (ch "<" :: ch "/" :: (tag ++ [ch ">"]) ++ rest) = rest.
Proof. replace (length tag + 3)%nat with (S (S (length (tag ++ [ch ">"])))) by len_lia. cbn [drop]. apply drop_app_length. Qed.

Lemma read_element_ok d e rest : document d e -> read_element d (tostring e ++ rest) = Some (e, rest).
Proof.
  revert e rest. induction d as [|d IH]; intros e rest He; inversion He as [d' tag attrib text children Ht Ha Hx Hc]; subst.
  rewrite tostring_eq. match goal with |- context [if ?b then ?x else ?y] => set (tail := if b then x else y) end.
  assert (Hend : tag_end (tail ++ rest)) by (unfold tail; split_if; eexists; [left | right]; reflexivity).
  match goal with |- read_element _ ?x = _ => set (s := x) end. assert (Hs : s = ch "<" :: tag ++ attrib_text attrib ++ tail ++ rest) by (unfold s; cbn [app]; by rewrite <- !app_assoc).
  destruct (tag_end_char attrib _ Hend) as (c & r & Ec & Hc0).
  assert (Hl : length s = S (length tag + length (attrib_text attrib) + length tail + length rest)%nat) by (rewrite Hs; cbn [length]; len_lia).
  cbn [read_element]. replace (drop 1 s) with (tag ++ c :: r) by (rewrite Hs, <- Ec; done).
  rewrite read_name_ok by (apply Ht || done).
  replace (startswith s "<" && nonempty tag) with true by (rewrite Hs; destruct Ht as [Hne _]; by destruct tag). rewrite <- Ec, read_attrib_ok; [|done|done|pose proof (attrib_length attrib); lia].
  unfold tail in *. destruct (nonempty text || nonempty children) eqn:E.
  - match goal with |- context [drop 1 ?x] => change (drop 1 x) with
      ((concat (map escape_cdata1 text) ++ concat (map tostring children) ++ ch "<" :: ch "/" :: tag ++ [ch ">"]) ++ rest) end.
    rewrite <- !app_assoc. change ((ch "<" :: ch "/" :: tag ++ [ch ">"]) ++ rest) with (ch "<" :: ch "/" :: (tag ++ [ch ">"]) ++ rest).
    set (close := (tag ++ [ch ">"]) ++ rest).
    pose proof (escaped_length _ _ _ _ text escape_cdata1_ok Hx). pose proof (children_length children). cbn [length] in Hl. rewrite !length_app in Hl. cbn [length] in Hl.
    destruct (starts_lt children (ch "/" :: close)) as [y Hy]. rewrite Hy, (read_text_ok _ _ _ _ _ _ _ escape_cdata1_ok Hx), <- Hy by lia.
    rewrite read_children_ok; [|done|done|lia].
    assert (Hcl : startswith (ch "<" :: ch "/" :: close) ("</" ++ tag ++ ">") = true)
      by (apply startswith_iff; exists rest; unfold close, lit; cbn; by rewrite <- !app_assoc).
    rewrite Hcl. f_equal. f_equal. unfold close. apply drop_close.
  - apply orb_false_iff in E as [E1 E2]. by destruct text, children.
Qed.

Definition xml_decl : str := "<?xml version=`1.0` encoding=`UTF-8` ?>" ++ nl.

Definition read_report (s : str) : option (element * str) :=
  if startswith s xml_decl then read_element 3 (drop (length xml_decl) s) else None.

Lemma named_lower n : forallb name_char n && nonempty n = true -> named n.
Proof. intros [Hf Hn]%andb_true_iff. split; [by destruct n|]. apply Forall_forall. intros c Hc%list_elem_of_In. by eapply forallb_forall in Hf. Qed.

Lemma document_lower d tag attrib text children :
  forallb (fun n => forallb name_char n && nonempty n) (tag :: map fst attrib) = true ->
  Forall (fun kv => clean_attrib (snd kv)) attrib -> clean_text text -> Forall (document d) children ->
  document (S d) (Element tag attrib text children).
Proof.
  cbn [forallb]. intros [Ht Ha]%andb_true_iff Hv Hx Hc. constructor; [by apply named_lower| |done..].
  induction Hv as [|[k v] l Hv _ IH]; [constructor|]. cbn [map forallb fst] in *. apply andb_true_iff in Ha as [Hk Hl].
  constructor; [split; [by apply named_lower | done] | auto].
Qed.

(** *** Clean texts *)

Lemma clean_lit s : forallb text_char s = true -> clean_text s.
Proof. intros H. apply Forall_forall. intros c Hc%list_elem_of_In. by eapply forallb_forall in H. Qed.

Lemma clean_text_attrib s : clean_text s -> clean_attrib s.
Proof. intros H. eapply Forall_impl; [exact H|]. by intros c ->. Qed.

Lemma clean_app s t : clean_text s -> clean_text t -> clean_text (s ++ t).
Proof. intros. by apply Forall_app. Qed.

Lemma clean_join ps : Forall clean_text ps -> clean_text (join nl ps).
Proof.
  induction 1 as [|p ps Hp Hps IH]; [constructor|]. destruct ps; [done|]. apply clean_app; [done|]. apply clean_app; [by apply clean_lit | done].
Qed.

Lemma clean_digits fuel n acc : clean_text acc -> clean_text (digits_of fuel n acc).
Proof.
  revert n acc. induction fuel as [|fuel IH]; intros n acc Ha; [done|]. cbn [digits_of].
  assert (Hc : clean_text ((48 + n mod 10)%N :: acc)); [|split_if; auto]. constructor; [|done].
  pose proof (N.mod_lt n 10 ltac:(done)) as Hm. revert Hm. generalize (n mod 10)%N. intros m Hm. unfold text_char, attrib_char.
  rewrite (proj2 (N.leb_le 32 _)), (proj2 (N.leb_le _ 55295)) by lia. done.
Qed.

Lemma clean_str_of_Z z : clean_text (str_of_Z z).
Proof. unfold str_of_Z, str_of_N. split_if; [constructor; [done|]|]; apply clean_digits; constructor. Qed.

Lemma clean_show_line l : clean_text (show_line l).
Proof. destruct l; [apply clean_str_of_Z | by apply clean_lit]. Qed.

(** Everything that was noted for the report is text that XML can carry. *)
Definition junit_clean (s : _CppLintState) : Prop :=
  Forall clean_text (_junit_errors s) /\
  Forall (fun f => clean_attrib (fl_file f) /\ clean_text (fl_message f) /\ clean_text (fl_category f)) (_junit_failures s).

(** What the report should say: how many errors and failures there were, and in which file which failures. *)
Definition expected_report (errors : list str) (failures : list failure) : element :=
  let count (n : Z) := str_of_Z n in
  let test_case (name : str) (body : list element) := Element "testcase" [(lit "name", name)] [] body in
  let said (f : failure) :=
    show_line (fl_line f) ++ ": " ++ fl_message f ++ " [" ++ fl_category f ++ "] [" ++ str_of_Z (fl_confidence f) ++ "]" in
  Element "testsuite"
    [(lit "name", lit "cpplint"); (lit "errors", count (len errors)); (lit "failures", count (len failures));
     (lit "tests", count (match errors, failures with [], [] => 1 | _, _ => len errors + len failures end))] []
    match errors, failures with
    | [], [] => [test_case "passed" []]
    | _, _ =>
        match errors with [] => [] | _ => [test_case "errors" [Element "error" [] (join nl errors) []]] end
        ++ map (fun file => test_case file
                  [Element "failure" [] (join nl (map said (List.filter (fun f => str_eqb (fl_file f) file) failures))) []])
             (first_files [] failures)
    end.

Lemma testsuite_expected s : testsuite s = expected_report (_junit_errors s) (_junit_failures s).
Proof.
  unfold testsuite, expected_report. cbv zeta.
  assert (Hg : group_failures (_junit_failures s) = map (of_file (_junit_failures s)) (first_files [] (_junit_failures s)))
    by (apply (group_from _ [] []); [constructor | by intros ? ?%elem_of_nil]).
  rewrite Hg, map_map. by destruct (_junit_errors s) as [|e es], (_junit_failures s) as [|f fs].
Qed.

Lemma expected_document errors failures :
  Forall clean_text errors -> Forall (fun f => clean_attrib (fl_file f) /\ clean_text (fl_message f) /\ clean_text (fl_category f)) failures ->
  document 3 (expected_report errors failures).
Proof.
  intros He Hf. unfold expected_report. cbv zeta.
  assert (Hcount : forall z, clean_attrib (str_of_Z z)) by (intros; apply clean_text_attrib, clean_str_of_Z).
  assert (Hcase : forall name tag text, named tag -> clean_attrib name -> clean_text text ->
    document 2 (Element "testcase" [(lit "name", name)] [] [Element tag [] text []])).
  { intros name tag text Ht Hn Hx. apply document_lower; [done | by constructor | constructor|]. constructor; [|constructor]. by constructor. }
  apply document_lower; [done | repeat constructor; try apply Hcount; by apply clean_text_attrib, clean_lit | constructor|].
  assert (Hcases : Forall (document 2)
    (match errors with [] => [] | _ => [Element "testcase" [(lit "name", lit "errors")] [] [Element "error" [] (join nl errors) []]] end
     ++ map (fun file => Element "testcase" [(lit "name", file)] []
               [Element "failure" [] (join nl (map failure_text (List.filter (fun f => str_eqb (fl_file f) file) failures))) []])
          (first_files [] failures))).
  { apply Forall_app. split.
    - destruct errors; constructor; [|constructor]. apply Hcase; [by apply named_lower | by apply clean_text_attrib, clean_lit | by apply clean_join].
    - apply Forall_map, Forall_forall. intros file (f & Hin & <-)%first_files_elem. rewrite Forall_forall in Hf.
      apply Hcase; [by apply named_lower | by apply Hf |]. apply clean_join, Forall_map, Forall_forall. intros g Hg%list_elem_of_In%filter_In.
      destruct (Hf g) as (_ & Hm & Hc); [apply list_elem_of_In, Hg|]. unfold failure_text.
      repeat apply clean_app; try apply clean_show_line; try apply clean_str_of_Z; try done; by apply clean_lit. }
  destruct errors; [|exact Hcases]. destruct failures; [|exact Hcases].
  constructor; [|constructor]. apply document_lower; [done | | constructor | constructor]. constructor; [by apply clean_text_attrib, clean_lit | constructor].
Qed.

(** C10. The JUnit report tells what happened: a strict XML reader, given the report on errors and failures whose texts XML can carry, gets one test
    suite whose attributes are the number of errors, of failures and of both (1 if there are none), and in it: a single case that passed if there
    was nothing to tell; otherwise a case with all errors, if there are any, and then for each file with failures, in the order in which they first
    failed and each once, a case named after it that holds exactly its failures, one after the other, with line, message, category and
    confidence.  No bracket, ampersand or quote in the texts is taken for markup. *)
Theorem FormatJUnitXML_roundtrip s (Hs : junit_clean s) :
  read_report (FormatJUnitXML s) = Some (expected_report (_junit_errors s) (_junit_failures s), []) /\
  NoDup (first_files [] (_junit_failures s)) /\
  forall file, file ∈ first_files [] (_junit_failures s) <-> exists f, f ∈ _junit_failures s /\ fl_file f = file.
Proof.
  split; [|split; [apply first_files_spec | intros; apply first_files_elem]].
  unfold read_report, FormatJUnitXML. rewrite (app_assoc _ nl). fold xml_decl. rewrite startswith_app, drop_app_length.
  rewrite <- (app_nil_r (tostring _)), testsuite_expected. apply read_element_ok. destruct Hs. by apply expected_document.
Qed.

End JUnit.

(** ** Witness *)

Definition noisy_state : _CppLintState :=
  set_junit [] [Failure "a<b.cc" (Some 3) "x && y" "whitespace/tab" 1; Failure "c.h" None "`q`" "build/include" 5;
                Failure "a<b.cc" (Some 9) "z" "whitespace/tab" 2] _CppLintState_init.

Lemma FormatJUnitXML_roundtrip_witness :
  junit_clean noisy_state /\
  exists cases, read_report (FormatJUnitXML noisy_state) = Some (Element "testsuite"
    [(lit "name", lit "cpplint"); (lit "errors", lit "0"); (lit "failures", lit "3"); (lit "tests", lit "3")] [] cases, []) /\ length cases = 2%nat.
Proof.
  assert (Hs : junit_clean noisy_state).
  { split; [constructor|]. repeat constructor; unfold clean_attrib, clean_text; repeat constructor. }
  split; [exact Hs|]. destruct (FormatJUnitXML_roundtrip noisy_state Hs) as [H _].
  eexists. split; [rewrite H; vm_compute; reflexivity | reflexivity].
Defined.
