(* ===== verification/Cleanse.v ===== *)
(** * Removing comments and strings: the four views of a file

    Models the functions of cpplint.py between [IsCppString] and [CleansedLines].  Lists of lines
    that the source updates in place are returned updated.  The loops that are not structural run
    on fuel that is bounded by the length of the line or of the file; the theorems show that the
    fuel is never used up. *)

From S2P Require Import Prelude PyStr PyRe PyEff Tables Regexps Lint.

Local Open Scope Z_scope.

Section Cleanse.
Context {U : UnicodeDB}.

(** ** Patterns *)

Definition _RE_PATTERN_CLEANSE_LINE_ESCAPES : str := "\\([abfnrtv?`\\\']|\d+|x[0-9a-fA-F]+)".
Definition _RE_PATTERN_C_COMMENTS : str := "/\*(?:[^*]|\*(?!/))*\*/".
Definition _RE_PATTERN_CLEANSE_LINE_C_COMMENTS : str :=
  "(\s*" ++ _RE_PATTERN_C_COMMENTS ++ "\s*$|" ++ _RE_PATTERN_C_COMMENTS ++ "\s+|"
  ++ "\s+" ++ _RE_PATTERN_C_COMMENTS ++ "(?=\W)|" ++ _RE_PATTERN_C_COMMENTS ++ ")".
Definition _RE_PATTERN_INCLUDE : str := "^\s*#\s*include\s*([<`])([^>`]*)[>`].*$".

(** ** Strings *)

Definition IsCppString (line : str) : bool :=
  let line := replace line "\\" "XX" in
  Z.odd (count line "`" - count line "\`" - count line "'`'").

(** ** Raw strings *)

Definition _RE_RAW_STRING : str := "^(.*?)\b(?:R|u8R|uR|UR|LR)`([^\s\\()]*)\((.*)$".
Definition _RE_IN_COMMENT : str := "^([^\'`]|\'(\\.|[^\'])*\'|`(\\.|[^`])*`)*//".

(** The loop over the raw strings that start on a line; the result holds the delimiter of a string
    that is still open at its end. *)
Fixpoint raw_loop (fuel : nat) (line : str) : option (str * option str) :=
  match fuel with
  | O => None
  | S f =>
      match Match _RE_RAW_STRING line with
      | Some matched =>
          if negb (MatchB _RE_IN_COMMENT (group_str matched 1)) then
            let delimiter := ")" ++ group_str matched 2 ++ "`" in
            let e := find (group_str matched 3) delimiter in
            if 0 <=? e
            then raw_loop f (group_str matched 1 ++ "``" ++ slice_from (group_str matched 3) (e + len delimiter))
            else Some (group_str matched 1 ++ "``", Some delimiter)
          else Some (line, None)
      | None => Some (line, None)
      end
  end.

(** One line of [CleanseRawStrings]. *)
Definition raw_line_step (delimiter : option str) (line : str) : P (str * option str) :=
  match delimiter with
  | Some d =>
      let e := find line d in
      if 0 <=? e then
        leading_space <- or_raise AttributeError (Match "^(\s*)\S" line);;
        let line := group_str leading_space 1 ++ "``" ++ slice_from line (e + len d) in
        or_raise OutOfFuel (raw_loop (S (length line)) line)
      else ret (lit "``", delimiter)
  | None => or_raise OutOfFuel (raw_loop (S (length line)) line)
  end.

Fixpoint CleanseRawStrings_from (delimiter : option str) (raw_lines : list str) : P (list str) :=
  match raw_lines with
  | [] => ret []
  | line :: rest =>
      r <- raw_line_step delimiter line;;
      out <- CleanseRawStrings_from (snd r) rest;;
      ret (fst r :: out)
  end.

Definition CleanseRawStrings (raw_lines : list str) : P (list str) := CleanseRawStrings_from None raw_lines.

(** ** Multi-line comments *)

Definition opens_comment (line : str) : bool :=
  startswith (strip line) "/*" && (find_at (strip line) "*/" 2 <? 0).
Definition closes_comment (line : str) : bool := endswith (strip line) "*/".

(** The index of the first line from [lineix] on with a property, or the number of lines. *)
Fixpoint scan (f : str -> bool) (ls : list str) (lineix : nat) : nat :=
  match ls with
  | [] => lineix
  | l :: ls' => if f l then lineix else scan f ls' (S lineix)
  end.

Definition FindNextMultiLineCommentStart (lines : list str) (lineix : nat) : nat :=
  scan opens_comment (drop lineix lines) lineix.
Definition FindNextMultiLineCommentEnd (lines : list str) (lineix : nat) : nat :=
  scan closes_comment (drop lineix lines) lineix.

(** [for i in range(begin, end): lines[i] = '/**/'] *)
Fixpoint clear_range (n : nat) (begin : nat) (lines : list str) : list str :=
  match n with
  | O => lines
  | S n' => clear_range n' (S begin) (<[begin := lit "/**/"]> lines)
  end.
Definition RemoveMultiLineCommentsFromRange (lines : list str) (begin end_ : nat) : list str :=
  clear_range (end_ - begin) begin lines.

Fixpoint RemoveMultiLineComments_from (fuel : nat) (filename : str) (lines : list str) (lineix : nat)
    (error : error_fn) : P (list str) :=
  match fuel with
  | O => raise OutOfFuel
  | S f =>
      if negb (Nat.ltb lineix (length lines)) then ret lines else
      let lineix_begin := FindNextMultiLineCommentStart lines lineix in
      if Nat.leb (length lines) lineix_begin then ret lines else
      let lineix_end := FindNextMultiLineCommentEnd lines lineix_begin in
      if Nat.leb (length lines) lineix_end then
        error filename (Some (Z.of_nat lineix_begin + 1)) "readability/multiline_comment" 5
          "Could not find end of multi-line comment";;
        ret lines
      else
        RemoveMultiLineComments_from f filename
          (RemoveMultiLineCommentsFromRange lines lineix_begin (lineix_end + 1)) (lineix_end + 1) error
  end.

Definition RemoveMultiLineComments (filename : str) (lines : list str) (error : error_fn) : P (list str) :=
  RemoveMultiLineComments_from (S (length lines)) filename lines 0 error.

(** ** Single-line comments *)

Definition CleanseComments (line : str) : str :=
  let commentpos := find line "//" in
  let line := if negb (commentpos =? -1) && negb (IsCppString (slice_to line commentpos))
              then rstrip (slice_to line commentpos) else line in
  ReplaceAll _RE_PATTERN_CLEANSE_LINE_C_COMMENTS [] line.

(** ** Collapsing strings *)

Definition _RE_QUOTE : str := "^([^\'`]*)([\'`])(.*)$".
Definition _RE_LITERAL : str := "^((?:\'?[0-9a-zA-Z_])*)(.*)$".

Fixpoint collapse_loop (fuel : nat) (collapsed elided : str) : P str :=
  match fuel with
  | O => raise OutOfFuel
  | S f =>
      match Match _RE_QUOTE elided with
      | None => ret (collapsed ++ elided)
      | Some m =>
          let head := group_str m 1 in
          let quote := group_str m 2 in
          let tail := group_str m 3 in
          if str_eqb quote "`" then
            let second_quote := find tail "`" in
            if 0 <=? second_quote
            then collapse_loop f (collapsed ++ head ++ "``") (slice_from tail (second_quote + 1))
            else ret (collapsed ++ elided)
          else if SearchB "\b(?:0[bBxX]?|[1-9])[0-9a-fA-F]*$" head then
            match_literal <- or_raise AttributeError (Match _RE_LITERAL ("'" ++ tail));;
            collapse_loop f (collapsed ++ head ++ replace (group_str match_literal 1) "'" [])
              (group_str match_literal 2)
          else
            let second_quote := find tail "'" in
            if 0 <=? second_quote
            then collapse_loop f (collapsed ++ head ++ "''") (slice_from tail (second_quote + 1))
            else ret (collapsed ++ elided)
      end
  end.

Definition _CollapseStrings (elided : str) : P str :=
  if MatchB _RE_PATTERN_INCLUDE elided then ret elided
  else
    let elided := ReplaceAll _RE_PATTERN_CLEANSE_LINE_ESCAPES [] elided in
    collapse_loop (S (length elided)) [] elided.

(** ** The four views *)

Record CleansedLines := Cleansed {
  elided : list str;
  lines : list str;
  raw_lines : list str;
  lines_without_raw_strings : list str;
  num_lines : Z
}.

Definition NumLines (c : CleansedLines) : Z := num_lines c.

(** The four views have [N] lines each. *)
Record sized (N : Z) (c : CleansedLines) : Prop := {
  sized_num : NumLines c = N;
  sized_elided : len (elided c) = N;
  sized_lines : len (lines c) = N;
  sized_raw : len (raw_lines c) = N;
  sized_without_raw : len (lines_without_raw_strings c) = N
}.

(** The loop of the constructor over the lines without raw strings. *)
Fixpoint cleanse_each (ls : list str) : P (list str * list str) :=
  match ls with
  | [] => ret ([], [])
  | l :: ls' =>
      e <- _CollapseStrings l;;
      r <- cleanse_each ls';;
      ret (CleanseComments l :: fst r, CleanseComments e :: snd r)
  end.

Definition CleansedLines_init (ls : list str) : P CleansedLines :=
  lwrs <- CleanseRawStrings ls;;
  r <- cleanse_each lwrs;;
  ret {| elided := snd r; lines := fst r; raw_lines := ls; lines_without_raw_strings := lwrs;
         num_lines := len ls |}.

(** ** Raw strings: shape of a match, progress, totality *)

Lemma raw_match_shape line m :
  Match _RE_RAW_STRING line = Some m ->
  exists pre r d body tail,
    group_str m 1 = pre /\ group_str m 2 = d /\ group_str m 3 = body /\ (1 <= length r)%nat /\
    line = pre ++ r ++ "`" ++ d ++ "(" ++ body ++ tail.
Proof.
  intros H. eapply Match_sound in H as (st & Hs & ->); [|vm_compute; reflexivity|done].
  sem_parts. sem_words.
  apply spells_char in Hsem3, Hsem5. subst.
  eexists _, _, _, _, _. split; [group_is|]. split; [group_is|]. split; [group_is|]. split; [|reflexivity].
  by apply spells_min_len in Hsem2.
Qed.

(** A closed raw string is replaced by a shorter text. *)
Lemma raw_progress line m e :
  Match _RE_RAW_STRING line = Some m ->
  find (group_str m 3) (")" ++ group_str m 2 ++ "`") = e -> 0 <= e ->
  (length (group_str m 1 ++ "``" ++ slice_from (group_str m 3) (e + len (")" ++ group_str m 2 ++ "`")))
   < length line)%nat.
Proof.
  intros (pre & r & d & body & tail & -> & -> & -> & Hr & ->)%raw_match_shape _ He.
  unfold slice_from, bound, len, lit in *. len_lia.
Qed.

Lemma raw_loop_total fuel line : (length line < fuel)%nat -> is_Some (raw_loop fuel line).
Proof.
  revert line. induction fuel as [|fuel IH]; intros line Hl; [lia|]. cbn [raw_loop].
  destruct (Match _RE_RAW_STRING line) as [m|] eqn:E; [|eauto].
  destruct (negb _); [|eauto]. cbv zeta. split_if; [|eauto].
  apply IH. apply Z.leb_le in Heqb. eapply raw_progress in E; [|reflexivity|done]. lia.
Qed.

Definition delim_ok (d : option str) : Prop := match d with Some d => exists u, d = ")" ++ u | None => True end.

(** A line on which no raw string starts, but for one in a comment. *)
Definition raw_clean (line : str) : bool :=
  match Match _RE_RAW_STRING line with
  | Some m => MatchB _RE_IN_COMMENT (group_str m 1)
  | None => true
  end.

Lemma raw_loop_post fuel line r :
  raw_loop fuel line = Some r -> delim_ok (snd r) /\ (snd r = None -> raw_clean (fst r) = true).
Proof.
  revert line. induction fuel as [|fuel IH]; intros line; [done|]. cbn [raw_loop].
  destruct (Match _RE_RAW_STRING line) as [m|] eqn:E.
  - destruct (MatchB _RE_IN_COMMENT (group_str m 1)) eqn:Ec; cbn [negb].
    + intros [= <-]. split; [done|]. intros _. unfold raw_clean. cbn [fst]. by rewrite E.
    + cbv zeta. split_if; [apply IH|]. intros [= <-]. split; [by eexists | done].
  - intros [= <-]. split; [done|]. intros _. unfold raw_clean. cbn [fst]. by rewrite E.
Qed.

Lemma raw_loop_clean fuel line : raw_clean line = true -> raw_loop (S fuel) line = Some (line, None).
Proof.
  unfold raw_clean. cbn [raw_loop]. destruct (Match _RE_RAW_STRING line) as [m|]; [|done]. by intros ->.
Qed.

(** Every text with a character that is not white space has an indentation. *)
Lemma leading_space_some line c : c ∈ line -> is_space c = false -> is_Some (Match "^(\s*)\S" line).
Proof.
  intros Hc Hs. assert (MatchB "^(\s*)\S" line = true) as Hm.
  2: { unfold MatchB in Hm. destruct (Match _ line); [eauto | done]. }
  eapply MatchB_iff; [vm_compute; reflexivity | done|]. cbn [rx_re rx_flags]. rewrite state_at_0.
  destruct (span_ex is_space line) as (u & r & -> & Hu & Hr).
  destruct r as [|d r].
  { rewrite app_nil_r in Hc. apply list_elem_of_In in Hc. rewrite forallb_forall in Hu. apply Hu in Hc. congruence. }
  eexists _, _. split; [by split|]. eexists. split.
  { eexists. split; [|reflexivity]. eexists. split; [|reflexivity].
    eapply sem_star; [reflexivity|]. rewrite <- Hu. apply forallb_ext_eq. intros x. unfold set_has, item_has. simpl. by rewrite orb_false_r. }
  eexists. split; [|reflexivity]. eapply sem_one; [reflexivity|]. unfold set_has, item_has. simpl. by rewrite Hr.
Qed.

Lemma raw_line_total d line w :
  delim_ok d -> exists r, raw_line_step d line w = (Ok r, w) /\ delim_ok (snd r) /\
                          (snd r = None -> raw_clean (fst r) = true).
Proof.
  assert (forall l, exists r, or_raise (W := world) OutOfFuel (raw_loop (S (length l)) l) w = (Ok r, w) /\ delim_ok (snd r) /\
                    (snd r = None -> raw_clean (fst r) = true)) as Hl.
  { intros l. destruct (raw_loop_total (S (length l)) l) as [r Hr]; [lia|]. exists r. rewrite Hr. split; [done|].
    by eapply raw_loop_post. }
  destruct d as [d|]; intros Hd; unfold raw_line_step; [|apply Hl]. cbv zeta.
  destruct (0 <=? find line d) eqn:E; [|eexists; split; [reflexivity|]; by split].
  apply Z.leb_le, find_some in E as (u & v & E & _). destruct Hd as [d' ->].
  destruct (leading_space_some line (ch ")")) as [m Hm]; [|done|].
  { rewrite E, !elem_of_app. right. left. left. by apply list_elem_of_singleton. }
  rewrite Hm. apply Hl.
Qed.

Lemma raw_lines_total d ls w :
  delim_ok d -> exists out, CleanseRawStrings_from d ls w = (Ok out, w) /\ length out = length ls.
Proof.
  revert d. induction ls as [|line ls IH]; intros d Hd; cbn [CleanseRawStrings_from]; [by exists []|].
  destruct (raw_line_total d line w Hd) as (r & Hr & Hok & _). unfold bind at 1. rewrite Hr.
  destruct (IH _ Hok) as (out & Ho & Hl). unfold bind at 1. rewrite Ho. eexists. split; [done|]. simpl. lia.
Qed.

Lemma raw_lines_clean ls w :
  Forall (fun l => raw_clean l = true) ls -> CleanseRawStrings_from None ls w = (Ok ls, w).
Proof.
  induction 1 as [|line ls Hc Hf IH]; cbn [CleanseRawStrings_from]; [done|].
  unfold bind at 1, raw_line_step. rewrite raw_loop_clean by done. cbn [or_raise]. unfold ret at 1. cbn [snd fst].
  unfold bind at 1. by rewrite IH.
Qed.

(** C19. Removing raw strings always ends normally and touches no state, gives one line for every line, and leaves a
    file alone when none of its lines starts a raw string; a line without a double quote never does.  A line
    that ends outside a raw string holds the start of none any more. *)
Theorem CleanseRawStrings_spec (ls : list str) (w : world) :
  (exists out, CleanseRawStrings ls w = (Ok out, w) /\ length out = length ls) /\
  (Forall (fun l => raw_clean l = true) ls -> CleanseRawStrings ls w = (Ok ls, w)) /\
  (forall line, ch "`" ∉ line -> raw_clean line = true) /\
  (forall d line out, delim_ok d -> raw_line_step d line w = (Ok (out, None), w) -> raw_clean out = true).
Proof.
  split; [by apply raw_lines_total|]. split; [apply raw_lines_clean|]. split.
  - intros line Hl. unfold raw_clean. by rewrite (Match_needs _ (ch "`")).
  - intros d line out Hd H. destruct (raw_line_total d line w Hd) as ([o d'] & Hr & _ & Hc).
    rewrite Hr in H. injection H as -> ->. by apply Hc.
Qed.

(** ** Multi-line comments: the index loop against a state machine over the lines *)

(** The reference: outside a comment a line is kept unless it opens one; the lines of a comment are replaced when
    its end is found, and kept, with the place of its start, when the file ends first. *)
Fixpoint erase_comments (ix : nat) (open : option (nat * list str)) (ls : list str) : list str * option nat :=
  match ls, open with
  | [], None => ([], None)
  | [], Some (b, pending) => (rev pending, Some b)
  | l :: ls', None =>
      if opens_comment l then
        if closes_comment l
        then let '(out, e) := erase_comments (S ix) None ls' in (lit "/**/" :: out, e)
        else erase_comments (S ix) (Some (ix, [l])) ls'
      else let '(out, e) := erase_comments (S ix) None ls' in (l :: out, e)
  | l :: ls', Some (b, pending) =>
      if closes_comment l
      then let '(out, e) := erase_comments (S ix) None ls' in
           (replicate (S (length pending)) (lit "/**/") ++ out, e)
      else erase_comments (S ix) (Some (b, l :: pending)) ls'
  end.

Lemma scan_spec f ls ix :
  (scan f ls ix = (ix + length ls)%nat /\ forallb (fun l => negb (f l)) ls = true) \/
  exists u x v, ls = u ++ x :: v /\ f x = true /\ forallb (fun l => negb (f l)) u = true /\
                scan f ls ix = (ix + length u)%nat.
Proof.
  revert ix. induction ls as [|l ls IH]; intros ix; simpl; [left; split; [lia | done]|].
  destruct (f l) eqn:E.
  - right. exists [], l, ls. repeat split; [done | simpl; lia].
  - destruct (IH (S ix)) as [[-> Hf] | (u & x & v & -> & Hx & Hu & ->)].
    + left. split; [lia | done].
    + right. exists (l :: u), x, v. simpl. rewrite E. repeat split; [done | done | lia].
Qed.

Lemma clear_range_eq n a m b :
  length m = n -> clear_range n (length a) (a ++ m ++ b) = a ++ replicate n (lit "/**/") ++ b.
Proof.
  revert a m. induction n as [|n IH]; intros a m Hm; simpl; [by destruct m|].
  destruct m as [|x m]; [done|]. simpl in Hm.
  replace (<[length a := lit "/**/"]> (a ++ (x :: m) ++ b)) with ((a ++ [lit "/**/"]) ++ m ++ b).
  - replace (S (length a)) with (length (a ++ [lit "/**/"])) by (rewrite length_app; simpl; lia).
    rewrite IH by lia. by rewrite <- app_assoc.
  - replace (length a) with (length a + 0)%nat at 1 by lia. rewrite insert_app_r. simpl. by rewrite <- app_assoc.
Qed.

Lemma erase_outside ix u v :
  forallb (fun l => negb (opens_comment l)) u = true ->
  erase_comments ix None (u ++ v) =
  let '(out, e) := erase_comments (ix + length u) None v in (u ++ out, e).
Proof.
  revert ix. induction u as [|l u IH]; intros ix; simpl.
  - intros _. rewrite Nat.add_0_r. by destruct (erase_comments ix None v).
  - intros H. apply andb_true_iff in H as [H1%negb_true_iff H2]. rewrite H1, IH by done.
    replace (S ix + length u)%nat with (ix + S (length u))%nat by lia. by destruct (erase_comments _ None v).
Qed.

Lemma erase_inside ix b pending u :
  forallb (fun l => negb (closes_comment l)) u = true ->
  (forall x v, closes_comment x = true ->
     erase_comments ix (Some (b, pending)) (u ++ x :: v) =
     let '(out, e) := erase_comments (ix + length u + 1) None v in
     (replicate (length pending + length u + 1) (lit "/**/") ++ out, e)) /\
  erase_comments ix (Some (b, pending)) u = (rev pending ++ u, Some b).
Proof.
  revert ix pending. induction u as [|l u IH]; intros ix pending.
  - intros _. split; [|by rewrite app_nil_r]. intros x v Hx. cbn [erase_comments app]. rewrite Hx.
    replace (ix + length [] + 1)%nat with (S ix) by (simpl; lia).
    replace (length pending + length [] + 1)%nat with (S (length pending)) by (simpl; lia). done.
  - simpl. intros H. apply andb_true_iff in H as [H1%negb_true_iff H2]. rewrite H1.
    destruct (IH (S ix) (l :: pending) H2) as [IH1 IH2]. split.
    + intros x v Hx. rewrite IH1 by done. replace (S ix + length u + 1)%nat with (ix + S (length u) + 1)%nat by lia.
      replace (length (l :: pending) + length u + 1)%nat with (length pending + S (length u) + 1)%nat by (simpl; lia).
      done.
    + rewrite IH2. simpl. by rewrite <- app_assoc.
Qed.

Lemma erase_whole ix u y v :
  match u ++ y :: v with x :: _ => opens_comment x = true | [] => True end ->
  forallb (fun l => negb (closes_comment l)) u = true -> closes_comment y = true ->
  erase_comments ix None (u ++ y :: v) =
  let '(out, e) := erase_comments (ix + length u + 1) None v in
  (replicate (length u + 1) (lit "/**/") ++ out, e).
Proof.
  destruct u as [|x u]; simpl; intros Ho Hu Hy; rewrite Ho.
  - rewrite Hy. replace (ix + 0 + 1)%nat with (S ix) by lia. done.
  - apply andb_true_iff in Hu as [Hx%negb_true_iff Hu]. rewrite Hx.
    rewrite (proj1 (erase_inside (S ix) ix [x] u Hu)) by done.
    replace (S ix + length u + 1)%nat with (ix + S (length u) + 1)%nat by lia. done.
Qed.

Lemma erase_open ix x v :
  opens_comment x = true -> forallb (fun l => negb (closes_comment l)) (x :: v) = true ->
  erase_comments ix None (x :: v) = (x :: v, Some ix).
Proof.
  simpl. intros Ho [Hx%negb_true_iff Hv]%andb_true_iff. rewrite Ho, Hx.
  by rewrite (proj2 (erase_inside (S ix) ix [x] v Hv)).
Qed.

(** What the reference says of a file, as a computation. *)
Definition report_open (filename : str) (error : error_fn) (kept : list str) (r : list str * option nat) : P (list str) :=
  match r with
  | (out, None) => ret (kept ++ out)
  | (out, Some i) =>
      error filename (Some (Z.of_nat i + 1)) "readability/multiline_comment" 5
        "Could not find end of multi-line comment";; ret (kept ++ out)
  end.

Lemma remove_from_eq fuel filename error a b w :
  (length b < fuel)%nat ->
  RemoveMultiLineComments_from fuel filename (a ++ b) (length a) error w =
  report_open filename error a (erase_comments (length a) None b) w.
Proof.
  revert a b. induction fuel as [|fuel IH]; intros a b Hl; [lia|]. cbn [RemoveMultiLineComments_from].
  destruct (Nat.ltb_spec (length a) (length (a ++ b))) as [Hlt|Hge]; cbn [negb].
  2: { rewrite length_app in Hge. destruct b; [|simpl in Hge; lia]. done. }
  unfold FindNextMultiLineCommentStart. rewrite drop_app_length.
  destruct (scan_spec opens_comment b (length a)) as [[-> Hf] | (u & x & v & -> & Hx & Hu & ->)].
  - rewrite (proj2 (Nat.leb_le _ _)) by (rewrite length_app; lia).
    pose proof (erase_outside (length a) b [] Hf) as He. rewrite app_nil_r in He. rewrite He. simpl.
    by rewrite app_nil_r.
  - rewrite (proj2 (Nat.leb_gt _ _)) by (rewrite !length_app; simpl; lia).
    unfold FindNextMultiLineCommentEnd. rewrite (app_assoc a), <- length_app, drop_app_length, erase_outside by done.
    replace (length (a ++ u)) with (length a + length u)%nat by (symmetry; apply length_app). set (i := (length a + length u)%nat) in *.
    destruct (scan_spec closes_comment (x :: v) i) as [[-> Hf] | (u' & y & v' & E & Hy & Hu' & ->)].
    + rewrite (proj2 (Nat.leb_le _ _)) by (rewrite !length_app; simpl; unfold i; lia).
      rewrite erase_open by done. unfold report_open. by rewrite <- app_assoc.
    + rewrite E, erase_whole; [|by rewrite <- E|done|done].
      rewrite (proj2 (Nat.leb_gt _ _)) by (rewrite !length_app; simpl; unfold i; lia).
      unfold RemoveMultiLineCommentsFromRange. replace (i + length u' + 1 - i)%nat with (length u' + 1)%nat by lia.
      replace ((a ++ u) ++ u' ++ y :: v') with ((a ++ u) ++ (u' ++ [y]) ++ v') by (by rewrite <- !app_assoc).
      replace i with (length (a ++ u)) at 1 by (unfold i; apply length_app).
      rewrite clear_range_eq by (rewrite length_app; simpl; lia). rewrite app_assoc.
      replace (i + length u' + 1)%nat with (length ((a ++ u) ++ replicate (length u' + 1) (lit "/**/")))
        by (rewrite !length_app, length_replicate; unfold i; lia).
      rewrite IH. 
      * destruct (erase_comments _ None v') as [out [k|]]; simpl; by rewrite <- !app_assoc.
      * rewrite length_app in Hl. rewrite E, length_app in Hl. simpl in Hl. lia.
Qed.

Lemma erase_length ix open ls :
  length (fst (erase_comments ix open ls)) =
  (length ls + match open with Some (_, pending) => length pending | None => 0 end)%nat.
Proof.
  revert ix open. induction ls as [|l ls IH]; intros ix open; simpl.
  - destruct open as [[b p]|]; simpl; [apply length_rev | done].
  - pose proof (IH (S ix) None) as Hn. destruct open as [[b p]|]; repeat split_if; rewrite ?IH;
      try (destruct (erase_comments (S ix) None ls); simpl in Hn |- * ); rewrite ?length_app, ?length_replicate; simpl; lia.
Qed.

(** C9. The index-based loop of [RemoveMultiLineComments] is the one-pass state machine [erase_comments]: it always
    ends; lines outside comments are kept, the lines of a closed comment are replaced one for one, so that line numbers
    stay right; an unclosed comment is reported once, with the index of the line that opens it plus one (one line too far for a caller whose list starts
    with a marker, as that of [ProcessFileData] does), and its lines are kept. *)
Theorem RemoveMultiLineComments_spec filename ls (error : error_fn) w :
  RemoveMultiLineComments filename ls error w = report_open filename error [] (erase_comments 0 None ls) w /\
  length (fst (erase_comments 0 None ls)) = length ls.
Proof.
  split; [apply (remove_from_eq _ _ _ [] ls); lia | rewrite erase_length; lia].
Qed.

(** ** Collapsing: shape of the matches, progress, totality *)

Lemma quote_shape elided m :
  Match _RE_QUOTE elided = Some m ->
  exists head q tail rest,
    group_str m 1 = head /\ group_str m 2 = [q] /\ group_str m 3 = tail /\ elided = head ++ q :: tail ++ rest /\
    (q = ch "'" \/ q = ch "`").
Proof.
  intros H. eapply Match_sound in H as (st & Hs & ->); [|vm_compute; reflexivity|done].
  sem_parts. sem_words. eapply spells_one in Hsem5 as (q & -> & Hq); [|reflexivity].
  eexists _, _, _, _. split; [group_is|]. split; [group_is|]. split; [group_is|]. split; [reflexivity|].
  unfold set_has, item_has in Hq. simpl in Hq. rewrite orb_false_r in Hq. apply orb_true_iff in Hq as [Hq|Hq];
    apply N.eqb_eq in Hq; auto.
Qed.

Lemma slice_from_length {A} (s : list A) i : (length (slice_from s i) <= length s)%nat.
Proof. unfold slice_from. rewrite length_drop. lia. Qed.

Lemma number_head head : SearchB "\b(?:0[bBxX]?|[1-9])[0-9a-fA-F]*$" head = true -> (1 <= length head)%nat.
Proof.
  destruct head; [|simpl; lia]. intros H. exfalso. revert H. vm_compute. done.
Qed.

Lemma literal_total (s : str) : c_nl ∉ s -> is_Some (Match _RE_LITERAL s).
Proof.
  intros Hs. assert (MatchB _RE_LITERAL s = true) as Hm.
  2: { unfold MatchB in Hm. destruct (Match _ s); [eauto | done]. }
  eapply MatchB_iff; [vm_compute; reflexivity | done|]. cbn [rx_re rx_flags]. rewrite state_at_0, <- (app_nil_r s).
  eexists _, _. split; [by split|]. eexists. split.
  { eexists. split; [|reflexivity]. eexists. split; [|reflexivity]. exists 0%nat. split; [split; [lia|done]|]. constructor. }
  eexists. split.
  { eexists. split; [|reflexivity]. eexists. split; [|reflexivity].
    unfold set_cap, with_caps. cbn [before after caps]. eapply sem_star; [reflexivity|]. apply forallb_forall. intros c Hc. simpl.
    apply negb_true_iff, N.eqb_neq. intros ->. by apply Hs, list_elem_of_In. }
  eexists. split; [by split | reflexivity].
Qed.

Lemma literal_shape s m :
  Match _RE_LITERAL s = Some m -> (length (group_str m 2) <= length s)%nat.
Proof.
  intros H. apply Match_text in H as <-. unfold group_str, group. destruct (m_group_span m 2) as [[a b]|]; simpl; len_lia.
Qed.

Lemma collapse_total fuel collapsed el w :
  (length el < fuel)%nat -> c_nl ∉ el -> exists out, collapse_loop fuel collapsed el w = (Ok out, w).
Proof.
  revert collapsed el. induction fuel as [|fuel IH]; intros collapsed el Hl Hn; [lia|]. cbn [collapse_loop].
  destruct (Match _RE_QUOTE el) as [m|] eqn:E; [|by eexists].
  destruct (quote_shape _ _ E) as (head & q & tail & rest & -> & -> & -> & -> & _). cbv zeta.
  assert (Ht : c_nl ∉ tail) by (intros ?; apply Hn; set_solver).
  assert (Hrec : forall c k, exists out, collapse_loop fuel c (slice_from tail k) w = (Ok out, w)).
  { intros c k. apply IH.
    - pose proof (slice_from_length tail k). len_lia.
    - intros Hc%subseteq_drop. done. }
  repeat split_if; [apply Hrec | by eexists | | apply Hrec | by eexists].
  destruct (literal_total ("'" ++ tail)) as [ml Hml].
  { unfold lit. simpl. intros [?|?]%elem_of_cons; [done | tauto]. }
  rewrite Hml. unfold bind at 1. cbn [or_raise]. unfold ret at 1. apply IH.
  - apply literal_shape in Hml. apply number_head in Heqb0. unfold lit in *. len_lia.
  - intros Hc%group_elem. apply Match_text in Hml. rewrite Hml in Hc. unfold lit in Hc. simpl in Hc.
    apply elem_of_cons in Hc as [?|?]; [done | tauto].
Qed.

Lemma collapse_strings_total l w : c_nl ∉ l -> exists out, _CollapseStrings l w = (Ok out, w).
Proof.
  intros Hl. unfold _CollapseStrings. split_if; [by eexists|]. cbv zeta. apply collapse_total; [lia|].
  intros Hc%ReplaceAll_erase. done.
Qed.

(** Characters are only ever removed, or replaced by a pair of quotes. *)
Lemma quotes_or c (u v : str) : c ∈ u ++ "``" ++ v -> c <> ch "`" -> c ∈ u \/ c ∈ v.
Proof. rewrite !elem_of_app. intros [?|[H|?]]; [by left| |by right]. unfold lit in H. set_solver. Qed.

Lemma raw_loop_chars fuel line r c :
  raw_loop fuel line = Some r -> c ∈ fst r -> c <> ch "`" -> c ∈ line.
Proof.
  revert line. induction fuel as [|fuel IH]; intros line; [done|]. cbn [raw_loop].
  destruct (Match _RE_RAW_STRING line) as [m|] eqn:E; [|by intros [= <-]]. apply Match_text in E.
  destruct (negb _); [|by intros [= <-]]. cbv zeta. rewrite <- E. split_if.
  - intros H Hc Hq. specialize (IH _ H Hc Hq). apply quotes_or in IH as [?|Hs%subseteq_drop]; [| |done]; by eapply group_elem.
  - intros [= <-] Hc Hq. cbn [fst] in Hc. rewrite <- (app_nil_r "``") in Hc. apply quotes_or in Hc as [?|?%not_elem_of_nil]; [|done|done].
    by eapply group_elem.
Qed.

Lemma raw_line_chars d line w r w' c :
  raw_line_step d line w = (Ok r, w') -> c ∈ fst r -> c <> ch "`" -> c ∈ line.
Proof.
  assert (Hl : forall l, or_raise OutOfFuel (raw_loop (S (length l)) l) w = (Ok r, w') -> c ∈ fst r -> c <> ch "`" -> c ∈ l).
  { intros l. destruct (raw_loop _ l) as [r'|] eqn:E; [|done]. intros [= -> _]. by eapply raw_loop_chars. }
  unfold raw_line_step. destruct d as [d|]; [|apply Hl]. cbv zeta. split_if.
  - destruct (Match _ line) as [m|] eqn:E; [|done]. apply Match_text in E. intros H Hc Hq.
    apply Hl in H; [|done|done]. apply quotes_or in H as [H|H%subseteq_drop]; [|done|done].
    rewrite <- E. by eapply group_elem.
  - intros [= <- _] Hc Hq. unfold lit in Hc. set_solver.
Qed.

Lemma raw_lines_nl d ls w out w' :
  CleanseRawStrings_from d ls w = (Ok out, w') -> Forall (fun l => c_nl ∉ l) ls -> Forall (fun l => c_nl ∉ l) out.
Proof.
  revert d w out w'. induction ls as [|l ls IH]; intros d w out w'; cbn [CleanseRawStrings_from].
  - by intros [= <- _].
  - intros (r & w1 & H1 & H2)%bind_ok. apply bind_ok in H2 as (o & w2 & H2 & [= <- _]). inversion 1; subst.
    constructor; [|by eapply IH]. intros Hc. eapply raw_line_chars in H1; [|exact Hc|done]. done.
Qed.

Lemma cleanse_each_total ls w :
  Forall (fun l => c_nl ∉ l) ls ->
  exists a b, cleanse_each ls w = (Ok (a, b), w) /\ length a = length ls /\ length b = length ls.
Proof.
  induction 1 as [|l ls Hl Hf (a & b & IH & Ha & Hb)]; cbn [cleanse_each]; [by exists [], []|].
  destruct (collapse_strings_total l w Hl) as [e He]. unfold bind at 1. rewrite He. unfold bind at 1. rewrite IH.
  eexists _, _. split; [reflexivity|]. simpl. by rewrite Ha, Hb.
Qed.

Lemma CleansedLines_ok ls w :
  Forall (fun l => c_nl ∉ l) ls ->
  exists c, CleansedLines_init ls w = (Ok c, w) /\ raw_lines c = ls /\ NumLines c = len ls /\
    length (elided c) = length ls /\ length (lines c) = length ls /\
    length (lines_without_raw_strings c) = length ls.
Proof.
  intros Hnl. unfold CleansedLines_init. destruct (raw_lines_total None ls w Logic.I) as (out & Ho & Hl).
  destruct (cleanse_each_total out w) as (a & b & Hc & Ha & Hb); [by eapply raw_lines_nl|].
  unfold CleanseRawStrings, bind. rewrite Ho, Hc. eexists. split; [reflexivity|]. simpl. split; [done|]. split; [done|]. lia.
Qed.

(** C26. Building the views of a file never fails when its lines hold no newline (they come from splitting at newlines):
    the constructor of [CleansedLines] ends normally, leaves the module state alone, keeps the lines it was given,
    and all four views have as many lines as the file, [NumLines]. *)
Theorem CleansedLines_views ls w (Hnl : Forall (fun l => c_nl ∉ l) ls) :
  exists c, CleansedLines_init ls w = (Ok c, w) /\ raw_lines c = ls /\ NumLines c = len ls /\
    length (elided c) = length ls /\ length (lines c) = length ls /\
    length (lines_without_raw_strings c) = length ls.
Proof. by apply CleansedLines_ok. Qed.

(** ** Plain lines *)

Lemma find_absent s p c : c ∈ p -> c ∉ s -> find s p = -1.
Proof.
  intros Hp Hs. unfold find. destruct (find_nat s p) eqn:E; [|done].
  apply find_nat_some in E as (u & v & -> & _). set_solver.
Qed.

Lemma CleanseComments_plain l : ch "/" ∉ l -> CleanseComments l = l.
Proof.
  intros Hl. unfold CleanseComments. rewrite (find_absent _ _ (ch "/")) by (done || by left).
  cbv zeta. cbn [Z.eqb negb andb]. by apply (ReplaceAll_needs _ (ch "/")).
Qed.

Lemma collapse_plain l w : ch "`" ∉ l -> ch "'" ∉ l -> ch "\" ∉ l -> _CollapseStrings l w = (Ok l, w).
Proof.
  intros Hq Hs Hb. unfold _CollapseStrings. split_if; [done|]. cbv zeta. rewrite (ReplaceAll_needs _ (ch "\")) by done.
  cbn [collapse_loop]. destruct (Match _RE_QUOTE l) as [m|] eqn:E; [|done]. exfalso.
  apply quote_shape in E as (head & q & tail & rest & _ & _ & _ & -> & Hc).
  destruct Hc as [-> | ->]; [apply Hs | apply Hq]; apply elem_of_app; right; left.
Qed.

(** ** Open strings *)

(** The double quotes that no backslash escapes, by one pass with the state after a backslash. *)
Fixpoint open_quotes (escaped : bool) (s : str) : nat :=
  match s with
  | [] => 0
  | c :: s' =>
      if (c =? ch "\")%N then open_quotes (negb escaped) s'
      else if (c =? ch "`")%N then (if escaped then open_quotes false s' else S (open_quotes false s'))
      else open_quotes false s'
  end.

Lemma escaped_pairs (new : str) s :
  new = [] \/ new = "XX" ->
  let r := replace_skip "\\" new 0 s in
  count_skip "`" 0 r = (open_quotes false s + count_skip "\`" 0 r)%nat.
Proof.
  intros Hnew. cbv zeta. unfold lit in *. remember (length s) as n eqn:Hn. revert s Hn.
  induction n as [n IH] using lt_wf_ind. intros s ->.
  destruct s as [|c s]; [done|].
  destruct (N.eqb_spec c 92) as [->|Hc].
  - destruct s as [|d s]; [done|].
    destruct (N.eqb_spec d 92) as [->|Hd]; [|destruct (N.eqb_spec d 34) as [->|Hd']].
    + destruct Hnew as [-> | ->]; simpl; apply (IH (length s)); simpl; lia.
    + simpl. rewrite (IH (length s)) by (simpl; lia). lia.
    + apply N.eqb_neq in Hd as Hd1, Hd' as Hd2. pose proof (N.eqb_sym 92 d). pose proof (N.eqb_sym 34 d).
      simpl. rewrite !H, !Hd1. simpl. rewrite !H0, !Hd2. simpl. rewrite ?H, ?Hd1. simpl.
      apply (IH (length s)); simpl; lia.
  - apply N.eqb_neq in Hc as Hc1. pose proof (N.eqb_sym 92 c). pose proof (N.eqb_sym 34 c).
    simpl. rewrite !H, !Hc1. simpl. rewrite !H0, ?H, ?Hc1. simpl.
    destruct (c =? 34)%N; simpl; rewrite (IH (length s)) by (simpl; lia); lia.
Qed.

(** [IsCppString] decides whether a line ends inside a string: it is true exactly when the number of double quotes
    that are not escaped, less the quotes that are character literals, is odd. *)
Theorem IsCppString_spec line :
  IsCppString line =
  Z.odd (Z.of_nat (open_quotes false line) - count (replace line "\\" "XX") "'`'").
Proof.
  unfold IsCppString, count, replace. cbv zeta. rewrite (escaped_pairs "XX" line) by auto. f_equal. lia.
Qed.

(** Nothing is left of a first line that is a comment without quotes and backslashes. *)
Lemma comment_line_elided l ls w c :
  startswith l "//" = true -> ch "`" ∉ l -> ch "'" ∉ l -> ch "\" ∉ l ->
  CleansedLines_init (l :: ls) w = (Ok c, w) -> index (elided c) 0 = Some [].
Proof.
  intros Hs H1 H2 H3. unfold CleansedLines_init, CleanseRawStrings. cbn [CleanseRawStrings_from raw_line_step].
  rewrite raw_loop_clean by (unfold raw_clean; by rewrite (Match_needs _ (ch "`"))). cbn [or_raise].
  unfold bind, ret at 1. cbn [fst snd]. destruct (CleanseRawStrings_from None ls w) as [[out|] w1]; [|done]. unfold ret at 1.
  cbn [cleanse_each]. unfold bind. rewrite collapse_plain by done. destruct (cleanse_each out w1) as [[r|] w2]; [|done].
  cbn [ret fst snd]. intros [= <- _]. cbn [elided]. change (index (CleanseComments l :: snd r) 0) with (Some (CleanseComments l)). f_equal.
  apply startswith_iff in Hs as [r' ->]. unfold CleanseComments. replace (find (lit "//" ++ r') "//") with 0; [|by destruct r'].
  replace (slice_to (lit "//" ++ r') 0) with (lit ""); [|done].
  change (rstrip (lit "")) with (lit ""). change (negb (0 =? -1) && negb (IsCppString (lit ""))) with true. cbv iota.
  apply (ReplaceAll_needs _ (ch "/")); [done | apply not_elem_of_nil].
Qed.

(** A line without quotes, backslashes and slashes is the same in every view of the file. *)
Theorem plain_lines_unchanged ls w
    (Hplain : Forall (fun l => forall c, c ∈ lit "`'\/" -> c ∉ l) ls) :
  CleansedLines_init ls w = (Ok (Cleansed ls ls ls ls (len ls)), w).
Proof.
  unfold CleansedLines_init, CleanseRawStrings, bind at 1. rewrite raw_lines_clean.
  2: { eapply Forall_impl; [exact Hplain|]. intros l Hl. unfold raw_clean.
       rewrite (Match_needs _ (ch "`")); [done|done|]. apply Hl. left. }
  assert (cleanse_each ls w = (Ok (ls, ls), w)) as He.
  { induction Hplain as [|l ls Hl Hf IH]; cbn [cleanse_each]; [done|].
    assert (Hc : forall c, c ∈ lit "`'\/" -> c ∉ l) by done.
    unfold bind at 1. rewrite collapse_plain by (apply Hc; unfold lit; set_solver).
    unfold bind at 1. rewrite IH. cbn [fst snd]. by rewrite CleanseComments_plain by (apply Hc; unfold lit; set_solver). }
  unfold bind. by rewrite He.
Qed.

(** ** Triples *)

Section CleanseRuns.
Context (I : world -> Prop) (X : exn -> Prop).

Definition no_nl (l : str) : Prop := c_nl ∉ l.
#[local] Instance no_nl_dec l : Decision (no_nl l) := ltac:(unfold no_nl; apply _).

Lemma erase_no_nl ix open ls :
  match open with Some (_, pending) => Forall no_nl pending | None => True end ->
  Forall no_nl ls -> Forall no_nl (fst (erase_comments ix open ls)).
Proof.
  assert (Hp : no_nl "/**/") by (apply (bool_decide_unpack (no_nl _)); vm_compute; exact Logic.I).
  revert ix open. induction ls as [|l ls IH]; intros ix open Ho Hl; cbn [erase_comments].
  - destruct open as [[b p]|]; cbn [fst]; [by apply Forall_rev | done].
  - apply Forall_cons in Hl as [Hl Hls]. pose proof (IH (S ix) None Logic.I Hls) as Hn.
    destruct open as [[b p]|]; repeat split_if; try (apply IH; [|done]; repeat constructor; done);
      destruct (erase_comments (S ix) None ls) as [out e]; cbn [fst] in *; [|by constructor..].
    apply Forall_app. split; [by apply Forall_replicate | done].
Qed.

(** The comment left open does not begin with the last line, where that line begins none. *)
Lemma erase_bound ix open ls z k :
  opens_comment z = false -> match open with Some (b, _) => (b < ix)%nat | None => True end ->
  snd (erase_comments ix open (ls ++ [z])) = Some k -> (k < ix + length ls)%nat.
Proof.
  intros Hz. revert ix open. induction ls as [|l ls IH]; intros ix open Ho; cbn [app erase_comments length].
  - destruct open as [[b p]|]; [split_if; [done | intros [= <-]; lia] | by rewrite Hz].
  - pose proof (IH (S ix) None Logic.I) as Hn.
    destruct open as [[b p]|]; repeat split_if; try (intros H%IH; [lia|simpl; lia]);
      destruct (erase_comments (S ix) None (ls ++ [z])) as [out e]; cbn [snd] in *; intros H%Hn; lia.
Qed.

Lemma RemoveMultiLineComments_runs N filename ls z (error : error_fn) {R : Reporter N filename I X error} :
  last ls = Some z -> opens_comment z = false -> len ls <= N -> Forall no_nl ls -> runs I X (RemoveMultiLineComments filename ls error) 
    (fun out => out = fst (erase_comments 0 None ls) /\ Forall no_nl out /\ length out = length ls).
Proof.
  intros (init & ->)%last_Some Hz HN Hls. pose proof (erase_bound 0 None init z) as Hb. set (ls := init ++ [z]) in *.
  assert (Hi : length ls = S (length init)) by (unfold ls; rewrite length_app; simpl; lia).
  pose proof (erase_no_nl 0 None ls Logic.I Hls) as Hn. pose proof (erase_length 0 None ls) as Hlen.
  assert (H : runs I X (report_open filename error [] (erase_comments 0 None ls))
    (fun out => out = fst (erase_comments 0 None ls) /\ Forall no_nl out /\ length out = length ls)).
  { destruct (erase_comments 0 None ls) as [out [k|]]; cbn [report_open fst app] in *;
      [eapply runs_bind; [apply report_runs|]; [|intros _ _]|]; try (apply runs_ret; split; [done | split; [done | lia]]).
    specialize (Hb k Hz Logic.I eq_refl). unfold len in HN. solve_message. }
  intros w Hw. unfold RemoveMultiLineComments. rewrite (remove_from_eq _ _ _ [] ls) by lia. by apply H.
Qed.

Lemma CleansedLines_runs ls :
  Forall no_nl ls ->
  runs I X (CleansedLines_init ls) (fun c => sized (len ls) c /\ exists w, CleansedLines_init ls w = (Ok c, w)).
Proof.
  intros Hls. apply runs_total. intros w. destruct (CleansedLines_ok ls w Hls) as (c & Hc & Hr & Hn & H1 & H2 & H3).
  exists c. split; [done|]. split; [|eauto]. split; unfold NumLines, len in *; rewrite ?Hr; lia.
Qed.
End CleanseRuns.

End Cleanse.

#[export] Hint Resolve RemoveMultiLineComments_runs CleansedLines_runs : runs.

(** The sizes of the views, and of the lines that were read. *)
#[export] Ltac size_facts ::=
  repeat match goal with
         | H : sized ?N ?c |- _ =>
             lazymatch goal with
             | _ : NumLines c = N |- _ => fail
             | _ => pose proof (sized_num _ _ H); pose proof (sized_elided _ _ H); pose proof (sized_lines _ _ H);
                    pose proof (sized_raw _ _ H); pose proof (sized_without_raw _ _ H)
             end
         | H : index ?l ?i = Some _ |- _ =>
             lazymatch goal with _ : i < len l |- _ => fail | _ => pose proof (index_lt _ _ _ H) end
         end.

(** ** Witnesses and examples *)

Lemma CleansedLines_views_witness :
  exists c, CleansedLines_init (U := ascii_db) (lits ["int a = 3; // `b`"; "f(`x`, R`(y)`);"]) world_init = (Ok c, world_init) /\
    length (elided c) = 2%nat.
Proof.
  destruct (CleansedLines_views (U := ascii_db) (lits ["int a = 3; // `b`"; "f(`x`, R`(y)`);"]) world_init)
    as (c & H & _ & _ & He & _).
  - repeat constructor; intros H; vm_compute in H; set_solver.
  - exists c. split; [exact H | exact He].
Defined.

Lemma plain_lines_unchanged_witness :
  CleansedLines_init (U := ascii_db) (lits ["int a = 3;"]) world_init =
  (Ok (Cleansed (lits ["int a = 3;"]) (lits ["int a = 3;"]) (lits ["int a = 3;"]) (lits ["int a = 3;"]) 1), world_init).
Proof.
  apply (plain_lines_unchanged (U := ascii_db) (lits ["int a = 3;"]) world_init).
  constructor; [|constructor]. intros c Hc. vm_compute in Hc. vm_compute. set_solver.
Defined.

(** The example of the comment of [CleanseRawStrings]; the middle line becomes an empty string. *)
Example CleanseRawStrings_example :
  fst (CleanseRawStrings (U := ascii_db)
    (lits ["static const char kData[] = R`("; "    multi-line string"; "    )`;"]) world_init) =
  Ok (lits ["static const char kData[] = ``"; "``"; "    ``;"]).
Proof. vm_compute. reflexivity. Qed.

(** A comment that starts with a slash right after its opening is taken to end there. *)
Example RemoveMultiLineComments_slash :
  fst (RemoveMultiLineComments "a.cc" (lits ["/*/"; "text"; "*/"]) (fun _ _ _ _ _ => ret tt) world_init) =
  Ok (lits ["/**/"; "text"; "*/"]).
Proof. vm_compute. reflexivity. Qed.
