(* ===== verification/Expr.v ===== *)
(** * Matching brackets across lines

    Models [FindEndOfExpressionInLine], [CloseExpression], [FindStartOfExpressionInLine] and
    [ReverseCloseExpression] of cpplint.py.  The expression stack is a Python list that grows at its end; here its
    head is the top.  On text without angle brackets both searches are shown to find exactly the partner bracket
    that the grammar of balanced text determines, so that the backward search undoes the forward one. *)

From S2P Require Import Prelude PyStr PyRe PyEff Tables Regexps Lint Cleanse.

Local Open Scope Z_scope.

Section Expr.
Context {U : UnicodeDB}.

Abbreviation stack := (list N).

(** What a search of one line returns: a position, or -1 and the stack left, [None] when the search is over. *)
Abbreviation found := (Z * option stack)%type.

(** One character of a search: the function returns, or goes on with a new stack; the backward
    search may also skip a character. *)
Inductive verdict :=
| Return (r : found)
| Continue (st : stack)
| Skip (st : stack).

Definition top_is (st : stack) (c : N) : bool := match st with t :: _ => (t =? c)%N | [] => false end.
Definition pop_all (c : N) (st : stack) : stack := drop_while (N.eqb c) st.

(** The bracket that closes an opening one. *)
Definition closes (o c : N) : bool :=
  ((o =? ch "(") && (c =? ch ")") || (o =? ch "[") && (c =? ch "]") || (o =? ch "{") && (c =? ch "}"))%N.

Definition char_in (c : N) (s : str) : bool := existsb (N.eqb c) s.

(** [line[i] == c] for an index in range *)
Definition char_at (line : str) (i : Z) (c : N) : bool :=
  match index line i with Some d => (d =? c)%N | None => false end.

(** ** Forward *)

Definition end_step (line : str) (i : Z) (char : N) (st : stack) : verdict :=
  if char_in char "([{" then Continue (char :: st)
  else if (char =? ch "<")%N then
    if (0 <? i) && char_at line (i - 1) (ch "<") then
      if top_is st (ch "<") then
        match tail st with [] => Return (-1, None) | st' => Continue st' end
      else Continue st
    else if (0 <? i) && SearchB "\boperator\s*$" (slice line 0 i) then Continue st
    else Continue (ch "<" :: st)
  else if char_in char ")]}" then
    match pop_all (ch "<") st with
    | [] => Return (-1, None)
    | t :: st' =>
        if closes t char then match st' with [] => Return (i + 1, None) | _ => Continue st' end
        else Return (-1, None)
    end
  else if (char =? ch ">")%N then
    if (0 <? i) && (char_at line (i - 1) (ch "-") || SearchB "\boperator\s*$" (slice line 0 (i - 1)))
    then Continue st
    else if top_is st (ch "<") then
      match tail st with [] => Return (i + 1, None) | st' => Continue st' end
    else Continue st
  else if (char =? ch ";")%N then
    match pop_all (ch "<") st with [] => Return (-1, None) | st' => Continue st' end
  else Continue st.

(** [n] characters are left from position [i] on. *)
Fixpoint end_loop (n : nat) (line : str) (i : Z) (st : stack) : P found :=
  match n with
  | O => ret (-1, Some st)
  | S n' =>
      char <- or_raise IndexError (index line i);;
      match end_step line i char st with
      | Return r => ret r
      | Continue st' | Skip st' => end_loop n' line (i + 1) st'
      end
  end.

Definition FindEndOfExpressionInLine (line : str) (startpos : Z) (st : stack) : P found :=
  end_loop (Z.to_nat (len line - startpos)) line startpos st.

(** The loop over the following lines, [n] of them. *)
Fixpoint close_loop (n : nat) (c : CleansedLines) (line : str) (linenum : Z) (st : option stack) : P (str * Z * Z) :=
  match n, st with
  | S n', Some ((_ :: _) as s) =>
      let linenum := linenum + 1 in
      line <- or_raise IndexError (index (elided c) linenum);;
      r <- FindEndOfExpressionInLine line 0 s;;
      if -1 <? fst r then ret (line, linenum, fst r) else close_loop n' c line linenum (snd r)
  | _, _ => ret (line, NumLines c, -1)
  end.

Definition CloseExpression (c : CleansedLines) (linenum pos : Z) : P (str * Z * Z) :=
  line <- or_raise IndexError (index (elided c) linenum);;
  char <- or_raise IndexError (index line pos);;
  if negb (char_in char "({[<") || MatchB "<[<=]" (slice_from line pos)
  then ret (line, NumLines c, -1)
  else
    r <- FindEndOfExpressionInLine line pos [];;
    if -1 <? fst r then ret (line, linenum, fst r)
    else close_loop (Z.to_nat (NumLines c - 1 - linenum)) c line linenum (snd r).

(** ** Backward *)

Definition start_step (line : str) (i : Z) (char : N) (st : stack) : verdict :=
  if char_in char ")]}" then Continue (char :: st)
  else if (char =? ch ">")%N then
    if (0 <? i) && (char_at line (i - 1) (ch "-") || MatchB "\s>=\s" (slice_from line (i - 1))
                    || SearchB "\boperator\s*$" (slice line 0 i))
    then Skip st
    else Continue (ch ">" :: st)
  else if (char =? ch "<")%N then
    if (0 <? i) && char_at line (i - 1) (ch "<") then Skip st
    else if top_is st (ch ">") then
      match tail st with [] => Return (i, None) | st' => Continue st' end
    else Continue st
  else if char_in char "([{" then
    match pop_all (ch ">") st with
    | [] => Return (-1, None)
    | t :: st' =>
        if closes char t then match st' with [] => Return (i, None) | _ => Continue st' end
        else Return (-1, None)
    end
  else if (char =? ch ";")%N then
    match pop_all (ch ">") st with [] => Return (-1, None) | st' => Continue st' end
  else Continue st.

(** At most [n] rounds while [i] is not negative; every round lowers [i]. *)
Fixpoint start_loop (n : nat) (line : str) (i : Z) (st : stack) : P found :=
  if i <? 0 then ret (-1, Some st) else
  match n with
  | O => raise OutOfFuel
  | S n' =>
      char <- or_raise IndexError (index line i);;
      match start_step line i char st with
      | Return r => ret r
      | Continue st' => start_loop n' line (i - 1) st'
      | Skip st' => start_loop n' line (i - 2) st'
      end
  end.

Definition FindStartOfExpressionInLine (line : str) (endpos : Z) (st : stack) : P found :=
  start_loop (Z.to_nat (endpos + 1)) line endpos st.

(** The loop over the preceding lines, [n] of them. *)
Fixpoint reverse_loop (n : nat) (c : CleansedLines) (line : str) (linenum : Z) (st : option stack) : P (str * Z * Z) :=
  match n, st with
  | S n', Some ((_ :: _) as s) =>
      let linenum := linenum - 1 in
      line <- or_raise IndexError (index (elided c) linenum);;
      r <- FindStartOfExpressionInLine line (len line - 1) s;;
      if -1 <? fst r then ret (line, linenum, fst r) else reverse_loop n' c line linenum (snd r)
  | _, _ => ret (line, 0, -1)
  end.

Definition ReverseCloseExpression (c : CleansedLines) (linenum pos : Z) : P (str * Z * Z) :=
  line <- or_raise IndexError (index (elided c) linenum);;
  char <- or_raise IndexError (index line pos);;
  if negb (char_in char ")}]>") then ret (line, 0, -1)
  else
    r <- FindStartOfExpressionInLine line pos [];;
    if -1 <? fst r then ret (line, linenum, fst r)
    else reverse_loop (Z.to_nat linenum) c line linenum (snd r).

(** ** The reference: a pushdown scan, and the grammar of balanced text *)

Definition opener (c : N) : bool := char_in c "([{".
Definition closer (c : N) : bool := char_in c ")]}".
Definition angle (c : N) : bool := ((c =? ch "<") || (c =? ch ">"))%N.
Definition angle_free (s : str) : Prop := Forall (fun c => angle c = false) s.

Inductive outcome := Found (n : nat) | Stuck | Open (st : stack).
Definition shift (n : nat) (o : outcome) : outcome := match o with Found k => Found (n + k) | _ => o end.

(** Reads [s] with the brackets of [st] open: where the last of them is closed, or that a bracket does not fit,
    or what is open at the end. *)
Fixpoint run (st : stack) (s : str) : outcome :=
  match s with
  | [] => Open st
  | c :: s' =>
      if opener c then shift 1 (run (c :: st) s')
      else if closer c then
        match st with
        | [] => Stuck
        | t :: st' => if closes t c then match st' with [] => Found 1 | _ => shift 1 (run st' s') end else Stuck
        end
      else shift 1 (run st s')
  end.

Inductive balanced : str -> Prop :=
| bal_nil : balanced []
| bal_char c s : opener c = false -> closer c = false -> balanced s -> balanced (c :: s)
| bal_pair o c s t : closes o c = true -> balanced s -> balanced t -> balanced (o :: s ++ c :: t).

Lemma closes_kinds o c : closes o c = true -> opener o = true /\ closer c = true /\ closer o = false /\ opener c = false.
Proof.
  unfold closes. rewrite !orb_true_iff, !andb_true_iff, !N.eqb_eq. intros [[[-> ->]|[-> ->]]|[-> ->]]; done.
Qed.

Lemma opener_not_closer c : opener c = true -> closer c = false.
Proof.
  unfold opener, char_in. simpl. rewrite !orb_true_iff, !N.eqb_eq. intros [->|[->|[->|?]]]; done.
Qed.

Lemma shift_shift a b o : shift a (shift b o) = shift (a + b) o.
Proof. destruct o; simpl; [f_equal; lia | done | done]. Qed.

Lemma shift_0 o : shift 0 o = o.
Proof. by destruct o. Qed.

Lemma run_app st a b :
  run st (a ++ b) = match run st a with Open st' => shift (length a) (run st' b) | r => r end.
Proof.
  revert st. induction a as [|c a IH]; intros st; simpl; [by rewrite shift_0|].
  assert (Hs : forall st, shift 1 (run st (a ++ b)) =
    match shift 1 (run st a) with Open st' => shift (S (length a)) (run st' b) | r => r end).
  { intros st'. rewrite IH. destruct (run st' a); simpl; [done | done |]. apply shift_shift. }
  destruct (opener c); [apply Hs|]. destruct (closer c); [|apply Hs].
  destruct st as [|t st]; [done|]. destruct (closes t c); [|done]. destruct st; [done | apply Hs].
Qed.

Lemma run_balanced st b r : balanced b -> st <> [] -> run st (b ++ r) = shift (length b) (run st r).
Proof.
  intros Hb. revert st r. induction Hb as [|c s Ho Hc Hb IH|o c s t Hk Hs IHs Ht IHt]; intros st r Hst; simpl.
  - by rewrite shift_0.
  - rewrite Ho, Hc, IH by done. by rewrite shift_shift.
  - destruct (closes_kinds _ _ Hk) as (Ho & Hc & Hoc & Hco). rewrite Ho, <- app_assoc. simpl.
    rewrite IHs by done. simpl. rewrite Hco, Hc, Hk. destruct st as [|x st]; [done|].
    rewrite IHt by done. rewrite !shift_shift. f_equal. len_lia.
Qed.

(** [n] characters of [s] close every bracket of [st], innermost first. *)
Fixpoint closing (st : stack) (s : str) (n : nat) : Prop :=
  match st with
  | [] => n = 0%nat
  | o :: st' => exists b c r k, s = b ++ c :: r /\ balanced b /\ closes o c = true /\
                                n = (length b + 1 + k)%nat /\ closing st' r k
  end.

Lemma closing_cons c s st n : opener c = false -> closer c = false -> st <> [] ->
  closing st s n -> closing st (c :: s) (S n).
Proof.
  intros Ho Hc Hst. destruct st as [|o st]; [done|]. simpl. intros (b & d & r & k & -> & Hb & Hd & -> & Hk).
  exists (c :: b), d, r, k. repeat split; [by constructor | done | done].
Qed.

Lemma run_found st s n : st <> [] -> run st s = Found n -> closing st s n.
Proof.
  revert st n. induction s as [|c s IH]; intros st n Hst; simpl; [done|].
  assert (Hsh : forall st', shift 1 (run st' s) = Found n -> exists k, n = S k /\ run st' s = Found k).
  { intros st'. destruct (run st' s); simpl; try done. intros [= <-]. eauto. }
  destruct (opener c) eqn:Ho; [|destruct (closer c) eqn:Hc].
  - intros (k & -> & H)%Hsh. apply IH in H; [|done]. simpl in H.
    destruct H as (b & d & r & k' & -> & Hb & Hd & -> & Hk).
    destruct st as [|o st]; [done|]. simpl in Hk. destruct Hk as (b' & d' & r' & k'' & -> & Hb' & Hd' & -> & Hk).
    exists (c :: b ++ d :: b'), d', r', k''. simpl. rewrite <- app_assoc. repeat split;
      [by constructor | done | len_lia | done].
  - destruct st as [|t st]; [done|]. destruct (closes t c) eqn:Ht; [|done].
    destruct st as [|t' st].
    + intros [= <-]. exists [], c, s, 0%nat. repeat split; [constructor | done].
    + intros (k & -> & H)%Hsh. apply IH in H; [|done]. exists [], c, s, k. repeat split; [constructor | done | done].
  - intros (k & -> & H)%Hsh. apply IH in H; [|done]. by apply closing_cons.
Qed.

(** The scan of an opening bracket finds the end of the balanced text it starts, and only that. *)
Lemma run_partner o s n :
  opener o = true ->
  run [] (o :: s) = Found n <->
  exists b c r, s = b ++ c :: r /\ balanced b /\ closes o c = true /\ n = (length b + 2)%nat.
Proof.
  intros Ho. simpl. rewrite Ho. split.
  - destruct (run [o] s) as [k| |] eqn:E; try done. intros [= <-]. apply run_found in E; [|done].
    destruct E as (b & c & r & k' & -> & Hb & Hc & -> & ->). exists b, c, r. repeat split; [done | done | lia].
  - intros (b & c & r & -> & Hb & Hc & ->). rewrite run_balanced by done. simpl.
    destruct (closes_kinds _ _ Hc) as (_ & Hcl & _ & Hop). rewrite Hop, Hcl, Hc. simpl. f_equal. lia.
Qed.

(** ** The searches of one line are runs *)

Lemma angle_free_app a b : angle_free (a ++ b) <-> angle_free a /\ angle_free b.
Proof. apply Forall_app. Qed.

Lemma pop_all_id c st : c = ch "<" \/ c = ch ">" -> angle_free st -> pop_all c st = st.
Proof.
  intros Hc Hst. destruct Hst as [|t st Ht Hst]; [done|]. unfold pop_all. simpl.
  unfold angle in Ht. apply orb_false_iff in Ht as [H1 H2]. rewrite N.eqb_sym in H1, H2.
  destruct Hc as [-> | ->]; by rewrite ?H1, ?H2.
Qed.

Lemma angle_neq c : angle c = false -> (c =? ch "<")%N = false /\ (c =? ch ">")%N = false.
Proof. apply orb_false_iff. Qed.

(** One step of a scan on a character that is no angle bracket; [at_] is the position reported. *)
Definition plain_step (at_ : Z) (c : N) (st : stack) : verdict :=
  if opener c then Continue (c :: st)
  else if closer c then
    match st with
    | [] => Return (-1, None)
    | t :: st' => if closes t c then match st' with [] => Return (at_, None) | _ => Continue st' end else Return (-1, None)
    end
  else Continue st.

Lemma end_step_plain line i c st :
  angle c = false -> angle_free st -> opener c = true \/ st <> [] -> end_step line i c st = plain_step (i + 1) c st.
Proof.
  intros Ha Hst Hn. apply angle_neq in Ha as [Hl Hr]. unfold end_step, plain_step. rewrite Hl, Hr, pop_all_id by auto.
  fold (opener c) (closer c). destruct (opener c); [done|]. destruct (closer c); [done|]. split_if; [|done].
  destruct st; [by destruct Hn | done].
Qed.

(** The brackets seen from the other side. *)
Definition flip (c : N) : N :=
  if (c =? ch "(")%N then ch ")" else if (c =? ch ")")%N then ch "("
  else if (c =? ch "[")%N then ch "]" else if (c =? ch "]")%N then ch "["
  else if (c =? ch "{")%N then ch "}" else if (c =? ch "}")%N then ch "{" else c.

Definition brackets : str := "()[]{}".

Lemma not_bracket c : c ∉ brackets -> flip c = c /\ opener c = false /\ closer c = false.
Proof.
  intros H. assert (forall k, k ∈ brackets -> (c =? k)%N = false) as E.
  { intros k Hk. apply N.eqb_neq. by intros ->. }
  unfold flip, opener, closer, char_in, lit. simpl.
  rewrite (E 40%N), (E 41%N), (E 91%N), (E 93%N), (E 123%N), (E 125%N) by (unfold brackets, lit; set_solver). done.
Qed.

(** Case analysis on the six brackets and the rest. *)
Ltac bracket_cases c :=
  destruct (decide (c ∈ brackets)) as [Hin|Hout];
  [unfold brackets, lit in Hin; repeat (apply elem_of_cons in Hin as [->|Hin]; [try done|]); by apply not_elem_of_nil in Hin
  |apply not_bracket in Hout as (Hf & Ho & Hc); rewrite ?Hf, ?Ho, ?Hc, ?Hf; try done].

Lemma flip_flip c : flip (flip c) = c.
Proof. bracket_cases c. Qed.

Lemma map_flip l : map flip (map flip l) = l.
Proof. induction l; simpl; [done|]. by rewrite flip_flip, IHl. Qed.

Lemma flip_opener c : opener (flip c) = closer c.
Proof. bracket_cases c. Qed.

Lemma flip_closer c : closer (flip c) = opener c.
Proof. bracket_cases c. Qed.

Lemma flip_closes o c : closes (flip c) (flip o) = closes o c.
Proof.
  assert (H : forall o c, closes o c = true -> closes (flip c) (flip o) = true).
  { clear. intros o c. unfold closes. rewrite !orb_true_iff, !andb_true_iff, !N.eqb_eq.
    intros [[[-> ->]|[-> ->]]|[-> ->]]; vm_compute; auto. }
  destruct (closes o c) eqn:E; [by apply H|]. destruct (closes (flip c) (flip o)) eqn:E'; [|done].
  apply H in E'. rewrite !flip_flip in E'. congruence.
Qed.

Lemma flip_angle c : angle (flip c) = angle c.
Proof. bracket_cases c. Qed.

Lemma start_step_plain line i c st :
  angle c = false -> angle_free st -> closer c = true \/ st <> [] ->
  start_step line i c st =
  match plain_step i (flip c) (map flip st) with
  | Continue st' => Continue (map flip st')
  | r => r
  end.
Proof.
  intros Ha Hst Hn. apply angle_neq in Ha as [Hl Hr]. unfold start_step, plain_step. rewrite Hl, Hr, pop_all_id by auto.
  rewrite flip_opener, flip_closer. fold (opener c) (closer c).
  destruct (closer c) eqn:Hc; [simpl; by rewrite flip_flip, map_flip|].
  destruct (opener c); [|split_if; [|by rewrite map_flip]; destruct st; [by destruct Hn | by rewrite map_flip]].
  destruct st as [|t st]; [done|]. simpl. rewrite flip_closes. destruct (closes c t); [|done].
  destruct st as [|t' st]; [done|]. cbn [map]. by rewrite flip_flip, map_flip.
Qed.

Lemma angle_free_flip s : angle_free s -> angle_free (map flip s).
Proof. induction 1; simpl; constructor; [by rewrite flip_angle | done]. Qed.

(** What a search returns, from the outcome of the run: [at_ n] is the position after [n] characters. *)
Definition answer (at_ : nat -> Z) (back : stack -> stack) (o : outcome) : found :=
  match o with Found n => (at_ n, None) | Stuck => (-1, None) | Open st => (-1, Some (back st)) end.

Lemma index_nat {A} (s : list A) (n : nat) : index s (Z.of_nat n) = s !! n.
Proof. unfold index. replace (Z.of_nat n <? 0) with false by (symmetry; apply Z.ltb_ge; lia).
  replace (Z.of_nat n <? 0) with false by (symmetry; apply Z.ltb_ge; lia). by rewrite Nat2Z.id. Qed.

Lemma end_loop_run line i st w :
  angle_free (drop i line) -> angle_free st ->
  st <> [] \/ match drop i line with o :: _ => opener o = true | [] => False end ->
  end_loop (length line - i) line (Z.of_nat i) st w =
  (Ok (answer (fun n => Z.of_nat (i + n)) id (run st (drop i line))), w).
Proof.
  remember (length line - i)%nat as n eqn:Hn. revert i st Hn.
  induction n as [|n IH]; intros i st Hn Hl Hst Hne.
  - rewrite drop_ge by lia. done.
  - destruct (lookup_lt_is_Some_2 line i) as [c Hc]; [lia|]. cbn [end_loop]. rewrite index_nat, Hc.
    rewrite (drop_cons_lookup _ _ _ Hc) in *. inversion Hl as [|? ? Hca Hl']; subst.
    unfold bind at 1. cbn [or_raise]. unfold ret at 1.
    rewrite end_step_plain; [|done|done|by destruct Hne; auto]. unfold plain_step. cbn [run].
    assert (Hrec : forall st', angle_free st' -> st' <> [] ->
      end_loop n line (Z.of_nat i + 1) st' w =
      (Ok (answer (fun k => Z.of_nat (i + k)) id (shift 1 (run st' (drop (S i) line)))), w)).
    { intros st' Ha Hn'. replace (Z.of_nat i + 1) with (Z.of_nat (S i)) by lia. rewrite IH; [|lia|done|done|by left].
      destruct (run st' _); simpl; [|done|done]. do 3 f_equal. lia. }
    destruct (opener c) eqn:Ho; [apply Hrec; [by constructor | done]|].
    destruct Hne as [Hne|?]; [|done].
    destruct (closer c); [|by apply Hrec].
    destruct st as [|t st]; [done|]. destruct (closes t c); [|done]. inversion Hst; subst.
    destruct st as [|t' st]; [|by apply Hrec]. unfold answer, ret. do 3 f_equal. lia.
Qed.

Lemma start_loop_run line i st w :
  (i <= length line)%nat -> angle_free (take i line) -> angle_free st ->
  st <> [] \/ match rev (take i line) with o :: _ => closer o = true | [] => False end ->
  start_loop i line (Z.of_nat i - 1) st w =
  (Ok (answer (fun n => Z.of_nat i - Z.of_nat n) (map flip) (run (map flip st) (map flip (rev (take i line))))), w).
Proof.
  revert st. induction i as [|i IH]; intros st Hi Hl Hst Hne.
  - simpl. by rewrite map_flip.
  - destruct (lookup_lt_is_Some_2 line i) as [c Hc]; [lia|]. cbn [start_loop].
    replace (Z.of_nat (S i) - 1) with (Z.of_nat i) by lia. rewrite (proj2 (Z.ltb_ge _ _)) by lia. rewrite index_nat, Hc.
    rewrite (take_S_r _ _ _ Hc) in *. rewrite rev_app_distr in *. cbn [rev app map] in *.
    apply angle_free_app in Hl as [Hl Hca]. inversion Hca as [|? ? Hca' _]; subst.
    unfold bind at 1. cbn [or_raise]. unfold ret at 1.
    rewrite start_step_plain; [|done|done|by destruct Hne; auto]. unfold plain_step. cbn [run].
    assert (Hrec : forall st', angle_free (map flip st') -> st' <> [] ->
      start_loop i line (Z.of_nat i - 1) (map flip st') w =
      (Ok (answer (fun k => Z.of_nat (S i) - Z.of_nat k) (map flip) (shift 1 (run st' (map flip (rev (take i line)))))), w)).
    { intros st' Ha Hn'. rewrite IH; [|lia|done|done|left; by destruct st'].
      rewrite map_flip. destruct (run st' _); simpl; [|done|done]. do 3 f_equal. lia. }
    rewrite flip_opener, flip_closer. destruct (closer c) eqn:Ho.
    { apply Hrec; [|done]. simpl. rewrite flip_flip, map_flip. by constructor. }
    destruct Hne as [Hne|?]; [|done].
    destruct (opener c); [|apply Hrec; [by rewrite map_flip | by destruct st]].
    destruct st as [|t st]; [done|]. cbn [map]. destruct (closes (flip t) (flip c)); [|done]. inversion Hst; subst.
    destruct st as [|t' st]; [|apply Hrec; [by rewrite map_flip | done]]. unfold answer, ret. cbn [map]. do 3 f_equal. lia.
Qed.

(** ** Positions in the file *)

(** The place of a position of a line in the text of the whole file. *)
Definition offset (L : list str) (ln pos : nat) : nat := (length (concat (take ln L)) + pos)%nat.

(** The bracket at place [a] of a text is closed by the one just before place [b]. *)
Definition partners (text : str) (a b : nat) : Prop :=
  exists pre o body c post,
    text = pre ++ o :: body ++ c :: post /\ closes o c = true /\ balanced body /\
    length pre = a /\ b = (a + length body + 2)%nat.

Lemma balanced_app a b : balanced a -> balanced b -> balanced (a ++ b).
Proof.
  intros Ha Hb. induction Ha as [|c s Ho Hc Ha IH|o c s t Hk Hs _ Ht IH]; simpl; [done | by constructor |].
  rewrite <- app_assoc. simpl. by constructor.
Qed.

Lemma balanced_flip b : balanced b -> balanced (map flip (rev b)).
Proof.
  induction 1 as [|c s Ho Hc Hb IH|o c s t Hk Hs IHs Ht IHt]; simpl; [constructor| |].
  - rewrite map_app. apply balanced_app; [done|]. simpl. constructor; [by rewrite flip_opener|by rewrite flip_closer|constructor].
  - rewrite rev_app_distr. simpl. rewrite !map_app, <- !app_assoc. apply balanced_app; [done|]. simpl.
    constructor; [by rewrite flip_closes | done | constructor].
Qed.

Lemma partners_forward text a n :
  match drop a text with o :: _ => opener o = true | [] => False end ->
  run [] (drop a text) = Found n <-> partners text a (a + n).
Proof.
  intros Ho. destruct (drop a text) as [|o s] eqn:E; [done|].
  assert (Ha : (a < length text)%nat).
  { apply (f_equal length) in E. rewrite length_drop in E. simpl in E. lia. }
  rewrite run_partner by done. split.
  - intros (b & c & r & -> & Hb & Hc & ->). exists (take a text), o, b, c, r.
    rewrite <- E, take_drop, length_take. repeat split; [done | done | lia | lia].
  - intros (pre & o' & body & c & post & -> & Hc & Hb & <- & Hn).
    rewrite drop_app_length in E. injection E as -> <-. exists body, c, post. repeat split; [done | done | lia].
Qed.

Lemma partners_backward text b n :
  (b <= length text)%nat ->
  match rev (take b text) with o :: _ => closer o = true | [] => False end ->
  run [] (map flip (rev (take b text))) = Found n <-> (n <= b)%nat /\ partners text (b - n) b.
Proof.
  intros Hb Ho. destruct (rev (take b text)) as [|c s] eqn:E; [done|]. cbn [map].
  rewrite run_partner by (by rewrite flip_opener).
  assert (Et : take b text = rev s ++ [c]) by (by rewrite <- (rev_involutive (take b text)), E).
  split.
  - intros (d & o & r & Hs & Hd & Hc & ->). apply (f_equal (map flip)) in Hs. rewrite map_flip, map_app in Hs. cbn [map] in Hs.
    subst s. rewrite rev_app_distr in Et. cbn [rev] in Et. rewrite <- !app_assoc in Et. cbn [app] in Et.
    pose proof (f_equal length Et) as Hl. rewrite length_take in Hl. autorewrite with pylen in Hl. simpl in Hl.
    rewrite length_app, length_rev, length_map in Hl. simpl in Hl. split; [lia|]. exists (rev (map flip r)), (flip o), (rev (map flip d)), c, (drop b text).
    repeat split.
    + rewrite <- (take_drop b text) at 1. rewrite Et, <- !app_assoc. cbn [app]. by rewrite <- !app_assoc.
    + by rewrite <- flip_closes, flip_flip.
    + rewrite <- map_rev. apply balanced_flip in Hd. by rewrite map_rev in Hd |- *.
    + len_lia.
    + len_lia.
  - intros [Hn (pre & o & body & d & post & -> & Hc & Hbal & Hpre & Hlen)].
    assert (Hb' : b = length (pre ++ o :: body ++ [d])) by len_lia.
    replace (pre ++ o :: body ++ d :: post) with ((pre ++ o :: body ++ [d]) ++ post) in Et
      by (by rewrite <- app_assoc; cbn [app]; rewrite <- app_assoc).
    rewrite Hb', take_app_length in Et.
    replace (pre ++ o :: body ++ [d]) with ((pre ++ o :: body) ++ [d]) in Et by (by rewrite <- app_assoc).
    apply app_inj_tail in Et as [Es ->]. apply (f_equal (@rev N)) in Es. rewrite rev_involutive in Es. subst s.
    rewrite rev_app_distr. cbn [rev]. rewrite !map_app. cbn [map].
    exists (map flip (rev body)), (flip o), (map flip (rev pre)).
    rewrite <- app_assoc. repeat split; [by apply balanced_flip | by rewrite flip_closes | len_lia].
Qed.

(** ** The searches of the file are runs over its text *)

Lemma run_open st s st' : run st s = Open st' -> angle_free s -> angle_free st -> angle_free st' /\ (st <> [] -> st' <> []).
Proof.
  revert st. induction s as [|c s IH]; intros st; simpl; [intros [= <-]; auto|].
  assert (Hsh : forall st0, shift 1 (run st0 s) = Open st' -> run st0 s = Open st') by (intros st0; by destruct (run st0 s)).
  intros H Hs Hst. inversion Hs; subst.
  destruct (opener c); [|destruct (closer c)].
  - apply Hsh, IH in H as [? Hn]; [|done|by constructor]. split; [done|]. intros _. by apply Hn.
  - destruct st as [|t st]; [done|]. inversion Hst; subst. destruct (closes t c); [|done].
    destruct st as [|t' st]; [done|]. apply Hsh, IH in H as [? Hn]; [|done|done]. split; [done|]. intros _. by apply Hn.
  - by apply Hsh, IH in H.
Qed.

Lemma run_found_bound st s n : run st s = Found n -> (1 <= n <= length s)%nat.
Proof.
  revert st n. induction s as [|c s IH]; intros st n; simpl; [done|].
  assert (Hsh : forall st', shift 1 (run st' s) = Found n -> (1 <= n <= S (length s))%nat).
  { intros st'. destruct (run st' s) eqn:E; simpl; try done. intros [= <-]. apply IH in E. lia. }
  destruct (opener c); [apply Hsh|]. destruct (closer c); [|apply Hsh].
  destruct st as [|t st]; [done|]. destruct (closes t c); [|done]. destruct st; [intros [= <-]; lia | apply Hsh].
Qed.

Lemma find_end_line line pos st w :
  angle_free line -> angle_free st -> (pos <= length line)%nat ->
  st <> [] \/ match drop pos line with o :: _ => opener o = true | [] => False end ->
  FindEndOfExpressionInLine line (Z.of_nat pos) st w =
  (Ok (answer (fun n => Z.of_nat (pos + n)) id (run st (drop pos line))), w).
Proof.
  intros Hl Hst Hp Hne. unfold FindEndOfExpressionInLine, len.
  replace (Z.to_nat (Z.of_nat (length line) - Z.of_nat pos)) with (length line - pos)%nat by lia.
  apply end_loop_run; [by apply Forall_drop | done | done].
Qed.

Lemma find_start_line line i st w :
  angle_free line -> angle_free st -> (i <= length line)%nat ->
  st <> [] \/ match rev (take i line) with o :: _ => closer o = true | [] => False end ->
  FindStartOfExpressionInLine line (Z.of_nat i - 1) st w =
  (Ok (answer (fun n => Z.of_nat i - Z.of_nat n) (map flip) (run (map flip st) (map flip (rev (take i line))))), w).
Proof.
  intros Hl Hst Hp Hne. unfold FindStartOfExpressionInLine.
  replace (Z.to_nat (Z.of_nat i - 1 + 1)) with i by lia.
  apply start_loop_run; [done | by apply Forall_take | done | done].
Qed.

Lemma neg1_ltb n : (-1 <? Z.of_nat n) = true.
Proof. apply Z.ltb_lt. lia. Qed.

(** The lines below: the run over their text. *)
Lemma close_loop_run c ln line st w :
  Forall angle_free (elided c) -> angle_free st -> st <> [] -> (ln < length (elided c))%nat ->
  let R := drop (S ln) (elided c) in
  exists l' ln' p,
    close_loop (length R) c line (Z.of_nat ln) (Some st) w = (Ok (l', ln', p), w) /\
    match run st (concat R) with
    | Found n => exists j i, ln' = Z.of_nat (S ln + j) /\ p = Z.of_nat i /\ R !! j = Some l' /\
                             (1 <= i <= length l')%nat /\ n = (length (concat (take j R)) + i)%nat
    | _ => ln' = NumLines c /\ p = -1
    end.
Proof.
  intros HL. cbv zeta. remember (drop (S ln) (elided c)) as R eqn:HR. revert ln line st HR.
  induction R as [|l R IH]; intros ln line st HR Hst Hn Hln.
  - exists line, (NumLines c), (-1). split; [by destruct st|]. done.
  - assert (Hl : elided c !! S ln = Some l).
    { rewrite <- (Nat.add_0_r (S ln)), <- lookup_drop, <- HR. done. }
    assert (Hal : angle_free l) by (by eapply Forall_lookup_1).
    assert (HR' : R = drop (S (S ln)) (elided c)).
    { rewrite (drop_cons_lookup _ _ _ Hl) in HR. by injection HR. }
    destruct st as [|t st]; [done|]. cbn [length close_loop]. cbv zeta.
    replace (Z.of_nat ln + 1) with (Z.of_nat (S ln)) by lia. rewrite index_nat, Hl.
    unfold bind at 1. cbn [or_raise]. unfold ret at 1. unfold bind at 1.
    rewrite (find_end_line l 0) by (done || lia || by left).
    cbn [concat]. rewrite run_app, drop_0. destruct (run (t :: st) l) as [n| |st'] eqn:E.
    + apply run_found_bound in E as Hb. cbn [answer fst]. rewrite neg1_ltb.
      eexists _, _, _. split; [reflexivity|]. exists 0%nat, n. repeat split; simpl; lia || done.
    + cbn [answer fst snd]. change (-1 <? -1) with false. cbv iota. exists l, (NumLines c), (-1). by destruct (length R).
    + apply run_open in E as [Ha Hn']; [|done|done]. cbn [answer fst snd]. change (-1 <? -1) with false. cbv iota. unfold id.
      destruct (IH (S ln) l st') as (l' & ln' & p & -> & Hp); [done|done|by apply Hn'| |].
      { apply lookup_lt_Some in Hl. done. }
      exists l', ln', p. split; [done|]. destruct (run st' (concat R)); simpl; [|done|done].
      destruct Hp as (j & i & -> & -> & Hj & Hi & ->). exists (S j), i. split; [lia|]. split; [done|]. split; [done|]. split; [lia|].
      simpl. len_lia.
Qed.

Lemma concat_take_S (L : list str) n l : L !! n = Some l -> concat (take (S n) L) = concat (take n L) ++ l.
Proof. intros H. rewrite (take_S_r _ _ _ H), concat_app. simpl. by rewrite app_nil_r. Qed.

(** The lines above: the run over their text, backwards. *)
Lemma reverse_loop_run c ln line st w :
  Forall angle_free (elided c) -> angle_free st -> st <> [] -> (ln <= length (elided c))%nat ->
  exists l' ln' p,
    reverse_loop ln c line (Z.of_nat ln) (Some st) w = (Ok (l', ln', p), w) /\
    match run (map flip st) (map flip (rev (concat (take ln (elided c))))) with
    | Found n => exists j i, ln' = Z.of_nat j /\ p = Z.of_nat i /\ elided c !! j = Some l' /\
                             (i < length l')%nat /\ (n + offset (elided c) j i)%nat = length (concat (take ln (elided c)))
    | _ => ln' = 0 /\ p = -1
    end.
Proof.
  intros HL. revert line st. induction ln as [|ln IH]; intros line st Hst Hn Hln.
  - exists line, 0, (-1). split; [by destruct st|]. done.
  - destruct (lookup_lt_is_Some_2 (elided c) ln) as [l Hl]; [lia|].
    assert (Hal : angle_free l) by (by eapply Forall_lookup_1).
    destruct st as [|t st]; [done|]. cbn [reverse_loop]. cbv zeta.
    replace (Z.of_nat (S ln) - 1) with (Z.of_nat ln) by lia. rewrite index_nat, Hl.
    unfold bind at 1. cbn [or_raise]. unfold ret at 1. unfold bind at 1, len.
    rewrite (find_start_line l (length l)) by (done || lia || by left).
    rewrite (concat_take_S _ _ _ Hl), rev_app_distr, map_app, run_app, firstn_all.
    destruct (run (map flip (t :: st)) (map flip (rev l))) as [n| |st'] eqn:E.
    + apply run_found_bound in E as Hb. rewrite length_map, length_rev in Hb. cbn [answer fst].
      replace (Z.of_nat (length l) - Z.of_nat n) with (Z.of_nat (length l - n)) by lia. rewrite neg1_ltb.
      eexists _, _, _. split; [reflexivity|]. exists ln, (length l - n)%nat. repeat split; [done | lia |].
      unfold offset. len_lia.
    + cbn [answer fst snd]. change (-1 <? -1) with false. cbv iota. exists l, 0, (-1). by destruct ln.
    + apply run_open in E as [Ha Hn'].
      2: { apply angle_free_flip. by apply Forall_rev. }
      2: by apply angle_free_flip.
      cbn [answer fst snd]. change (-1 <? -1) with false. cbv iota.
      destruct (IH l (map flip st')) as (l' & ln' & p & -> & Hp); [by apply angle_free_flip| |lia|].
      { specialize (Hn' ltac:(done)). by destruct st'. }
      exists l', ln', p. split; [done|]. rewrite map_flip in Hp.
      destruct (run st' _); simpl; [|done|done].
      destruct Hp as (j & i & -> & -> & Hj & Hi & Ho). exists j, i. repeat split; [done|lia|]. len_lia.
Qed.

Lemma drop_offset (L : list str) ln pos line :
  L !! ln = Some line -> (pos <= length line)%nat ->
  drop (offset L ln pos) (concat L) = drop pos line ++ concat (drop (S ln) L) /\
  take (offset L ln pos) (concat L) = concat (take ln L) ++ take pos line.
Proof.
  intros H Hp. unfold offset.
  assert (concat L = concat (take ln L) ++ line ++ concat (drop (S ln) L)) as ->.
  { rewrite <- (take_drop ln L) at 1. by rewrite (drop_cons_lookup _ _ _ H), concat_app. }
  rewrite drop_app_add', take_app_add', drop_app_le, take_app_le by done. done.
Qed.

(** A file whose number of lines is right and that has no angle brackets. *)
Definition plain_file (c : CleansedLines) : Prop :=
  num_lines c = len (elided c) /\ Forall angle_free (elided c).

Lemma lookup_head_drop {A} (l : list A) n x : l !! n = Some x -> exists r, drop n l = x :: r.
Proof. intros H. rewrite (drop_cons_lookup _ _ _ H). eauto. Qed.

Lemma no_angle_match line pos : angle_free line -> MatchB "<[<=]" (slice_from line pos) = false.
Proof.
  intros H. unfold MatchB. rewrite (Match_needs _ (ch "<")); [done | by vm_compute |].
  intros Hc%subseteq_drop. unfold angle_free in H. rewrite Forall_forall in H. by apply H in Hc.
Qed.

(** Where [CloseExpression] ends up. *)
Lemma close_outcome c ln pos line o w :
  plain_file c -> elided c !! ln = Some line -> line !! pos = Some o -> opener o = true ->
  exists l' ln' p,
    CloseExpression c (Z.of_nat ln) (Z.of_nat pos) w = (Ok (l', ln', p), w) /\
    match run [] (drop (offset (elided c) ln pos) (concat (elided c))) with
    | Found n => exists k j, ln' = Z.of_nat k /\ p = Z.of_nat j /\ elided c !! k = Some l' /\
                             (1 <= j <= length l')%nat /\ (offset (elided c) ln pos + n)%nat = offset (elided c) k j
    | _ => ln' = NumLines c /\ p = -1
    end.
Proof.
  intros [Hnum HL] Hl Hp Ho. assert (Hal : angle_free line) by (by eapply Forall_lookup_1).
  apply lookup_lt_Some in Hl as Hln, Hp as Hpos. destruct (lookup_head_drop _ _ _ Hp) as [r Hr].
  unfold CloseExpression. rewrite index_nat, Hl. unfold bind at 1. cbn [or_raise]. unfold ret at 1.
  rewrite index_nat, Hp. unfold bind at 1. cbn [or_raise]. unfold ret at 1.
  replace (char_in o "({[<") with true.
  2: { revert Ho. unfold opener, char_in. simpl. rewrite !orb_true_iff, !N.eqb_eq. intros [->|[->|[->|?]]]; done. }
  rewrite no_angle_match by done. cbn [negb orb]. unfold bind at 1.
  rewrite find_end_line; [|done|apply Forall_nil_2|lia|right; by rewrite Hr].
  rewrite (proj1 (drop_offset _ _ _ _ Hl (Nat.lt_le_incl _ _ Hpos))), run_app.
  destruct (run [] (drop pos line)) as [n| |st'] eqn:E.
  - apply run_found_bound in E as Hb. rewrite length_drop in Hb. cbn [answer fst]. rewrite neg1_ltb.
    eexists _, _, _. split; [reflexivity|]. exists ln, (pos + n)%nat. repeat split; [done|lia|lia|unfold offset; lia].
  - cbn [answer fst snd]. change (-1 <? -1) with false. cbv iota.
    exists line, (NumLines c), (-1). by destruct (Z.to_nat (NumLines c - 1 - Z.of_nat ln)).
  - cbn [answer fst snd]. change (-1 <? -1) with false. cbv iota. unfold id.
    assert (Hst : angle_free st' /\ st' <> []).
    { rewrite Hr in E. simpl in E. rewrite Ho in E. destruct (run [o] r) as [| |st0] eqn:E0; try done. injection E as ->.
      assert (Hor : angle_free (o :: r)) by (rewrite <- Hr; by apply Forall_drop). inversion Hor; subst.
      apply run_open in E0 as [? Hn]; [|done|by repeat constructor]. split; [done | by apply Hn]. }
    unfold NumLines. rewrite Hnum. unfold len.
    replace (Z.to_nat (Z.of_nat (length (elided c)) - 1 - Z.of_nat ln)) with (length (drop (S ln) (elided c)))
      by (rewrite length_drop; lia).
    destruct (close_loop_run c ln line st' w HL (proj1 Hst) (proj2 Hst) Hln) as (l' & ln' & p & -> & Hc).
    exists l', ln', p. split; [done|]. destruct (run st' _); simpl; unfold NumLines in *; rewrite ?Hnum in Hc; [|done|done].
    destruct Hc as (j & i & -> & -> & Hj & Hi & ->). rewrite lookup_drop in Hj.
    exists (S ln + j)%nat, i. repeat split; [done|lia|lia|]. unfold offset. rewrite length_drop.
    rewrite <- (take_drop (S ln) (take (S ln + j) (elided c))), concat_app, length_app.
    rewrite take_take, Nat.min_l by lia. rewrite (concat_take_S _ _ _ Hl), length_app.
    rewrite <- take_drop_commute. lia.
Qed.

(** Where [ReverseCloseExpression] ends up. *)
Lemma reverse_outcome c ln pos line d w :
  plain_file c -> elided c !! ln = Some line -> line !! pos = Some d -> closer d = true ->
  exists l' ln' p,
    ReverseCloseExpression c (Z.of_nat ln) (Z.of_nat pos) w = (Ok (l', ln', p), w) /\
    match run [] (map flip (rev (take (offset (elided c) ln (S pos)) (concat (elided c))))) with
    | Found n => exists k j, ln' = Z.of_nat k /\ p = Z.of_nat j /\ elided c !! k = Some l' /\
                             (j < length l')%nat /\ (n + offset (elided c) k j)%nat = offset (elided c) ln (S pos)
    | _ => ln' = 0 /\ p = -1
    end.
Proof.
  intros [Hnum HL] Hl Hp Hd. assert (Hal : angle_free line) by (by eapply Forall_lookup_1).
  apply lookup_lt_Some in Hl as Hln, Hp as Hpos.
  assert (Hr : rev (take (S pos) line) = d :: rev (take pos line)) by (by rewrite (take_S_r _ _ _ Hp), rev_app_distr).
  unfold ReverseCloseExpression. rewrite index_nat, Hl. unfold bind at 1. cbn [or_raise]. unfold ret at 1.
  rewrite index_nat, Hp. unfold bind at 1. cbn [or_raise]. unfold ret at 1.
  replace (char_in d ")}]>") with true.
  2: { revert Hd. unfold closer, char_in. simpl. rewrite !orb_true_iff, !N.eqb_eq. intros [->|[->|[->|?]]]; done. }
  cbn [negb]. unfold bind at 1. replace (Z.of_nat pos) with (Z.of_nat (S pos) - 1) by lia.
  rewrite find_start_line; [|done|apply Forall_nil_2|lia|right; by rewrite Hr].
  rewrite (proj2 (drop_offset _ _ _ _ Hl Hpos)), rev_app_distr, map_app, run_app. cbn [map].
  destruct (run [] (map flip (rev (take (S pos) line)))) as [n| |st'] eqn:E.
  - apply run_found_bound in E as Hb. rewrite length_map, length_rev, length_take in Hb. cbn [answer fst].
    replace (Z.of_nat (S pos) - Z.of_nat n) with (Z.of_nat (S pos - n)) by lia. rewrite neg1_ltb.
    eexists _, _, _. split; [reflexivity|]. exists ln, (S pos - n)%nat. repeat split; [done|lia|unfold offset; lia].
  - cbn [answer fst snd]. change (-1 <? -1) with false. cbv iota.
    exists line, 0, (-1). by destruct (Z.to_nat (Z.of_nat ln)).
  - cbn [answer fst snd]. change (-1 <? -1) with false. cbv iota.
    assert (Hst : angle_free st' /\ st' <> []).
    { rewrite Hr in E. simpl in E. rewrite flip_opener, Hd in E.
      destruct (run [flip d] _) as [| |st0] eqn:E0; try done. injection E as ->.
      apply run_open in E0 as [? Hn].
      - split; [done | by apply Hn].
      - apply angle_free_flip, Forall_rev, Forall_take, Hal.
      - repeat constructor. rewrite flip_angle. by apply (Forall_lookup_1 _ _ _ _ Hal Hp). }
    rewrite Nat2Z.id.
    destruct (reverse_loop_run c ln line (map flip st') w HL) as (l' & ln' & p & -> & Hc);
      [apply angle_free_flip, Hst | destruct Hst as [_ ?]; by destruct st' | lia |].
    rewrite map_flip in Hc. exists l', ln', p. split; [done|]. destruct (run st' _); simpl; [|done|done].
    destruct Hc as (j & i & -> & -> & Hj & Hi & Ho). exists j, i. repeat split; [done|lia|].
    unfold offset in *. autorewrite with pylen. rewrite Nat.min_l by lia. lia.
Qed.

Lemma take_concat_mono (L : list str) k k' l :
  (k < k')%nat -> L !! k = Some l -> (length (concat (take k L)) + length l <= length (concat (take k' L)))%nat.
Proof.
  intros Hk Hl. rewrite <- (take_drop (S k) (take k' L)), concat_app, length_app, take_take, Nat.min_l by lia.
  rewrite (concat_take_S _ _ _ Hl), length_app. lia.
Qed.

(** Two positions of a file that are the same place of its text are the same. *)
Lemma offset_inj (L : list str) k j k' j' l l' :
  L !! k = Some l -> L !! k' = Some l' -> (j < length l)%nat -> (j' < length l')%nat ->
  offset L k j = offset L k' j' -> k = k' /\ j = j'.
Proof.
  unfold offset. intros Hl Hl' Hj Hj' H. destruct (Nat.lt_trichotomy k k') as [Hk|[->|Hk]].
  - pose proof (take_concat_mono _ _ _ _ Hk Hl). lia.
  - lia.
  - pose proof (take_concat_mono _ _ _ _ Hk Hl'). lia.
Qed.

Lemma head_at (c : CleansedLines) ln pos line o :
  elided c !! ln = Some line -> line !! pos = Some o ->
  exists r, drop (offset (elided c) ln pos) (concat (elided c)) = o :: r.
Proof.
  intros Hl Hp. apply lookup_lt_Some in Hp as Hpos. destruct (lookup_head_drop _ _ _ Hp) as [r Hr].
  rewrite (proj1 (drop_offset _ _ _ _ Hl (Nat.lt_le_incl _ _ Hpos))), Hr. by eexists.
Qed.

Lemma last_at (c : CleansedLines) ln pos line o :
  elided c !! ln = Some line -> line !! pos = Some o ->
  exists r, rev (take (offset (elided c) ln (S pos)) (concat (elided c))) = o :: r.
Proof.
  intros Hl Hp. apply lookup_lt_Some in Hp as Hpos.
  rewrite (proj2 (drop_offset _ _ _ _ Hl Hpos)), (take_S_r _ _ _ Hp), !rev_app_distr. by eexists.
Qed.

Lemma offset_bound (c : CleansedLines) ln pos line :
  elided c !! ln = Some line -> (pos <= length line)%nat ->
  (offset (elided c) ln pos <= length (concat (elided c)))%nat.
Proof.
  intros Hl Hp. pose proof (f_equal length (proj2 (drop_offset _ _ _ _ Hl Hp))) as H.
  rewrite length_take, length_app, length_take in H. unfold offset in *. lia.
Qed.

Lemma partners_run text a b :
  match drop a text with o :: _ => opener o = true | [] => False end ->
  partners text a b -> exists n, run [] (drop a text) = Found n /\ b = (a + n)%nat.
Proof.
  intros Ho Hp. assert (Hb : exists n, b = (a + n)%nat).
  { destruct Hp as (pre & ? & body & ? & ? & _ & _ & _ & _ & ->). exists (length body + 2)%nat. lia. }
  destruct Hb as [n ->]. exists n. split; [by apply partners_forward | done].
Qed.

(** C4. [CloseExpression] on an opening bracket of a file without angle brackets: it always ends normally and changes
    nothing; when some place of the file closes the bracket with balanced text in between, it returns the line, its number and
    the position just after that place; when there is none, it returns the number of lines and -1. *)
Theorem CloseExpression_partner c ln pos line o w
    (Hc : plain_file c) (Hl : elided c !! ln = Some line) (Hp : line !! pos = Some o) (Ho : opener o = true) :
  exists l' ln' p, CloseExpression c (Z.of_nat ln) (Z.of_nat pos) w = (Ok (l', ln', p), w) /\
    ((ln' = NumLines c /\ p = -1 /\ forall b, ~ partners (concat (elided c)) (offset (elided c) ln pos) b) \/
     exists k j, ln' = Z.of_nat k /\ p = Z.of_nat j /\ elided c !! k = Some l' /\ (1 <= j <= length l')%nat /\
       partners (concat (elided c)) (offset (elided c) ln pos) (offset (elided c) k j)).
Proof.
  destruct (close_outcome c ln pos line o w Hc Hl Hp Ho) as (l' & ln' & p & H & Hr). exists l', ln', p. split; [done|].
  destruct (head_at c ln pos line o Hl Hp) as [r Hh].
  pose proof (partners_forward (concat (elided c)) (offset (elided c) ln pos)) as Hf.
  pose proof (partners_run (concat (elided c)) (offset (elided c) ln pos)) as Hn. rewrite Hh in *.
  destruct (run [] (o :: r)) as [n| |st'] eqn:E.
  2, 3: left; destruct Hr as [-> ->]; repeat split; intros b (n & ? & _)%Hn; done.
  right. destruct Hr as (k & j & -> & -> & Hk & Hj & He). exists k, j. rewrite <- He. repeat split; try done; try lia. by apply Hf.
Qed.

Lemma partners_last text a b d r :
  partners text a b -> rev (take b text) = d :: r -> closer d = true /\ (a < b <= length text)%nat.
Proof.
  intros (pre & o & body & c & post & -> & Hc & _ & <- & ->) H.
  replace (pre ++ o :: body ++ c :: post) with ((pre ++ o :: body ++ [c]) ++ post) in H
    by (by rewrite <- app_assoc; cbn [app]; rewrite <- app_assoc).
  rewrite take_app_length' in H by len_lia.
  rewrite app_comm_cons, app_assoc, rev_app_distr in H. injection H as -> _.
  apply closes_kinds in Hc as (_ & ? & _). split; [done|]. len_lia.
Qed.

(** C17. [ReverseCloseExpression] undoes [CloseExpression]: in a file without angle brackets, if the search from an opening
    bracket succeeds, the search back from the bracket it found returns the line, its number and the position it
    started from. *)
Theorem CloseExpression_roundtrip c ln pos line o w l' ln' p
    (Hc : plain_file c) (Hl : elided c !! ln = Some line) (Hp : line !! pos = Some o) (Ho : opener o = true)
    (Hclose : CloseExpression c (Z.of_nat ln) (Z.of_nat pos) w = (Ok (l', ln', p), w)) (Hfound : p <> -1) :
  ReverseCloseExpression c ln' (p - 1) w = (Ok (line, Z.of_nat ln, Z.of_nat pos), w).
Proof.
  destruct (close_outcome c ln pos line o w Hc Hl Hp Ho) as (l1 & ln1 & p1 & H & Hr). rewrite H in Hclose.
  injection Hclose as -> -> ->. destruct (head_at c ln pos line o Hl Hp) as [r Hh].
  pose proof (partners_forward (concat (elided c)) (offset (elided c) ln pos)) as Hf. rewrite Hh in *.
  destruct (run [] (o :: r)) as [n| |] eqn:E; [|by destruct Hr|by destruct Hr].
  destruct Hr as (k & j & -> & -> & Hk & Hj & He). pose proof (proj1 (Hf n Ho) eq_refl) as Hpart. rewrite He in Hpart.
  destruct j as [|j]; [lia|]. replace (Z.of_nat (S j) - 1) with (Z.of_nat j) by lia.
  destruct (lookup_lt_is_Some_2 l' j) as [d Hd]; [lia|].
  destruct (last_at c k j l' d Hk Hd) as [r' Hlast]. destruct (partners_last _ _ _ _ _ Hpart Hlast) as [Hcl Hab].
  destruct (reverse_outcome c k j l' d w Hc Hk Hd Hcl) as (l2 & ln2 & p2 & -> & Hr2).
  pose proof (partners_backward (concat (elided c)) (offset (elided c) k (S j))
    (offset (elided c) k (S j) - offset (elided c) ln pos) (offset_bound _ _ _ _ Hk (proj2 Hj))) as Hb.
  rewrite Hlast in *. rewrite (proj2 (Hb Hcl)) in Hr2.
  - destruct Hr2 as (k2 & j2 & -> & -> & Hk2 & Hj2 & He2).
    destruct (offset_inj (elided c) k2 j2 ln pos l2 line) as [-> ->]; try done; [by eapply lookup_lt_Some | lia |].
    by simplify_eq.
  - split; [lia|]. by replace (offset (elided c) k (S j) - _)%nat with (offset (elided c) ln pos) by lia.
Qed.

(** ** Text with angle brackets *)

Lemma last_cons_ne {A} (x : A) l o : last l = Some o -> last (x :: l) = Some o.
Proof. intros H. destruct l; [done | exact H]. Qed.

Lemma pop_all_bottom st o : last st = Some o -> opener o = true -> last (pop_all (ch "<") st) = Some o.
Proof.
  intros Hl Ho. unfold pop_all. induction st as [|t st IH]; [done|]. cbn [drop_while].
  destruct (ch "<" =? t)%N eqn:E; [|done]. apply N.eqb_eq in E as <-.
  destruct st as [|t' st]; [by injection Hl as <- | by apply IH].
Qed.

Lemma tail_bottom st o : last st = Some o -> opener o = true -> top_is st (ch "<") = true ->
  exists t st', tail st = t :: st' /\ last (t :: st') = Some o.
Proof.
  destruct st as [|t [|t' st]]; cbn [top_is tail]; intros Hl Ho Ht; [done| |eauto].
  apply N.eqb_eq in Ht as ->. by injection Hl as <-.
Qed.

(** The bracket at the bottom of the stack stays there until its partner is found. *)
Lemma end_step_bottom line i c st o :
  last st = Some o -> opener o = true ->
  match end_step line i c st with
  | Return (p, s) => s = None /\ (p = -1 \/ p = i + 1 /\ closes o c = true)
  | Continue st' | Skip st' => last st' = Some o
  end.
Proof.
  intros Hl Ho. pose proof (pop_all_bottom st o Hl Ho) as Hp. pose proof (tail_bottom st o Hl Ho) as Ht.
  unfold end_step. destruct (char_in c "([{"); [by apply last_cons_ne|].
  destruct (c =? ch "<")%N.
  { destruct (_ && _); [destruct (top_is st (ch "<")); [|done]; by destruct (Ht eq_refl) as (t & st' & -> & ?)|].
    destruct (_ && _); [done | by apply last_cons_ne]. }
  destruct (char_in c ")]}").
  { destruct (pop_all (ch "<") st) as [|t st']; [auto|]. destruct (closes t c) eqn:E; [|auto].
    destruct st'; [injection Hp as ->; auto | exact Hp]. }
  destruct (c =? ch ">")%N.
  { destruct (_ && _); [done|]. destruct (top_is st (ch "<")); [|done]. by destruct (Ht eq_refl) as (t & st' & -> & ?). }
  destruct (c =? ch ";")%N; [|done]. destruct (pop_all (ch "<") st); [done | exact Hp].
Qed.

Definition good_end (line : str) (from : nat) (o : N) (r : found) : Prop :=
  (exists j d, r = (Z.of_nat (S j), None) /\ (from <= j)%nat /\ line !! j = Some d /\ closes o d = true) \/
  r = (-1, None) \/ exists st, r = (-1, Some st) /\ last st = Some o.

Lemma end_loop_bottom n line i st o w :
  n = (length line - i)%nat -> last st = Some o -> opener o = true ->
  exists r, end_loop n line (Z.of_nat i) st w = (Ok r, w) /\ good_end line i o r.
Proof.
  revert i st. induction n as [|n IH]; intros i st Hn Hst Ho.
  - eexists. split; [done|]. right. right. eauto.
  - destruct (lookup_lt_is_Some_2 line i) as [c Hc]; [lia|]. cbn [end_loop]. rewrite index_nat, Hc.
    unfold bind at 1. cbn [or_raise]. unfold ret at 1.
    pose proof (end_step_bottom line (Z.of_nat i) c st o Hst Ho) as Hs.
    assert (Hrec : forall st', last st' = Some o ->
      exists r, end_loop n line (Z.of_nat i + 1) st' w = (Ok r, w) /\ good_end line i o r).
    { intros st' Hst'. replace (Z.of_nat i + 1) with (Z.of_nat (S i)) by lia.
      destruct (IH (S i) st') as (r & Hr & Hg); [lia|done|done|]. exists r. split; [done|].
      destruct Hg as [(j & d & -> & Hj & ?)|?]; [left; exists j, d; split; [done|]; split; [lia | done] | by right]. }
    destruct (end_step line (Z.of_nat i) c st) as [[p s]|st'|st']; [|by apply Hrec|by apply Hrec].
    eexists. split; [done|]. destruct Hs as [-> [->|[-> Hcl]]]; [by right; left|].
    left. exists i, c. split; [f_equal; lia|]. split; [lia | done].
Qed.

Lemma find_end_bottom line pos st o w :
  (pos <= length line)%nat -> last st = Some o -> opener o = true ->
  exists r, FindEndOfExpressionInLine line (Z.of_nat pos) st w = (Ok r, w) /\ good_end line pos o r.
Proof.
  intros Hp Hst Ho. unfold FindEndOfExpressionInLine, len.
  apply end_loop_bottom; [lia | done | done].
Qed.

Lemma close_loop_bottom n c line ln st o w :
  (ln + n < length (elided c))%nat -> last st = Some o -> opener o = true ->
  exists l' ln' p, close_loop n c line (Z.of_nat ln) (Some st) w = (Ok (l', ln', p), w) /\
    (ln' = NumLines c /\ p = -1 \/
     exists k j d, ln' = Z.of_nat k /\ p = Z.of_nat (S j) /\ (ln < k)%nat /\ elided c !! k = Some l' /\
                   l' !! j = Some d /\ closes o d = true).
Proof.
  revert line ln st. induction n as [|n IH]; intros line ln st Hn Hst Ho; [simpl; eauto 10|].
  destruct st as [|t st]; [done|]. cbn [close_loop]. cbv zeta.
  destruct (lookup_lt_is_Some_2 (elided c) (S ln)) as [l Hl]; [lia|].
  replace (Z.of_nat ln + 1) with (Z.of_nat (S ln)) by lia. rewrite index_nat, Hl.
  unfold bind at 1. cbn [or_raise]. unfold ret at 1. unfold bind at 1.
  change 0 with (Z.of_nat 0). destruct (find_end_bottom l 0 (t :: st) o w) as (r & -> & Hg); [lia|done|done|].
  destruct Hg as [(j & d & -> & _ & Hd & Hcl)|[->|(st' & -> & Hst')]]; cbn [fst snd].
  - rewrite neg1_ltb. eexists _, _, _. split; [done|]. right. exists (S ln), j, d. auto 10.
  - change (-1 <? -1) with false. exists l, (NumLines c), (-1). split; [by destruct n | by left].
  - change (-1 <? -1) with false. destruct (IH l (S ln) st') as (l' & ln' & p & -> & Hp); [lia|done|done|].
    exists l', ln', p. split; [done|]. destruct Hp as [?|(k & j & d & ? & ? & ? & ?)]; [by left|].
    right. exists k, j, d. split; [done|]. split; [done|]. split; [lia | done].
Qed.

(** *** Progress from any start *)

Lemma end_step_progress line i c st :
  match end_step line i c st with Return (p, _) => p = -1 \/ p = i + 1 | _ => True end.
Proof.
  unfold end_step. destruct (pop_all (ch "<") st) as [|t [|t' st']], (tail st);
    repeat match goal with |- context [if ?b then _ else _] => destruct b end; auto.
Qed.

Lemma end_loop_progress n line i st w :
  n = (length line - i)%nat ->
  exists r, end_loop n line (Z.of_nat i) st w = (Ok r, w) /\
    (fst r = -1 \/ exists j, fst r = Z.of_nat j /\ (i < j <= length line)%nat).
Proof.
  revert i st. induction n as [|n IH]; intros i st Hn.
  - eexists. split; [done|]. by left.
  - destruct (lookup_lt_is_Some_2 line i) as [c Hc]; [lia|]. cbn [end_loop]. rewrite index_nat, Hc.
    unfold bind at 1. cbn [or_raise]. unfold ret at 1.
    pose proof (end_step_progress line (Z.of_nat i) c st) as Hs.
    assert (Hrec : forall st', exists r, end_loop n line (Z.of_nat i + 1) st' w = (Ok r, w) /\
      (fst r = -1 \/ exists j, fst r = Z.of_nat j /\ (i < j <= length line)%nat)).
    { intros st'. replace (Z.of_nat i + 1) with (Z.of_nat (S i)) by lia. destruct (IH (S i) st') as (r & Hr & Hg); [lia|].
      exists r. split; [done|]. destruct Hg as [?|(j & ? & ?)]; [by left|]. right. exists j. split; [done | lia]. }
    destruct (end_step line (Z.of_nat i) c st) as [[p s]|st'|st']; [|apply Hrec|apply Hrec].
    eexists. split; [done|]. destruct Hs as [->| ->]; [by left|]. right. exists (S i). cbn [fst]. split; lia.
Qed.

Lemma close_loop_progress n c line ln st w :
  (ln + n < length (elided c))%nat ->
  exists l' ln' p, close_loop n c line (Z.of_nat ln) st w = (Ok (l', ln', p), w) /\
    (p = -1 \/ exists k j, ln' = Z.of_nat k /\ p = Z.of_nat j /\ (ln < k)%nat /\ elided c !! k = Some l' /\ (j <= length l')%nat).
Proof.
  revert line ln st. induction n as [|n IH]; intros line ln st Hn; [simpl; eauto 10|].
  destruct st as [[|t st]|]; [simpl; eauto 10| |simpl; eauto 10]. cbn [close_loop]. cbv zeta.
  destruct (lookup_lt_is_Some_2 (elided c) (S ln)) as [l Hl]; [lia|].
  replace (Z.of_nat ln + 1) with (Z.of_nat (S ln)) by lia. rewrite index_nat, Hl.
  unfold bind at 1. cbn [or_raise]. unfold ret at 1. unfold bind at 1, FindEndOfExpressionInLine, len.
  destruct (end_loop_progress (Z.to_nat (Z.of_nat (length l) - 0)) l 0 (t :: st) w) as (r & Hr & Hg); [lia|].
  change (Z.of_nat 0) with 0 in Hr. rewrite Hr. destruct Hg as [->|(j & -> & Hj)].
  - change (-1 <? -1) with false. destruct (IH l (S ln) (snd r)) as (l' & ln' & p & -> & Hp); [lia|].
    exists l', ln', p. split; [done|]. destruct Hp as [?|(k & j & ? & ? & ? & ?)]; [by left|].
    right. exists k, j. split; [done|]. split; [done|]. split; [lia | done].
  - rewrite neg1_ltb. eexists _, _, _. split; [done|]. right. exists (S ln), j. split; [done|]. split; [done|]. split; [lia|]. split; [done | lia].
Qed.

(** Started at any character, [CloseExpression] ends normally and finds, if anything, a later position of the file. *)
Lemma close_progress c ln pos line o w :
  num_lines c = len (elided c) -> elided c !! ln = Some line -> line !! pos = Some o ->
  exists l' ln' p, CloseExpression c (Z.of_nat ln) (Z.of_nat pos) w = (Ok (l', ln', p), w) /\
    (p = -1 \/ exists k j, ln' = Z.of_nat k /\ p = Z.of_nat j /\ elided c !! k = Some l' /\ (j <= length l')%nat /\
                           ((ln < k)%nat \/ ln = k /\ (pos < j)%nat)).
Proof.
  intros Hnum Hl Hp. apply lookup_lt_Some in Hl as Hln, Hp as Hpos.
  unfold CloseExpression. rewrite index_nat, Hl. unfold bind at 1. cbn [or_raise]. unfold ret at 1.
  rewrite index_nat, Hp. unfold bind at 1. cbn [or_raise]. unfold ret at 1. split_if; [eauto 10|].
  unfold bind at 1, FindEndOfExpressionInLine, len.
  destruct (end_loop_progress (Z.to_nat (Z.of_nat (length line) - Z.of_nat pos)) line pos [] w) as (r & -> & Hg); [lia|].
  destruct Hg as [->|(j & -> & Hj)].
  - change (-1 <? -1) with false. cbv iota.
    destruct (close_loop_progress (Z.to_nat (NumLines c - 1 - Z.of_nat ln)) c line ln (snd r) w) as (l' & ln' & p & -> & Hr).
    { unfold NumLines. rewrite Hnum. unfold len. lia. }
    exists l', ln', p. split; [done|]. destruct Hr as [?|(k & j & -> & -> & ? & ? & ?)]; [by left|]. right. exists k, j. auto 10.
  - rewrite neg1_ltb. eexists _, _, _. split; [done|]. right. exists ln, j. split; [done|]. split; [done|]. split; [done|].
    split; [lia|]. right. split; [done | lia].
Qed.

(** C27. On any text, angle brackets included, [CloseExpression] started at a round, square or curly bracket ends normally,
    and a position it returns lies just after a bracket of the same kind, in a line of the file and after the start;
    otherwise it returns the number of lines and -1. *)
Theorem CloseExpression_kind c ln pos line o w
    (Hnum : num_lines c = len (elided c))
    (Hl : elided c !! ln = Some line) (Hp : line !! pos = Some o) (Ho : opener o = true) :
  exists l' ln' p, CloseExpression c (Z.of_nat ln) (Z.of_nat pos) w = (Ok (l', ln', p), w) /\
    (ln' = NumLines c /\ p = -1 \/
     exists k j d, ln' = Z.of_nat k /\ p = Z.of_nat (S j) /\ elided c !! k = Some l' /\ l' !! j = Some d /\
       closes o d = true /\ ((ln < k)%nat \/ ln = k /\ (pos < j)%nat)).
Proof.
  apply lookup_lt_Some in Hl as Hln, Hp as Hpos.
  unfold CloseExpression. rewrite index_nat, Hl. unfold bind at 1. cbn [or_raise]. unfold ret at 1.
  rewrite index_nat, Hp. unfold bind at 1. cbn [or_raise]. unfold ret at 1. split_if; [eauto 10|].
  unfold FindEndOfExpressionInLine, len.
  replace (Z.to_nat (Z.of_nat (length line) - Z.of_nat pos)) with (S (length line - S pos)) by lia.
  cbn [end_loop]. rewrite index_nat, Hp. unfold bind at 1. unfold bind at 1. cbn [or_raise]. unfold ret at 1.
  assert (end_step line (Z.of_nat pos) o [] = Continue [o]) as -> by (unfold end_step; fold (opener o); by rewrite Ho).
  replace (Z.of_nat pos + 1) with (Z.of_nat (S pos)) by lia.
  destruct (end_loop_bottom (length line - S pos) line (S pos) [o] o w) as (r & -> & Hg); [lia|done|done|].
  destruct Hg as [(j & d & -> & Hj & Hd & Hcl)|[->|(st' & -> & Hst')]]; cbn [fst snd].
  - rewrite neg1_ltb. eexists _, _, _. split; [done|]. right. exists ln, j, d. auto 10.
  - change (-1 <? -1) with false. exists line, (NumLines c), (-1). split; [by destruct (Z.to_nat _) | by left].
  - change (-1 <? -1) with false. cbv iota.
    destruct (close_loop_bottom (Z.to_nat (NumLines c - 1 - Z.of_nat ln)) c line ln st' o w) as (l' & ln' & p & -> & Hr); [|done|done|].
    { unfold NumLines. rewrite Hnum. unfold len. lia. }
    exists l', ln', p. split; [done|]. destruct Hr as [?|(k & j & d & -> & -> & ? & ? & ? & ?)]; [by left|].
    right. exists k, j, d. auto 10.
Qed.

(** ** The searches raise nothing *)

Section ExprRuns.
Context (I : world -> Prop) (X : exn -> Prop).

(** What is found in a line: nothing, or a position of it. *)
Definition pos_in (lo hi : Z) (r : found) : Prop := fst r = -1 \/ lo <= fst r <= hi.

Lemma end_step_pos line i char st r : end_step line i char st = Return r -> fst r = -1 \/ fst r = i + 1.
Proof. unfold end_step. intros H. repeat case_match; simplify_eq; auto. Qed.

Lemma end_loop_runs n line i st :
  0 <= i -> i + Z.of_nat n <= len line -> runs I X (end_loop n line i st) (pos_in 1 (len line)).
Proof.
  revert i st. induction n as [|n IH]; intros i st Hi Hn; cbn [end_loop]; [apply runs_ret; by left|].
  eapply runs_bind; [apply runs_index; lia|]. intros c _. destruct (end_step line i c st) as [r|s|s] eqn:E; [|apply IH; lia..].
  apply runs_ret. apply end_step_pos in E as [?|?]; [by left | right; lia].
Qed.

Lemma FindEndOfExpressionInLine_runs line startpos st :
  0 <= startpos <= len line -> runs I X (FindEndOfExpressionInLine line startpos st) (pos_in 1 (len line)).
Proof. intros H. apply end_loop_runs; lia. Qed.

(** Where the end is found, it is in the line it is said to be in, and that line is not before the first. *)
Definition end_at (N : Z) (c : CleansedLines) (linenum : Z) (r : str * Z * Z) : Prop :=
  let '(l, n, p) := r in p = -1 /\ n = N \/ 1 <= p <= len l /\ linenum <= n < N /\ index (elided c) n = Some l.

Lemma pos_in_found lo hi r : pos_in lo hi r -> (-1 <? fst r) = true -> lo <= fst r <= hi.
Proof. intros [-> | H]; [done | by intros _]. Qed.

Lemma close_loop_runs N n c line linenum st :
  sized N c -> 0 <= linenum -> linenum + Z.of_nat n < N -> runs I X (close_loop n c line linenum st) (end_at N c linenum).
Proof.
  intros Hs. revert line linenum st. induction n as [|n IH]; intros line linenum st H0 Hn; cbn [close_loop];
    [apply runs_ret; left; split; [done | apply Hs]|].
  destruct st as [[|t s]|]; [apply runs_ret; left; split; [done | apply Hs]| |apply runs_ret; left; split; [done | apply Hs]].
  eapply runs_bind; [apply runs_index; line_lia|]. intros l Hl.
  eapply runs_bind; [apply FindEndOfExpressionInLine_runs; unfold len; lia|]. intros r Hr. cbv zeta. destruct (-1 <? fst r) eqn:Ep.
  - apply runs_ret. right. apply (pos_in_found 1 (len l)) in Ep; [|done]. split_and!; [lia.. | done].
  - eapply runs_weaken; [apply IH; lia|]. intros [[l' n'] p] [?|(? & ? & ?)]; [by left | right; split_and!; [lia.. | done]].
Qed.

Lemma CloseExpression_runs N c linenum line pos :
  sized N c -> 0 <= linenum < N -> index (elided c) linenum = Some line -> 0 <= pos < len line ->
  runs I X (CloseExpression c linenum pos) (end_at N c linenum).
Proof.
  intros Hs Hn Hl Hp. unfold CloseExpression. rewrite Hl. eapply runs_bind; [by apply (runs_ret _ _ line (eq line))|].
  intros _ <-. eapply runs_bind; [apply runs_index; lia|]. intros ch _. split_if; [apply runs_ret; left; split; [done | apply Hs]|].
  eapply runs_bind; [apply FindEndOfExpressionInLine_runs; lia|]. intros r Hr. destruct (-1 <? fst r) eqn:Ep.
  - apply runs_ret. right. apply (pos_in_found 1 (len line)) in Ep; [|done]. split_and!; [lia.. | done].
  - apply close_loop_runs; [done | lia|]. rewrite (sized_num _ _ Hs). lia.
Qed.

Lemma start_step_pos line i char st r : start_step line i char st = Return r -> fst r = -1 \/ fst r = i.
Proof. unfold start_step. intros H. repeat case_match; simplify_eq; auto. Qed.

Lemma start_loop_runs n line i st :
  i < Z.of_nat n -> i < len line -> runs I X (start_loop n line i st) (pos_in 0 (len line - 1)).
Proof.
  revert i st. induction n as [|n IH]; intros i st Hi Hn; cbn [start_loop];
    (destruct (i <? 0) eqn:Ei; [apply runs_ret; by left|]); [lia|].
  eapply runs_bind; [apply runs_index; lia|]. intros ch _.
  destruct (start_step line i ch st) as [r|s|s] eqn:E; [|apply IH; lia..].
  apply runs_ret. apply start_step_pos in E as [?|?]; [by left | right; lia].
Qed.

Lemma FindStartOfExpressionInLine_runs line endpos st :
  endpos < len line -> runs I X (FindStartOfExpressionInLine line endpos st) (pos_in 0 (len line - 1)).
Proof. intros H. apply start_loop_runs; lia. Qed.

Definition start_at (c : CleansedLines) (linenum : Z) (r : str * Z * Z) : Prop :=
  let '(l, n, p) := r in p = -1 /\ n = 0 \/ 0 <= p < len l /\ 0 <= n <= linenum /\ index (elided c) n = Some l.

Lemma reverse_loop_runs N n c line linenum st :
  sized N c -> linenum = Z.of_nat n -> linenum < N -> runs I X (reverse_loop n c line linenum st) (start_at c linenum).
Proof.
  intros Hs. revert line linenum st. induction n as [|n IH]; intros line linenum st H0 Hn; cbn [reverse_loop];
    [apply runs_ret; by left|].
  destruct st as [[|t s]|]; [apply runs_ret; by left| |apply runs_ret; by left].
  eapply runs_bind; [apply runs_index; line_lia|]. intros l Hl.
  eapply runs_bind; [apply FindStartOfExpressionInLine_runs; lia|]. intros r Hr. cbv zeta. destruct (-1 <? fst r) eqn:Ep.
  - apply runs_ret. right. apply (pos_in_found 0 (len l - 1)) in Ep; [|done]. split_and!; [lia.. | done].
  - eapply runs_weaken; [apply IH; lia|]. intros [[l' n'] p] [?|(? & ? & ?)]; [by left | right; split_and!; [lia.. | done]].
Qed.

Lemma ReverseCloseExpression_runs N c linenum line pos :
  sized N c -> 0 <= linenum < N -> index (elided c) linenum = Some line -> - len line <= pos < len line ->
  runs I X (ReverseCloseExpression c linenum pos) (start_at c linenum).
Proof.
  intros Hs Hn Hl Hp. unfold ReverseCloseExpression. rewrite Hl. eapply runs_bind; [by apply (runs_ret _ _ line (eq line))|].
  intros _ <-. eapply runs_bind; [apply runs_index; lia|]. intros ch _. split_if; [apply runs_ret; by left|].
  eapply runs_bind; [apply FindStartOfExpressionInLine_runs; lia|]. intros r Hr. destruct (-1 <? fst r) eqn:Ep.
  - apply runs_ret. right. apply (pos_in_found 0 (len line - 1)) in Ep; [|done]. split_and!; [lia.. | done].
  - apply (reverse_loop_runs N); [done | lia..].
Qed.
End ExprRuns.

End Expr.

#[export] Hint Resolve FindEndOfExpressionInLine_runs CloseExpression_runs ReverseCloseExpression_runs : runs.

(** ** Witnesses *)

Definition sample_lines : list str := lits ["f(a, ["; "x ], {});"].
Definition sample : CleansedLines := Cleansed sample_lines sample_lines sample_lines sample_lines 2.

Lemma sample_plain : plain_file sample.
Proof. split; [done|]. repeat constructor. Qed.

Lemma CloseExpression_partner_witness :
  exists l' ln' p, CloseExpression (U := ascii_db) sample 0 1 world_init = (Ok (l', ln', p), world_init).
Proof.
  destruct (CloseExpression_partner (U := ascii_db) sample 0 1 "f(a, [" (ch "(") world_init sample_plain
    eq_refl eq_refl eq_refl) as (l' & ln' & p & H & _).
  exists l', ln', p. exact H.
Defined.

Lemma CloseExpression_roundtrip_witness :
  ReverseCloseExpression (U := ascii_db) sample 1 7 world_init = (Ok (lit "f(a, [", 0, 1), world_init).
Proof.
  refine (CloseExpression_roundtrip (U := ascii_db) sample 0 1 "f(a, [" (ch "(") world_init "x ], {});" 1 8 sample_plain
    eq_refl eq_refl eq_refl _ _); [vm_compute; reflexivity | done].
Defined.

Lemma CloseExpression_kind_witness :
  exists l' ln' p, CloseExpression (U := ascii_db) sample 0 5 world_init = (Ok (l', ln', p), world_init).
Proof.
  destruct (CloseExpression_kind (U := ascii_db) sample 0 5 "f(a, [" (ch "[") world_init
    eq_refl eq_refl eq_refl eq_refl) as (l' & ln' & p & H & _).
  exists l', ln', p. exact H.
Defined.
