(* ===== verification/Includes.v ===== *)
(** * The order of includes and the length of functions

    Models the classes [_IncludeState] and [_FunctionState] of cpplint.py.  A method that updates its object returns the
    new object.  Section and header kinds are the integers of the source. *)

From S2P Require Import Prelude PyStr PyRe PyEff Tables Regexps Lint Cleanse.
From Stdlib Require Import Sorted.

Local Open Scope Z_scope.

(** ** Includes *)

Definition _INITIAL_SECTION : Z := 0.
Definition _MY_H_SECTION : Z := 1.
Definition _C_SECTION : Z := 2.
Definition _CPP_SECTION : Z := 3.
Definition _OTHER_H_SECTION : Z := 4.

(** [_TYPE_NAMES[t]] and [_SECTION_NAMES[s]]; [None] is a key that is not there. *)
Definition _TYPE_NAMES (t : Z) : option str :=
  if t =? _C_SYS_HEADER then Some (lit "C system header")
  else if t =? _CPP_SYS_HEADER then Some (lit "C++ system header")
  else if t =? _LIKELY_MY_HEADER then Some (lit "header this file implements")
  else if t =? _POSSIBLE_MY_HEADER then Some (lit "header this file may implement")
  else if t =? _OTHER_HEADER then Some (lit "other header")
  else None.

Definition _SECTION_NAMES (s : Z) : option str :=
  if s =? _INITIAL_SECTION then Some (lit "... nothing. (This can't be an error.)")
  else if s =? _MY_H_SECTION then Some (lit "a header this file implements")
  else if s =? _C_SECTION then Some (lit "C system header")
  else if s =? _CPP_SECTION then Some (lit "C++ system header")
  else if s =? _OTHER_H_SECTION then Some (lit "other header")
  else None.

Record _IncludeState := IncludeState {
  include_list : list (list (str * Z));
  _section : Z;
  _last_header : str
}.

Section Includes.
Context {U : UnicodeDB}.

(** [l[-1] = x]; nothing where the source would raise, which the invariant [includes_wf] excludes. *)
Definition set_last {A} (l : list A) (x : A) : list A := <[pred (length l) := x]> l.

Definition ResetSection (st : _IncludeState) (directive : str) : _IncludeState :=
  IncludeState
    (if mem_str directive (lits ["if"; "ifdef"; "ifndef"]) then include_list st ++ [[]]
     else if mem_str directive (lits ["else"; "elif"]) then set_last (include_list st) []
     else include_list st)
    _INITIAL_SECTION [].

Definition _IncludeState_init : _IncludeState := ResetSection (IncludeState [[]] _INITIAL_SECTION []) [].

Definition FindHeader (st : _IncludeState) (header : str) : Z :=
  match List.find (fun f => str_eqb (fst f) header) (concat (include_list st)) with
  | Some f => snd f
  | None => -1
  end.

Definition SetLastHeader (st : _IncludeState) (header_path : str) : _IncludeState :=
  IncludeState (include_list st) (_section st) header_path.

Definition CanonicalizeAlphabeticalOrder (header_path : str) : str :=
  lower (replace (replace header_path "-inl.h" ".h") "-" "_").

Definition IsInAlphabeticalOrder (st : _IncludeState) (clean_lines : CleansedLines) (linenum : Z)
    (header_path : str) : P bool :=
  if str_ltb header_path (_last_header st) then
    line <- or_raise IndexError (index (elided clean_lines) (linenum - 1));;
    ret (negb (MatchB "^\s*#\s*include\b" line))
  else ret true.

(** The message returned and the object afterwards. *)
Definition CheckNextIncludeOrder (st : _IncludeState) (header_type : Z) : P (str * _IncludeState) :=
  tname <- or_raise KeyError (_TYPE_NAMES header_type);;
  sname <- or_raise KeyError (_SECTION_NAMES (_section st));;
  let error_message := "Found " ++ tname ++ " after " ++ sname in
  let last_section := _section st in
  let go (section : Z) := ret (lit "",
    IncludeState (include_list st) section (if last_section =? section then _last_header st else [])) in
  let out_of_order := ret (error_message, IncludeState (include_list st) (_section st) []) in
  if header_type =? _C_SYS_HEADER then
    if _section st <=? _C_SECTION then go _C_SECTION else out_of_order
  else if header_type =? _CPP_SYS_HEADER then
    if _section st <=? _CPP_SECTION then go _CPP_SECTION else out_of_order
  else if header_type =? _LIKELY_MY_HEADER then
    if _section st <=? _MY_H_SECTION then go _MY_H_SECTION else go _OTHER_H_SECTION
  else if header_type =? _POSSIBLE_MY_HEADER then
    if _section st <=? _MY_H_SECTION then go _MY_H_SECTION else go _OTHER_H_SECTION
  else if negb (header_type =? _OTHER_HEADER) then raise AssertionError
  else go _OTHER_H_SECTION.

(** *** Order *)

Definition header_type_ok (t : Z) : Prop := 1 <= t <= 5.
Definition includes_wf (st : _IncludeState) : Prop :=
  0 <= _section st <= 4 /\ include_list st <> [].

(** The section a header belongs to, given the section reached: a header of the file itself counts as such only before
    any other header. *)
Definition section_of (t cur : Z) : Z :=
  if t =? _C_SYS_HEADER then _C_SECTION
  else if t =? _CPP_SYS_HEADER then _CPP_SECTION
  else if t =? _OTHER_HEADER then _OTHER_H_SECTION
  else if cur <=? _MY_H_SECTION then _MY_H_SECTION else _OTHER_H_SECTION.

Lemma names_total st t :
  header_type_ok t -> includes_wf st -> exists a b, _TYPE_NAMES t = Some a /\ _SECTION_NAMES (_section st) = Some b.
Proof.
  intros Ht [Hs _]. unfold header_type_ok in Ht.
  assert (t = 1 \/ t = 2 \/ t = 3 \/ t = 4 \/ t = 5) as [->|[->|[->|[->| ->]]]] by lia;
  assert (_section st = 0 \/ _section st = 1 \/ _section st = 2 \/ _section st = 3 \/ _section st = 4)
    as [->|[->|[->|[->| ->]]]] by lia; eauto.
Qed.

Lemma section_of_range t cur : header_type_ok t -> 1 <= section_of t cur <= 4.
Proof. intros _. unfold section_of. repeat split_if; unfold _C_SECTION, _CPP_SECTION, _OTHER_H_SECTION, _MY_H_SECTION; lia. Qed.

(** The outcome of a call: in order exactly when the section of the header is not before the current one. *)
Lemma check_next_eq st t w :
  header_type_ok t -> includes_wf st ->
  exists msg,
    msg <> [] /\
    CheckNextIncludeOrder st t w =
    (Ok (if section_of t (_section st) <? _section st
         then (msg, IncludeState (include_list st) (_section st) [])
         else ([], IncludeState (include_list st) (section_of t (_section st))
                     (if _section st =? section_of t (_section st) then _last_header st else []))), w).
Proof.
  intros Ht Hw. destruct (names_total st t Ht Hw) as (a & b & Ha & Hb).
  exists ("Found " ++ a ++ " after " ++ b). split; [by intros ?|].
  unfold CheckNextIncludeOrder. rewrite Ha, Hb. unfold bind. cbn [or_raise]. unfold ret. cbv zeta.
  unfold section_of. destruct Hw as [Hw _]. unfold header_type_ok in Ht.
  destruct (t =? _C_SYS_HEADER) eqn:E1.
  { rewrite Z.ltb_antisym. by destruct (_section st <=? _C_SECTION). }
  destruct (t =? _CPP_SYS_HEADER) eqn:E2.
  { rewrite Z.ltb_antisym. by destruct (_section st <=? _CPP_SECTION). }
  unfold _C_SYS_HEADER, _CPP_SYS_HEADER, _LIKELY_MY_HEADER, _POSSIBLE_MY_HEADER, _OTHER_HEADER in *. bool_facts.
  assert (H4 : (_OTHER_H_SECTION <? _section st) = false) by (apply Z.ltb_ge; unfold _OTHER_H_SECTION; lia).
  assert (t = 3 \/ t = 4 \/ t = 5) as [->|[->| ->]] by lia; cbn [Z.eqb Pos.eqb negb];
    [| |by rewrite H4]; destruct (_section st <=? _MY_H_SECTION) eqn:E3;
    rewrite ?H4, ?Z.ltb_antisym, ?E3; done.
Qed.
(** [CheckNextIncludeOrder] on any header kind and any reachable state never raises: it returns a message exactly when the
    header belongs to an earlier section than the one reached, and then stays in that section; otherwise it moves to the section
    of the header.  The section never goes back, stays in its range, and the last header is forgotten unless the section stays. *)
Theorem CheckNextIncludeOrder_spec st t w (Ht : header_type_ok t) (Hw : includes_wf st) :
  exists msg st', CheckNextIncludeOrder st t w = (Ok (msg, st'), w) /\
    (msg = [] <-> _section st <= section_of t (_section st)) /\
    _section st' = Z.max (_section st) (section_of t (_section st)) /\
    include_list st' = include_list st /\ includes_wf st' /\
    _last_header st' = (if section_of t (_section st) =? _section st then _last_header st else []).
Proof.
  destruct (check_next_eq st t w Ht Hw) as (msg & Hm & ->). pose proof (section_of_range t (_section st) Ht) as Hr.
  destruct Hw as [Hs Hi]. destruct (Z.ltb_spec (section_of t (_section st)) (_section st)).
  - eexists _, _. split; [done|]. cbn. split; [split; [done | lia]|]. split; [lia|]. split; [done|]. split; [done|].
    by rewrite (proj2 (Z.eqb_neq _ _)) by lia.
  - eexists _, _. split; [done|]. cbn. split; [done|]. split; [lia|]. split; [done|]. split; [split; [cbn; lia | done]|].
    by rewrite Z.eqb_sym.
Qed.

(** The messages for the headers of a file, in order. *)
Fixpoint check_all (st : _IncludeState) (hs : list Z) : P (list str) :=
  match hs with
  | [] => ret []
  | t :: hs' => r <- CheckNextIncludeOrder st t;; ms <- check_all (snd r) hs';; ret (fst r :: ms)
  end.

Definition plain_header (t : Z) : Prop := t = _C_SYS_HEADER \/ t = _CPP_SYS_HEADER \/ t = _OTHER_HEADER.

Lemma plain_ok t : plain_header t -> header_type_ok t.
Proof. unfold plain_header, header_type_ok, _C_SYS_HEADER, _CPP_SYS_HEADER, _OTHER_HEADER. lia. Qed.

Lemma plain_section t cur : plain_header t -> section_of t cur = section_of t 0.
Proof. by intros [->|[->| ->]]. Qed.

Lemma plain_mono t u : plain_header t -> plain_header u -> section_of t 0 <= section_of u 0 <-> t <= u.
Proof. by intros [->|[->| ->]] [->|[->| ->]]. Qed.

Lemma check_all_sorted hs st w :
  Forall plain_header hs -> includes_wf st ->
  exists ms, check_all st hs w = (Ok ms, w) /\
    (Forall (fun m => m = []) ms <->
     StronglySorted Z.le hs /\ Forall (fun t => _section st <= section_of t 0) hs).
Proof.
  intros Hp. revert st. induction Hp as [|t hs Ht Hp IH]; intros st Hw; cbn [check_all].
  - exists []. split; [done|]. split; intros _; [split; constructor | constructor].
  - destruct (check_next_eq st t w (plain_ok t Ht) Hw) as (msg & Hm & He). unfold bind at 1. rewrite He.
    rewrite (plain_section t (_section st) Ht) in *.
    pose proof (section_of_range t 0 (plain_ok t Ht)) as Hr. destruct Hw as [Hs Hi].
    destruct (Z.ltb_spec (section_of t 0) (_section st)) as [Hlt|Hge]; cbn [fst snd]; unfold bind at 1.
    + destruct (IH (IncludeState (include_list st) (_section st) [])) as (ms & -> & _); [by split|].
      eexists. split; [done|]. split; [intros H; by inversion H | intros [_ H]; inversion H; subst; lia].
    + destruct (IH (IncludeState (include_list st) (section_of t 0) (if _section st =? section_of t 0 then _last_header st else [])))
        as (ms & -> & Hms); [split; [cbn; lia | done]|].
      eexists. split; [done|]. rewrite Forall_cons. cbn [_section] in Hms. rewrite Hms. clear Hms He IH.
      assert (Hle : Forall (fun u => section_of t 0 <= section_of u 0) hs <-> Forall (Z.le t) hs).
      { rewrite !Forall_forall in *. split; intros H u Hu; specialize (H u Hu); apply (plain_mono t u); auto. }
      rewrite Hle. split.
      * intros (_ & Hss & Hf). split; [by constructor|]. constructor; [done|]. rewrite <- Hle in Hf.
        eapply Forall_impl; [exact Hf|]. intros u Hu. simpl in Hu. lia.
      * intros [Hss _]. inversion Hss; subst. auto.
Qed.

Lemma check_all_length hs st w ms w' : check_all st hs w = (Ok ms, w') -> length ms = length hs.
Proof.
  revert st w ms w'. induction hs as [|t hs IH]; intros st w ms w'; cbn [check_all]; [by intros [= <- _]|].
  intros (r & w1 & _ & H2)%bind_ok. apply bind_ok in H2 as (ms' & w2 & H2 & [= <- _]). simpl. f_equal. by eapply IH.
Qed.

(** C8. For a file whose headers are C system, C++ system and other headers, [CheckNextIncludeOrder] finds nothing to report
    exactly when all C system headers come before all C++ system headers and those before all other headers. *)
Theorem include_order_iff_sorted hs w (Hp : Forall plain_header hs) :
  exists ms, check_all _IncludeState_init hs w = (Ok ms, w) /\ length ms = length hs /\
    (Forall (fun m => m = []) ms <-> StronglySorted Z.le hs).
Proof.
  destruct (check_all_sorted hs _IncludeState_init w Hp) as (ms & H & Hms); [by split|].
  exists ms. split; [done|]. split.
  - by eapply check_all_length.
  - rewrite Hms. split; [tauto|]. intros Hs. split; [done|]. rewrite Forall_forall in *. intros t Ht. cbn [_section _IncludeState_init ResetSection].
    pose proof (section_of_range t 0 (plain_ok t (Hp t Ht))). unfold _INITIAL_SECTION. lia.
Qed.

(** *** Recorded headers *)

(** [include_list[-1].append((header, linenum))] *)
Definition append_include (st : _IncludeState) (header : str) (linenum : Z) : _IncludeState :=
  IncludeState (set_last (include_list st) (default [] (last (include_list st)) ++ [(header, linenum)]))
    (_section st) (_last_header st).

Lemma set_last_snoc {A} (l : list A) y x : set_last (l ++ [y]) x = l ++ [x].
Proof.
  unfold set_last. rewrite length_app. cbn [length]. replace (pred (length l + 1)) with (length l + 0)%nat by lia.
  by rewrite insert_app_r.
Qed.

Lemma find_app {A} (f : A -> bool) l1 l2 :
  List.find f (l1 ++ l2) = match List.find f l1 with Some x => Some x | None => List.find f l2 end.
Proof. induction l1 as [|x l1 IH]; simpl; [done|]. by destruct (f x). Qed.

Definition recorded (st : _IncludeState) (h : str) : bool :=
  existsb (fun f => str_eqb (fst f) h) (concat (include_list st)).

Lemma recorded_find st h : recorded st h = false <-> List.find (fun f => str_eqb (fst f) h) (concat (include_list st)) = None.
Proof.
  unfold recorded. induction (concat (include_list st)) as [|f l IH]; simpl; [done|]. by destruct (str_eqb (fst f) h).
Qed.

Lemma includes_snoc st : includes_wf st -> exists ls l, include_list st = ls ++ [l].
Proof. intros [_ H]. destruct (rev_case (include_list st)) as [?|(ls & l & ?)]; [done | eauto]. Qed.

Lemma ResetSection_wf st d : includes_wf st -> includes_wf (ResetSection st d).
Proof.
  intros Hw. destruct (includes_snoc st Hw) as (ls & l & E). split; [done|]. intros H. unfold ResetSection in H. cbn [include_list] in H.
  repeat split_if; rewrite ?E, ?set_last_snoc in H; by destruct ls.
Qed.

(** Looking a header up returns the line it was recorded at, unless an earlier record exists, which is returned instead;
    recording one header does not change the answer for others; [#else] and [#elif] forget what the branch before them recorded,
    and [#if] and its variants keep everything. *)
Theorem FindHeader_recorded st h n h' (Hw : includes_wf st) :
  FindHeader (append_include st h n) h' = (if negb (recorded st h') && str_eqb h h' then n else FindHeader st h') /\
  (forall d, mem_str d (lits ["else"; "elif"]) = true ->
     FindHeader (ResetSection (append_include st h n) d) h' = FindHeader (ResetSection st d) h') /\
  (forall d, mem_str d (lits ["if"; "ifdef"; "ifndef"]) = true -> FindHeader (ResetSection st d) h' = FindHeader st h') /\
  (forall d, includes_wf (ResetSection st d)).
Proof.
  pose proof (recorded_find st h') as Hrec. destruct (includes_snoc st Hw) as (ls & l & E).
  unfold FindHeader, ResetSection, append_include, recorded in *. cbn [include_list]. rewrite E in *.
  rewrite last_snoc, !set_last_snoc. cbn [default]. unfold id. repeat split.
  - rewrite !concat_app in *. cbn [concat] in *. rewrite !app_nil_r in *. rewrite app_assoc, find_app. cbn [List.find fst].
    destruct (List.find _ (concat ls ++ l)) as [f|].
    + destruct (existsb _ _); [done|]. by destruct Hrec as [Hrec _]; specialize (Hrec eq_refl).
    + rewrite (proj2 Hrec eq_refl). by destruct (str_eqb h h').
  - intros d Hd. rewrite Hd. split_if; [|by rewrite ?set_last_snoc].
    exfalso. apply mem_str_elem in Hd, Heqb. vm_compute in Hd, Heqb. set_solver.
  - intros d ->. by rewrite concat_app, app_nil_r.
  - done.
  - done.
  - intros H. cbn [include_list] in H. repeat split_if; rewrite ?E, ?set_last_snoc in H; by destruct ls.
Qed.

(** ** The length of functions *)

Definition _NORMAL_TRIGGER : Z := 250.
Definition _TEST_TRIGGER : Z := 400.

Record _FunctionState := FunctionState {
  in_a_function : bool;
  lines_in_function : Z;
  current_function : str
}.

Definition _FunctionState_init : _FunctionState := FunctionState false 0 [].
Definition Begin (fs : _FunctionState) (function_name : str) : _FunctionState := FunctionState true 0 function_name.
Definition Count (fs : _FunctionState) : _FunctionState :=
  if in_a_function fs then FunctionState true (lines_in_function fs + 1) (current_function fs) else fs.
Definition End_ (fs : _FunctionState) : _FunctionState :=
  FunctionState false (lines_in_function fs) (current_function fs).

(** [lines > base * 2**v], where a negative power of two is a fraction. *)
Definition above_trigger (lines base v : Z) : bool :=
  if 0 <=? v then base * 2 ^ v <? lines else base <? lines * 2 ^ (- v).
(** [base * 2**v] as the format [%d] shows it. *)
Definition trigger_shown (base v : Z) : Z := if 0 <=? v then base * 2 ^ v else base / 2 ^ (- v).
(** [int(math.log(lines / base, 2))]: the whole part of the binary logarithm, rounded towards zero.  (The quotient
    of floating point logarithms is exact where the quotient is a power of two up to 2^5, and larger results are capped.) *)
Definition log_ratio (lines base : Z) : Z :=
  if base <=? lines then Z.log2 (lines / base) else - Z.log2 (base / lines).

Definition base_trigger (function : str) : Z :=
  if MatchB "T(EST|est)" function then _TEST_TRIGGER else _NORMAL_TRIGGER.

Definition Check_ (fs : _FunctionState) (error : error_fn) (filename : str) (linenum : Z) : P unit :=
  if negb (in_a_function fs) then ret tt else
  let base := base_trigger (current_function fs) in
  s <- lint;;
  let v := verbose_level s in
  when (above_trigger (lines_in_function fs) base v)
    (let error_level := log_ratio (lines_in_function fs) base in
     let error_level := if 5 <? error_level then 5 else error_level in
     error filename (Some linenum) "readability/fn_size" error_level
       ("Small and focused functions are preferred:" ++ " " ++ current_function fs ++ " has "
        ++ str_of_Z (lines_in_function fs) ++ " non-comment lines"
        ++ " (error triggered by exceeding " ++ str_of_Z (trigger_shown base v) ++ " lines).")).

(** The lines of a function, counted one by one. *)
Definition counted (name : str) (n : nat) : _FunctionState := Nat.iter n Count (Begin _FunctionState_init name).

Lemma counted_eq name n : counted name n = FunctionState true (Z.of_nat n) name.
Proof. unfold counted. induction n as [|n IH]; simpl; [done|]. rewrite IH. unfold Count. simpl. f_equal. lia. Qed.

Lemma base_trigger_pos f : 250 <= base_trigger f <= 400.
Proof. unfold base_trigger, _TEST_TRIGGER, _NORMAL_TRIGGER. split_if; lia. Qed.

Lemma log_ratio_ge lines base v : 0 < base -> 0 <= v -> base * 2 ^ v < lines -> v <= log_ratio lines base.
Proof.
  intros Hb Hv H. assert (1 <= 2 ^ v) by (assert (0 < 2 ^ v) by (apply Z.pow_pos_nonneg; lia); lia).
  unfold log_ratio. rewrite (proj2 (Z.leb_le _ _)) by nia.
  rewrite <- (Z.log2_pow2 v) by done. apply Z.log2_le_mono, Z.div_le_lower_bound; lia.
Qed.

(** C40. A function of [n] lines is reported exactly once when it has more than the base number of lines (250, or 400 for a
    test) doubled for every level of verbosity, and not at all otherwise; the confidence of the report is at least the
    verbosity, for verbosities from 0 to 5, so that the report is not suppressed by it. *)
Theorem FunctionState_Check_spec name n (error : error_fn) filename linenum w
    (Hv : 0 <= verbose_level (_cpplint_state w) <= 5) :
  let base := base_trigger name in let v := verbose_level (_cpplint_state w) in
  if base * 2 ^ v <? Z.of_nat n
  then exists level message, v <= level <= 5 /\
         Check_ (counted name n) error filename linenum w = error filename (Some linenum) "readability/fn_size" level message w
  else Check_ (counted name n) error filename linenum w = (Ok tt, w).
Proof.
  cbv zeta. rewrite counted_eq. unfold Check_, lint, gets, bind, when, above_trigger. cbn.
  rewrite (proj2 (Z.leb_le 0 _)) by lia. pose proof (base_trigger_pos name).
  destruct (Z.ltb_spec (base_trigger name * 2 ^ verbose_level (_cpplint_state w)) (Z.of_nat n)); [|done].
  eexists _, _. split; [|reflexivity].
  assert (verbose_level (_cpplint_state w) <= log_ratio (Z.of_nat n) (base_trigger name)) by (apply log_ratio_ge; lia).
  split_if; bool_facts; lia.
Qed.

(** ** Triples *)

Section IncludesRuns.
Context (N : Z) (filename : str) (I : world -> Prop) (X : exn -> Prop) (error : error_fn) {R : Reporter N filename I X error}.

(** The lines of the directives seen are lines of the file. *)
Definition includes_in (st : _IncludeState) : Prop :=
  includes_wf st /\ Forall (fun f => 0 <= snd f < N) (concat (include_list st)).

Lemma Check_runs fs linenum : 0 <= linenum < N -> runs I X (Check_ fs error filename linenum) (fun _ => True).
Proof.
  intros Hl. unfold Check_. runs_walk; apply report_runs;
    (split_and!; [cbn [default id]; lia.. | vm_compute; reflexivity | split_if; lia | by right]).
Qed.

Lemma append_include_in st h k : 0 <= k < N -> includes_in st -> includes_in (append_include st h k).
Proof.
  intros Hk [Hw Hin]. destruct (includes_snoc st Hw) as (ls & l & E). split.
  - split; [apply Hw|]. cbn [append_include include_list]. rewrite E, set_last_snoc. by destruct ls.
  - cbn [append_include include_list]. rewrite E in *. rewrite set_last_snoc, last_snoc. cbn [default]. unfold id.
    rewrite concat_app in *. apply Forall_app in Hin as [H1 H2]. apply Forall_app. split; [done|]. cbn in *.
    rewrite app_nil_r in *. apply Forall_app. split; [done|]. by apply Forall_singleton.
Qed.

Lemma ResetSection_in st d : includes_in st -> includes_in (ResetSection st d).
Proof.
  intros [Hw Hin]. split; [by apply ResetSection_wf|]. destruct (includes_snoc st Hw) as (ls & l & E).
  unfold ResetSection. cbn [include_list]. rewrite E in *. rewrite concat_app in Hin. apply Forall_app in Hin as [H1 H2].
  repeat split_if; rewrite ?set_last_snoc, !concat_app, ?Forall_app; repeat split; try done; by constructor.
Qed.

Lemma CheckNextIncludeOrder_runs st t :
  header_type_ok t -> includes_in st -> runs I X (CheckNextIncludeOrder st t) (fun r => includes_in (snd r)).
Proof.
  intros Ht [Hw Hin]. apply runs_total. intros w. destruct (check_next_eq st t w Ht Hw) as (msg & _ & ->). eexists. split; [reflexivity|].
  pose proof (section_of_range t (_section st) Ht). destruct Hw as [Hs Hi]. split_if; (split; [split|]; cbn [_section include_list snd]; [lia | done | done]).
Qed.

Lemma IsInAlphabeticalOrder_runs st c linenum h :
  sized N c -> 0 <= linenum < N -> runs I X (IsInAlphabeticalOrder st c linenum h) (fun _ => True).
Proof. intros Hc Hl. unfold IsInAlphabeticalOrder. runs_walk. Qed.
End IncludesRuns.

End Includes.

#[export] Hint Resolve Check_runs CheckNextIncludeOrder_runs IsInAlphabeticalOrder_runs : runs.

(** ** Witnesses *)

Lemma CheckNextIncludeOrder_spec_witness :
  exists msg st', CheckNextIncludeOrder (_IncludeState_init) _CPP_SYS_HEADER world_init = (Ok (msg, st'), world_init) /\ msg = [].
Proof.
  assert (Ht : header_type_ok _CPP_SYS_HEADER) by (vm_compute; split; discriminate).
  assert (Hw : includes_wf _IncludeState_init) by (split; [vm_compute; split; discriminate | discriminate]).
  destruct (CheckNextIncludeOrder_spec _IncludeState_init _CPP_SYS_HEADER world_init Ht Hw) as (msg & st' & H & Hm & _).
  exists msg, st'. split; [exact H|]. apply Hm. vm_compute. discriminate.
Defined.

Lemma include_order_iff_sorted_witness :
  exists ms, check_all _IncludeState_init [_CPP_SYS_HEADER; _C_SYS_HEADER] world_init = (Ok ms, world_init) /\ length ms = 2%nat.
Proof.
  destruct (include_order_iff_sorted [_CPP_SYS_HEADER; _C_SYS_HEADER] world_init) as (ms & H & Hl & _).
  - constructor; [right; left; reflexivity|]. constructor; [left; reflexivity|constructor].
  - exists ms. split; [exact H | exact Hl].
Defined.

Lemma FindHeader_recorded_witness :
  FindHeader (append_include _IncludeState_init "a/b.h" 7) "a/b.h" = 7.
Proof.
  assert (Hw : includes_wf _IncludeState_init) by (split; [vm_compute; split; discriminate | discriminate]).
  rewrite (proj1 (FindHeader_recorded _IncludeState_init "a/b.h" 7 "a/b.h" Hw)). reflexivity.
Defined.

Lemma FunctionState_Check_spec_witness :
  Check_ (U := ascii_db) (counted "F" 3) (fun _ _ _ _ _ => ret tt) "a.cc" 3 world_init = (Ok tt, world_init).
Proof.
  refine (FunctionState_Check_spec (U := ascii_db) "F" 3 (fun _ _ _ _ _ => ret tt) "a.cc" 3 world_init _).
  vm_compute. split; discriminate.
Defined.
