(* ===== verification/Paths.v ===== *)
(** * File names

    Module [OsPath] holds the functions of Python's [os.path] (POSIX) that the scripts call; the rest models [FileInfo],
    [PathSplitToList] and [GetHeaderGuardCPPVariable] of cpplint.py.  The file system is a parameter: which paths
    exist, and the working directory, neither of which changes while a file is checked.  The flag [_root_debug] of the
    source is constantly false, so the messages it guards are left out. *)

From S2P Require Import Prelude PyStr PyRe PyEff Tables Regexps Lint.

Local Open Scope Z_scope.

Class FileSystem := {
  exists_ : str -> bool;   (* os.path.exists *)
  getcwd : str             (* os.getcwd *)
}.

Module OsPath.
Section OsPath.
Context {FS : FileSystem}.

Definition slash : N := ch "/".
Definition all_slashes (s : str) : bool := forallb (N.eqb slash) s.

Definition split (p : str) : str * str :=
  let i := rfind p "/" + 1 in
  let head := slice_to p i in
  let tail := slice_from p i in
  (if nonempty head && negb (all_slashes head) then rstrip_chars head "/" else head, tail).

Definition dirname (p : str) : str := fst (split p).
Definition basename (p : str) : str := snd (split p).

(** [os.path.join(a, b)]; longer calls are folds. *)
Definition join2 (a b : str) : str :=
  if startswith b "/" then b
  else if negb (nonempty a) || endswith a "/" then a ++ b
  else a ++ "/" ++ b.
Definition join (a : str) (ps : list str) : str := fold_left join2 ps a.

(** [os.path.splitext]: leading dots of the last component do not start an extension. *)
Definition splitext (p : str) : str * str :=
  let sepIndex := rfind p "/" in
  let dotIndex := rfind p "." in
  if (sepIndex <? dotIndex) && negb (forallb (N.eqb (ch ".")) (slice p (sepIndex + 1) dotIndex))
  then (slice_to p dotIndex, slice_from p dotIndex)
  else (p, []).

Definition norm_step (initial_slashes : bool) (new_comps : list str) (comp : str) : list str :=
  if str_eqb comp [] || str_eqb comp "." then new_comps
  else if negb (str_eqb comp "..") || (negb initial_slashes && negb (nonempty new_comps))
          || match new_comps with c :: _ => str_eqb c ".." | [] => false end
  then comp :: new_comps
  else tail new_comps.

Definition normpath (path : str) : str :=
  if negb (nonempty path) then lit "." else
  let initial_slashes :=
    if startswith path "/" then
      if startswith path "//" && negb (startswith path "///") then lit "//" else lit "/"
    else [] in
  let new_comps := rev (fold_left (norm_step (nonempty initial_slashes)) (PyStr.split path "/") []) in
  let path := initial_slashes ++ PyStr.join "/" new_comps in
  if nonempty path then path else lit ".".

Definition abspath (p : str) : str := normpath (if startswith p "/" then p else join2 getcwd p).

(** [os.path.normcase] is the identity on POSIX systems. *)
Definition normcase (p : str) : str := p.

Fixpoint commonprefix2 {A} `{EqDecision A} (a b : list A) : list A :=
  match a, b with
  | x :: a', y :: b' => if decide (x = y) then x :: commonprefix2 a' b' else []
  | _, _ => []
  end.

Definition comps (p : str) : list str := List.filter nonempty (PyStr.split (abspath p) "/").

Definition relpath (path start : str) : str :=
  let start_list := comps start in
  let path_list := comps path in
  let i := length (commonprefix2 start_list path_list) in
  match replicate (length start_list - i) (lit "..") ++ drop i path_list with
  | [] => lit "."
  | a :: ps => join a ps
  end.

End OsPath.
End OsPath.

Section Paths.
Context {U : UnicodeDB} {FS : FileSystem}.
Import OsPath.

(** ** FileInfo *)

Definition FullName (filename : str) : str := replace (abspath filename) "\" "/".

Definition has (d : str) (name : str) : bool := exists_ (join2 d name).
Definition is_checkout (d : str) : bool := has d ".git" || has d ".hg" || has d ".svn".

(** The climb to the repository the user named. *)
Fixpoint find_repo (fuel : nat) (fullname repo root_dir : str) : P (option str) :=
  match fuel with
  | O => raise OutOfFuel
  | S f =>
      if negb (exists_ root_dir) then ret None
      else if str_eqb (normcase root_dir) (normcase repo)
      then ret (Some (replace (relpath fullname root_dir) "\" "/"))
      else let one_up_dir := dirname root_dir in
           if str_eqb one_up_dir root_dir then ret None else find_repo f fullname repo one_up_dir
  end.

(** The climb to the top of an SVN checkout. *)
Fixpoint svn_top (fuel : nat) (root_dir one_up_dir : str) : P str :=
  match fuel with
  | O => raise OutOfFuel
  | S f => if has one_up_dir ".svn" then svn_top f (dirname root_dir) (dirname one_up_dir) else ret root_dir
  end.

(** The climb to the outermost directory of a checkout; the file system's root is not looked at. *)
Fixpoint checkout_top (fuel : nat) (root_dir current_dir : str) : P str :=
  match fuel with
  | O => raise OutOfFuel
  | S f =>
      if str_eqb current_dir (dirname current_dir) then ret root_dir
      else checkout_top f (if is_checkout current_dir then current_dir else root_dir) (dirname current_dir)
  end.

Definition strip_prefix_dir (fullname root_dir project_dir : str) : str :=
  slice_from fullname (len (commonprefix2 root_dir project_dir) + 1).

Definition RepositoryName (filename : str) : P str :=
  let fullname := FullName filename in
  if exists_ fullname then
    let project_dir := dirname fullname in
    let fuel := S (S (length fullname)) in
    w <- get;;
    named <- match _repository w with
             | Some r => if nonempty r then find_repo fuel fullname (FullName r) project_dir else ret None
             | None => ret None
             end;;
    match named with
    | Some n => ret n
    | None =>
        if has project_dir ".svn" then
          root_dir <- svn_top fuel project_dir (dirname project_dir);;
          ret (strip_prefix_dir fullname root_dir project_dir)
        else
          root_dir <- checkout_top fuel project_dir project_dir;;
          ret (if is_checkout root_dir then strip_prefix_dir fullname root_dir project_dir else fullname)
    end
  else ret fullname.

Definition Split (filename : str) : P (str * str * str) :=
  googlename <- RepositoryName filename;;
  let '(project, rest) := split googlename in
  let '(base, ext) := splitext rest in
  ret (project, base, ext).

Definition BaseName (filename : str) : P str := s <- Split filename;; ret (snd (fst s)).
Definition Extension (filename : str) : P str := s <- Split filename;; ret (snd s).
Definition NoExtension (filename : str) : P str :=
  s <- Split filename;; ret (PyStr.join "/" [fst (fst s); snd (fst s)]).
Definition IsSource (filename : str) : P bool :=
  e <- Extension filename;; _IsSourceExtension (slice_from e 1).

(** ** Header guards *)

Fixpoint path_split_loop (fuel : nat) (path : str) (lst : list str) : P (list str) :=
  match fuel with
  | O => raise OutOfFuel
  | S f =>
      let '(head, tail) := split path in
      if str_eqb head path then ret (head :: lst)
      else if str_eqb tail path then ret (tail :: lst)
      else path_split_loop f head (tail :: lst)
  end.

Definition PathSplitToList (path : str) : P (list str) := path_split_loop (S (length path)) path [].

Definition StripListPrefix (lst prefix : list str) : option (list str) :=
  if bool_decide (take (length prefix) lst = prefix) then Some (drop (length prefix) lst) else None.

(** [if maybe_path: return os.path.join( *maybe_path)] *)
Definition joined (maybe_path : option (list str)) : option str :=
  match maybe_path with Some (a :: ps) => Some (join a ps) | _ => None end.

Definition FixupPathFromRoot (filename file_path_from_root : str) : P str :=
  w <- get;;
  match _root w with
  | Some ((_ :: _) as root) =>
      l <- PathSplitToList file_path_from_root;;
      r <- PathSplitToList root;;
      match joined (StripListPrefix l r) with
      | Some p => ret p
      | None =>
          l <- PathSplitToList (FullName filename);;
          r <- PathSplitToList (abspath root);;
          match joined (StripListPrefix l r) with
          | Some p => ret p
          | None => ret file_path_from_root
          end
      end
  | _ => ret file_path_from_root
  end.

Definition GetHeaderGuardCPPVariable (filename : str) : P str :=
  let filename := ReplaceAll "_flymake\.h$" ".h" filename in
  let filename := ReplaceAll "/\.flymake/([^/]*)$" "/\1" filename in
  let filename := replace (replace filename "C++" "cpp") "c++" "cpp" in
  file_path_from_root <- RepositoryName filename;;
  file_path_from_root <- FixupPathFromRoot filename file_path_from_root;;
  ret (upper (ReplaceAll "[^a-zA-Z0-9]" "_" file_path_from_root) ++ "_").

(** ** Splitting a path *)

Lemma rfind_char (p : str) (c : N) :
  (rfind p [c] = -1 /\ c ∉ p) \/ exists u v, p = u ++ c :: v /\ c ∉ v /\ rfind p [c] = len u.
Proof.
  unfold rfind. assert (match rfind_nat p [c] with
    | Some n => exists u v, p = u ++ c :: v /\ c ∉ v /\ n = length u
    | None => c ∉ p end) as H.
  { induction p as [|d p IH]; simpl; [by intros ?%not_elem_of_nil|].
    destruct (rfind_nat p [c]) as [n|].
    - destruct IH as (u & v & -> & Hv & ->). by exists (d :: u), v.
    - destruct (N.eqb_spec c d) as [->|Hn]; simpl; [by exists [], p|]. by apply not_elem_of_cons. }
  destruct (rfind_nat p [c]) as [n|]; [right | by left].
  destruct H as (u & v & -> & Hv & ->). by exists u, v.
Qed.

Lemma slice_at {A} (u v : list A) : slice_to (u ++ v) (len u) = u /\ slice_from (u ++ v) (len u) = v.
Proof.
  unfold slice_to, slice_from, bound, len. rewrite length_app.
  replace (Z.of_nat (length u) <? 0) with false by (symmetry; apply Z.ltb_ge; lia).
  rewrite Z.min_l by lia. by rewrite Nat2Z.id, take_app_length, drop_app_length.
Qed.

(** The two cases of [os.path.split]. *)
Lemma split_cases p :
  (ch "/" ∉ p /\ split p = ([], p)) \/
  exists u v, p = u ++ "/" ++ v /\ ch "/" ∉ v /\
    split p = (if all_slashes (u ++ "/") then u ++ "/" else rstrip_chars (u ++ "/") "/", v).
Proof.
  unfold split. destruct (rfind_char p (ch "/")) as [[H Hn]|(u & v & -> & Hv & H)];
    change (lit "/") with [ch "/"]; rewrite H.
  - left. split; [done|]. unfold slice_to, slice_from, bound, len. cbn. by destruct p.
  - right. exists u, v. split; [done|]. split; [done|].
    replace (u ++ ch "/" :: v) with ((u ++ [ch "/"]) ++ v) by (by rewrite <- app_assoc).
    replace (len u + 1) with (len (u ++ [ch "/"])) by (unfold len; rewrite length_app; simpl; lia).
    rewrite (proj1 (slice_at (u ++ [ch "/"]) v)), (proj2 (slice_at (u ++ [ch "/"]) v)).
    cbv zeta. replace (nonempty (u ++ [ch "/"])) with true by (by destruct u).
    by destruct (all_slashes (u ++ [ch "/"])).
Qed.

Lemma rstrip_shorter u : (length (rstrip_chars (u ++ "/") "/") <= length u)%nat.
Proof.
  unfold rstrip_chars. rewrite rev_app_distr. change (rev (lit "/") ++ rev u) with (ch "/" :: rev u).
  cbn [drop_while]. change (in_chars "/" (ch "/")) with true. cbv iota. rewrite length_rev, <- (length_rev u).
  generalize (rev u). intros s. induction s as [|c s IH]; cbn [drop_while length]; [lia|].
  destruct (in_chars "/" c); cbn [length]; lia.
Qed.

Lemma dirname_shorter p : dirname p = p \/ (length (dirname p) < length p)%nat.
Proof.
  unfold dirname. destruct (split_cases p) as [[_ ->]|(u & v & -> & _ & ->)]; cbn [fst].
  - destruct p; [by left | right; simpl; lia].
  - split_if.
    + destruct v as [|c v]; [by left | right]. unfold lit. len_lia.
    + right. pose proof (rstrip_shorter u). unfold lit in *. len_lia.
Qed.

(** ** The climbs end *)

Lemma find_repo_total fuel fullname repo d w :
  (length d < fuel)%nat -> exists r, find_repo fuel fullname repo d w = (Ok r, w).
Proof.
  revert d. induction fuel as [|fuel IH]; intros d Hd; [lia|]. cbn [find_repo].
  split_if; [by eexists|]. split_if; [by eexists|]. cbv zeta. split_if; [by eexists|].
  destruct (dirname_shorter d) as [E|E]; [rewrite E in *; by rewrite str_eqb_refl in * | apply IH; lia].
Qed.

Lemma checkout_top_total fuel root d w :
  (length d < fuel)%nat -> exists r, checkout_top fuel root d w = (Ok r, w).
Proof.
  revert root d. induction fuel as [|fuel IH]; intros root d Hd; [lia|]. cbn [checkout_top].
  split_if; [by eexists|].
  destruct (dirname_shorter d) as [E|E]; [rewrite E in *; by rewrite str_eqb_refl in * | apply IH; lia].
Qed.

(** Nothing is checked out at a directory that is its own parent. *)
Definition no_svn_root : Prop := forall d, dirname d = d -> has d ".svn" = false.

Lemma svn_top_total fuel root d w :
  no_svn_root -> (length d < fuel)%nat -> exists r, svn_top fuel root d w = (Ok r, w).
Proof.
  intros Hs. revert root d. induction fuel as [|fuel IH]; intros root d Hd; [lia|]. cbn [svn_top].
  destruct (has d ".svn") eqn:E; [|by eexists].
  destruct (dirname_shorter d) as [E'|E']; [apply Hs in E'; congruence | apply IH; lia].
Qed.

Lemma dirname_le p : (length (dirname p) <= length p)%nat.
Proof. destruct (dirname_shorter p) as [-> | ?]; lia. Qed.

Lemma RepositoryName_ok filename w : no_svn_root -> exists r, RepositoryName filename w = (Ok r, w).
Proof.
  intros Hs. unfold RepositoryName. cbv zeta. split_if; [|by eexists]. unfold bind at 1. cbn [get].
  pose proof (dirname_le (FullName filename)) as H1. pose proof (dirname_le (dirname (FullName filename))) as H2.
  set (full := FullName filename) in *. set (fuel := S (S (length full))).
  assert (Hn : exists r, match _repository w with
             | Some r => if nonempty r then find_repo fuel full (FullName r) (dirname full) else ret None
             | None => ret None end w = (Ok r, w)).
  { destruct (_repository w); [|by eexists]. split_if; [|by eexists]. apply find_repo_total. unfold fuel. lia. }
  destruct Hn as [r Hr]. unfold bind at 1. rewrite Hr. destruct r; [by eexists|]. split_if.
  - destruct (svn_top_total fuel (dirname full) (dirname (dirname full)) w Hs) as [r Ht]; [unfold fuel; lia|].
    unfold bind. rewrite Ht. by eexists.
  - destruct (checkout_top_total fuel (dirname full) (dirname full) w) as [r Ht]; [unfold fuel; lia|].
    unfold bind. rewrite Ht. by eexists.
Qed.

(** [RepositoryName] ends and returns a name, whatever the file system holds, as long as no Subversion directory sits
    in a directory that is its own parent; the state is not changed. *)
Theorem RepositoryName_total filename w (Hs : no_svn_root) : exists r, RepositoryName filename w = (Ok r, w).
Proof. by apply RepositoryName_ok. Qed.

(** The climb to the top of a Subversion checkout never ends once it reaches a directory that is its own parent and holds
    a Subversion directory: no number of rounds is enough. *)
Theorem svn_climb_diverges d root fuel w (Hd : dirname d = d) (Hs : has d ".svn" = true) :
  svn_top fuel root d w = (Raise OutOfFuel, w).
Proof. revert root. induction fuel as [|fuel IH]; intros root; cbn [svn_top]; [done|]. by rewrite Hs, Hd, IH. Qed.

(** ** Path components *)

Lemma path_split_total path lst fuel w :
  (length path < fuel)%nat -> exists r, path_split_loop fuel path lst w = (Ok r, w).
Proof.
  revert path lst. induction fuel as [|fuel IH]; intros path lst Hl; [lia|]. cbn [path_split_loop].
  pose proof (dirname_shorter path) as Hd. unfold dirname in Hd. destruct (split path) as [head tail]. cbn [fst] in Hd.
  split_if; [by eexists|]. split_if; [by eexists|].
  destruct Hd as [->|Hd]; [by rewrite str_eqb_refl in * | apply IH; lia].
Qed.

Lemma PathSplitToList_ok path w : exists r, PathSplitToList path w = (Ok r, w).
Proof. apply path_split_total. lia. Qed.

(** A path component: not empty, without a slash. *)
Definition component (c : str) : Prop := c <> [] /\ ch "/" ∉ c.

Lemma last_slash_unique (u v u' v' : str) :
  u ++ "/" ++ v = u' ++ "/" ++ v' -> ch "/" ∉ v -> ch "/" ∉ v' -> u = u' /\ v = v'.
Proof.
  intros H Hv Hv'. apply (f_equal (@rev N)) in H. rewrite !rev_app_distr in H. change (rev (lit "/")) with [ch "/"] in H.
  rewrite <- !app_assoc in H. cbn [app] in H.
  assert (Hr : ch "/" ∉ rev v /\ ch "/" ∉ rev v') by (split; rewrite list_elem_of_In, <- in_rev, <- list_elem_of_In; done).
  assert (rev v = rev v' /\ rev u = rev u') as [E1 E2].
  { destruct Hr as [H1 H2]. revert H H1 H2. generalize (rev v), (rev v'). intros a. induction a as [|x a IH]; intros [|y b] H H1 H2; simpl in *.
    - by injection H.
    - injection H as <- _. by apply not_elem_of_cons in H2 as [? _].
    - injection H as -> _. by apply not_elem_of_cons in H1 as [? _].
    - injection H as -> H. apply not_elem_of_cons in H1 as [_ H1], H2 as [_ H2]. destruct (IH b H H1 H2) as [-> ?]. done. }
  split; [rewrite <- (rev_involutive u), E2, rev_involutive | rewrite <- (rev_involutive v), E1, rev_involutive]; done.
Qed.

Lemma component_last c : component c -> exists a x, c = a ++ [x] /\ x <> ch "/".
Proof.
  intros [Hc Hs]. destruct (rev_case c) as [->|(a & x & ->)]; [done|]. exists a, x. split; [done|].
  intros ->. apply Hs, elem_of_app. right. left.
Qed.

Lemma join_last cs : cs <> [] -> Forall component cs -> exists a x, PyStr.join "/" cs = a ++ [x] /\ x <> ch "/".
Proof.
  intros Hn Hc. destruct (rev_case cs) as [->|(ds & d & ->)]; [done|]. apply Forall_app in Hc as [_ Hc].
  inversion Hc; subst. destruct (component_last d) as (a & x & -> & Hx); [done|].
  destruct ds as [|e ds]; [by exists a, x|]. rewrite join_snoc by done.
  exists (PyStr.join "/" (e :: ds) ++ "/" ++ a), x. by rewrite <- !app_assoc.
Qed.

Lemma rstrip_last a x : x <> ch "/" -> rstrip_chars ((a ++ [x]) ++ "/") "/" = a ++ [x].
Proof.
  intros Hx. unfold rstrip_chars. rewrite !rev_app_distr. change (rev (lit "/") ++ rev [x] ++ rev a) with (ch "/" :: x :: rev a).
  cbn [drop_while]. change (in_chars "/" (ch "/")) with true. cbv iota.
  replace (in_chars "/" x) with false.
  - cbn [rev]. by rewrite rev_involutive.
  - symmetry. unfold in_chars. simpl. rewrite orb_false_r. by apply N.eqb_neq.
Qed.

Lemma split_join cs c : cs <> [] -> Forall component cs -> component c -> split (PyStr.join "/" (cs ++ [c])) = (PyStr.join "/" cs, c).
Proof.
  intros Hn Hcs [Hc Hs]. rewrite join_snoc by done. destruct (join_last cs Hn Hcs) as (a & x & E & Hx).
  destruct (split_cases (PyStr.join "/" cs ++ "/" ++ c)) as [[H _]|(u & v & H & Hv & Hsp)].
  - exfalso. apply H, elem_of_app. right. left.
  - apply last_slash_unique in H as [<- <-]; [|done|done]. rewrite Hsp. rewrite E, rstrip_last by done.
    replace (all_slashes ((a ++ [x]) ++ "/")) with false; [done|]. symmetry. unfold all_slashes.
    rewrite !forallb_app. simpl. replace (slash =? x)%N with false by (symmetry; apply N.eqb_neq; intros <-; by apply Hx).
    by rewrite !andb_false_r.
Qed.

Lemma split_single c : component c -> split c = ([], c).
Proof.
  intros [Hc Hs]. destruct (split_cases c) as [[_ ->]|(u & v & -> & _)]; [done|].
  exfalso. apply Hs, elem_of_app. right. left.
Qed.

Lemma path_split_join cs lst fuel w :
  cs <> [] -> Forall component cs -> (length cs <= fuel)%nat ->
  path_split_loop fuel (PyStr.join "/" cs) lst w = (Ok (cs ++ lst), w).
Proof.
  revert lst fuel. induction cs as [|c cs IH] using rev_ind; intros lst fuel Hn Hc Hf; [done|].
  rewrite length_app in Hf. simpl in Hf. destruct fuel as [|fuel]; [lia|]. cbn [path_split_loop].
  apply Forall_app in Hc as [Hcs Hc]. inversion Hc as [|? ? Hc' _]; subst.
  destruct cs as [|d cs].
  - change (PyStr.join "/" ([] ++ [c])) with c. rewrite split_single by done. cbn [app].
    replace (str_eqb [] c) with false by (symmetry; apply bool_decide_eq_false_2; intros <-; by destruct Hc').
    by rewrite str_eqb_refl.
  - rewrite split_join by done. rewrite join_snoc by done. set (j := PyStr.join "/" (d :: cs)) in *.
    assert (Hne : forall s : str, (length s < length (j ++ "/" ++ c))%nat -> str_eqb s (j ++ "/" ++ c) = false).
    { intros s Hl. apply bool_decide_eq_false_2. intros ->. lia. }
    rewrite !Hne by (unfold lit; len_lia). unfold j. rewrite IH by (done || lia). by rewrite <- app_assoc.
Qed.

Lemma join_length cs : Forall component cs -> (length cs <= S (length (PyStr.join "/" cs)))%nat.
Proof.
  induction 1 as [|c cs [Hc _] Hcs IH]; [simpl; lia|]. destruct cs as [|d cs].
  - simpl. lia.
  - change (PyStr.join "/" (c :: d :: cs)) with (c ++ "/" ++ PyStr.join "/" (d :: cs)).
    set (j := PyStr.join "/" (d :: cs)) in *. rewrite !length_app. change (length (lit "/")) with 1%nat.
    destruct c; [done|]. cbn [length] in *. lia.
Qed.

Lemma PathSplitToList_join cs w :
  cs <> [] -> Forall component cs -> PathSplitToList (PyStr.join "/" cs) w = (Ok cs, w).
Proof.
  intros Hn Hc. unfold PathSplitToList. rewrite path_split_join; [by rewrite app_nil_r|done|done|by apply join_length].
Qed.

Lemma join2_component a b : a <> [] -> (exists a' x, a = a' ++ [x] /\ x <> ch "/") -> component b -> join2 a b = a ++ "/" ++ b.
Proof.
  intros Ha (a' & x & -> & Hx) [Hb Hs]. unfold join2.
  replace (startswith b "/") with false.
  - replace (nonempty (a' ++ [x])) with true by (by destruct a'). cbn [negb orb].
    replace (endswith (a' ++ [x]) "/") with false; [done|]. symmetry. unfold endswith. rewrite rev_app_distr. simpl.
    replace (47 =? x)%N with false; [done|]. symmetry. apply N.eqb_neq. intros <-. by apply Hx.
  - symmetry. destruct b as [|y b]; [done|]. simpl. replace (47 =? y)%N with false; [done|].
    symmetry. apply N.eqb_neq. intros <-. apply Hs. left.
Qed.

Lemma join_components a ps : Forall component (a :: ps) -> join a ps = PyStr.join "/" (a :: ps).
Proof.
  unfold join. induction ps as [|b ps IH] using rev_ind; intros H; [done|].
  rewrite fold_left_app. cbn [fold_left]. rewrite app_comm_cons in H. apply Forall_app in H as [H Hb]. inversion Hb; subst.
  rewrite IH by done. rewrite app_comm_cons, join_snoc by done. destruct (join_last (a :: ps) ltac:(done) H) as (x & y & E & Hy).
  apply join2_component; [rewrite E; by destruct x | eauto | done].
Qed.

(** C37. Splitting and joining paths are inverse: [PathSplitToList] ends on every path, and on a path made of components (not
    empty, without slashes) it returns them in order; joining them again gives the path. *)
Theorem PathSplitToList_roundtrip path cs w (Hn : cs <> []) (Hc : Forall component cs) :
  (exists l, PathSplitToList path w = (Ok l, w)) /\
  PathSplitToList (PyStr.join "/" cs) w = (Ok cs, w) /\
  joined (Some cs) = Some (PyStr.join "/" cs).
Proof.
  split; [apply PathSplitToList_ok|]. split; [by apply PathSplitToList_join|].
  destruct cs as [|a ps]; [done|]. simpl. by rewrite join_components.
Qed.

Lemma strip_app (r p : list str) : StripListPrefix (r ++ p) r = Some p.
Proof. unfold StripListPrefix. by rewrite take_app_length, bool_decide_eq_true_2, drop_app_length. Qed.

(** The root option removes the named directories from the path: when the repository path starts with the components of
    the root, the path used for the header guard is made of the components that follow. *)
Theorem FixupPathFromRoot_strips filename rs ps w
    (Hr : rs <> []) (Hp : ps <> []) (Hc : Forall component (rs ++ ps)) (Hw : _root w = Some (PyStr.join "/" rs)) :
  FixupPathFromRoot filename (PyStr.join "/" (rs ++ ps)) w = (Ok (PyStr.join "/" ps), w).
Proof.
  unfold FixupPathFromRoot, bind at 1. cbn [get]. rewrite Hw. apply Forall_app in Hc as Hc'. destruct Hc' as [Hcr Hcp].
  destruct (join_last rs Hr Hcr) as (a & x & E & _). destruct (PyStr.join "/" rs) as [|y s] eqn:Ej; [by destruct a|].
  rewrite <- Ej. unfold bind at 1. rewrite PathSplitToList_join by (done || by destruct rs).
  unfold bind at 1. rewrite PathSplitToList_join by done. rewrite strip_app.
  destruct ps as [|p ps]; [done|]. simpl. by rewrite join_components.
Qed.

(** ** Header guards *)

Definition guard_char (c : N) : bool := is_upper_ascii c || is_digit_ascii c || (c =? ch "_")%N.

Lemma FixupPathFromRoot_ok filename path w : exists r, FixupPathFromRoot filename path w = (Ok r, w).
Proof.
  unfold FixupPathFromRoot, bind at 1. cbn [get]. destruct (_root w) as [[|c root]|]; [by eexists| |by eexists].
  destruct (PathSplitToList_ok path w) as [l1 E1], (PathSplitToList_ok (c :: root) w) as [l2 E2],
    (PathSplitToList_ok (FullName filename) w) as [l3 E3], (PathSplitToList_ok (abspath (c :: root)) w) as [l4 E4].
  unfold bind. rewrite E1, E2. destruct (joined _); [by eexists|]. rewrite E3, E4. destruct (joined _); by eexists.
Qed.




(** What C++ takes as an identifier, of capital letters. *)
Definition identifier (s : str) : Prop :=
  match s with [] => False | c :: _ => is_digit_ascii c = false /\ Forall (fun c => guard_char c = true) s end.



(** ** Triples *)

Section PathsRuns.
Context (I : world -> Prop) (X : exn -> Prop) (Hsvn : no_svn_root).

Lemma RepositoryName_runs filename : runs I X (RepositoryName filename) (fun _ => True).
Proof. apply runs_total. intros w. destruct (RepositoryName_ok filename w Hsvn) as [r Hr]. eauto. Qed.

Lemma Split_runs filename : runs I X (Split filename) (fun _ => True).
Proof. pose proof RepositoryName_runs. unfold Split. runs_walk. Qed.

Lemma BaseName_runs filename : runs I X (BaseName filename) (fun _ => True).
Proof. pose proof Split_runs. unfold BaseName. runs_walk. Qed.

Lemma Extension_runs filename : runs I X (Extension filename) (fun _ => True).
Proof. pose proof Split_runs. unfold Extension. runs_walk. Qed.

Lemma GetHeaderGuardCPPVariable_runs filename : runs I X (GetHeaderGuardCPPVariable filename) (fun _ => True).
Proof.
  assert (Hf : forall f p, runs I X (FixupPathFromRoot f p) (fun _ => True)).
  { intros f p. apply runs_total. intros w. destruct (FixupPathFromRoot_ok f p w) as [r Hr]. eauto. }
  pose proof RepositoryName_runs. unfold GetHeaderGuardCPPVariable. runs_walk.
Qed.
End PathsRuns.

End Paths.

#[export] Hint Resolve RepositoryName_runs BaseName_runs Extension_runs GetHeaderGuardCPPVariable_runs : runs.

(** ** Witnesses *)

(** Every header exists, every directory holds a git checkout. *)
Definition git_fs : FileSystem := {| exists_ := fun p => endswith p ".h" || endswith p ".git"; getcwd := "/home/u" |}.
(** Every path exists. *)
Definition full_fs : FileSystem := {| exists_ := fun _ => true; getcwd := "/" |}.

Lemma git_fs_no_svn : no_svn_root (FS := git_fs).
Proof.
  intros d _. unfold has, OsPath.join2. cbn [startswith lit]. change (startswith ".svn" "/") with false. cbv iota.
  assert (H : forall x : str, exists_ (FileSystem := git_fs) (x ++ ".svn") = false).
  { intros x. simpl. unfold endswith. rewrite rev_app_distr. done. }
  destruct (negb (nonempty d) || endswith d "/"); [apply H|]. rewrite app_assoc. apply H.
Qed.

Lemma RepositoryName_total_witness : exists r, RepositoryName (FS := git_fs) "src/a.h" world_init = (Ok r, world_init).
Proof. exact (RepositoryName_total (FS := git_fs) "src/a.h" world_init git_fs_no_svn). Defined.

Lemma svn_climb_diverges_witness :
  svn_top (FS := full_fs) 1000 "/a" "/" world_init = (Raise OutOfFuel, world_init).
Proof. exact (svn_climb_diverges (FS := full_fs) "/" "/a" 1000 world_init eq_refl eq_refl). Defined.

Lemma PathSplitToList_roundtrip_witness :
  PathSplitToList "src/base/a.h" world_init = (Ok (lits ["src"; "base"; "a.h"]), world_init).
Proof.
  assert (Hc : Forall component (lits ["src"; "base"; "a.h"])).
  { repeat constructor; try discriminate; vm_compute; set_solver. }
  exact (proj1 (proj2 (PathSplitToList_roundtrip [] (lits ["src"; "base"; "a.h"]) world_init ltac:(discriminate) Hc))).
Defined.

Lemma FixupPathFromRoot_strips_witness :
  FixupPathFromRoot (FS := git_fs) "x" "src/base/a.h" (with_root (Some (lit "src")) world_init) =
  (Ok (lit "base/a.h"), with_root (Some (lit "src")) world_init).
Proof.
  assert (Hc : Forall component (lits ["src"] ++ lits ["base"; "a.h"])).
  { repeat constructor; try discriminate; vm_compute; set_solver. }
  exact (FixupPathFromRoot_strips (FS := git_fs) "x" (lits ["src"]) (lits ["base"; "a.h"])
    (with_root (Some (lit "src")) world_init) ltac:(discriminate) ltac:(discriminate) Hc eq_refl).
Defined.


(** A file whose name begins with a digit, at the root of a checkout, has a guard that is no identifier. *)
Example guard_begins_with_digit :
  GetHeaderGuardCPPVariable (U := ascii_db)
    (FS := {| exists_ := fun p => str_eqb p "/r/.git" || str_eqb p "/r/2pl.h"; getcwd := "/r" |}) "/r/2pl.h" world_init = (Ok (lit "2PL_H_"), world_init) /\ ~ identifier "2PL_H_".
Proof. split; [vm_compute; reflexivity|]. by intros [H _]. Qed.
