(* ===== verification/FileChecks.v ===== *)
(** * Checks of a whole file and of single lines

    Models the check functions of cpplint.py from [CheckForCopyright] to [IsForwardClassDeclaration].  The [error] argument
    is a parameter, as in the source. *)

From S2P Require Import Prelude PyStr PyRe PyEff Tables Regexps Lint Cleanse Expr Includes Paths.

Local Open Scope Z_scope.

Section FileChecks.
Context {U : UnicodeDB} {FS : FileSystem}.

(** [enumerate(l)] *)
Fixpoint enumerate_from {A} (i : Z) (l : list A) : list (Z * A) :=
  match l with [] => [] | x :: l' => (i, x) :: enumerate_from (i + 1) l' end.
Definition enumerate {A} (l : list A) : list (Z * A) := enumerate_from 0 l.

(** ** Copyright *)

Definition CheckForCopyright (filename : str) (lines : list str) (error : error_fn) : P unit :=
  if existsb (fun line => is_some (SearchI "Copyright" line)) (slice lines 1 (Z.min (len lines) 11)) then ret tt
  else error filename (Some 0) "legal/copyright" 5
         ("No copyright message found.  " ++ "You should have a line: `Copyright [year] <Copyright Owner>`").

Definition GetIndentLevel (line : str) : Z :=
  match Match "^( *)\S" line with Some indent => len (group_str indent 1) | None => 0 end.

(** ** Header guards *)

(** What the scan over the lines finds: the arguments of the first [#ifndef] and [#define], the last [#endif]. *)
Record guard := Guard { g_ifndef : str; g_ifndef_linenum : Z; g_define : str; g_endif : str; g_endif_linenum : Z }.

Definition guard_step (g : guard) (l : Z * str) : guard :=
  let '(linenum, line) := l in
  let g :=
    match split_ws line with
    | a :: b :: _ =>
        let g := if negb (nonempty (g_ifndef g)) && str_eqb a "#ifndef"
                 then Guard b linenum (g_define g) (g_endif g) (g_endif_linenum g) else g in
        if negb (nonempty (g_define g)) && str_eqb a "#define"
        then Guard (g_ifndef g) (g_ifndef_linenum g) b (g_endif g) (g_endif_linenum g) else g
    | _ => g
    end in
  if startswith line "#endif"
  then Guard (g_ifndef g) (g_ifndef_linenum g) (g_define g) line linenum else g.

Definition find_guard (raw_lines : list str) : guard :=
  fold_left guard_step (enumerate raw_lines) (Guard [] 0 [] [] 0).

Definition _RE_LINE_COMMENT : str := "^(?:(?:\'(?:\.|[^\'])*\')|(?:`(?:\.|[^`])*`)|[^\'`])*//".

Definition CheckForHeaderGuard (filename : str) (clean_lines : CleansedLines) (error : error_fn) : P unit :=
  let raw_lines := lines_without_raw_strings clean_lines in
  if existsb (SearchB "//\s*NOLINT\(build/header_guard\)") raw_lines then ret tt
  else if existsb (SearchB "^\s*#pragma\s+once") raw_lines then ret tt
  else
    cppvar <- GetHeaderGuardCPPVariable filename;;
    let g := find_guard raw_lines in
    if negb (nonempty (g_ifndef g)) || negb (nonempty (g_define g)) || negb (str_eqb (g_ifndef g) (g_define g)) then
      error filename (Some 0) "build/header_guard" 5
        ("No #ifndef header guard found, suggested CPP variable is: " ++ cppvar)
    else
      when (negb (str_eqb (g_ifndef g) cppvar))
        (let error_level := if negb (str_eqb (g_ifndef g) (cppvar ++ "_")) then 5 else 0 in
         line <- or_raise IndexError (index raw_lines (g_ifndef_linenum g));;
         ParseNolintSuppressions filename line (g_ifndef_linenum g) error;;
         error filename (Some (g_ifndef_linenum g)) "build/header_guard" error_level
           ("#ifndef header guard has wrong style, please use: " ++ cppvar));;
      line <- or_raise IndexError (index raw_lines (g_endif_linenum g));;
      ParseNolintSuppressions filename line (g_endif_linenum g) error;;
      match Match ("#endif\s*//\s*" ++ cppvar ++ "(_)?\b") (g_endif g) with
      | Some m =>
          when (str_eqb (group_str m 1) "_")
            (error filename (Some (g_endif_linenum g)) "build/header_guard" 0
               ("#endif line should be `#endif  // " ++ cppvar ++ "`"))
      | None =>
          let no_single_line_comments :=
            negb (existsb (MatchB _RE_LINE_COMMENT) (slice raw_lines 1 (Z.max 1 (len raw_lines - 1)))) in
          match (if no_single_line_comments
                 then Match ("#endif\s*/\*\s*" ++ cppvar ++ "(_)?\s*\*/") (g_endif g) else None) with
          | Some m =>
              when (str_eqb (group_str m 1) "_")
                (error filename (Some (g_endif_linenum g)) "build/header_guard" 0
                   ("#endif line should be `#endif  /* " ++ cppvar ++ " */`"))
          | None =>
              error filename (Some (g_endif_linenum g)) "build/header_guard" 5
                ("#endif line should be `#endif  // " ++ cppvar ++ "`")
          end
      end.

(** ** The header of a source file *)

Definition _TEST_FILE_SUFFIX : str := "(" ++ join "|" _test_suffixes ++ ")$".

(** The search through the includes: [None] when the header is among them, else the line of the first include. *)
Fixpoint first_or_included (headername : str) (fs : list (str * Z)) (first_include : lineno) : option lineno :=
  match fs with
  | [] => Some first_include
  | f :: fs' =>
      if contains headername (fst f) || contains (fst f) headername then None
      else first_or_included headername fs'
             (match first_include with
              | Some n => if n =? 0 then Some (snd f) else first_include
              | None => Some (snd f)
              end)
  end.

Fixpoint header_loop (filename : str) (include_state : _IncludeState) (error : error_fn) (exts : list str) : P unit :=
  match exts with
  | [] => ret tt
  | ext :: exts' =>
      extension <- Extension filename;;
      let basefilename := slice filename 0 (len filename - len extension) in
      let headerfile := basefilename ++ "." ++ ext in
      if negb (exists_ headerfile) then header_loop filename include_state error exts'
      else
        headername <- RepositoryName headerfile;;
        match first_or_included headername (concat (include_list include_state)) None with
        | None => ret tt
        | Some first_include =>
            name <- RepositoryName filename;;
            error filename first_include "build/include" 5
              (name ++ " should include its header file " ++ headername);;
            header_loop filename include_state error exts'
        end
  end.

(** The extensions are a Python set; here they come in the order of [elements]. *)
Definition CheckHeaderFileIncluded (filename : str) (include_state : _IncludeState) (error : error_fn) : P unit :=
  base <- BaseName filename;;
  if SearchB _TEST_FILE_SUFFIX base then ret tt
  else exts <- GetHeaderExtensions;; header_loop filename include_state error (elements exts).

(** ** Characters and newlines *)

Definition replacement_char : N := 65533.

Definition CheckForBadCharacters (filename : str) (lines : list str) (error : error_fn) : P unit :=
  for_each (enumerate lines) (fun '(linenum, line) =>
    when (contains [replacement_char] line)
      (error filename (Some linenum) "readability/utf8" 5
         "Line contains invalid UTF-8 (or Unicode replacement character).");;
    when (contains [c_nul] line)
      (error filename (Some linenum) "readability/nul" 5 "Line contains NUL byte.")).

Definition CheckForNewlineAtEOF (filename : str) (lines : list str) (error : error_fn) : P unit :=
  let missing := error filename (Some (len lines - 2)) "whitespace/ending_newline" 5
                   "Could not find a newline character at the end of the file." in
  if len lines <? 3 then missing
  else l <- or_raise IndexError (index lines (-2));; when (nonempty l) missing.

Definition CheckForMultilineCommentsAndStrings (filename : str) (clean_lines : CleansedLines) (linenum : Z)
    (error : error_fn) : P unit :=
  line <- or_raise IndexError (index (elided clean_lines) linenum);;
  let line := replace line "\\" [] in
  when (count line "*/" <? count line "/*")
    (error filename (Some linenum) "readability/multiline_comment" 5
       ("Complex multi-line /*...*/-style comment found. " ++ "Lint may give bogus warnings.  "
        ++ "Consider replacing these with //-style comments, " ++ "with #if 0...#endif, "
        ++ "or with more clearly structured multi-line comments."));;
  when (negb ((count line "`" - count line "\`") mod 2 =? 0))
    (error filename (Some linenum) "readability/multiline_string" 5
       ("Multi-line string (`...`) found.  This lint script doesn't "
        ++ "do well with such strings, and may give bogus warnings.  "
        ++ "Use C++11 raw strings or concatenation instead.")).

(** ** Single lines *)

Definition _UNSAFE_FUNC_PREFIX : str := "(?:[-+*/=%^&|(<]\s*|>\s+)".
Definition _THREADING_LIST : list (str * str * str) :=
  map (fun '(a, b, c) => (lit a, lit b, _UNSAFE_FUNC_PREFIX ++ lit c)) [
    ("asctime(", "asctime_r(", "asctime\([^)]+\)");
    ("ctime(", "ctime_r(", "ctime\([^)]+\)");
    ("getgrgid(", "getgrgid_r(", "getgrgid\([^)]+\)");
    ("getgrnam(", "getgrnam_r(", "getgrnam\([^)]+\)");
    ("getlogin(", "getlogin_r(", "getlogin\(\)");
    ("getpwnam(", "getpwnam_r(", "getpwnam\([^)]+\)");
    ("getpwuid(", "getpwuid_r(", "getpwuid\([^)]+\)");
    ("gmtime(", "gmtime_r(", "gmtime\([^)]+\)");
    ("localtime(", "localtime_r(", "localtime\([^)]+\)");
    ("rand(", "rand_r(", "rand\(\)");
    ("strtok(", "strtok_r(", "strtok\([^)]+\)");
    ("ttyname(", "ttyname_r(", "ttyname\([^)]+\)")
  ].

Definition CheckPosixThreading (filename : str) (clean_lines : CleansedLines) (linenum : Z) (error : error_fn) : P unit :=
  line <- or_raise IndexError (index (elided clean_lines) linenum);;
  for_each _THREADING_LIST (fun '(single_thread_func, multithread_safe_func, pattern) =>
    when (SearchB pattern line)
      (error filename (Some linenum) "runtime/threadsafe_fn" 2
         ("Consider using " ++ multithread_safe_func ++ "...) instead of " ++ single_thread_func
          ++ "...) for improved thread safety."))).

Definition CheckVlogArguments (filename : str) (clean_lines : CleansedLines) (linenum : Z) (error : error_fn) : P unit :=
  line <- or_raise IndexError (index (elided clean_lines) linenum);;
  when (SearchB "\bVLOG\((INFO|ERROR|WARNING|DFATAL|FATAL)\)" line)
    (error filename (Some linenum) "runtime/vlog" 5
       ("VLOG() should be used with numeric verbosity level.  "
        ++ "Use LOG() if you want symbolic severity levels.")).

Definition _RE_PATTERN_INVALID_INCREMENT : str := "^\s*\*\w+(\+\+|--);".

Definition CheckInvalidIncrement (filename : str) (clean_lines : CleansedLines) (linenum : Z) (error : error_fn) : P unit :=
  line <- or_raise IndexError (index (elided clean_lines) linenum);;
  when (MatchB _RE_PATTERN_INVALID_INCREMENT line)
    (error filename (Some linenum) "runtime/invalid_increment" 5
       "Changing pointer instead of value (or unused value of operator*).").

(** Here [clean_lines] is a list of lines. *)
Definition IsMacroDefinition (clean_lines : list str) (linenum : Z) : P bool :=
  line <- or_raise IndexError (index clean_lines linenum);;
  if SearchB "^#define" line then ret true
  else if 0 <? linenum then
    prev <- or_raise IndexError (index clean_lines (linenum - 1));;
    ret (SearchB "\\$" prev)
  else ret false.

Definition IsForwardClassDeclaration (clean_lines : list str) (linenum : Z) : P (option match_obj) :=
  line <- or_raise IndexError (index clean_lines linenum);;
  ret (Match "^\s*(\btemplate\b)*.*class\s+\w+;\s*$" line).

(** ** Newline at the end of the file *)

(** The lines of a file as the checks receive them, between two markers. *)
Definition marked (lines : list str) : list str :=
  [lit "// marker so line numbers and indices both start at 1"] ++ lines ++ [lit "// marker so line numbers end in a known way"].

Lemma len_marked ls : len (marked ls) = len ls + 2.
Proof. unfold marked, len. rewrite !length_app. cbn [length]. lia. Qed.

(** The text of a file, split at newlines. *)
Definition file_lines (text : str) : list str := marked (split text nl).

Lemma split_last acc t :
  exists l, last (split_skip nl 0 acc t) = Some l /\ (l = [] <-> (t = [] /\ acc = []) \/ exists u, t = u ++ nl).
Proof.
  revert acc. induction t as [|c t IH]; intros acc; cbn [split_skip].
  - exists (rev acc). split; [done|]. split.
    + intros H. left. split; [done|]. apply (f_equal (@rev N)) in H. by rewrite rev_involutive in H.
    + intros [[_ ->]|[u Hu]]; [done | by destruct u].
  - unfold startswith at 1. cbn [nl]. destruct (N.eqb_spec c_nl c) as [<-|Hc]; cbn [andb].
    + destruct (IH []) as (l & Hl & Hi). exists l. cbn [length pred]. split.
      { change (Init.Nat.pred (length nl)) with 0%nat. destruct (split_skip nl 0 [] t); [done | exact Hl]. }
      rewrite Hi. split.
      * intros [[-> _]|[u ->]]; right; [by exists [] | by exists (c_nl :: u)].
      * intros [[? _]|[u Hu]]; [done|]. destruct u as [|d u]; [by injection Hu as ->; left|].
        injection Hu as _ Hu. right. by exists u.
    + destruct (IH (c :: acc)) as (l & Hl & Hi). exists l. split; [done|]. rewrite Hi. split.
      * intros [[_ ?]|[u ->]]; [done | right; by exists (c :: u)].
      * intros [[? _]|[u Hu]]; [done|]. destruct u as [|d u]; [by injection Hu as -> ->|].
        injection Hu as _ Hu. right. by exists u.
Qed.

Lemma split_nonempty t : split t nl <> [].
Proof. unfold split. destruct (split_last [] t) as (l & Hl & _). intros E. by rewrite E in Hl. Qed.

Lemma index_last_but_one {A} (a b : A) (l : list A) x : last l = Some x -> index (a :: l ++ [b]) (-2) = Some x.
Proof.
  intros H. destruct (rev_case l) as [->|(l' & y & ->)]; [done|]. rewrite last_snoc in H. injection H as ->.
  unfold index, len. cbn [Z.ltb Z.compare]. cbn [length]. rewrite !length_app. cbn [length].
  replace (-2 + Z.of_nat (S (length l' + 1 + 1))) with (Z.of_nat (S (length l'))) by lia.
  replace (Z.of_nat (S (length l')) <? 0) with false by (symmetry; apply Z.ltb_ge; lia).
  rewrite Nat2Z.id. cbn [lookup]. change ((a :: (l' ++ [x]) ++ [b]) !! S (length l')) with (((l' ++ [x]) ++ [b]) !! length l').
  rewrite <- app_assoc. by apply list_lookup_middle.
Qed.

(** [CheckForNewlineAtEOF] on the lines of a file reports exactly when the text of the file is not empty and does not end
    in a newline; it then reports once, with the number of the last line of the file. *)
Theorem CheckForNewlineAtEOF_spec filename text (error : error_fn) w :
  CheckForNewlineAtEOF filename (file_lines text) error w =
  if nonempty text && negb (endswith text nl)
  then error filename (Some (len (split text nl))) "whitespace/ending_newline" 5
         "Could not find a newline character at the end of the file." w
  else (Ok tt, w).
Proof.
  unfold CheckForNewlineAtEOF, file_lines. rewrite len_marked. unfold marked. assert (1 <= len (split text nl)).
  { pose proof (split_nonempty text). unfold len. destruct (split text nl); [done | simpl; lia]. }
  rewrite (proj2 (Z.ltb_ge _ _)) by lia. cbv zeta. replace (len (split text nl) + 2 - 2) with (len (split text nl)) by lia.
  destruct (split_last [] text) as (l & Hl & Hi). fold (split text nl) in Hl.
  cbn [app]. rewrite (index_last_but_one _ _ _ l) by done. unfold bind. cbn [or_raise]. unfold ret, when.
  assert (Hn : nonempty l = nonempty text && negb (endswith text nl)); [|rewrite <- Hn; by destruct (nonempty l)].
  destruct (endswith text nl) eqn:E.
  - apply endswith_iff in E. rewrite andb_false_r. destruct l; [done|]. exfalso. assert (n :: l = []) by (apply Hi; by right). done.
  - rewrite andb_true_r. destruct text as [|c text]; cbn [nonempty].
    + destruct l; [done|]. exfalso. assert (n :: l = []) by (apply Hi; by left). done.
    + destruct l; [|done]. exfalso. destruct (proj1 Hi eq_refl) as [[? _]|H']; [done|].
      apply endswith_iff in H'. congruence.
Qed.

(** ** Strings that extend past a line *)

(** [CheckForMultilineCommentsAndStrings] reports a string exactly when the number of double quotes of the line that no
    backslash escapes is odd, as counted by one pass over the line; and it reports a comment exactly when more comments are opened
    than closed.  With an error function that ends normally it always ends normally. *)
Theorem CheckForMultilineCommentsAndStrings_spec filename c linenum (error : error_fn) line w
    (Hl : index (elided c) linenum = Some line) :
  CheckForMultilineCommentsAndStrings filename c linenum error w =
  ((when (count (replace line "\\" []) "*/" <? count (replace line "\\" []) "/*")
     (error filename (Some linenum) "readability/multiline_comment" 5
       ("Complex multi-line /*...*/-style comment found. " ++ "Lint may give bogus warnings.  "
        ++ "Consider replacing these with //-style comments, " ++ "with #if 0...#endif, "
        ++ "or with more clearly structured multi-line comments.")));;
   when (Nat.odd (open_quotes false line))
     (error filename (Some linenum) "readability/multiline_string" 5
       ("Multi-line string (`...`) found.  This lint script doesn't "
        ++ "do well with such strings, and may give bogus warnings.  "
        ++ "Use C++11 raw strings or concatenation instead."))) w.
Proof.
  unfold CheckForMultilineCommentsAndStrings. rewrite Hl. unfold bind at 1. cbn [or_raise]. unfold ret at 1. cbv zeta.
  assert (Hq : negb ((count (replace line "\\" []) "`" - count (replace line "\\" []) "\`") mod 2 =? 0) =
               Nat.odd (open_quotes false line)); [|by rewrite Hq].
  unfold count, replace. rewrite (escaped_pairs [] line) by auto.
  replace (Z.of_nat (open_quotes false line + _) - _) with (Z.of_nat (open_quotes false line)) by lia.
  rewrite <- Nat.negb_even. f_equal. apply eq_bool_prop_intro. rewrite !Is_true_true, Z.eqb_eq, Nat.even_spec.
  destruct (Nat.Even_or_Odd (open_quotes false line)) as [[k ->]|[k ->]]; split; try done;
    [intros _; by exists k | intros _ | intros H | intros [j Hj]; lia]; Z.to_euclidean_division_equations; lia.
Qed.

(** ** Indentation *)

Lemma spaces_then (n : nat) (c : N) (r : str) :
  is_space c = false ->
  exists m, Match "^( *)\S" (replicate n (ch " ") ++ c :: r) = Some m /\ group_str m 1 = replicate n (ch " ").
Proof.
  intros Hc. assert (HM : MatchB "^( *)\S" (replicate n (ch " ") ++ c :: r) = true).
  { eapply MatchB_iff; [vm_compute; reflexivity | done|]. cbn [rx_re rx_flags]. rewrite state_at_0.
    eexists _, _. split; [by split|]. eexists. split.
    { eexists. split; [|reflexivity]. eexists. split; [|reflexivity]. eapply sem_star; [reflexivity|].
      clear. by induction n. }
    eexists. split; [|reflexivity]. eapply sem_one; [reflexivity|]. unfold set_has, item_has. simpl. by rewrite Hc. }
  unfold MatchB in HM. destruct (Match _ _) as [m|] eqn:E; [|done]. exists m. split; [done|].
  eapply Match_sound in E as (st & Hs & ->); [|vm_compute; reflexivity|done].
  sem_parts. sem_words. eapply spells_class in Hsem2; [|reflexivity].
  eapply spells_one in Hsem1 as (d & -> & Hd); [|reflexivity].
  assert (w0 = replicate n (ch " ")) as ->; [|group_is].
  clear -E0 Hsem2 Hd Hc. revert w0 E0 Hsem2. unfold set_has, item_has in Hd. simpl in Hd. rewrite orb_false_r in Hd.
  apply negb_true_iff in Hd.
  induction n as [|n IH]; intros [|e w0] E Hw; simpl in *.
  - done.
  - injection E as -> E. apply andb_true_iff in Hw as [->%N.eqb_eq _]. done.
  - injection E as <- E. done.
  - injection E as <- E. f_equal. apply IH; [done|]. by apply andb_true_iff in Hw as [_ ?].
Qed.

Lemma indent_none (n : nat) (r : str) :
  match r with c :: _ => is_space c = true /\ c <> ch " " | [] => True end ->
  Match "^( *)\S" (replicate n (ch " ") ++ r) = None.
Proof.
  intros Hr. destruct (Match _ _) as [m|] eqn:E; [exfalso|done].
  eapply Match_sound in E as (st & Hs & ->); [|vm_compute; reflexivity|done].
  sem_parts. sem_words. eapply spells_class in Hsem2; [|reflexivity].
  eapply spells_one in Hsem1 as (d & -> & Hd); [|reflexivity].
  unfold set_has, item_has in Hd. simpl in Hd. rewrite orb_false_r in Hd. apply negb_true_iff in Hd.
  clear -E0 Hsem2 Hd Hr. revert w0 E0 Hsem2.
  induction n as [|n IH]; intros [|e w0] E Hw; simpl in *.
  - subst r. destruct Hr. congruence.
  - subst r. apply andb_true_iff in Hw as [He%N.eqb_eq _]. destruct Hr as [_ Hr]. done.
  - by injection E as <- E.
  - injection E as <- E. apply (IH w0); [done|]. by apply andb_true_iff in Hw as [_ ?].
Qed.

(** [GetIndentLevel] counts the leading spaces of a line whose first other character is not white space; for a line of
    spaces only, and for spaces followed by other white space, it returns 0. *)
Theorem GetIndentLevel_spec (n : nat) (r : str) (Hr : head r <> Some (ch " ")) :
  GetIndentLevel (replicate n (ch " ") ++ r) =
  match r with c :: _ => if is_space c then 0 else Z.of_nat n | [] => 0 end.
Proof.
  unfold GetIndentLevel. destruct r as [|c r].
  - by rewrite indent_none.
  - destruct (is_space c) eqn:Ec.
    + rewrite indent_none; [done|]. split; [done|]. intros ->. by apply Hr.
    + destruct (spaces_then n c r Ec) as (m & -> & ->). unfold len. by rewrite length_replicate.
Qed.

(** ** What the header guard scan finds *)

(** The argument of a preprocessor directive. *)
Definition directive_arg (d line : str) : option str :=
  match split_ws line with a :: b :: _ => if str_eqb a d then Some b else None | _ => None end.

Definition first_arg (d : str) (ls : list str) : str := default [] (head (omap (directive_arg d) ls)).
Definition last_endif (ls : list str) : str := default [] (last (List.filter (fun l => startswith l "#endif") ls)).

Lemma split_ws_nonempty acc s : Forall (fun t => t <> []) (split_ws_acc acc s).
Proof.
  revert acc. induction s as [|c s IH]; intros acc; cbn [split_ws_acc].
  - destruct acc as [|a acc]; cbn [nonempty]; constructor; [|constructor]. simpl. by destruct (rev acc).
  - destruct (is_space c); [|apply IH]. apply Forall_app. split; [|apply IH].
    destruct acc as [|a acc]; cbn [nonempty]; constructor; [|constructor]. simpl. by destruct (rev acc).
Qed.

Lemma directive_arg_nonempty d line b : directive_arg d line = Some b -> b <> [].
Proof.
  unfold directive_arg. pose proof (split_ws_nonempty [] line) as H. fold (split_ws line) in H.
  destruct (split_ws line) as [|x [|y l]]; try done. split_if; [|done]. intros [= <-]. by inversion H as [|? ? _ H2]; inversion H2.
Qed.

(** One step, for each of the three things looked for. *)
Lemma guard_step_fields g i line :
  let g' := guard_step g (i, line) in
  g_ifndef g' = (if nonempty (g_ifndef g) then g_ifndef g else default [] (directive_arg "#ifndef" line)) /\
  g_define g' = (if nonempty (g_define g) then g_define g else default [] (directive_arg "#define" line)) /\
  g_endif g' = (if startswith line "#endif" then line else g_endif g) /\
  g_endif_linenum g' = (if startswith line "#endif" then i else g_endif_linenum g).
Proof.
  unfold guard_step, directive_arg. cbv zeta.
  destruct g as [gi gn gd ge gl]. cbn [g_ifndef g_define g_endif g_endif_linenum g_ifndef_linenum].
  destruct (split_ws line) as [|a [|b l]]; cbn [g_ifndef g_define g_endif g_endif_linenum g_ifndef_linenum];
    destruct gi, gd, (startswith line "#endif"); cbn; try done;
    destruct (str_eqb a "#ifndef"), (str_eqb a "#define"); done.
Qed.

Lemma enumerate_cons {A} i (x : A) l : enumerate_from i (x :: l) = (i, x) :: enumerate_from (i + 1) l.
Proof. done. Qed.

Lemma find_guard_from g i ls :
  let g' := fold_left guard_step (enumerate_from i ls) g in
  g_ifndef g' = (if nonempty (g_ifndef g) then g_ifndef g else first_arg "#ifndef" ls) /\
  g_define g' = (if nonempty (g_define g) then g_define g else first_arg "#define" ls) /\
  g_endif g' = default (g_endif g) (last (List.filter (fun l => startswith l "#endif") ls)).
Proof.
  revert g i. induction ls as [|line ls IH]; intros g i; cbv zeta.
  - cbn. destruct (g_ifndef g), (g_define g); done.
  - rewrite enumerate_cons. cbn [fold_left]. destruct (guard_step_fields g i line) as (H1 & H2 & H3 & _).
    destruct (IH (guard_step g (i, line)) (i + 1)) as (-> & -> & ->). rewrite H1, H2, H3.
    assert (Hfirst : forall d, first_arg d (line :: ls) =
      if nonempty (default [] (directive_arg d line)) then default [] (directive_arg d line) else first_arg d ls).
    { intros d. unfold first_arg. cbn [omap list_omap]. destruct (directive_arg d line) as [b|] eqn:E; [|done].
      apply directive_arg_nonempty in E. by destruct b. }
    rewrite !Hfirst. split; [by destruct (g_ifndef g)|]. split; [by destruct (g_define g)|].
    cbn [List.filter]. destruct (startswith line "#endif"); [|done].
    destruct (List.filter _ ls) as [|x l]; [done|]. change (last (line :: x :: l)) with (last (x :: l)).
    destruct (last (x :: l)) eqn:E; [done|]. by apply last_None in E.
Qed.

Definition header_guard_exempt (ls : list str) : bool :=
  existsb (SearchB "//\s*NOLINT\(build/header_guard\)") ls || existsb (SearchB "^\s*#pragma\s+once") ls.

(** C39. Header guards: a file with the suppression comment or [#pragma once] is not looked at; otherwise, when the argument of its
    first [#ifndef] or of its first [#define] is missing, or the two differ, exactly one error is reported, at line 0, naming the
    variable that [GetHeaderGuardCPPVariable] computes. *)
Theorem CheckForHeaderGuard_missing filename c (error : error_fn) v w
    (Hv : GetHeaderGuardCPPVariable filename w = (Ok v, w)) :
  let ls := lines_without_raw_strings c in
  (header_guard_exempt ls = true -> CheckForHeaderGuard filename c error w = (Ok tt, w)) /\
  (header_guard_exempt ls = false ->
   first_arg "#ifndef" ls = [] \/ first_arg "#define" ls = [] \/ first_arg "#ifndef" ls <> first_arg "#define" ls ->
   CheckForHeaderGuard filename c error w =
   error filename (Some 0) "build/header_guard" 5
     ("No #ifndef header guard found, suggested CPP variable is: " ++ v) w).
Proof.
  cbv zeta. unfold header_guard_exempt, CheckForHeaderGuard. cbv zeta.
  destruct (existsb _ _); [by split|]. cbn [orb]. destruct (existsb _ _); [by split|]. split; [done|]. intros _ H.
  unfold bind at 1. rewrite Hv. destruct (find_guard_from (Guard [] 0 [] [] 0) 0 (lines_without_raw_strings c)) as (H1 & H2 & _).
  fold (enumerate (lines_without_raw_strings c)) (find_guard (lines_without_raw_strings c)) in H1, H2.
  unfold enumerate, find_guard in *. rewrite H1, H2. cbn [g_ifndef g_define nonempty].
  replace (negb (nonempty _) || negb (nonempty _) || negb (str_eqb _ _)) with true; [done|]. symmetry.
  destruct H as [-> | [-> | H]]; [done | by rewrite orb_true_r |].
  unfold str_eqb. by rewrite bool_decide_eq_false_2, orb_true_r.
Qed.

(** ** Triples *)

Section FileChecksRuns.
Context (N : Z) (filename : str) (I : world -> Prop) (X : exn -> Prop) (error : error_fn) {R : Reporter N filename I X error}.

Lemma elem_of_enumerate {A} (l : list A) i x : (i, x) ∈ enumerate l -> 0 <= i < len l.
Proof.
  assert (H : forall j, (i, x) ∈ enumerate_from j l -> j <= i < j + len l); [|intros Hx; specialize (H 0 Hx); lia].
  unfold len. induction l as [|y l IH]; intros j; [by intros ?%not_elem_of_nil|]. simpl.
  intros [[= -> _]|Hx%IH]%elem_of_cons; lia.
Qed.

Lemma find_guard_in ls :
  0 < len ls -> 0 <= g_ifndef_linenum (find_guard ls) < len ls /\ 0 <= g_endif_linenum (find_guard ls) < len ls.
Proof.
  intros Hl. unfold find_guard. assert (Hi : forall i x, (i, x) ∈ enumerate ls -> 0 <= i < len ls) by (intros; by eapply elem_of_enumerate).
  revert Hi. generalize (enumerate ls). intros es.
  assert (H0 : 0 <= g_ifndef_linenum (Guard [] 0 [] [] 0) < len ls /\ 0 <= g_endif_linenum (Guard [] 0 [] [] 0) < len ls) by (simpl; lia).
  revert H0. generalize (Guard [] 0 [] [] 0). induction es as [|[i x] es IH]; intros g Hg Hi; [done|]. cbn [fold_left].
  apply IH; [|intros; apply (Hi i0 x0); by right]. specialize (Hi i x ltac:(left)).
  unfold guard_step. repeat case_match; simplify_eq; cbn in *; lia.
Qed.

Lemma CheckForCopyright_runs lines : 0 < N -> runs I X (CheckForCopyright filename lines error) (fun _ => True).
Proof. intros HN. unfold CheckForCopyright. runs_walk. Qed.

Lemma CheckForBadCharacters_runs lines :
  len lines <= N -> runs I X (CheckForBadCharacters filename lines error) (fun _ => True).
Proof.
  intros HN. apply runs_for_each. intros [i line] Hi%elem_of_enumerate. runs_walk.
Qed.

Lemma CheckForNewlineAtEOF_runs lines :
  2 <= len lines <= N -> runs I X (CheckForNewlineAtEOF filename lines error) (fun _ => True).
Proof. intros HN. unfold CheckForNewlineAtEOF. runs_walk. Qed.

Section Line.
Context (c : CleansedLines) (linenum : Z) (Hc : sized N c) (Hl : 0 <= linenum < N).

Lemma CheckForMultilineCommentsAndStrings_runs :
  runs I X (CheckForMultilineCommentsAndStrings filename c linenum error) (fun _ => True).
Proof. unfold CheckForMultilineCommentsAndStrings. runs_walk. Qed.

Lemma CheckPosixThreading_runs : runs I X (CheckPosixThreading filename c linenum error) (fun _ => True).
Proof. unfold CheckPosixThreading. runs_walk. Qed.

Lemma CheckVlogArguments_runs : runs I X (CheckVlogArguments filename c linenum error) (fun _ => True).
Proof. unfold CheckVlogArguments. runs_walk. Qed.

Lemma CheckInvalidIncrement_runs : runs I X (CheckInvalidIncrement filename c linenum error) (fun _ => True).
Proof. unfold CheckInvalidIncrement. runs_walk. Qed.
End Line.

Lemma IsMacroDefinition_runs ls linenum : 0 <= linenum < len ls -> runs I X (IsMacroDefinition ls linenum) (fun _ => True).
Proof. intros Hl. unfold IsMacroDefinition. runs_walk. Qed.

Lemma IsForwardClassDeclaration_runs ls linenum :
  0 <= linenum < len ls -> runs I X (IsForwardClassDeclaration ls linenum) (fun _ => True).
Proof. intros Hl. unfold IsForwardClassDeclaration. runs_walk. Qed.

Lemma CheckForHeaderGuard_runs c :
  no_svn_root -> sized N c -> 0 < N -> runs I X (CheckForHeaderGuard filename c error) (fun _ => True).
Proof.
  intros Hsvn Hc HN. destruct (find_guard_in (lines_without_raw_strings c)) as [H1 H2]; [line_lia|].
  unfold CheckForHeaderGuard. runs_walk.
Qed.

Lemma first_or_included_in h fs n r :
  Forall (fun f => 0 <= snd f < N) fs -> 0 < N -> 0 <= default 0 n < N ->
  first_or_included h fs n = Some r -> 0 <= default 0 r < N.
Proof.
  intros Hf HN. revert n. induction Hf as [|f fs Hx _ IH]; intros n Hn; cbn [first_or_included]; [by intros [= <-]|].
  split_if; [done|]. apply IH. destruct n as [n|]; cbn [default id] in *; [split_if; cbn [default id]; lia | done].
Qed.

Lemma CheckHeaderFileIncluded_runs st :
  no_svn_root -> includes_in N st -> 0 < N -> runs I X (CheckHeaderFileIncluded filename st error) (fun _ => True).
Proof.
  intros Hsvn [_ Hin] HN. assert (Hl : forall exts, runs I X (header_loop filename st error exts) (fun _ => True)).
  { induction exts as [|e exts IH]; cbn [header_loop]; runs_walk. apply report_runs.
    apply (first_or_included_in _ _ None) in Em; [|done..|by cbn; lia]. split; [case_match; [cbn in Em; lia | done] | split; [vm_compute; reflexivity | split; [lia | left; lia]]]. }
  unfold CheckHeaderFileIncluded. runs_walk.
Qed.
End FileChecksRuns.

End FileChecks.

#[export] Hint Resolve CheckForCopyright_runs CheckForBadCharacters_runs CheckForNewlineAtEOF_runs
  CheckForMultilineCommentsAndStrings_runs CheckPosixThreading_runs CheckVlogArguments_runs CheckInvalidIncrement_runs
  IsMacroDefinition_runs IsForwardClassDeclaration_runs CheckForHeaderGuard_runs CheckHeaderFileIncluded_runs : runs.

(** ** Witnesses *)

Definition no_error : error_fn := fun _ _ _ _ _ => ret tt.

Lemma CheckForMultilineCommentsAndStrings_spec_witness :
  CheckForMultilineCommentsAndStrings "a.cc" sample 0 no_error world_init = (Ok tt, world_init).
Proof.
  rewrite (CheckForMultilineCommentsAndStrings_spec "a.cc" sample 0 no_error "f(a, [" world_init eq_refl). reflexivity.
Defined.

Lemma GetIndentLevel_spec_witness : GetIndentLevel (U := ascii_db) "  x" = 2.
Proof. exact (GetIndentLevel_spec (U := ascii_db) 2 "x" ltac:(discriminate)). Defined.

Lemma CheckForHeaderGuard_missing_witness :
  CheckForHeaderGuard (U := ascii_db) (FS := git_fs) "src/a.h" sample no_error world_init = (Ok tt, world_init).
Proof.
  pose (v := match GetHeaderGuardCPPVariable (U := ascii_db) (FS := git_fs) "src/a.h" world_init with
             | (Ok v, _) => v | _ => [] end).
  refine (proj2 (CheckForHeaderGuard_missing (U := ascii_db) (FS := git_fs) "src/a.h" sample no_error v world_init _) _ _).
  - vm_compute. reflexivity.
  - vm_compute. reflexivity.
  - left. vm_compute. reflexivity.
Defined.
