(* ===== verification/Nesting.v ===== *)
(** * The nesting of braces

    Models the block classes ([_BlockInfo], [_ExternCInfo], [_ClassInfo], [_NamespaceInfo]), [_PreprocessorInfo] and
    [NestingState] of cpplint.py.  Blocks are mutable objects that several lists refer to, so the state holds a heap of
    blocks and the stacks hold their identities; the last element of a Python stack is the head here.  [copy.deepcopy] of
    a stack allocates new blocks with the contents of the old ones.  The initial value of [previous_stack_top] in the source is an
    empty list, which the checks treat like [None]; here it is [None]. *)

From S2P Require Import Prelude PyStr PyRe PyEff Tables Regexps Lint Cleanse Expr Includes Paths FileChecks.

Local Open Scope Z_scope.

Inductive block_kind : Type :=
| _BlockInfo
| _ExternCInfo
| _ClassInfo (name : str) (is_struct is_derived : bool) (access : str) (class_indent last_line : Z)
| _NamespaceInfo (name : str).

Record block := Block {
  starting_linenum : Z;
  seen_open_brace : bool;
  open_parentheses : Z;
  inline_asm : asm_state;
  check_namespace_indentation : bool;
  kind : block_kind
}.

Abbreviation oid := nat.

Record _PreprocessorInfo := PreprocessorInfo {
  stack_before_if : list oid;
  stack_before_else : list oid;
  seen_else : bool
}.

Record NestingState := Nesting {
  heap : gmap oid block;
  next : oid;
  stack : list oid;
  previous_stack_top : option oid;
  pp_stack : list _PreprocessorInfo
}.

Definition NestingState_init : NestingState := Nesting ∅ 0 [] None [].

Definition is_class (b : block) : bool := match kind b with _ClassInfo _ _ _ _ _ _ => true | _ => false end.
Definition is_namespace (b : block) : bool := match kind b with _NamespaceInfo _ => true | _ => false end.
Definition is_externc (b : block) : bool := match kind b with _ExternCInfo => true | _ => false end.
Definition IsBlockInfo (b : block) : bool := match kind b with _BlockInfo => true | _ => false end.

(** ** Blocks *)

Definition BlockInfo_init (linenum : Z) (seen : bool) : block := Block linenum seen 0 _NO_ASM false _BlockInfo.
Definition ExternCInfo_init (linenum : Z) : block := Block linenum true 0 _NO_ASM false _ExternCInfo.
Definition NamespaceInfo_init (name : option str) (linenum : Z) : block :=
  Block linenum false 0 _NO_ASM true (_NamespaceInfo (default [] name)).

Definition set_open (b : block) : block :=
  Block (starting_linenum b) true (open_parentheses b) (inline_asm b) (check_namespace_indentation b) (kind b).
Definition set_asm (a : asm_state) (b : block) : block :=
  Block (starting_linenum b) (seen_open_brace b) (open_parentheses b) a (check_namespace_indentation b) (kind b).
Definition add_parens (d : Z) (b : block) : block :=
  Block (starting_linenum b) (seen_open_brace b) (open_parentheses b + d) (inline_asm b) (check_namespace_indentation b) (kind b).
Definition set_kind (k : block_kind) (b : block) : block :=
  Block (starting_linenum b) (seen_open_brace b) (open_parentheses b) (inline_asm b) (check_namespace_indentation b) k.

Section Nesting.
Context {U : UnicodeDB}.

(** The end of a class: the first line from its start at which the braces balance; [n] lines are left. *)
Fixpoint class_end (n : nat) (c : CleansedLines) (i depth : Z) : P Z :=
  match n with
  | O => ret 0
  | S n' =>
      line <- or_raise IndexError (index (elided c) i);;
      let depth := depth + (count line "{" - count line "}") in
      if depth =? 0 then ret i else class_end n' c (i + 1) depth
  end.

Definition ClassInfo_init (name class_or_struct : str) (clean_lines : CleansedLines) (linenum : Z) : P block :=
  let is_struct := str_eqb class_or_struct "struct" in
  raw <- or_raise IndexError (index (raw_lines clean_lines) linenum);;
  last_line <- class_end (Z.to_nat (NumLines clean_lines - linenum)) clean_lines linenum 0;;
  ret (Block linenum false 0 _NO_ASM true
         (_ClassInfo name is_struct false (if is_struct then lit "public" else lit "private")
            (GetIndentLevel raw) last_line)).

(** [CheckBegin]: only classes do something. *)
Definition CheckBegin (b : block) (clean_lines : CleansedLines) (linenum : Z) : P block :=
  match kind b with
  | _ClassInfo name is_struct is_derived access class_indent last_line =>
      line <- or_raise IndexError (index (elided clean_lines) linenum);;
      ret (if SearchB "(^|[^:]):($|[^:])" line
           then set_kind (_ClassInfo name is_struct true access class_indent last_line) b else b)
  | _ => ret b
  end.

(** The lines of a class from its last to its first, looking for the macro that should come last; [n] lines are left. *)
Fixpoint class_check_loop (n : nat) (filename name : str) (clean_lines : CleansedLines) (i : Z) (seen_last : bool)
    (error : error_fn) : P unit :=
  match n with
  | O => ret tt
  | S n' =>
      line <- or_raise IndexError (index (elided clean_lines) i);;
      match Search ("\b(DISALLOW_COPY_AND_ASSIGN|DISALLOW_IMPLICIT_CONSTRUCTORS)\(" ++ name ++ "\)") line with
      | Some m =>
          when seen_last
            (error filename (Some i) "readability/constructors" 3
               (group_str m 1 ++ " should be the last thing in the class"))
      | None => class_check_loop n' filename name clean_lines (i - 1) (seen_last || negb (MatchB "^\s*$" line)) error
      end
  end.

Definition ClassInfo_CheckEnd (b : block) (name : str) (is_struct : bool) (class_indent : Z) (filename : str)
    (clean_lines : CleansedLines) (linenum : Z) (error : error_fn) : P unit :=
  class_check_loop (Z.to_nat (linenum - 1 - starting_linenum b)) filename name clean_lines (linenum - 1) false error;;
  line <- or_raise IndexError (index (elided clean_lines) linenum);;
  match Match "^( *)\}" line with
  | Some indent =>
      when (negb (len (group_str indent 1) =? class_indent))
        (let parent := if is_struct then "struct " ++ name else "class " ++ name in
         error filename (Some linenum) "whitespace/indent" 3
           ("Closing brace should be aligned with beginning of " ++ parent))
  | None => ret tt
  end.

Definition NamespaceInfo_CheckEnd (b : block) (name : str) (filename : str)
    (clean_lines : CleansedLines) (linenum : Z) (error : error_fn) : P unit :=
  line <- or_raise IndexError (index (raw_lines clean_lines) linenum);;
  if (linenum - starting_linenum b <? 10) && negb (MatchB "^\s*};*\s*(//|/\*).*\bnamespace\b" line) then ret tt
  else if nonempty name then
    when (negb (MatchB ("^\s*};*\s*(//|/\*).*\bnamespace\s+" ++ re_escape name ++ "[\*/\.\\\s]*$") line))
      (error filename (Some linenum) "readability/namespace" 5
         ("Namespace should be terminated with `// namespace " ++ name ++ "`"))
  else
    when (negb (MatchB "^\s*};*\s*(//|/\*).*\bnamespace[\*/\.\\\s]*$" line))
      (if MatchB "^\s*}.*\b(namespace anonymous|anonymous namespace)\b" line
       then error filename (Some linenum) "readability/namespace" 5
              ("Anonymous namespace should be terminated with `// namespace`"
               ++ " or `// anonymous namespace`")
       else error filename (Some linenum) "readability/namespace" 5
              "Anonymous namespace should be terminated with `// namespace`").

Definition CheckEnd (b : block) (filename : str) (clean_lines : CleansedLines) (linenum : Z) (error : error_fn) : P unit :=
  match kind b with
  | _ClassInfo name is_struct _ _ class_indent _ =>
      ClassInfo_CheckEnd b name is_struct class_indent filename clean_lines linenum error
  | _NamespaceInfo name => NamespaceInfo_CheckEnd b name filename clean_lines linenum error
  | _ => ret tt
  end.

(** ** The heap *)

Definition empty_block : block := BlockInfo_init 0 false.
Definition deref (st : NestingState) (o : oid) : block := default empty_block (heap st !! o).

(** The block on top of the stack, if there is one. *)
Definition top (st : NestingState) : option block := deref st <$> head (stack st).

(** Update the block on top of the stack in place. *)
Definition upd_top (f : block -> block) (st : NestingState) : NestingState :=
  match stack st with
  | o :: _ => Nesting (<[o := f (deref st o)]> (heap st)) (next st) (stack st) (previous_stack_top st) (pp_stack st)
  | [] => st
  end.

Definition push (b : block) (st : NestingState) : NestingState :=
  Nesting (<[next st := b]> (heap st)) (S (next st)) (next st :: stack st) (previous_stack_top st) (pp_stack st).
Definition pop (st : NestingState) : NestingState :=
  Nesting (heap st) (next st) (tail (stack st)) (previous_stack_top st) (pp_stack st).

Definition set_stack (s : list oid) (st : NestingState) : NestingState :=
  Nesting (heap st) (next st) s (previous_stack_top st) (pp_stack st).
Definition set_pp (p : list _PreprocessorInfo) (st : NestingState) : NestingState :=
  Nesting (heap st) (next st) (stack st) (previous_stack_top st) p.

(** [copy.deepcopy] of a stack: every block is copied. *)
Fixpoint deepcopy (s : list oid) (st : NestingState) : list oid * NestingState :=
  match s with
  | [] => ([], st)
  | o :: s' =>
      let '(s2, st2) := deepcopy s' st in
      (next st2 :: s2,
       Nesting (<[next st2 := deref st2 o]> (heap st2)) (S (next st2)) (stack st2) (previous_stack_top st2) (pp_stack st2))
  end.

(** ** Queries *)

Definition SeenOpenBrace (st : NestingState) : bool :=
  match top st with Some b => seen_open_brace b | None => true end.
Definition InNamespaceBody (st : NestingState) : bool := match top st with Some b => is_namespace b | None => false end.
Definition InExternC (st : NestingState) : bool := match top st with Some b => is_externc b | None => false end.
Definition InClassDeclaration (st : NestingState) : bool := match top st with Some b => is_class b | None => false end.
Definition InAsmBlock (st : NestingState) : bool :=
  match top st with Some b => negb (bool_decide (inline_asm b = _NO_ASM)) | None => false end.

(** The scan for an unmatched closing angle bracket. *)
Fixpoint template_loop (fuel : nat) (c : CleansedLines) (linenum pos : Z) : P bool :=
  if NumLines c <=? linenum then ret false else
  match fuel with
  | O => raise OutOfFuel
  | S f =>
      line <- or_raise IndexError (index (elided c) linenum);;
      match Match "^[^{};=\[\]\.<>]*(.)" (slice_from line pos) with
      | None => template_loop f c (linenum + 1) 0
      | Some m =>
          let token := group_str m 1 in
          let pos := pos + len (group_str m 0) in
          if mem_str token (lits ["{"; "}"; ";"]) then ret false
          else if mem_str token (lits [">"; "="; "["; "]"; "."]) then ret true
          else if negb (str_eqb token "<") then
            let pos := pos + 1 in
            if len line <=? pos then template_loop f c (linenum + 1) 0 else template_loop f c linenum pos
          else
            r <- CloseExpression c linenum (pos - 1);;
            let '(_, end_line, end_pos) := r in
            if end_pos <? 0 then ret false else template_loop f c end_line end_pos
      end
  end.

(** Fuel for every position of the file from the start of [linenum] on. *)
Definition InTemplateArgumentList (c : CleansedLines) (linenum pos : Z) : P bool :=
  template_loop (length (concat (elided c)) + 2 * length (elided c) + 2) c linenum pos.

(** ** Preprocessor directives *)

Definition UpdatePreprocessor (st : NestingState) (line : str) : NestingState :=
  if MatchB "^\s*#\s*(if|ifdef|ifndef)\b" line then
    let '(copy, st) := deepcopy (stack st) st in
    set_pp (PreprocessorInfo copy [] false :: pp_stack st) st
  else if MatchB "^\s*#\s*(else|elif)\b" line then
    match pp_stack st with
    | p :: ps =>
        let '(p, st) :=
          if negb (seen_else p) then
            let '(copy, st) := deepcopy (stack st) st in
            (PreprocessorInfo (stack_before_if p) copy true, st)
          else (p, st) in
        let '(copy, st) := deepcopy (stack_before_if p) st in
        set_stack copy (set_pp (p :: ps) st)
    | [] => st
    end
  else if MatchB "^\s*#\s*endif\b" line then
    match pp_stack st with
    | p :: ps => set_pp ps (if seen_else p then set_stack (stack_before_else p) st else st)
    | [] => st
    end
  else st.

(** ** One line *)

Definition _MATCH_ASM : str := "^\s*(?:asm|_asm|__asm|__asm__)(?:\s+(volatile|__volatile__))?\s*[{(]".

(** Parentheses and inline assembly of the innermost block. *)
Definition count_parens (st : NestingState) (line : str) : NestingState :=
  match stack st with
  | [] => st
  | _ :: _ =>
      let depth_change := count line "(" - count line ")" in
      upd_top (fun b =>
        let b := add_parens depth_change b in
        match inline_asm b with
        | _NO_ASM | _END_ASM =>
            if negb (depth_change =? 0) && (open_parentheses b =? 1) && MatchB _MATCH_ASM line
            then set_asm _INSIDE_ASM b else set_asm _NO_ASM b
        | _INSIDE_ASM => if open_parentheses b =? 0 then set_asm _END_ASM b else b
        | _BLOCK_ASM => b
        end) st
  end.

(** Namespace declarations at the beginning of the line; the rest of the line is returned with the state. *)
Fixpoint namespace_loop (fuel : nat) (st : NestingState) (line : str) (linenum : Z) : P (NestingState * str) :=
  match fuel with
  | O => raise OutOfFuel
  | S f =>
      match Match "^\s*namespace\b\s*([:\w]+)?(.*)$" line with
      | None => ret (st, line)
      | Some m =>
          let new_namespace := NamespaceInfo_init (group m 1) linenum in
          let line := group_str m 2 in
          if negb (find line "{" =? -1)
          then namespace_loop f (push (set_open new_namespace) st) (slice_from line (find line "{" + 1)) linenum
          else namespace_loop f (push new_namespace st) line linenum
      end
  end.

Definition _RE_CLASS_DECL : str :=
  "^(\s*(?:template\s*<[\w\s<>,:=]*>\s*)?" ++ "(class|struct)\s+(?:[A-Z_]+\s+)*(\w+(?:::\w+)*))" ++ "(.*)$".
Definition _RE_ACCESS : str :=
  "^(.*)\b(public|private|protected|signals)(\s+(?:slots\s*)?)?" ++ ":(?:[^:]|$)".

Definition class_decl (st : NestingState) (line : str) (clean_lines : CleansedLines) (linenum : Z) : P (NestingState * str) :=
  match Match _RE_CLASS_DECL line with
  | Some m =>
      if match top st with Some b => open_parentheses b =? 0 | None => true end then
        let end_declaration := len (group_str m 1) in
        in_args <- InTemplateArgumentList clean_lines linenum end_declaration;;
        if negb in_args then
          b <- ClassInfo_init (group_str m 3) (group_str m 2) clean_lines linenum;;
          ret (push b st, group_str m 4)
        else ret (st, line)
      else ret (st, line)
  | None => ret (st, line)
  end.

(** Access control keywords of the innermost class. *)
Definition access_control (st : NestingState) (filename line : str) (linenum : Z) (error : error_fn) : P NestingState :=
  match top st with
  | Some b =>
      match kind b with
      | _ClassInfo name is_struct is_derived _ class_indent last_line =>
          match Match _RE_ACCESS line with
          | Some m =>
              let st := upd_top (set_kind (_ClassInfo name is_struct is_derived (group_str m 2) class_indent last_line)) st in
              let indent := group_str m 1 in
              when (negb (len indent =? class_indent + 1) && MatchB "^\s*$" indent)
                (let parent := if is_struct then "struct " ++ name else "class " ++ name in
                 let slots := if nonempty (group_str m 3) then group_str m 3 else [] in
                 error filename (Some linenum) "whitespace/indent" 3
                   (group_str m 2 ++ slots ++ ": should be indented +1 space inside " ++ parent));;
              ret st
          | None => ret st
          end
      | _ => ret st
      end
  | None => ret st
  end.

(** Braces, semicolons and closing parentheses in what is left of the line. *)
Fixpoint brace_loop (fuel : nat) (st : NestingState) (filename line : str) (clean_lines : CleansedLines) (linenum : Z)
    (error : error_fn) : P NestingState :=
  match fuel with
  | O => raise OutOfFuel
  | S f =>
      match Match "^[^{;)}]*([{;)}])(.*)$" line with
      | None => ret st
      | Some m =>
          let token := group_str m 1 in
          st <-
            (if str_eqb token "{" then
               ret (if negb (SeenOpenBrace st) then upd_top set_open st
                    else if MatchB "^extern\s*`[^`]*`\s*\{" line then push (ExternCInfo_init linenum) st
                    else let st := push (BlockInfo_init linenum true) st in
                         if MatchB _MATCH_ASM line then upd_top (set_asm _BLOCK_ASM) st else st)
             else if str_eqb token ";" || str_eqb token ")" then
               ret (if negb (SeenOpenBrace st) then pop st else st)
             else
               match top st with
               | Some b => CheckEnd b filename clean_lines linenum error;; ret (pop st)
               | None => ret st
               end);;
          brace_loop f st filename (group_str m 2) clean_lines linenum error
      end
  end.

Definition Update (st : NestingState) (filename : str) (clean_lines : CleansedLines) (linenum : Z) (error : error_fn)
    : P NestingState :=
  line <- or_raise IndexError (index (elided clean_lines) linenum);;
  let st := Nesting (heap st) (next st) (stack st) (head (stack st)) (pp_stack st) in
  let st := UpdatePreprocessor st line in
  let st := count_parens st line in
  r <- namespace_loop (S (length line)) st line linenum;;
  r <- class_decl (fst r) (snd r) clean_lines linenum;;
  let '(st, line) := r in
  st <- (if negb (SeenOpenBrace st) then
           match top st with
           | Some b => b' <- CheckBegin b clean_lines linenum;; ret (upd_top (fun _ => b') st)
           | None => ret st
           end
         else ret st);;
  st <- access_control st filename line linenum error;;
  brace_loop (S (length line)) st filename line clean_lines linenum error.

Definition InnermostClass (st : NestingState) : option block :=
  List.find is_class (map (deref st) (stack st)).

(** From the bottom of the stack to its top. *)
Definition CheckCompletedBlocks (st : NestingState) (filename : str) (error : error_fn) : P unit :=
  for_each (rev (map (deref st) (stack st))) (fun obj =>
    match kind obj with
    | _ClassInfo name _ _ _ _ _ =>
        error filename (Some (starting_linenum obj)) "build/class" 5
          ("Failed to find complete declaration of class " ++ name)
    | _NamespaceInfo name =>
        error filename (Some (starting_linenum obj)) "build/namespaces" 5
          ("Failed to find complete declaration of namespace " ++ name)
    | _ => ret tt
    end).

(** ** Sharing: the heap against a state of values *)

Definition contents (st : NestingState) (s : list oid) : list block := map (deref st) s.

Definition saved_oids (p : _PreprocessorInfo) : list oid := stack_before_if p ++ stack_before_else p.
Definition live (st : NestingState) : list oid := stack st ++ concat (map saved_oids (pp_stack st)).

(** No two lists share a block, and every block referred to has been allocated. *)
Definition nesting_wf (st : NestingState) : Prop :=
  NoDup (live st) /\ Forall (fun o => (o < next st)%nat) (live st) /\ forall o, (next st <= o)%nat -> heap st !! o = None.

(** The state as values: blocks instead of identities. *)
Record vstate := VState { v_stack : list block; v_pp : list (list block * list block * bool) }.
Definition values (st : NestingState) : vstate :=
  VState (contents st (stack st))
    (map (fun p => (contents st (stack_before_if p), contents st (stack_before_else p), seen_else p)) (pp_stack st)).

(** What the operations do to values. *)
Definition v_push (b : block) (v : vstate) : vstate := VState (b :: v_stack v) (v_pp v).
Definition v_pop (v : vstate) : vstate := VState (tail (v_stack v)) (v_pp v).
Definition v_upd_top (f : block -> block) (v : vstate) : vstate :=
  VState (match v_stack v with b :: s => f b :: s | [] => [] end) (v_pp v).

Inductive directive := DIf | DElse | DEndif | DNone.
Definition directive_of (line : str) : directive :=
  if MatchB "^\s*#\s*(if|ifdef|ifndef)\b" line then DIf
  else if MatchB "^\s*#\s*(else|elif)\b" line then DElse
  else if MatchB "^\s*#\s*endif\b" line then DEndif
  else DNone.

Definition v_directive (d : directive) (v : vstate) : vstate :=
  match d, v_pp v with
  | DIf, pp => VState (v_stack v) ((v_stack v, [], false) :: pp)
  | DElse, (before_if, before_else, seen) :: pp =>
      VState before_if ((before_if, if seen then before_else else v_stack v, true) :: pp)
  | DEndif, (_, before_else, seen) :: pp => VState (if seen then before_else else v_stack v) pp
  | _, _ => v
  end.

Lemma contents_heap st st' s : heap st = heap st' -> contents st s = contents st' s.
Proof. intros H. unfold contents, deref. by rewrite H. Qed.

Lemma contents_ext st st' s : (forall o, o ∈ s -> heap st !! o = heap st' !! o) -> contents st s = contents st' s.
Proof. intros H. unfold contents, deref. apply map_ext_in. intros x Hx%list_elem_of_In. by rewrite H. Qed.

Lemma saved_live p st o : In p (pp_stack st) -> o ∈ saved_oids p -> o ∈ live st.
Proof.
  intros Hp Ho. apply elem_of_app. right. apply list_elem_of_In, in_concat. exists (saved_oids p).
  split; [by apply in_map | by apply list_elem_of_In].
Qed.

(** Blocks that are not referred to may change. *)
Lemma values_ext st st' :
  stack st' = stack st -> pp_stack st' = pp_stack st -> (forall o, o ∈ live st -> heap st' !! o = heap st !! o) ->
  values st' = values st.
Proof.
  intros Hs Hp Hh. unfold values. rewrite Hs, Hp. f_equal.
  - apply contents_ext. intros o Ho. apply Hh. apply elem_of_app. by left.
  - apply map_ext_in. intros p Hp'. f_equal; f_equal; apply contents_ext; intros o Ho; apply Hh, (saved_live p);
      try done; apply elem_of_app; auto.
Qed.

Lemma live_lt st o : nesting_wf st -> o ∈ live st -> (o < next st)%nat.
Proof. intros (_ & Hf & _) Ho. rewrite Forall_forall in Hf. by apply Hf. Qed.

Lemma push_values b st : nesting_wf st -> values (push b st) = v_push b (values st).
Proof.
  intros Hw. unfold values, v_push, push. cbn [stack pp_stack v_stack v_pp].
  assert (He : forall s, (forall o, o ∈ s -> o ∈ live st) ->
    contents (Nesting (<[next st := b]> (heap st)) (S (next st)) (next st :: stack st) (previous_stack_top st) (pp_stack st)) s
    = contents st s).
  { intros s Hs. apply contents_ext. intros o Ho. cbn [heap]. rewrite lookup_insert_ne; [done|].
    apply Hs, live_lt in Ho; [|done]. lia. }
  f_equal.
  - unfold contents. cbn [map]. f_equal.
    + unfold deref. cbn [heap]. by rewrite lookup_insert_eq.
    + apply He. intros o Ho. apply elem_of_app. by left.
  - apply map_ext_in. intros p Hp. f_equal; f_equal; apply He; intros o Ho; apply (saved_live p);
      try done; apply elem_of_app; auto.
Qed.

Lemma push_wf b st : nesting_wf st -> nesting_wf (push b st).
Proof.
  intros (Hn & Hf & Hh). unfold nesting_wf, push, live. cbn [stack pp_stack next heap]. repeat split.
  - apply NoDup_cons. split; [|done]. intros Ho. rewrite Forall_forall in Hf. apply Hf in Ho. lia.
  - constructor; [lia|]. eapply Forall_impl; [exact Hf|]. simpl. lia.
  - intros o Ho. rewrite lookup_insert_ne by lia. apply Hh. lia.
Qed.

Lemma pop_wf st : nesting_wf st -> nesting_wf (pop st).
Proof.
  intros (Hn & Hf & Hh). unfold nesting_wf, pop, live in *. cbn [stack pp_stack next heap].
  destruct (stack st) as [|o s]; [done|]. cbn [tail app] in *. apply NoDup_cons in Hn as [_ Hn]. by inversion Hf.
Qed.

Lemma pop_values st : values (pop st) = v_pop (values st).
Proof. unfold values, v_pop, pop. cbn [stack pp_stack v_stack v_pp]. f_equal. by destruct (stack st). Qed.

Lemma upd_top_wf f st : nesting_wf st -> nesting_wf (upd_top f st).
Proof.
  intros (Hn & Hf & Hh). unfold upd_top. destruct (stack st) as [|o s] eqn:E; [by repeat split|].
  unfold nesting_wf, live in *. cbn [stack pp_stack next heap]. rewrite E in *. split; [done|]. split; [done|].
  intros k Hk. rewrite lookup_insert_ne; [by apply Hh|]. inversion Hf; subst. lia.
Qed.

Lemma upd_top_values f st : nesting_wf st -> values (upd_top f st) = v_upd_top f (values st).
Proof.
  intros (Hn & _). unfold upd_top, v_upd_top, values, live in *. destruct (stack st) as [|o s] eqn:E; [by rewrite E|].
  cbn [stack pp_stack v_stack v_pp]. cbn [contents map]. rewrite <- E in Hn. apply NoDup_app in Hn as (Hs & Hd & _). rewrite E in Hs, Hd.
  apply NoDup_cons in Hs as [Ho Hs]. f_equal.
  - f_equal; [unfold deref; cbn [heap]; by rewrite lookup_insert_eq|].
    apply contents_ext. intros k Hk. cbn [heap]. rewrite lookup_insert_ne; [done|]. intros ->. done.
  - apply map_ext_in. intros p Hp. f_equal; f_equal; apply contents_ext; intros k Hk; cbn [heap]; rewrite lookup_insert_ne; try done;
      intros ->; (apply (Hd k); [left|]); apply list_elem_of_In, in_concat; exists (saved_oids p);
      (split; [by apply in_map | apply list_elem_of_In, elem_of_app; auto]).
Qed.

(** A copy is made of new blocks with the old contents, and nothing else changes. *)
Lemma deepcopy_spec s st :
  (forall o, o ∈ s -> (o < next st)%nat) -> (forall o, (next st <= o)%nat -> heap st !! o = None) ->
  let '(s', st') := deepcopy s st in
  (next st <= next st')%nat /\ NoDup s' /\ Forall (fun o => (next st <= o < next st')%nat) s' /\
  (forall o, (next st' <= o)%nat -> heap st' !! o = None) /\
  (forall o, (o < next st)%nat -> heap st' !! o = heap st !! o) /\
  contents st' s' = contents st s /\
  stack st' = stack st /\ pp_stack st' = pp_stack st /\ previous_stack_top st' = previous_stack_top st.
Proof.
  intros Hs Hh. induction s as [|o s IH]; cbn [deepcopy].
  - repeat split; try done; constructor.
  - specialize (IH ltac:(intros; apply Hs; by right)). destruct (deepcopy s st) as [s' st'].
    destruct IH as (Hle & Hnd & Hf & Hnew & Hold & Hc & Hst & Hpp & Hpt).
    assert (Ho : (o < next st)%nat) by (apply Hs; left).
    cbn [next heap stack pp_stack previous_stack_top]. split; [lia|]. split.
    { apply NoDup_cons. split; [|done]. rewrite Forall_forall in Hf. intros Hx%Hf. lia. }
    split; [constructor; [lia|]; eapply Forall_impl; [exact Hf|]; simpl; lia|].
    split; [intros k Hk; rewrite lookup_insert_ne by lia; apply Hnew; lia|].
    split; [intros k Hk; rewrite lookup_insert_ne by lia; by apply Hold|].
    split; [|done]. cbn [contents map]. f_equal.
    + unfold deref at 1. cbn [heap]. rewrite lookup_insert_eq. cbn [default]. unfold id, deref. by rewrite Hold.
    + transitivity (contents st' s'); [|exact Hc]. apply contents_ext. intros k Hk. cbn [heap]. rewrite lookup_insert_ne; [done|].
      rewrite Forall_forall in Hf. apply Hf in Hk. lia.
Qed.

(** Referring to new blocks besides the old ones keeps the state well formed. *)
Lemma wf_extend st st' s pp extra :
  nesting_wf st ->
  (next st <= next st')%nat -> (forall o, (next st' <= o)%nat -> heap st' !! o = None) ->
  NoDup extra -> Forall (fun o => (next st <= o < next st')%nat) extra ->
  (s ++ concat (map saved_oids pp)) ⊆+ extra ++ live st ->
  nesting_wf (Nesting (heap st') (next st') s (previous_stack_top st') pp).
Proof.
  intros (Hn & Hf & Hh) Hle Hnew Hnd Hfe Hsub.
  assert (Hall : NoDup (extra ++ live st)).
  { apply NoDup_app. split; [done|]. split; [|done]. intros o Ho Hl. rewrite Forall_forall in Hf, Hfe. apply Hf in Hl. apply Hfe in Ho. lia. }
  unfold nesting_wf, live at 1 2. cbn [stack pp_stack next heap]. split; [|split; [|done]].
  - apply submseteq_Permutation in Hsub as [k Hk]. rewrite Hk in Hall. by apply NoDup_app in Hall as (? & _).
  - apply Forall_forall. intros o Ho. apply (elem_of_submseteq _ _ _ Ho) in Hsub. apply elem_of_app in Hsub as [Hx|Hx].
    + rewrite Forall_forall in Hfe. apply Hfe in Hx. lia.
    + rewrite Forall_forall in Hf. apply Hf in Hx. lia.
Qed.


Lemma update_preprocessor_eq st line :
  UpdatePreprocessor st line =
  match directive_of line with
  | DIf => let '(copy, st) := deepcopy (stack st) st in set_pp (PreprocessorInfo copy [] false :: pp_stack st) st
  | DElse =>
      match pp_stack st with
      | p :: ps =>
          let '(p, st) :=
            if negb (seen_else p) then
              let '(copy, st) := deepcopy (stack st) st in (PreprocessorInfo (stack_before_if p) copy true, st)
            else (p, st) in
          let '(copy, st) := deepcopy (stack_before_if p) st in
          set_stack copy (set_pp (p :: ps) st)
      | [] => st
      end
  | DEndif =>
      match pp_stack st with
      | p :: ps => set_pp ps (if seen_else p then set_stack (stack_before_else p) st else st)
      | [] => st
      end
  | DNone => st
  end.
Proof. unfold UpdatePreprocessor, directive_of. repeat split_if; done. Qed.

Lemma old_contents st st' s :
  (forall o, (o < next st)%nat -> heap st' !! o = heap st !! o) -> (forall o, o ∈ s -> (o < next st)%nat) ->
  contents st' s = contents st s.
Proof. intros Hh Hs. apply contents_ext. intros o Ho. by apply Hh, Hs. Qed.

Lemma saved_values st st' pp :
  (forall o, (o < next st)%nat -> heap st' !! o = heap st !! o) ->
  (forall p o, In p pp -> o ∈ saved_oids p -> (o < next st)%nat) ->
  map (fun p => (contents st' (stack_before_if p), contents st' (stack_before_else p), seen_else p)) pp =
  map (fun p => (contents st (stack_before_if p), contents st (stack_before_else p), seen_else p)) pp.
Proof.
  intros Hh Hs. apply map_ext_in. intros p Hp. f_equal; f_equal; apply (old_contents st st'); try done;
    intros o Ho; apply (Hs p); try done; apply elem_of_app; auto.
Qed.

Lemma wf_stack_lt st o : nesting_wf st -> o ∈ stack st -> (o < next st)%nat.
Proof. intros Hw Ho. apply live_lt; [done|]. apply elem_of_app. by left. Qed.

Lemma wf_saved_lt st p o : nesting_wf st -> In p (pp_stack st) -> o ∈ saved_oids p -> (o < next st)%nat.
Proof. intros Hw Hp Ho. apply live_lt; [done|]. by eapply saved_live. Qed.

Lemma update_if st line :
  nesting_wf st -> directive_of line = DIf ->
  nesting_wf (UpdatePreprocessor st line) /\ values (UpdatePreprocessor st line) = v_directive DIf (values st).
Proof.
  intros Hw Hd. rewrite update_preprocessor_eq, Hd.
  pose proof (deepcopy_spec (stack st) st (fun o => wf_stack_lt st o Hw) (proj2 (proj2 Hw))) as H.
  destruct (deepcopy (stack st) st) as [copy st'].
  destruct H as (Hle & Hnd & Hf & Hnew & Hold & Hc & Hst & Hpp & Hpt). unfold set_pp. rewrite Hpp, Hst. split.
  - apply (wf_extend st st' _ _ copy); try done. cbn [map concat].
    unfold live, saved_oids at 1. cbn [stack_before_if stack_before_else]. rewrite app_nil_r. apply Permutation_submseteq, Permutation_app_swap_app.
  - unfold values. cbn [stack pp_stack map stack_before_if stack_before_else seen_else]. unfold v_directive.
    cbn [values v_stack v_pp]. rewrite !(contents_heap (Nesting _ _ _ _ _) st') by done. rewrite Hc.
    rewrite (old_contents st st' (stack st)) by (done || intros o; by apply wf_stack_lt).
    f_equal. f_equal. apply (saved_values st (Nesting (heap st') (next st') _ _ _)); [done|].
    intros p o. by apply wf_saved_lt.
Qed.

Lemma update_endif st line :
  nesting_wf st -> directive_of line = DEndif ->
  nesting_wf (UpdatePreprocessor st line) /\ values (UpdatePreprocessor st line) = v_directive DEndif (values st).
Proof.
  intros Hw Hd. rewrite update_preprocessor_eq, Hd. unfold v_directive. cbn [values v_pp].
  destruct (pp_stack st) as [|p ps] eqn:Ep; [by split|]. cbn [map]. split.
  - assert (Hx : forall s, s ⊆+ stack st ++ saved_oids p -> nesting_wf (Nesting (heap st) (next st) s (previous_stack_top st) ps)).
    { intros s Hs. apply (wf_extend st st _ _ []); [done|lia|apply Hw|constructor|constructor|].
      unfold live. rewrite Ep. cbn [map concat app]. rewrite app_assoc. by apply submseteq_skips_r. }
    destruct (seen_else p); apply Hx; [|by apply submseteq_inserts_r].
    apply submseteq_inserts_l. unfold saved_oids. by apply submseteq_inserts_l.
  - by destruct (seen_else p).
Qed.

(** The stacks saved for the sections that are open hold objects that exist. *)
Lemma wf_saved_head_lt st p ps :
  nesting_wf st -> pp_stack st = p :: ps ->
  (forall o : oid, o ∈ stack_before_if p -> (o < next st)%nat) /\
  (forall o : oid, o ∈ stack_before_else p -> (o < next st)%nat) /\
  (forall q (o : oid), In q ps -> o ∈ saved_oids q -> (o < next st)%nat).
Proof.
  intros Hw Ep. split_and!.
  - intros o Ho. apply (wf_saved_lt st p); [done | rewrite Ep; by left | apply elem_of_app; by left].
  - intros o Ho. apply (wf_saved_lt st p); [done | rewrite Ep; by left | apply elem_of_app; by right].
  - intros q o Hq Ho. apply (wf_saved_lt st q); [done | rewrite Ep; by right | done].
Qed.

(** A second [#else] or [#elif] only goes back to the stack before the [#if]. *)
Lemma update_else_again st line p ps :
  nesting_wf st -> directive_of line = DElse -> pp_stack st = p :: ps -> seen_else p = true ->
  nesting_wf (UpdatePreprocessor st line) /\ values (UpdatePreprocessor st line) = v_directive DElse (values st).
Proof.
  intros Hw Hd Ep Es. destruct (wf_saved_head_lt st p ps Hw Ep) as (Hif & Helse & Hps).
  rewrite update_preprocessor_eq, Hd. unfold v_directive. cbn [values v_pp]. rewrite Ep. cbn [map]. rewrite Es. cbn [negb].
  pose proof (deepcopy_spec (stack_before_if p) st Hif (proj2 (proj2 Hw))) as H.
  destruct (deepcopy (stack_before_if p) st) as [copy st'].
  destruct H as (Hle & Hnd & Hf & Hnew & Hold & Hc & Hst & Hpp & Hpt). unfold set_stack, set_pp. cbn [heap next previous_stack_top stack pp_stack].
  split.
  + apply (wf_extend st st' _ _ copy); try done. unfold live. rewrite Ep. cbn [map concat].
    apply submseteq_skips_l. by apply submseteq_inserts_l.
  + unfold values. cbn [stack pp_stack map]. rewrite Es.
    rewrite !(contents_heap (Nesting _ _ _ _ _) st') by done. rewrite Hc.
    rewrite !(old_contents st st') by done.
    f_equal. f_equal. by apply (saved_values st (Nesting (heap st') (next st') _ _ _)).
Qed.

(** The first one also keeps the stack reached. *)
Lemma update_else_first st line p ps :
  nesting_wf st -> directive_of line = DElse -> pp_stack st = p :: ps -> seen_else p = false ->
  nesting_wf (UpdatePreprocessor st line) /\ values (UpdatePreprocessor st line) = v_directive DElse (values st).
Proof.
  intros Hw Hd Ep Es. destruct (wf_saved_head_lt st p ps Hw Ep) as (Hif & Helse & Hps).
  rewrite update_preprocessor_eq, Hd. unfold v_directive. cbn [values v_pp]. rewrite Ep. cbn [map]. rewrite Es. cbn [negb].
  pose proof (deepcopy_spec (stack st) st (fun o => wf_stack_lt st o Hw) (proj2 (proj2 Hw))) as H1.
  destruct (deepcopy (stack st) st) as [copy1 st1].
  destruct H1 as (Hle1 & Hnd1 & Hf1 & Hnew1 & Hold1 & Hc1 & Hst1 & Hpp1 & Hpt1). cbn [stack_before_if].
  pose proof (deepcopy_spec (stack_before_if p) st1 ltac:(intros o Ho; apply Hif in Ho; lia) Hnew1) as H2.
  destruct (deepcopy (stack_before_if p) st1) as [copy2 st2].
  destruct H2 as (Hle2 & Hnd2 & Hf2 & Hnew2 & Hold2 & Hc2 & Hst2 & Hpp2 & Hpt2).
  unfold set_stack, set_pp. cbn [heap next previous_stack_top stack pp_stack].
  assert (Hold : forall o, (o < next st)%nat -> heap st2 !! o = heap st !! o) by (intros o Ho; rewrite Hold2 by lia; by apply Hold1).
  split.
  + apply (wf_extend st st2 _ _ (copy2 ++ copy1)); [done|lia|done| | |].
    * apply NoDup_app. split; [done|]. split; [|done]. intros o H2 H1. rewrite Forall_forall in Hf1, Hf2.
      apply Hf1 in H1. apply Hf2 in H2. lia.
    * apply Forall_app. split; (eapply Forall_impl; [eassumption|]); simpl; lia.
    * unfold live. rewrite Ep. cbn [map concat].
      change (saved_oids (PreprocessorInfo (stack_before_if p) copy1 true)) with (stack_before_if p ++ copy1).
      change (saved_oids p) with (stack_before_if p ++ stack_before_else p). rewrite <- !app_assoc.
      apply submseteq_skips_l. rewrite (Permutation_app_swap_app (stack_before_if p) copy1). apply submseteq_skips_l.
      apply submseteq_inserts_l, submseteq_skips_l. by apply submseteq_inserts_l.
  + unfold values. cbn [stack pp_stack map stack_before_if stack_before_else seen_else].
    rewrite !(contents_heap (Nesting _ _ _ _ _) st2) by done. rewrite Hc2.
    rewrite (old_contents st1 st2 copy1 Hold2), Hc1 by (intros o Ho; rewrite Forall_forall in Hf1; apply Hf1 in Ho; lia).
    rewrite (old_contents st st1), (old_contents st st2) by done.
    f_equal. f_equal. by apply (saved_values st (Nesting (heap st2) (next st2) _ _ _)).
Qed.

Lemma update_else st line :
  nesting_wf st -> directive_of line = DElse ->
  nesting_wf (UpdatePreprocessor st line) /\ values (UpdatePreprocessor st line) = v_directive DElse (values st).
Proof.
  intros Hw Hd. destruct (pp_stack st) as [|p ps] eqn:Ep.
  - rewrite update_preprocessor_eq, Hd. unfold v_directive. cbn [values v_pp]. rewrite Ep. by split.
  - destruct (seen_else p) eqn:Es; [by eapply update_else_again | by eapply update_else_first].
Qed.

(** C5. Sharing is harmless: on every well-formed state, a preprocessor line does to the blocks of the stacks, as values, what the
    specification [v_directive] says ([#if] saves the stack, [#else] goes back to it and keeps the one reached, [#endif] goes on with
    the latter), and pushing, popping and updating the innermost block in place never show through to the saved stacks;
    all of them keep the state well formed. *)
Theorem nesting_refines_values st line b f (Hw : nesting_wf st) :
  (nesting_wf (UpdatePreprocessor st line) /\ values (UpdatePreprocessor st line) = v_directive (directive_of line) (values st)) /\
  (nesting_wf (push b st) /\ values (push b st) = v_push b (values st)) /\
  (nesting_wf (pop st) /\ values (pop st) = v_pop (values st)) /\
  (nesting_wf (upd_top f st) /\ values (upd_top f st) = v_upd_top f (values st)).
Proof.
  split; [|split; [|split]]; cycle 1.
  { split; [by apply push_wf | by apply push_values]. }
  { split; [by apply pop_wf | by apply pop_values]. }
  { split; [by apply upd_top_wf | by apply upd_top_values]. }
  destruct (directive_of line) eqn:Hd; [by apply update_if | by apply update_else | by apply update_endif |].
  rewrite update_preprocessor_eq, Hd. by split.
Qed.

(** ** Conditional compilation *)

(** What [Update] does to the stack besides directives. *)
Inductive edit : NestingState -> NestingState -> Prop :=
| edit_push b st : edit st (push b st)
| edit_pop st : edit st (pop st)
| edit_top f st : edit st (upd_top f st)
| edit_prev o st : edit st (Nesting (heap st) (next st) (stack st) o (pp_stack st)).

Lemma edit_keeps st st' : edit st st' -> nesting_wf st -> nesting_wf st' /\ v_pp (values st') = v_pp (values st).
Proof.
  intros [b st0|st0|f st0|o st0] Hw.
  - split; [by apply push_wf | by rewrite push_values].
  - split; [by apply pop_wf | by rewrite pop_values].
  - split; [by apply upd_top_wf | by rewrite upd_top_values].
  - by split.
Qed.

Lemma edits_keep st st' : rtc edit st st' -> nesting_wf st -> nesting_wf st' /\ v_pp (values st') = v_pp (values st).
Proof.
  induction 1 as [st|st1 st2 st3 H1 _ IH]; intros Hw; [done|].
  destruct (edit_keeps _ _ H1 Hw) as [Hw2 Hp]. destruct (IH Hw2) as [Hw3 Hp3]. split; [done | congruence].
Qed.

(** The lines of a branch: edits of the stack, and whole conditional sections.  The branches of a section go from the state after its [#if] to the
    state before its [#endif], by way of the end of the first branch; [#elif] and [#else] come between two of them. *)
Inductive branch : NestingState -> NestingState -> Prop :=
| branch_end st : branch st st
| branch_edit st1 st2 st3 : edit st1 st2 -> branch st2 st3 -> branch st1 st3
| branch_section st1 l1 first st2 l2 st3 :
    directive_of l1 = DIf -> branches (UpdatePreprocessor st1 l1) first st2 -> directive_of l2 = DEndif ->
    branch (UpdatePreprocessor st2 l2) st3 -> branch st1 st3
with branches : NestingState -> NestingState -> NestingState -> Prop :=
| branches_first st1 st2 : branch st1 st2 -> branches st1 st2 st2
| branches_else st1 first st2 l st3 :
    branches st1 first st2 -> directive_of l = DElse -> branch (UpdatePreprocessor st2 l) st3 -> branches st1 first st3.

Scheme branch_min := Minimality for branch Sort Prop
  with branches_min := Minimality for branches Sort Prop.
Combined Scheme branch_mutind from branch_min, branches_min.

(** The states of a section whose [#if] saved the stack [s] on top of [pp]: what is saved, and the stack [#endif] will leave. *)
Definition in_section (s : list block) (pp : list (list block * list block * bool)) (first last : NestingState) : Prop :=
  nesting_wf last /\
  ((v_pp (values last) = (s, [], false) :: pp /\ v_stack (values last) = v_stack (values first)) \/
   v_pp (values last) = (s, v_stack (values first), true) :: pp).

Lemma in_section_else s pp first last l :
  in_section s pp first last -> directive_of l = DElse ->
  nesting_wf (UpdatePreprocessor last l) /\ v_stack (values (UpdatePreprocessor last l)) = s /\
  v_pp (values (UpdatePreprocessor last l)) = (s, v_stack (values first), true) :: pp.
Proof.
  intros [Hw H] Hl. destruct (update_else last l Hw Hl) as [Hw' ->]. split; [done|]. unfold v_directive.
  by destruct H as [[-> ->]| ->].
Qed.

Lemma in_section_endif s pp first last l :
  in_section s pp first last -> directive_of l = DEndif ->
  nesting_wf (UpdatePreprocessor last l) /\ values (UpdatePreprocessor last l) = VState (v_stack (values first)) pp.
Proof.
  intros [Hw H] Hl. destruct (update_endif last l Hw Hl) as [Hw' ->]. split; [done|]. unfold v_directive.
  by destruct H as [[-> ->]| ->].
Qed.

Lemma branches_keep :
  (forall st st', branch st st' -> nesting_wf st -> nesting_wf st' /\ v_pp (values st') = v_pp (values st)) /\
  (forall st first last, branches st first last -> forall s pp, nesting_wf st -> v_pp (values st) = (s, [], false) :: pp ->
     in_section s pp first last).
Proof.
  apply branch_mutind.
  - by intros st Hw.
  - intros st1 st2 st3 He _ IH Hw. destruct (edit_keeps _ _ He Hw) as [Hw2 <-]. by apply IH.
  - intros st1 l1 first st2 l2 st3 H1 _ IHs H2 _ IH Hw. destruct (update_if st1 l1 Hw H1) as [Hw1 V1].
    assert (Hp : v_pp (values (UpdatePreprocessor st1 l1)) = (v_stack (values st1), [], false) :: v_pp (values st1)) by (by rewrite V1).
    destruct (in_section_endif _ _ _ _ _ (IHs _ _ Hw1 Hp) H2) as [Hw2 V2]. destruct (IH Hw2) as [Hw3 ->]. by rewrite V2.
  - intros st1 st2 _ IH s pp Hw Hp. destruct (IH Hw) as [Hw2 P2]. split; [done|]. left. by rewrite P2.
  - intros st1 first st2 l st3 _ IHs Hl _ IH s pp Hw Hp. destruct (in_section_else _ _ _ _ _ (IHs s pp Hw Hp) Hl) as (Hw2 & _ & P2).
    destruct (IH Hw2) as [Hw3 P3]. split; [done|]. right. by rewrite P3.
Qed.

(** C15. Conditional compilation: whatever the branches of a conditional section do to the stack, with [#elif] and [#else] as often as they come and
    with whole conditional sections inside, every further branch begins with the blocks as they were before [#if], and [#endif] leaves the
    blocks as they were at the end of the first branch and forgets the section. *)
Theorem conditional_sections st l1 first last l2 l3
    (Hw : nesting_wf st) (H1 : directive_of l1 = DIf) (Hb : branches (UpdatePreprocessor st l1) first last)
    (H2 : directive_of l2 = DElse) (H3 : directive_of l3 = DEndif) :
  v_stack (values (UpdatePreprocessor last l2)) = v_stack (values st) /\
  values (UpdatePreprocessor last l3) = VState (v_stack (values first)) (v_pp (values st)).
Proof.
  destruct (update_if st l1 Hw H1) as [Hw1 V1].
  assert (Hs : in_section (v_stack (values st)) (v_pp (values st)) first last) by (eapply (proj2 branches_keep); [done..|by rewrite V1]).
  split; [by eapply in_section_else | by eapply in_section_endif].
Qed.

(** ** [Update] always ends, and edits the stack *)

Definition lines_wf (c : CleansedLines) : Prop :=
  num_lines c = len (elided c) /\ length (raw_lines c) = length (elided c).

(** *** The scan for template arguments *)

Lemma template_token s m :
  Match "^[^{};=\[\]\.<>]*(.)" s = Some m -> (1 <= length (group_str m 0) <= length s)%nat.
Proof.
  intros H. eapply Match_sound in H as (st & Hs & ->); [|vm_compute; reflexivity|done]. cbn [rx_re rx_flags] in Hs.
  apply sem_min_len in Hs as Hm. apply sem_moves in Hs as [Ht _]. rewrite state_at_0 in *.
  unfold group_str, group, m_group_span, pos in *. cbn [m_span m_text before after default min_len Nat.add Nat.mul length] in *.
  unfold id. rewrite drop_0, length_take. apply (f_equal length) in Ht. rewrite !length_app, !length_rev in Ht. cbn [length] in Ht. lia.
Qed.

(** The place of a position among all positions of the file. *)
Definition rank (c : CleansedLines) (ln pos : nat) (line : str) : nat :=
  (length (concat (take ln (elided c))) + 2 * ln + Nat.min pos (S (length line)))%nat.

Lemma rank_later c ln ln' pos pos' line line' :
  elided c !! ln = Some line -> (ln < ln')%nat -> (rank c ln pos line < rank c ln' pos' line')%nat.
Proof. intros Hl Hlt. pose proof (take_concat_mono _ _ _ _ Hlt Hl). unfold rank. lia. Qed.

Lemma template_loop_total fuel c ln pos w :
  lines_wf c ->
  (length (concat (elided c)) + 2 * length (elided c) < fuel + rank c ln pos (default [] (elided c !! ln)))%nat ->
  exists b, template_loop fuel c (Z.of_nat ln) (Z.of_nat pos) w = (Ok b, w).
Proof.
  intros [Hnum _]. revert ln pos. induction fuel as [|fuel IH]; intros ln pos Hf; cbn [template_loop];
    (destruct (NumLines c <=? Z.of_nat ln) eqn:En; [by eexists|]); unfold NumLines in En; rewrite Hnum in En; unfold len in En; apply Z.leb_gt in En.
  - exfalso. destruct (lookup_lt_is_Some_2 (elided c) ln) as [line Hl]; [lia|]. rewrite Hl in Hf. cbn [default] in Hf. unfold id, rank in Hf.
    assert (Hle : (ln < length (elided c))%nat) by lia. pose proof (take_concat_mono _ _ _ _ Hle Hl) as Hm.
    rewrite firstn_all in Hm. lia.
  - destruct (lookup_lt_is_Some_2 (elided c) ln) as [line Hl]; [lia|]. rewrite Hl in Hf. cbn [default] in Hf. unfold id in Hf.
    assert (Hnext : exists b, template_loop fuel c (Z.of_nat ln + 1) 0 w = (Ok b, w)).
    { replace (Z.of_nat ln + 1) with (Z.of_nat (S ln)) by lia. apply (IH (S ln) 0%nat).
      pose proof (rank_later c ln (S ln) pos 0 line (default [] (elided c !! S ln)) Hl). lia. }
    rewrite index_nat, Hl. unfold bind at 1. cbn [or_raise]. unfold ret at 1.
    destruct (Match _ (slice_from line (Z.of_nat pos))) as [m|] eqn:Em; [|exact Hnext]. cbv zeta.
    apply template_token in Em. unfold slice_from, bound, len in Em. rewrite length_drop in Em.
    replace (Z.of_nat pos <? 0) with false in Em by (symmetry; apply Z.ltb_ge; lia).
    unfold len. set (k := length (group_str m 0)) in *.
    split_if; [by eexists|]. split_if; [by eexists|]. split_if.
    + replace (Z.of_nat pos + Z.of_nat k + 1) with (Z.of_nat (pos + k + 1)) by lia. split_if; [exact Hnext|].
      apply IH. rewrite Hl. cbn [default]. unfold id, rank in *. lia.
    + replace (Z.of_nat pos + Z.of_nat k - 1) with (Z.of_nat (pos + k - 1)) by lia.
      destruct (lookup_lt_is_Some_2 line (pos + k - 1)) as [o Ho]; [lia|].
      destruct (close_progress c ln (pos + k - 1) line o w Hnum Hl Ho) as (l' & ln' & p & Hc & Hp).
      unfold bind. rewrite Hc. destruct Hp as [->|(k' & j & -> & -> & Hl' & Hj & Hlater)]; [by eexists|].
      replace (Z.of_nat j <? 0) with false by (symmetry; apply Z.ltb_ge; lia).
      apply IH. rewrite Hl'. cbn [default]. unfold id. destruct Hlater as [Hlt|[<- Hlt]].
      * pose proof (rank_later c ln k' pos j line l' Hl Hlt). lia.
      * rewrite Hl in Hl'. injection Hl' as <-. unfold rank in *. lia.
Qed.

Lemma InTemplateArgumentList_ok c ln pos w :
  lines_wf c -> exists b, InTemplateArgumentList c (Z.of_nat ln) (Z.of_nat pos) w = (Ok b, w).
Proof. intros Hw. unfold InTemplateArgumentList. apply template_loop_total; [done | lia]. Qed.

(** [InTemplateArgumentList] ends with an answer from every position of every file, whatever brackets the file holds. *)
Theorem InTemplateArgumentList_total c ln pos w (Hc : lines_wf c) :
  exists b, InTemplateArgumentList c (Z.of_nat ln) (Z.of_nat pos) w = (Ok b, w).
Proof. by apply InTemplateArgumentList_ok. Qed.

(** *** The loops of [Update] *)

Lemma namespace_progress line m :
  Match "^\s*namespace\b\s*([:\w]+)?(.*)$" line = Some m -> (length (group_str m 2) < length line)%nat.
Proof.
  intros H. eapply Match_sound in H as (st & Hs & ->); [|vm_compute; reflexivity|done].
  apply sem_end in Hs as Hend. sem_parts. sem_bounds. unfold set_cap, with_caps in *.
  eapply Nat.le_lt_trans; [eapply group_len; reflexivity|]. unfold pos in *. cbn [before min_len Nat.mul Nat.add] in *. lia.
Qed.

Lemma brace_shape line m :
  Match "^[^{;)}]*([{;)}])(.*)$" line = Some m -> (length (group_str m 2) < length line)%nat.
Proof.
  intros H. eapply Match_sound in H as (st & Hs & ->); [|vm_compute; reflexivity|done].
  apply sem_end in Hs as Hend. sem_parts. sem_bounds. unfold set_cap, with_caps in *.
  eapply Nat.le_lt_trans; [eapply group_len; reflexivity|]. unfold pos in *. cbn [before min_len Nat.mul Nat.add] in *. lia.
Qed.

Section Lines.
Context (N : Z) (HN : 0 < N).

(** Blocks start at lines of the file. *)
Definition starts (st : NestingState) : Prop := forall o b, heap st !! o = Some b -> 0 <= starting_linenum b < N.

(** A sequence of edits that keeps that. *)
Definition reach (st st' : NestingState) : Prop := rtc edit st st' /\ (starts st -> starts st').

Lemma reach_refl st : reach st st.
Proof. by split. Qed.

Lemma reach_trans st1 st2 st3 : reach st1 st2 -> reach st2 st3 -> reach st1 st3.
Proof. intros [H1 S1] [H2 S2]. split; [by etrans | auto]. Qed.

Lemma reach_push b st : 0 <= starting_linenum b < N -> reach st (push b st).
Proof.
  intros Hb. split; [apply rtc_once; constructor|]. intros Hs o b'. unfold push. cbn [heap].
  destruct (decide (next st = o)) as [<-|]; [rewrite lookup_insert_eq; by intros [= <-] | rewrite lookup_insert_ne by done; apply Hs].
Qed.

Lemma reach_pop st : reach st (pop st).
Proof. split; [apply rtc_once; constructor | done]. Qed.

Lemma deref_start st o : starts st -> 0 <= starting_linenum (deref st o) < N.
Proof. intros Hs. unfold deref. destruct (heap st !! o) eqn:E; cbn [default]; [by eapply Hs | cbn; lia]. Qed.

Lemma reach_top f st : (forall b, starting_linenum (f b) = starting_linenum b) -> reach st (upd_top f st).
Proof.
  intros Hf. split; [apply rtc_once; constructor|]. intros Hs. unfold upd_top. destruct (stack st) as [|o s]; [done|].
  intros k b. cbn [heap]. destruct (decide (o = k)) as [<-|]; [|rewrite lookup_insert_ne by done; apply Hs].
  rewrite lookup_insert_eq. intros [= <-]. rewrite Hf. by apply deref_start.
Qed.

(** Replacing the innermost block by one that starts at the same line. *)
Lemma reach_set_top b st : match top st with Some b0 => starting_linenum b = starting_linenum b0 | None => True end ->
  reach st (upd_top (fun _ => b) st).
Proof.
  intros Hb. split; [apply rtc_once; constructor|]. intros Hs. unfold top, upd_top in *. destruct (stack st) as [|o s]; [done|].
  intros k b'. cbn [heap]. destruct (decide (o = k)) as [<-|]; [|rewrite lookup_insert_ne by done; apply Hs].
  rewrite lookup_insert_eq. intros [= <-]. cbn in Hb. rewrite Hb. by apply deref_start.
Qed.

Lemma starts_deepcopy s st : starts st -> starts (snd (deepcopy s st)).
Proof.
  intros Hs. induction s as [|o s IH]; cbn [deepcopy]; [done|]. destruct (deepcopy s st) as [s' st']. cbn [snd] in *.
  intros k b. cbn [heap]. destruct (decide (next st' = k)) as [<-|]; [|rewrite lookup_insert_ne by done; apply IH].
  rewrite lookup_insert_eq. intros [= <-]. by apply deref_start.
Qed.

Lemma starts_directive st line : starts st -> starts (UpdatePreprocessor st line).
Proof.
  intros Hs. rewrite update_preprocessor_eq. destruct (directive_of line); [| | |done].
  - pose proof (starts_deepcopy (stack st) st Hs). by destruct (deepcopy (stack st) st).
  - destruct (pp_stack st) as [|p ps]; [done|]. destruct (negb (seen_else p)).
    + pose proof (starts_deepcopy (stack st) st Hs) as H1. destruct (deepcopy (stack st) st) as [c1 st1]. cbn [stack_before_if].
      pose proof (starts_deepcopy (stack_before_if p) st1 H1) as H2. by destruct (deepcopy (stack_before_if p) st1).
    + pose proof (starts_deepcopy (stack_before_if p) st Hs) as H2. by destruct (deepcopy (stack_before_if p) st).
  - destruct (pp_stack st) as [|p ps]; [done|]. by destruct (seen_else p).
Qed.

Lemma reach_parens st line : reach st (count_parens st line).
Proof.
  unfold count_parens. destruct (stack st) eqn:E; [apply reach_refl|]. apply reach_top. intros b.
  destruct (inline_asm _); try done; by split_if.
Qed.

Section Update.
Context (c : CleansedLines) (ln : nat) (Hc : lines_wf c) (Hln : (ln < length (elided c))%nat) (HNc : len (elided c) <= N).
Context (I : world -> Prop) (X : exn -> Prop) (error : error_fn).
Context (filename : str) (Herr : forall l k n m, message_ok N l k n -> runs I X (error filename l k n m) (fun _ => True)).

Lemma here : 0 <= Z.of_nat ln < N.
Proof. unfold len in HNc. lia. Qed.

Lemma line_at (i : Z) : 0 <= i < len (elided c) -> exists l, index (elided c) i = Some l.
Proof.
  intros Hi. destruct (lookup_lt_is_Some_2 (elided c) (Z.to_nat i)) as [l Hl]; [unfold len in Hi; lia|].
  exists l. rewrite <- (Z2Nat.id i) at 1 by lia. by rewrite index_nat.
Qed.

Lemma this_line : exists l, index (elided c) (Z.of_nat ln) = Some l.
Proof. apply line_at. unfold len. lia. Qed.

Lemma this_raw_line : exists l, index (raw_lines c) (Z.of_nat ln) = Some l.
Proof.
  rewrite index_nat. destruct Hc as [_ Hr]. destruct (lookup_lt_is_Some_2 (raw_lines c) ln) as [l Hl]; [lia|]. eauto.
Qed.

Lemma namespace_loop_runs fuel st line :
  (length line < fuel)%nat ->
  runs I X (namespace_loop fuel st line (Z.of_nat ln)) (fun r => reach st (fst r) /\ (length (snd r) <= length line)%nat).
Proof.
  revert st line. induction fuel as [|fuel IH]; intros st line Hl; [lia|]. cbn [namespace_loop].
  destruct (Match _ line) as [m|] eqn:E; [|apply runs_ret; split; [apply reach_refl | simpl; lia]].
  apply namespace_progress in E. cbv zeta.
  assert (Hrec : forall b l, 0 <= starting_linenum b < N -> (length l <= length (group_str m 2))%nat ->
    runs I X (namespace_loop fuel (push b st) l (Z.of_nat ln)) (fun r => reach st (fst r) /\ (length (snd r) <= length line)%nat)).
  { intros b l Hb Hl'. eapply runs_weaken; [apply IH; lia|]. intros r [Hr Hlen]. split; [|lia].
    eapply reach_trans; [by apply reach_push | exact Hr]. }
  pose proof here. split_if; apply Hrec; try (simpl; lia). apply slice_from_length.
Qed.

Lemma class_end_runs n i d : 0 <= i -> i + Z.of_nat n <= len (elided c) -> runs I X (class_end n c i d) (fun _ => True).
Proof.
  revert i d. induction n as [|n IH]; intros i d Hi Hn; cbn [class_end]; [by apply runs_ret|].
  destruct (line_at i) as [l Hl]; [lia|]. eapply runs_bind; [by eapply runs_or_raise with (Q := fun _ => True)|].
  intros x _. cbv zeta. split_if; [by apply runs_ret | apply IH; lia].
Qed.

Lemma ClassInfo_init_runs name k : runs I X (ClassInfo_init name k c (Z.of_nat ln)) (fun b => 0 <= starting_linenum b < N).
Proof.
  unfold ClassInfo_init. destruct this_raw_line as [r Hr].
  eapply runs_bind; [by eapply runs_or_raise with (Q := fun _ => True)|]. intros x _.
  eapply runs_bind; [apply class_end_runs|].
  - lia.
  - unfold NumLines. destruct Hc as [-> _]. unfold len. lia.
  - intros l _. apply runs_ret. exact here.
Qed.

Lemma class_decl_runs st line : runs I X (class_decl st line c (Z.of_nat ln)) (fun r => reach st (fst r)).
Proof.
  unfold class_decl. destruct (Match _ line) as [m|]; [|apply runs_ret, reach_refl].
  split_if; [|apply runs_ret, reach_refl]. cbv zeta. unfold len.
  eapply runs_bind with (Q := fun _ => True).
  { apply runs_total. intros w. destruct (InTemplateArgumentList_ok c ln (length (group_str m 1)) w Hc) as [b Hb]. eauto. }
  intros b _. split_if; [|apply runs_ret, reach_refl].
  eapply runs_bind; [apply ClassInfo_init_runs|]. intros x Hx. apply runs_ret. by apply reach_push.
Qed.

Lemma access_control_runs st line :
  runs I X (access_control st filename line (Z.of_nat ln) error) (fun st' => reach st st').
Proof.
  unfold access_control. destruct (top st) as [b|]; [|apply runs_ret, reach_refl].
  destruct (kind b); try (apply runs_ret, reach_refl).
  destruct (Match _ line) as [m|]; [|apply runs_ret, reach_refl]. cbv zeta.
  pose proof here. eapply runs_bind with (Q := fun _ => True); [apply runs_when; [apply Herr; solve_message | done]|].
  intros _ _. apply runs_ret. by apply reach_top.
Qed.

Lemma CheckBegin_runs b : runs I X (CheckBegin b c (Z.of_nat ln)) (fun b' => starting_linenum b' = starting_linenum b).
Proof.
  unfold CheckBegin. destruct (kind b); try (by apply runs_ret). destruct this_line as [l Hl].
  eapply runs_bind; [by eapply runs_or_raise with (Q := fun _ => True)|]. intros x _. apply runs_ret. by split_if.
Qed.

Lemma class_check_runs n name i seen :
  i < len (elided c) -> Z.of_nat n <= i + 1 -> runs I X (class_check_loop n filename name c i seen error) (fun _ => True).
Proof.
  revert i seen. induction n as [|n IH]; intros i seen Hi Hn; cbn [class_check_loop]; [by apply runs_ret|].
  destruct (line_at i) as [l Hl]; [lia|]. eapply runs_bind; [by eapply runs_or_raise with (Q := fun _ => True)|].
  intros x _. destruct (Search _ x); [apply runs_when; [apply Herr; solve_message | done] | apply IH; lia].
Qed.

Lemma CheckEnd_runs b :
  0 <= starting_linenum b < N -> runs I X (CheckEnd b filename c (Z.of_nat ln) error) (fun _ => True).
Proof.
  intros Hb. pose proof here. unfold CheckEnd. destruct (kind b); try (by apply runs_ret).
  - unfold ClassInfo_CheckEnd. eapply runs_bind; [apply class_check_runs; unfold len; lia|]. intros _ _.
    destruct this_line as [l Hl]. eapply runs_bind; [by eapply runs_or_raise with (Q := fun _ => True)|].
    intros x _. destruct (Match _ x); [apply runs_when; [apply Herr; solve_message | done] | by apply runs_ret].
  - unfold NamespaceInfo_CheckEnd. destruct this_raw_line as [l Hl].
    eapply runs_bind; [by eapply runs_or_raise with (Q := fun _ => True)|]. intros x _.
    split_if; [by apply runs_ret|]. split_if; apply runs_when; try done; [|split_if]; apply Herr; solve_message.
Qed.

Lemma brace_loop_runs fuel st line :
  starts st -> (length line < fuel)%nat ->
  runs I X (brace_loop fuel st filename line c (Z.of_nat ln) error) (fun st' => reach st st').
Proof.
  pose proof here as Hh. revert st line. induction fuel as [|fuel IH]; intros st line Hs Hl; [lia|]. cbn [brace_loop].
  destruct (Match _ line) as [m|] eqn:E; [|apply runs_ret, reach_refl]. apply brace_shape in E. cbv zeta.
  eapply runs_bind with (Q := fun st' => reach st st').
  - split_if; [|split_if].
    + apply runs_ret. split_if; [by apply reach_top|]. split_if; [apply reach_push; simpl; lia|].
      split_if; [|apply reach_push; simpl; lia].
      eapply reach_trans; [|by apply reach_top]. apply reach_push. simpl. lia.
    + apply runs_ret. split_if; [apply reach_pop | apply reach_refl].
    + destruct (top st) as [b|] eqn:Et; [|apply runs_ret, reach_refl].
      eapply runs_bind; [apply CheckEnd_runs|intros _ _; apply runs_ret, reach_pop].
      unfold top in Et. destruct (head (stack st)); [|done]. injection Et as <-. by apply deref_start.
  - intros st' Hr. eapply runs_weaken; [apply IH; [by apply Hr | lia]|]. intros st2 H2. by eapply reach_trans.
Qed.

Lemma Update_runs st :
  nesting_wf st -> starts st ->
  runs I X (Update st filename c (Z.of_nat ln) error) (fun st' =>
    exists line, elided c !! ln = Some line /\
      rtc edit (UpdatePreprocessor (Nesting (heap st) (next st) (stack st) (head (stack st)) (pp_stack st)) line) st' /\
      nesting_wf st' /\ starts st').
Proof.
  intros Hw Hs. unfold Update. destruct this_line as [line Hl]. rewrite Hl. rewrite index_nat in Hl.
  eapply runs_bind; [by apply runs_or_raise with (Q := fun l => l = line) (a := line)|]. intros ? ->. cbv zeta.
  set (st0 := Nesting (heap st) (next st) (stack st) (head (stack st)) (pp_stack st)).
  set (st1 := UpdatePreprocessor st0 line).
  assert (Hs1 : starts st1) by (by apply starts_directive).
  assert (Hw1 : nesting_wf st1).
  { assert (nesting_wf st0) by done. unfold st1. destruct (directive_of line) eqn:Hd;
      [by apply update_if | by apply update_else | by apply update_endif | by rewrite update_preprocessor_eq, Hd]. }
  eapply runs_bind; [apply namespace_loop_runs; lia|]. intros [st2 l2] [R2 _]. cbn [fst snd] in *.
  eapply runs_bind; [apply class_decl_runs|]. intros [st3 l3] R3. cbn [fst] in R3.
  eapply runs_bind with (Q := fun st' => reach st3 st').
  { split_if; [|apply runs_ret, reach_refl]. destruct (top st3) as [b|] eqn:Et; [|apply runs_ret, reach_refl].
    eapply runs_bind; [apply CheckBegin_runs|]. intros b' Hb. apply runs_ret, reach_set_top. by rewrite Et. }
  intros st4 R4. eapply runs_bind; [apply access_control_runs|]. intros st5 R5.
  assert (R : reach st1 st5).
  { eapply reach_trans; [apply (reach_parens st1 line)|]. eauto using reach_trans. }
  eapply runs_weaken; [apply brace_loop_runs; [by apply R | lia]|]. intros st6 R6.
  exists line. split; [done|]. destruct (reach_trans _ _ _ R R6) as [He Hss].
  split; [done|]. split; [by apply (edits_keep _ _ He) | auto].
Qed.

(** [Update] on a line of a file ends normally from every state that started from the initial one: no loop runs away and no
    exception comes up but those of the error function, whatever the line holds; every message it reports is well
    formed and about a line of the file; and every invariant of the module state that reporting an
    error keeps is kept.  Apart from the preprocessor directive on the line,
    its effect is a sequence of pushes, pops and changes of the innermost block, and it keeps the state well formed. *)
Theorem Update_total st (Hw : nesting_wf st) (Hs : starts st) :
  runs I X (Update st filename c (Z.of_nat ln) error) (fun st' =>
    exists line, elided c !! ln = Some line /\
      rtc edit (UpdatePreprocessor (Nesting (heap st) (next st) (stack st) (head (stack st)) (pp_stack st)) line) st' /\
      nesting_wf st' /\ starts st').
Proof. by apply Update_runs. Qed.
End Update.

Lemma sized_wf c : sized N c -> lines_wf c.
Proof. intros Hc. size_facts. unfold lines_wf, NumLines, len in *. lia. Qed.

Lemma CheckCompletedBlocks_runs I X error st filename :
  Reporter N filename I X error -> starts st -> runs I X (CheckCompletedBlocks st filename error) (fun _ => True).
Proof.
  intros R Hs. apply runs_for_each. intros b Hb%list_elem_of_In%in_rev%list_elem_of_In.
  apply list_elem_of_fmap in Hb as (o & -> & _). pose proof (deref_start st o Hs). runs_walk.
Qed.
End Lines.

End Nesting.

#[export] Hint Resolve CheckCompletedBlocks_runs : runs.

(** ** Witnesses *)

Lemma init_wf : nesting_wf NestingState_init.
Proof. split; [constructor|]. split; [constructor|]. intros o _. apply lookup_empty. Qed.

Lemma init_starts N : starts N NestingState_init.
Proof. intros o b H. cbn in H. by rewrite lookup_empty in H. Qed.

Lemma sample_wf : lines_wf sample.
Proof. by split. Qed.

Lemma nesting_refines_values_witness :
  values (push (BlockInfo_init 3 true) NestingState_init) = VState [BlockInfo_init 3 true] [].
Proof.
  rewrite (proj2 (proj1 (proj2 (nesting_refines_values (U := ascii_db) NestingState_init [] (BlockInfo_init 3 true) id init_wf)))).
  reflexivity.
Defined.

(** A struct whose head differs between the two branches of a conditional section; the second branch holds a section of its own. *)
Lemma conditional_sections_witness :
  let up := UpdatePreprocessor (U := ascii_db) in
  let first := push (BlockInfo_init 2 true) (up NestingState_init "#ifdef SWIG") in
  let inner := push (BlockInfo_init 5 true) (up (push (BlockInfo_init 4 true) (up first "#elif X")) "#if Y") in
  let last := up inner "#endif" in
  v_stack (values (up last "#else")) = [] /\ values (up last "#endif") = VState [BlockInfo_init 2 true] [].
Proof.
  intros up first inner last.
  assert (Hv : v_stack (values first) = [BlockInfo_init 2 true]) by (vm_compute; reflexivity).
  rewrite <- Hv. apply (conditional_sections (U := ascii_db) NestingState_init "#ifdef SWIG" first last "#else" "#endif");
    [exact init_wf | vm_compute; reflexivity | | vm_compute; reflexivity | vm_compute; reflexivity].
  eapply (branches_else _ _ _ "#elif X").
  - apply branches_first. eapply branch_edit; [apply edit_push | apply branch_end].
  - vm_compute. reflexivity.
  - eapply branch_edit; [apply edit_push|]. eapply (branch_section _ "#if Y" _ _ "#endif"); [vm_compute; reflexivity | |vm_compute; reflexivity | apply branch_end].
    apply branches_first. eapply branch_edit; [apply edit_push | apply branch_end].
Defined.

Lemma InTemplateArgumentList_total_witness :
  exists b, InTemplateArgumentList (U := ascii_db) sample 0 1 world_init = (Ok b, world_init).
Proof. exact (InTemplateArgumentList_total (U := ascii_db) sample 0 1 world_init sample_wf). Defined.

Lemma Update_total_witness :
  exists st' w', Update (U := ascii_db) NestingState_init "a.cc" sample 0 no_error world_init = (Ok st', w') /\ nesting_wf st'.
Proof.
  assert (Hln : (0 < length (elided sample))%nat) by (vm_compute; lia).
  assert (Herr : forall l k n m, message_ok 2 l k n -> runs (fun _ => True) (fun _ => False) (no_error (lit "a.cc") l k n m) (fun _ => True))
    by (intros; by apply runs_ret).
  assert (HN : len (elided sample) <= 2) by (vm_compute; discriminate).
  pose proof (Update_total (U := ascii_db) 2 ltac:(lia) sample 0 sample_wf Hln HN _ _ no_error "a.cc" Herr NestingState_init init_wf (init_starts 2) world_init
    Logic.I) as [_ H]. revert H.
  destruct (Update _ _ _ _ _ _) as [[st'|e] w'] eqn:E; [|by intros []].
  intros (line & _ & _ & Hw & _). exists st', w'. split; [reflexivity | exact Hw].
Defined.
