(* ===== verification/Spacing.v ===== *)
(** * Checks of spacing

    Models the check functions of cpplint.py from [CheckSpacingForFunctionCall] to [GetPreviousNonBlankLine] that look at white
    space: around calls, operators, brackets, commas and braces, in comments, and blank lines.  All of them read the views of a file
    and report through the [error] argument. *)

From S2P Require Import Prelude PyStr PyRe PyEff Tables Regexps Lint Cleanse Expr Includes Paths FileChecks Nesting.

Local Open Scope Z_scope.

(** [lines[i]] *)
Definition get_line (lines : list str) (i : Z) : P str := or_raise IndexError (index lines i).

(** [range(lo, hi)] *)
Definition zrange (lo hi : Z) : list Z := map (fun n => lo + Z.of_nat n) (seq 0 (Z.to_nat (hi - lo))).

Section Spacing.
Context {U : UnicodeDB}.

(** ** Blank lines *)

Definition IsBlankLine (line : str) : bool := negb (nonempty line) || isspace line.

(** [while i >= 0 and skip(lines[i]): i -= 1], in at most [n] rounds *)
Fixpoint scan_back (n : nat) (skip : str -> bool) (lines : list str) (i : Z) : P Z :=
  if i <? 0 then ret i else
  match n with
  | O => raise OutOfFuel
  | S n' => line <- get_line lines i;; if skip line then scan_back n' skip lines (i - 1) else ret i
  end.

Definition GetPreviousNonBlankLine (clean_lines : CleansedLines) (linenum : Z) : P (str * Z) :=
  prevlinenum <- scan_back (Z.to_nat linenum) IsBlankLine (elided clean_lines) (linenum - 1);;
  if prevlinenum <? 0 then ret ([], -1)
  else prevline <- get_line (elided clean_lines) prevlinenum;; ret (prevline, prevlinenum).

(** ** Function calls *)

(** The text inside the parentheses of a control structure, or the whole line. *)
Definition call_text (line : str) : str :=
  match List.find (fun p => SearchB p line)
          (lits ["\bif\s*\((.*)\)\s*{"; "\bfor\s*\((.*)\)\s*{"; "\bwhile\s*\((.*)\)\s*[{;]"; "\bswitch\s*\((.*)\)\s*{"]) with
  | Some pattern => match Search pattern line with Some m => group_str m 1 | None => line end
  | None => line
  end.

Definition CheckSpacingForFunctionCall (filename : str) (clean_lines : CleansedLines) (linenum : Z) (error : error_fn) : P unit :=
  line <- get_line (elided clean_lines) linenum;;
  let fncall := call_text line in
  when (negb (SearchB "\b(if|for|while|switch|return|new|delete|catch|sizeof)\b" fncall)
        && negb (SearchB " \([^)]+\)\([^)]*(\)|,$)" fncall)
        && negb (SearchB " \([^)]+\)\[[^\]]+\]" fncall))
    ((if SearchB "\w\s*\(\s(?!\s*\\$)" fncall then
        error filename (Some linenum) "whitespace/parens" 4 "Extra space after ( in function call"
      else when (SearchB "\(\s+(?!(\s*\\)|\()" fncall)
        (error filename (Some linenum) "whitespace/parens" 2 "Extra space after ("));;
     when (SearchB "\w\s+\(" fncall
           && negb (SearchB "_{0,2}asm_{0,2}\s+_{0,2}volatile_{0,2}\s+\(" fncall)
           && negb (SearchB "#\s*define|typedef|using\s+\w+\s*=" fncall)
           && negb (SearchB "\w\s+\((\w+::)*\*\w+\)\(" fncall)
           && negb (SearchB "\bcase\s+\(" fncall))
       (if SearchB "\boperator_*\b" line then
          error filename (Some linenum) "whitespace/parens" 0 "Extra space before ( in function call"
        else error filename (Some linenum) "whitespace/parens" 4 "Extra space before ( in function call");;
     when (SearchB "[^)]\s+\)\s*[^{\s]" fncall)
       (if SearchB "^\s+\)" fncall then
          error filename (Some linenum) "whitespace/parens" 2 "Closing ) should be moved to the previous line"
        else error filename (Some linenum) "whitespace/parens" 2 "Extra space before )")).

(** ** Comments *)

Definition _RE_PATTERN_TODO : str := "^//(\s*)TODO(\(.+?\))?:?(\s|$)?".

(** [line[i] not in string.whitespace] *)
Definition no_space_at (line : str) (i : Z) : P bool :=
  c <- or_raise IndexError (index line i);; ret (negb (in_chars string_whitespace c)).

(** A comment needs two spaces before it, or one where the next line starts in its column. *)
Definition close_comment (line : str) (commentpos next_line_start : Z) : P bool :=
  if MatchB "^.*{ *//" line && (next_line_start =? commentpos) then ret false
  else
    one <- (if 1 <=? commentpos then no_space_at line (commentpos - 1) else ret false);;
    if one : bool then ret true
    else if 2 <=? commentpos then no_space_at line (commentpos - 2) else ret false.

Definition CheckComment (line filename : str) (linenum next_line_start : Z) (error : error_fn) : P unit :=
  let commentpos := find line "//" in
  when (negb (commentpos =? -1))
    (when (count (ReplaceAll "\\." [] (slice line 0 commentpos)) "`" mod 2 =? 0)
       (close <- close_comment line commentpos next_line_start;;
        when close
          (error filename (Some linenum) "whitespace/comments" 2
             "At least two spaces is best between code and comments");;
        let comment := slice_from line commentpos in
        match Match _RE_PATTERN_TODO comment with
        | Some m =>
            when (1 <? len (group_str m 1))
              (error filename (Some linenum) "whitespace/todo" 2 "Too many spaces before TODO");;
            when (negb (nonempty (group_str m 2)))
              (error filename (Some linenum) "readability/todo" 2
                 ("Missing username in TODO; it should look like " ++ "`// TODO(my_username): Stuff.`"));;
            when (match group m 3 with Some s => negb (str_eqb s " ") && nonempty s | None => true end)
              (error filename (Some linenum) "whitespace/todo" 2 "TODO(my_username) should be followed by a space")
        | None => ret tt
        end;;
        when (MatchB "//[^ ]*\w" comment && negb (MatchB "(///|//\!)(\s+|$)" comment))
          (error filename (Some linenum) "whitespace/comments" 4 "Should have a space between // and comment"))).

(** ** Blank lines around blocks, comments, brackets *)

(** A blank line after the head of a function whose parameters or initializers are on lines of their own. *)
Definition blank_line_exception (elided : list str) (prev_line : str) (linenum : Z) : P bool :=
  if MatchB " {6}\w" prev_line then
    search_position <- scan_back (Z.to_nat (linenum - 1)) (MatchB " {6}\w") elided (linenum - 2);;
    if 0 <=? search_position then
      l <- get_line elided search_position;; ret (str_eqb (slice l 0 5) "    :")
    else ret false
  else ret (MatchB " {4}\w[^\(]*\)\s*(const\s*)?(\{\s*$|:)" prev_line || MatchB " {4}:" prev_line).

Definition check_blank_line (filename : str) (clean_lines : CleansedLines) (linenum : Z) (error : error_fn) : P unit :=
  let raw := lines_without_raw_strings clean_lines in
  prev_line <- get_line (elided clean_lines) (linenum - 1);;
  let prevbrace := rfind prev_line "{" in
  when (negb (prevbrace =? -1) && (find (slice_from prev_line prevbrace) "}" =? -1))
    (exception <- blank_line_exception (elided clean_lines) prev_line linenum;;
     when (negb exception)
       (error filename (Some linenum) "whitespace/blank_line" 2
          ("Redundant blank line at the start of a code block " ++ "should be deleted.")));;
  when (linenum + 1 <? NumLines clean_lines)
    (next_line <- get_line raw (linenum + 1);;
     when (nonempty next_line && MatchB "\s*}" next_line && (find next_line "} else " =? -1))
       (error filename (Some linenum) "whitespace/blank_line" 3
          ("Redundant blank line at the end of a code block " ++ "should be deleted.")));;
  match Match "\s*(public|protected|private):" prev_line with
  | Some matched =>
      error filename (Some linenum) "whitespace/blank_line" 3
        ("Do not leave a blank line after `" ++ group_str matched 1 ++ ":`")
  | None => ret tt
  end.

Definition CheckSpacing (filename : str) (clean_lines : CleansedLines) (linenum : Z) (nesting_state : NestingState)
    (error : error_fn) : P unit :=
  let raw := lines_without_raw_strings clean_lines in
  line <- get_line raw linenum;;
  when (IsBlankLine line && negb (InNamespaceBody nesting_state) && negb (InExternC nesting_state))
    (check_blank_line filename clean_lines linenum error);;
  next_line_start <- (if linenum + 1 <? NumLines clean_lines then
                        next_line <- get_line raw (linenum + 1);;
                        ret (len next_line - len (lstrip next_line))
                      else ret 0);;
  CheckComment line filename linenum next_line_start error;;
  line <- get_line (elided clean_lines) linenum;;
  when (SearchB "\w\s+\[" line && negb (SearchB "(?:auto&?|delete|return)\s+\[" line))
    (error filename (Some linenum) "whitespace/braces" 5 "Extra space before [");;
  when (SearchB "for *\(.*[^:]:[^: ]" line || SearchB "for *\(.*[^: ]:[^:]" line)
    (error filename (Some linenum) "whitespace/forcolon" 2 "Missing space around colon in range-based for loop").

(** ** Operators *)

Definition _RE_OPERATOR : str := "^(.*\boperator\b)(\S+)(\s*\(.*)$".

(** The symbols of operator functions are covered with underscores, one for one. *)
Fixpoint hide_operators (fuel : nat) (line : str) : option str :=
  match fuel with
  | O => None
  | S f =>
      match Match _RE_OPERATOR line with
      | Some m => hide_operators f (group_str m 1 ++ replicate (length (group_str m 2)) (ch "_") ++ group_str m 3)
      | None => Some line
      end
  end.

(** The operators [<] and [>] without spaces: brackets of a template argument list are allowed. *)
Definition check_angles (filename line : str) (clean_lines : CleansedLines) (linenum : Z) (error : error_fn) : P unit :=
  match Match "^(.*[^\s<])<[^\s=<,]" line with
  | Some m =>
      r <- CloseExpression clean_lines linenum (len (group_str m 1));;
      when (snd r <=? -1) (error filename (Some linenum) "whitespace/operators" 3 "Missing spaces around <")
  | None => ret tt
  end;;
  match Match "^(.*[^-\s>])>[^\s=>,]" line with
  | Some m =>
      r <- ReverseCloseExpression clean_lines linenum (len (group_str m 1));;
      when (snd r <=? -1) (error filename (Some linenum) "whitespace/operators" 3 "Missing spaces around >")
  | None => ret tt
  end.

Definition CheckOperatorSpacing (filename : str) (clean_lines : CleansedLines) (linenum : Z) (error : error_fn) : P unit :=
  line <- get_line (elided clean_lines) linenum;;
  line <- or_raise OutOfFuel (hide_operators (S (length line)) line);;
  when ((SearchB "[\w.]=" line || SearchB "=[\w.]" line)
        && negb (SearchB "\b(if|while|for) " line)
        && negb (SearchB "(>=|<=|==|!=|&=|\^=|\|=|\+=|\*=|\/=|\%=)" line)
        && negb (SearchB "operator=" line))
    (error filename (Some linenum) "whitespace/operators" 4 "Missing spaces around =");;
  match Search "[^<>=!\s](==|!=|<=|>=|\|\|)[^<>=!\s,;\)]" line with
  | Some m =>
      error filename (Some linenum) "whitespace/operators" 3 ("Missing spaces around " ++ group_str m 1)
  | None =>
      when (negb (MatchB "#.*include" line)) (check_angles filename line clean_lines linenum error)
  end;;
  match Search "(operator|[^\s(<])(?:L|UL|LL|ULL|l|ul|ll|ull)?<<([^\s,=<])" line with
  | Some m =>
      when (negb (isdigit (group_str m 1) && isdigit (group_str m 2))
            && negb (str_eqb (group_str m 1) "operator" && str_eqb (group_str m 2) ";"))
        (error filename (Some linenum) "whitespace/operators" 3 "Missing spaces around <<")
  | None => ret tt
  end;;
  when (SearchB ">>[a-zA-Z_]" line)
    (error filename (Some linenum) "whitespace/operators" 3 "Missing spaces around >>");;
  match Search "(!\s|~\s|[\s]--[\s;]|[\s]\+\+[\s;])" line with
  | Some m =>
      error filename (Some linenum) "whitespace/operators" 4 ("Extra space for operator " ++ group_str m 1)
  | None => ret tt
  end.

(** ** Parentheses, commas, semicolons *)

Definition CheckParenthesisSpacing (filename : str) (clean_lines : CleansedLines) (linenum : Z) (error : error_fn) : P unit :=
  line <- get_line (elided clean_lines) linenum;;
  match Search " (if\(|for\(|while\(|switch\()" line with
  | Some m =>
      error filename (Some linenum) "whitespace/parens" 5 ("Missing space before ( in " ++ group_str m 1)
  | None => ret tt
  end;;
  match Search ("\b(if|for|while|switch)\s*" ++ "\(([ ]*)(.).*[^ ]+([ ]*)\)\s*{\s*$") line with
  | Some m =>
      when (negb (len (group_str m 2) =? len (group_str m 4)))
        (when (negb (str_eqb (group_str m 3) ";" && (len (group_str m 2) =? 1 + len (group_str m 4))
                     || negb (nonempty (group_str m 2)) && SearchB "\bfor\s*\(.*; \)" line))
           (error filename (Some linenum) "whitespace/parens" 5
              ("Mismatching spaces inside () in " ++ group_str m 1)));;
      when (negb ((len (group_str m 2) =? 0) || (len (group_str m 2) =? 1)))
        (error filename (Some linenum) "whitespace/parens" 5
           ("Should have zero or one spaces inside ( and ) in " ++ group_str m 1))
  | None => ret tt
  end.

Definition CheckCommaSpacing (filename : str) (clean_lines : CleansedLines) (linenum : Z) (error : error_fn) : P unit :=
  let raw := lines_without_raw_strings clean_lines in
  line <- get_line (elided clean_lines) linenum;;
  when (SearchB ",[^,\s]" (ReplaceAll "\boperator\s*,\s*\(" "F(" line))
    (raw_line <- get_line raw linenum;;
     when (SearchB ",[^,\s]" raw_line)
       (error filename (Some linenum) "whitespace/comma" 3 "Missing space after ,"));;
  when (SearchB ";[^\s};\\)/]" line)
    (error filename (Some linenum) "whitespace/semicolon" 3 "Missing space after ;").

(** ** Braces *)

(** [while first_line >= next_block_start] without the word [template] on the line, in at most [n] rounds *)
Fixpoint template_above (n : nat) (elided : list str) (first_line next_block_start : Z) : P Z :=
  if first_line <? next_block_start then ret first_line else
  match n with
  | O => raise OutOfFuel
  | S n' =>
      line <- get_line elided first_line;;
      if 0 <=? find line "template" then ret first_line else template_above n' elided (first_line - 1) next_block_start
  end.

(** Whether one of the given lines matches. *)
Fixpoint any_line (pattern : str) (lines : list str) (ks : list Z) : P bool :=
  match ks with
  | [] => ret false
  | i :: ks' => line <- get_line lines i;; if SearchB pattern line then ret true else any_line pattern lines ks'
  end.

(** The walk up the nesting stack. *)
Fixpoint type_in_blocks (typename_pattern : str) (elided : list str) (blocks : list block) : P bool :=
  match blocks with
  | [] => ret false
  | b :: blocks' =>
      if is_namespace b then ret false
      else
        let last_line := starting_linenum b in
        let next_block_start := match blocks' with b' :: _ => starting_linenum b' | [] => 0 end in
        first_line <- template_above (Z.to_nat (last_line - next_block_start + 1)) elided last_line next_block_start;;
        if first_line <? next_block_start then type_in_blocks typename_pattern elided blocks'
        else
          found <- any_line typename_pattern elided (zrange first_line (last_line + 1));;
          if found : bool then ret true else type_in_blocks typename_pattern elided blocks'
  end.

Definition _TYPES : str :=
  "^(?:" ++ "(char(16_t|32_t)?)|wchar_t|" ++ "bool|short|int|long|signed|unsigned|float|double|"
  ++ "(ptrdiff_t|size_t|max_align_t|nullptr_t)|" ++ "(u?int(_fast|_least)?(8|16|32|64)_t)|"
  ++ "(u?int(max|ptr)_t)|" ++ ")$".

Definition _IsType (clean_lines : CleansedLines) (nesting_state : NestingState) (expr : str) : P bool :=
  let token := match Match "^.*(\b\S+)$" expr with Some m => group_str m 1 | None => expr end in
  if MatchB _TYPES token then ret true
  else
    let typename_pattern := "\b(?:typename|class|struct)\s+" ++ re_escape token ++ "\b" in
    type_in_blocks typename_pattern (elided clean_lines) (map (deref nesting_state) (stack nesting_state)).

(** What follows the brace that closes the one at [pos], with up to two more lines. *)
Definition text_after_brace (clean_lines : CleansedLines) (linenum pos : Z) : P str :=
  r <- CloseExpression clean_lines linenum pos;;
  let '(endline, endlinenum, endpos) := r in
  fold_m (fun trailing_text offset => l <- get_line (elided clean_lines) offset;; ret (trailing_text ++ l))
    (zrange (endlinenum + 1) (Z.min (endlinenum + 3) (NumLines clean_lines - 1)))
    (if -1 <? endpos then slice_from endline endpos else []).

Definition CheckBracesSpacing (filename : str) (clean_lines : CleansedLines) (linenum : Z) (nesting_state : NestingState)
    (error : error_fn) : P unit :=
  line <- get_line (elided clean_lines) linenum;;
  match Match "^(.*[^ ({>]){" line with
  | Some m =>
      trailing_text <- text_after_brace clean_lines linenum (len (group_str m 1));;
      when (negb (MatchB "^[\s}]*[{.;,)<>\]:]" trailing_text))
        (t <- _IsType clean_lines nesting_state (group_str m 1);;
         when (negb t) (error filename (Some linenum) "whitespace/braces" 5 "Missing space before {"))
  | None => ret tt
  end;;
  when (SearchB "}else" line)
    (error filename (Some linenum) "whitespace/braces" 5 "Missing space before else");;
  if SearchB ":\s*;\s*$" line then
    error filename (Some linenum) "whitespace/semicolon" 5 "Semicolon defining empty statement. Use {} instead."
  else if SearchB "^\s*;\s*$" line then
    error filename (Some linenum) "whitespace/semicolon" 5
      ("Line contains only semicolon. If this should be an empty statement, " ++ "use {} instead.")
  else when (SearchB "\s+;\s*$" line && negb (SearchB "\bfor\b" line))
    (error filename (Some linenum) "whitespace/semicolon" 5
       ("Extra space before last semicolon. If this should be an empty " ++ "statement, use {} instead.")).

Definition IsDecltype (clean_lines : CleansedLines) (linenum column : Z) : P bool :=
  r <- ReverseCloseExpression clean_lines linenum column;;
  let '(text, _, start_col) := r in
  if start_col <? 0 then ret false else ret (SearchB "\bdecltype\s*$" (slice text 0 start_col)).

(** ** Sections of a class *)

(** The first line from the start of the class on that ends in an opening brace, or else its start. *)
Fixpoint class_head_end (lines : list str) (ks : list Z) (start : Z) : P Z :=
  match ks with
  | [] => ret start
  | i :: ks' => line <- get_line lines i;; if SearchB "\{\s*$" line then ret i else class_head_end lines ks' start
  end.

Definition class_last_line (b : block) : Z := match kind b with _ClassInfo _ _ _ _ _ l => l | _ => 0 end.

Definition CheckSectionSpacing (filename : str) (clean_lines : CleansedLines) (class_info : block) (linenum : Z)
    (error : error_fn) : P unit :=
  if (class_last_line class_info - starting_linenum class_info <=? 24) || (linenum <=? starting_linenum class_info)
  then ret tt
  else
    line <- get_line (lines clean_lines) linenum;;
    match Match "\s*(public|protected|private):" line with
    | None => ret tt
    | Some matched =>
        prev_line <- get_line (lines clean_lines) (linenum - 1);;
        when (negb (IsBlankLine prev_line) && negb (SearchB "\b(class|struct)\b" prev_line)
              && negb (SearchB "\\$" prev_line))
          (end_class_head <- class_head_end (lines clean_lines) (zrange (starting_linenum class_info) linenum)
                               (starting_linenum class_info);;
           when (end_class_head <? linenum - 1)
             (error filename (Some linenum) "whitespace/blank_line" 3
                ("`" ++ group_str matched 1 ++ ":` should be preceded by a blank line")))
    end.

(** ** Operators: the loop ends, and every column keeps its place *)

(** What is not a word character. *)
Definition symbols (s : str) : nat := length (List.filter (fun c => negb (is_word c)) s).

Lemma symbols_app s t : symbols (s ++ t) = (symbols s + symbols t)%nat.
Proof. unfold symbols. by rewrite List.filter_app, length_app. Qed.

Lemma symbols_underscores n : symbols (replicate n (ch "_")) = 0%nat.
Proof. unfold symbols. by induction n. Qed.

Lemma symbols_le s : (symbols s <= length s)%nat.
Proof. unfold symbols. apply List.filter_length_le. Qed.

Lemma eol_rest fl st : f_multiline fl = false -> at_eol fl st = true -> after st = [] \/ after st = nl.
Proof.
  intros Hf. unfold at_eol. rewrite Hf. destruct (after st) as [|c [|d r]]; [auto| |done].
  intros ->%N.eqb_eq. auto.
Qed.

(** The word [operator] ends where a character follows that is not part of a word. *)
Lemma operator_shape line m :
  Match _RE_OPERATOR line = Some m ->
  exists c op rest, is_word c = false /\ group_str m 2 = c :: op /\ line = group_str m 1 ++ (c :: op) ++ group_str m 3 ++ rest /\
    (rest = [] \/ rest = nl).
Proof.
  intros H. eapply Match_sound in H as (st & Hs & ->); [|vm_compute; reflexivity|done]. cbn [rx_re rx_flags] in Hs.
  destruct Hs as (s0 & [_ ->] & s1 & (g1 & H1 & ->) & s2 & (g2 & H2 & ->) & s3 & (g3 & H3 & ->) & s4 & [Heol ->] & Hend).
  cbn [sem] in Hend. subst st.
  assert (Hw : at_word_boundary g1 = true /\ exists b, before g1 = ch "r" :: b).
  { clear - H1. sem_parts. split; [done|]. cbn [sem] in Hsem8. unfold step1 in Hsem8. destruct (after st7) as [|c r]; [done|].
    destruct (eq_char _ c 114) eqn:Ec; [|done]. injection Hsem8 as <-. apply N.eqb_eq in Ec as ->. eauto. }
  sem_words. destruct Hw as [Hw [b Hb]]. apply eol_rest in Heol; [|done]. cbn [after] in Heol.
  apply spells_min_len in H2. destruct w0 as [|c op]; [cbn in H2; lia|]. exists c, op, rest. split; [|split; [group_is|split; [|done]]].
  - unfold at_word_boundary in Hw. cbn [before after app] in Hw. rewrite Hb in Hw. by destruct (is_word c).
  - f_equal; [symmetry; group_is | f_equal; f_equal; symmetry; group_is].
Qed.

(** The same columns, some of them covered. *)
Definition covered (line out : str) : Prop := Forall2 (fun c d => d = c \/ d = ch "_") line out.

Lemma covered_refl s : covered s s.
Proof. induction s; constructor; auto. Qed.

Lemma covered_trans s t u : covered s t -> covered t u -> covered s u.
Proof.
  intros H. revert u. induction H as [|a b s t Hab H IH]; intros u Hu; inversion Hu; subst; constructor; [|by apply IH].
  destruct Hab as [-> | ->]; [done|]. match goal with Hx : _ \/ _ |- _ => destruct Hx as [-> | ->]; auto end.
Qed.

Lemma covered_underscores s : covered s (replicate (length s) (ch "_")).
Proof. induction s; constructor; auto. Qed.

Lemma hide_operators_ok fuel line :
  (symbols line < fuel)%nat -> c_nl ∉ line ->
  exists out, hide_operators fuel line = Some out /\ covered line out /\ Match _RE_OPERATOR out = None.
Proof.
  revert line. induction fuel as [|fuel IH]; intros line Hf Hn; [lia|]. cbn [hide_operators].
  destruct (Match _RE_OPERATOR line) as [m|] eqn:E; [|exists line; split; [done | split; [apply covered_refl | done]]].
  apply operator_shape in E as (c & op & rest & Hc & Hg & -> & Hr). rewrite Hg.
  assert (rest = []) as ->.
  { destruct Hr as [->| ->]; [done|]. exfalso. apply Hn. rewrite !elem_of_app. right. right. right. by left. }
  rewrite app_nil_r in *. set (g1 := group_str m 1) in *. set (g3 := group_str m 3) in *.
  assert (Hcov : covered (g1 ++ (c :: op) ++ g3) (g1 ++ replicate (length (c :: op)) (ch "_") ++ g3)).
  { apply Forall2_app; [apply covered_refl|]. apply Forall2_app; [apply covered_underscores | apply covered_refl]. }
  destruct (IH (g1 ++ replicate (length (c :: op)) (ch "_") ++ g3)) as (out & Ho & Hc2 & Hm).
  - rewrite !symbols_app, symbols_underscores in *. unfold symbols at 2 in Hf. cbn [List.filter] in Hf. rewrite Hc in Hf. cbn in Hf. lia.
  - intros Hin. apply Hn. rewrite !elem_of_app in *. destruct Hin as [?|[[Hin _]%elem_of_replicate|?]]; auto; done.
  - exists out. split; [done|]. split; [by eapply covered_trans | done].
Qed.

(** C24. Hiding operator names ends on every line, and it only covers: the result has as many characters as the line, each of them the one
    of the line or an underscore, so that the columns the later checks compute are columns of the line; and no symbol of an operator
    function is left. *)
Theorem hide_operators_spec line (Hn : c_nl ∉ line) :
  exists out, hide_operators (S (length line)) line = Some out /\
    Forall2 (fun c d => d = c \/ d = ch "_") line out /\ Match _RE_OPERATOR out = None.
Proof. apply hide_operators_ok; [|done]. pose proof (symbols_le line). lia. Qed.

Lemma hide_operators_total fuel line : (symbols line < fuel)%nat -> is_Some (hide_operators fuel line).
Proof.
  revert line. induction fuel as [|fuel IH]; intros line Hf; [lia|]. cbn [hide_operators].
  destruct (Match _RE_OPERATOR line) as [m|] eqn:E; [|eauto]. apply IH.
  apply operator_shape in E as (c & op & rest & Hc & -> & -> & _). rewrite !symbols_app, symbols_underscores in *.
  unfold symbols at 2 in Hf. cbn [List.filter] in Hf. rewrite Hc in Hf. cbn in Hf. lia.
Qed.

(** ** Triples *)

Lemma get_line_runs I X lines i : - len lines <= i < len lines -> runs I X (get_line lines i) (fun l => index lines i = Some l).
Proof. apply runs_index. Qed.
#[local] Hint Resolve get_line_runs : runs.

Lemma zrange_cons lo hi : lo < hi -> zrange lo hi = lo :: zrange (lo + 1) hi.
Proof.
  intros H. unfold zrange. replace (Z.to_nat (hi - lo)) with (S (Z.to_nat (hi - (lo + 1)))) by lia. cbn [seq map].
  f_equal; [lia|]. rewrite <- seq_shift, map_map. apply map_ext. intros n. lia.
Qed.

Lemma elem_of_zrange lo hi i : i ∈ zrange lo hi -> lo <= i < hi.
Proof. unfold zrange. intros (n & -> & Hn%elem_of_seq)%list_elem_of_fmap. lia. Qed.

Lemma scan_back_runs I X n skip lines i :
  i < Z.of_nat n -> i < len lines -> runs I X (scan_back n skip lines i) (fun k => k <= i).
Proof.
  revert i. induction n as [|n IH]; intros i Hi Hl; cbn [scan_back]; (destruct (i <? 0) eqn:Ei; [apply runs_ret; lia|]); [lia|].
  eapply runs_bind; [apply get_line_runs; lia|]. intros l _. split_if; [|apply runs_ret; lia].
  eapply runs_weaken; [apply IH; lia|]. intros k Hk. cbv beta in *. lia.
Qed.

Lemma hide_operators_shorter fuel line out : hide_operators fuel line = Some out -> (length out <= length line)%nat.
Proof.
  revert line. induction fuel as [|fuel IH]; intros line; cbn [hide_operators]; [done|].
  destruct (Match _RE_OPERATOR line) as [m|] eqn:E; [|intros [= <-]; lia]. intros H%IH.
  apply operator_shape in E as (c & op & rest & _ & Hg & -> & _). rewrite Hg in H.
  rewrite !length_app, length_replicate in *. lia.
Qed.

(** The columns at which brackets are looked up. *)
Lemma brace_pos line m : Match "^(.*[^ ({>]){" line = Some m -> 0 <= len (group_str m 1) < len line.
Proof. group_range. Qed.

Lemma less_pos line m : Match "^(.*[^\s<])<[^\s=<,]" line = Some m -> 0 <= len (group_str m 1) < len line.
Proof. group_range. Qed.

Lemma greater_pos line m : Match "^(.*[^-\s>])>[^\s=>,]" line = Some m -> 0 <= len (group_str m 1) < len line.
Proof. group_range. Qed.

Section SpacingChecks.
Context (N : Z) (filename : str) (I : world -> Prop) (X : exn -> Prop) (error : error_fn) {R : Reporter N filename I X error}.
Context (c : CleansedLines) (linenum : Z) (Hc : sized N c) (Hl : 0 <= linenum < N).

Lemma GetPreviousNonBlankLine_runs : runs I X (GetPreviousNonBlankLine c linenum) (fun _ => True).
Proof.
  unfold GetPreviousNonBlankLine. eapply runs_bind; [apply scan_back_runs; line_lia|]. intros i Hi. cbv beta in Hi. runs_walk.
Qed.

Lemma CheckSpacingForFunctionCall_runs : runs I X (CheckSpacingForFunctionCall filename c linenum error) (fun _ => True).
Proof. unfold CheckSpacingForFunctionCall. runs_walk. Qed.

Lemma CheckComment_runs line k : runs I X (CheckComment line filename linenum k error) (fun _ => True).
Proof.
  assert (Hp : forall i, 0 <= i < len line -> runs I X (no_space_at line i) (fun _ => True)) by (unfold no_space_at; intros; runs_walk).
  pose proof (find_fits line "//") as Hf. change (len (lit "//")) with 2 in Hf.
  assert (Hcc : find line "//" <> -1 -> runs I X (close_comment line (find line "//") k) (fun _ => True)).
  { intros Hn. unfold close_comment. runs_walk; apply Hp; lia. }
  unfold CheckComment. cbv zeta. apply runs_when_cond. intros Hn. specialize (Hcc ltac:(lia)). runs_walk.
Qed.

Lemma blank_line_exception_runs els p : len els = N -> runs I X (blank_line_exception els p linenum) (fun _ => True).
Proof.
  intros He. unfold blank_line_exception. split_if; [|by apply runs_ret].
  eapply runs_bind; [apply scan_back_runs; lia|]. intros i Hi. cbv beta in Hi. runs_walk.
Qed.

Lemma CheckSpacing_runs st : runs I X (CheckSpacing filename c linenum st error) (fun _ => True).
Proof.
  pose proof CheckComment_runs. pose proof (blank_line_exception_runs (elided c)) as Hb.
  rewrite (sized_elided _ _ Hc) in Hb. unfold CheckSpacing, check_blank_line. runs_walk.
Qed.

Lemma check_angles_runs line out :
  index (elided c) linenum = Some line -> len out <= len line ->
  runs I X (check_angles filename out c linenum error) (fun _ => True).
Proof.
  intros Hi Ho. unfold check_angles. eapply (runs_bind _ _ _ _ (fun _ => True)); [|intros _ _].
  - destruct (Match _ out) as [m|] eqn:E; [|by apply runs_ret]. apply less_pos in E.
    eapply runs_bind; [eapply CloseExpression_runs; [done.. | lia]|]. intros r _. runs_walk.
  - destruct (Match _ out) as [m|] eqn:E; [|by apply runs_ret]. apply greater_pos in E.
    eapply runs_bind; [eapply ReverseCloseExpression_runs; [done.. | lia]|]. intros r _. runs_walk.
Qed.

Lemma CheckOperatorSpacing_runs : runs I X (CheckOperatorSpacing filename c linenum error) (fun _ => True).
Proof.
  unfold CheckOperatorSpacing. eapply runs_bind; [eauto with runs|]. intros line Hi. cbv beta in Hi.
  destruct (hide_operators_total (S (length line)) line) as [out Ho]; [pose proof (symbols_le line); lia|].
  rewrite Ho. eapply runs_bind; [by eapply (runs_or_raise _ _ _ _ (fun o => o = out))|]. intros ? ->.
  assert (Hlen : len out <= len line) by (apply hide_operators_shorter in Ho; unfold len; lia).
  pose proof (check_angles_runs line out Hi Hlen). runs_walk.
Qed.

Lemma CheckParenthesisSpacing_runs : runs I X (CheckParenthesisSpacing filename c linenum error) (fun _ => True).
Proof. unfold CheckParenthesisSpacing. runs_walk. Qed.

Lemma CheckCommaSpacing_runs : runs I X (CheckCommaSpacing filename c linenum error) (fun _ => True).
Proof. unfold CheckCommaSpacing. runs_walk. Qed.

Lemma any_line_runs p lines ks :
  (forall i, i ∈ ks -> 0 <= i < len lines) -> runs I X (any_line p lines ks) (fun _ => True).
Proof.
  induction ks as [|i ks IH]; intros Hk; cbn [any_line]; [by apply runs_ret|].
  pose proof (Hk i ltac:(left)). assert (forall j, j ∈ ks -> 0 <= j < len lines) by (intros; apply Hk; by right).
  eapply runs_bind; [apply get_line_runs; lia|]. intros l _. split_if; [by apply runs_ret | auto].
Qed.

Lemma template_above_runs n els a b :
  a - b < Z.of_nat n -> 0 <= b -> a < len els -> runs I X (template_above n els a b) (fun k => k <= a).
Proof.
  revert a. induction n as [|n IH]; intros a Hab Hb Ha; cbn [template_above];
    (destruct (a <? b) eqn:Ei; [apply runs_ret; lia|]); [lia|].
  eapply runs_bind; [apply get_line_runs; lia|]. intros l _. split_if; [apply runs_ret; lia|].
  eapply runs_weaken; [apply IH; lia|]. intros k Hk. cbv beta in *. lia.
Qed.

Lemma type_in_blocks_runs p els bs :
  Forall (fun b => 0 <= starting_linenum b < len els) bs -> runs I X (type_in_blocks p els bs) (fun _ => True).
Proof.
  induction 1 as [|b bs Hb Hbs IH]; cbn [type_in_blocks]; [by apply runs_ret|]. split_if; [by apply runs_ret|]. cbv zeta.
  set (next := match bs with b' :: _ => starting_linenum b' | [] => 0 end).
  assert (0 <= next) by (subst next; destruct Hbs as [|b' ? []]; lia).
  eapply runs_bind; [apply template_above_runs; lia|]. intros k Hk. cbv beta in Hk. destruct (k <? next) eqn:Ek; [done|].
  eapply runs_bind; [apply any_line_runs|]; [intros i Hi%elem_of_zrange; lia|]. intros f _. by destruct f; [apply runs_ret|].
Qed.

Lemma _IsType_runs st e : starts N st -> runs I X (_IsType c st e) (fun _ => True).
Proof.
  intros Hs. unfold _IsType. cbv zeta. split_if; [by apply runs_ret|]. apply type_in_blocks_runs. apply Forall_forall.
  intros b (o & -> & _)%list_elem_of_fmap. pose proof (deref_start N ltac:(lia) st o Hs). line_lia.
Qed.

Lemma text_after_brace_runs line p :
  index (elided c) linenum = Some line -> 0 <= p < len line -> runs I X (text_after_brace c linenum p) (fun _ => True).
Proof.
  intros Hi Hp. unfold text_after_brace. eapply runs_bind; [eauto with runs|]. intros [[l k] q] Hr.
  apply (runs_fold_m _ _ _ (fun _ => True)); [done|]. intros t i _ Hk%elem_of_zrange.
  assert (0 <= k) by (destruct Hr as [[_ ->]|(_ & ? & _)]; lia). runs_walk.
Qed.

Lemma CheckBracesSpacing_runs st :
  starts N st -> runs I X (CheckBracesSpacing filename c linenum st error) (fun _ => True).
Proof.
  intros Hs. pose proof text_after_brace_runs. pose proof _IsType_runs. pose proof brace_pos.
  unfold CheckBracesSpacing. runs_walk.
Qed.

Lemma class_head_end_runs ls ks k :
  (forall i, i ∈ ks -> 0 <= i < len ls) -> runs I X (class_head_end ls ks k) (fun _ => True).
Proof.
  induction ks as [|i ks IH]; intros Hk; cbn [class_head_end]; [by apply runs_ret|].
  pose proof (Hk i ltac:(left)). assert (forall j, j ∈ ks -> 0 <= j < len ls) by (intros; apply Hk; by right).
  eapply runs_bind; [apply get_line_runs; lia|]. intros l _. split_if; [by apply runs_ret | auto].
Qed.

Lemma CheckSectionSpacing_runs b :
  0 <= starting_linenum b -> runs I X (CheckSectionSpacing filename c b linenum error) (fun _ => True).
Proof.
  intros Hb. assert (Hh : runs I X (class_head_end (lines c) (zrange (starting_linenum b) linenum) (starting_linenum b)) (fun _ => True)).
  { apply class_head_end_runs. intros i Hi%elem_of_zrange. line_lia. }
  unfold CheckSectionSpacing. runs_walk.
Qed.
End SpacingChecks.

End Spacing.

#[export] Hint Resolve get_line_runs GetPreviousNonBlankLine_runs CheckSpacingForFunctionCall_runs CheckSpacing_runs
  CheckOperatorSpacing_runs CheckParenthesisSpacing_runs CheckCommaSpacing_runs any_line_runs CheckBracesSpacing_runs
  CheckSectionSpacing_runs : runs.

(** ** Witnesses *)

Lemma hide_operators_spec_witness :
  exists out, hide_operators (U := ascii_db) 30 "bool operator<=(A a) const {" = Some out /\ Match (U := ascii_db) _RE_OPERATOR out = None.
Proof.
  destruct (hide_operators_spec (U := ascii_db) "bool operator<=(A a) const {") as (out & Ho & _ & Hm);
    [apply (bool_decide_unpack (c_nl ∉ lit "bool operator<=(A a) const {")); exact I|].
  exists out. split; [|exact Hm]. rewrite <- Ho. reflexivity.
Defined.
