(* ===== verification/BraceDepth.v ===== *)
(** * The nesting follows the braces

    What [NestingState.Update] of cpplint.py does with the braces of lines that declare no class and no namespace and hold no conditional
    directive: the loop over braces, semicolons and closing parentheses against a machine that only keeps, for every block, whether its
    brace has been seen, and the depth of the stack against the braces of the text. *)

From S2P Require Import Prelude PyStr PyRe PyEff Tables Regexps Lint Cleanse Expr Includes Paths FileChecks Nesting Spacing.

Local Open Scope Z_scope.

Section BraceDepth.
Context {U : UnicodeDB}.

(** ** The characters the loop stops at *)

Definition is_token (c : N) : bool := ((c =? ch "{") || (c =? ch ";") || (c =? ch ")") || (c =? ch "}"))%N.
Definition tokens (line : str) : str := List.filter is_token line.

Lemma is_token_iff c : is_token c = true <-> c = ch "{" \/ c = ch ";" \/ c = ch ")" \/ c = ch "}".
Proof. unfold is_token. rewrite !orb_true_iff, !N.eqb_eq. tauto. Qed.

Lemma tokens_none u : forallb (fun c => negb (is_token c)) u = true -> tokens u = [].
Proof. induction u as [|c u IH]; [done|]. cbn [forallb tokens List.filter]. rewrite andb_true_iff. intros [->%negb_true_iff H]. by apply IH. Qed.

(** The set in the pattern of the loop. *)
Lemma brace_set neg c :
  set_has {| f_icase := false; f_multiline := false; f_dotall := false |} neg [IChar 123; IChar 59; IChar 41; IChar 125] c = xorb neg (is_token c).
Proof. unfold set_has, item_has, is_token, eq_char. cbn [existsb f_icase]. by rewrite orb_false_r, !orb_assoc. Qed.

Lemma split_token line : tokens line = [] \/ exists u t rest, line = u ++ t :: rest /\ tokens u = [] /\ is_token t = true.
Proof.
  induction line as [|c line IH]; [by left|]. destruct (is_token c) eqn:E; [right; by exists [], c, line|].
  destruct IH as [H|(u & t & rest & -> & Hu & Ht)]; [left | right; exists (c :: u), t, rest]; unfold tokens in *; cbn [List.filter]; by rewrite ?E.
Qed.

Lemma no_tokens u : tokens u = [] -> forallb (fun c => negb (is_token c)) u = true.
Proof. induction u as [|c u IH]; [done|]. unfold tokens. cbn [forallb List.filter]. by destruct (is_token c). Qed.

(** The pattern of the loop finds the first token of the line, and its last group is what follows. *)
Lemma brace_match line :
  no_nl line ->
  match Match "^[^{;)}]*([{;)}])(.*)$" line with
  | None => tokens line = []
  | Some m => exists t, is_token t = true /\ group_str m 1 = [t] /\ tokens line = t :: tokens (group_str m 2) /\
                no_nl (group_str m 2) /\ (length (group_str m 2) < length line)%nat
  end.
Proof.
  intros Hn. destruct (Match _ line) as [m|] eqn:E.
  - pose proof (brace_shape _ _ E) as Hlen. eapply Match_sound in E as (st & Hs & ->); [|vm_compute; reflexivity|done].
    sem_parts. sem_words. eapply spells_one in Hsem5 as (t & -> & Ht); [|reflexivity]. rewrite brace_set in Ht.
    eapply spells_class in Hsem0; [|reflexivity]. apply eol_rest in H0; [|done]. cbn [after] in H0.
    revert Hlen. match goal with |- context [group_str ?m 2] => replace (group_str m 2) with w by (symmetry; group_is) end. intros Hlen.
    exists t. split; [by destruct (is_token t)|]. split; [group_is|].
    assert (rest = []) as -> by (destruct H0 as [->| ->]; [done | exfalso; apply Hn; unfold nl; set_solver]). rewrite app_nil_r in *.
    assert (Hw1 : tokens w1 = []).
    { apply tokens_none. apply forallb_forall. intros c Hc. eapply forallb_forall in Hsem0; [|exact Hc]. rewrite brace_set in Hsem0. by destruct (is_token c). }
    split; [unfold tokens in *; rewrite !List.filter_app, Hw1; cbn [List.filter app]; by destruct (is_token t)|].
    split; [|done]. intros H1. apply Hn. set_solver.
  - destruct (split_token line) as [H|(u & t & rest & -> & Hu & Ht)]; [done|]. exfalso.
    assert (Hm : MatchB "^[^{;)}]*([{;)}])(.*)$" (u ++ t :: rest) = true); [|unfold MatchB in Hm; by rewrite E in Hm].
    eapply MatchB_iff; [vm_compute; reflexivity | done|]. cbn [rx_re rx_flags]. rewrite state_at_0, <- (app_nil_r rest).
    eexists _, _. split; [by split|]. eexists. split.
    { eapply sem_star; [reflexivity|]. apply no_tokens in Hu. apply forallb_forall. intros c Hc.
      eapply forallb_forall in Hu; [|exact Hc]. rewrite brace_set. by destruct (is_token c). }
    eexists. split.
    { eexists. split; [|reflexivity]. eexists. split; [|reflexivity]. eapply sem_one; [reflexivity|]. by rewrite brace_set, Ht. }
    eexists. split.
    { eexists. split; [|reflexivity]. eexists. split; [|reflexivity]. unfold set_cap, with_caps. cbn [before after caps]. eapply sem_star; [reflexivity|]. apply forallb_forall. intros c Hc. cbn.
      apply negb_true_iff, N.eqb_neq. intros ->. apply Hn, elem_of_app. right. right. by apply list_elem_of_In. }
    eexists. split; [by split | reflexivity].
Qed.

(** ** The machine *)

(** For every block of the stack, whether its opening brace has been seen. *)
Definition marks (st : NestingState) : list bool := map seen_open_brace (v_stack (values st)).

(** A brace opens the pending block or a new one, a closing brace ends the innermost block, and the end of a statement or of
    parameters drops a pending block: it was only declared. *)
Definition mark_token (s : list bool) (t : N) : list bool :=
  if (t =? ch "{")%N then match s with false :: s' => true :: s' | _ => true :: s end
  else if (t =? ch "}")%N then tail s
  else match s with false :: s' => s' | _ => s end.

Lemma marks_push b st : nesting_wf st -> marks (push b st) = seen_open_brace b :: marks st.
Proof. intros Hw. unfold marks. by rewrite push_values. Qed.

Lemma marks_pop st : marks (pop st) = tail (marks st).
Proof. unfold marks. rewrite pop_values. cbn [v_pop v_stack]. by destruct (v_stack (values st)). Qed.

Lemma marks_upd f st : nesting_wf st -> (forall b, seen_open_brace (f b) = seen_open_brace b) -> marks (upd_top f st) = marks st.
Proof. intros Hw Hf. unfold marks. rewrite upd_top_values by done. cbn [v_upd_top v_stack]. destruct (v_stack (values st)); cbn; by rewrite ?Hf. Qed.

Lemma marks_open st : nesting_wf st -> marks (upd_top set_open st) = match marks st with _ :: s => true :: s | [] => [] end.
Proof. intros Hw. unfold marks. rewrite upd_top_values by done. cbn [v_upd_top v_stack]. by destruct (v_stack (values st)). Qed.

Lemma top_marks st : match top st with Some b => exists s, marks st = seen_open_brace b :: s | None => marks st = [] end.
Proof. unfold top, marks, values, contents. cbn [v_stack]. destruct (stack st); cbn; eauto. Qed.

Lemma SeenOpenBrace_marks st : SeenOpenBrace st = match marks st with b :: _ => b | [] => true end.
Proof. unfold SeenOpenBrace. pose proof (top_marks st) as H. destruct (top st); [by destruct H as [s ->] | by rewrite H]. Qed.


(** ** The depth *)

(** No block waits for its brace. *)
Definition none_pending (st : NestingState) : Prop := Forall (fun m => m = true) (marks st).

(** The depth of braces: a closing brace without an opening one is passed over. *)
Definition follow (depth : nat) (c : N) : nat :=
  if (c =? ch "{")%N then S depth else if (c =? ch "}")%N then pred depth else depth.

Lemma mark_token_depth s t :
  Forall (fun m => m = true) s -> Forall (fun m => m = true) (mark_token s t) /\ length (mark_token s t) = follow (length s) t.
Proof.
  intros H. unfold mark_token, follow. destruct H as [|[] s ? H]; [| |done]; repeat split_if; cbn [tail length pred]; auto.
Qed.

Lemma marks_depth line s :
  Forall (fun m => m = true) s ->
  let s' := fold_left mark_token (tokens line) s in Forall (fun m => m = true) s' /\ length s' = fold_left follow line (length s).
Proof.
  cbv zeta. revert s. induction line as [|t line IH]; intros s H; [done|]. unfold tokens. cbn [List.filter].
  destruct (is_token t) eqn:Et; cbn [fold_left].
  - destruct (mark_token_depth s t H) as [H1 <-]. by apply IH.
  - replace (follow (length s) t) with (length s); [by apply IH|]. unfold follow. unfold is_token in Et.
    rewrite !orb_false_iff in Et. by destruct Et as [[[-> _] _] ->].
Qed.

Lemma length_marks st : length (marks st) = length (stack st).
Proof. unfold marks, values, contents. cbn [v_stack]. by rewrite !length_map. Qed.

(** ** The loop and the line *)

Ltac eval_tokens :=
  repeat match goal with
  | |- context [str_eqb [?t] ?l] => let b := eval vm_compute in (str_eqb [t] l) in change (str_eqb [t] l) with b
  end; cbv iota; cbn [orb].

(** A line without newline, conditional directive, namespace or class declaration. *)
Definition statement_line (line : str) : bool :=
  bool_decide (no_nl line) && match directive_of line with DNone => true | _ => false end
  && negb (MatchB "^\s*namespace\b\s*([:\w]+)?(.*)$" line) && negb (MatchB _RE_CLASS_DECL line).

Section Follows.
Context (N : Z) (HN : 0 < N) (c : CleansedLines) (Hc : lines_wf c) (HNc : len (elided c) <= N).
Context (I : world -> Prop) (X : exn -> Prop) (error : error_fn).
Context (filename : str) (Herr : forall l k n m, message_ok N l k n -> runs I X (error filename l k n m) (fun _ => True)).

Lemma reach_keeps st st' : reach N st st' -> nesting_wf st -> starts N st -> nesting_wf st' /\ starts N st'.
Proof. intros [He Hs] Hw Hst. split; [by apply (edits_keep _ _ He) | auto]. Qed.

(** A statement or parameters end. *)
Lemma drop_pending st t :
  t = ch ";" \/ t = ch ")" ->
  runs I X (ret (if negb (SeenOpenBrace st) then pop st else st)) (fun st' => reach N st st' /\ marks st' = mark_token (marks st) t).
Proof.
  intros Ht. apply runs_ret. replace (mark_token (marks st) t) with (match marks st with false :: s => s | _ => marks st end) by (by destruct Ht as [-> | ->]).
  rewrite SeenOpenBrace_marks. destruct (marks st) as [|[] s] eqn:E; cbn [negb]; try (by split; [apply reach_refl|]).
  split; [apply reach_pop | by rewrite marks_pop, E].
Qed.

Lemma open_block st b :
  nesting_wf st -> 0 <= starting_linenum b < N -> seen_open_brace b = true -> reach N st (push b st) /\ marks (push b st) = true :: marks st.
Proof. intros Hw H1 H2. split; [by apply reach_push | by rewrite marks_push, H2]. Qed.

(** One token. *)
Lemma token_runs ln st line t :
  (ln < length (elided c))%nat -> nesting_wf st -> starts N st -> is_token t = true ->
  runs I X
    (if str_eqb [t] "{" then
       ret (if negb (SeenOpenBrace st) then upd_top set_open st
            else if MatchB "^extern\s*`[^`]*`\s*\{" line then push (ExternCInfo_init (Z.of_nat ln)) st
            else let st := push (BlockInfo_init (Z.of_nat ln) true) st in
                 if MatchB _MATCH_ASM line then upd_top (set_asm _BLOCK_ASM) st else st)
     else if str_eqb [t] ";" || str_eqb [t] ")" then ret (if negb (SeenOpenBrace st) then pop st else st)
     else match top st with
          | Some b => CheckEnd b filename c (Z.of_nat ln) error;; ret (pop st)
          | None => ret st
          end)
    (fun st' => reach N st st' /\ marks st' = mark_token (marks st) t).
Proof.
  intros Hln Hw Hs Ht. assert (Hh : 0 <= Z.of_nat ln < N) by (unfold len in HNc; lia).
  apply is_token_iff in Ht as [-> |[-> |[-> | ->]]]; eval_tokens; try (apply drop_pending; auto).
  - apply runs_ret. rewrite SeenOpenBrace_marks. destruct (marks st) as [|[] s] eqn:E; cbn [negb].
    3: { split; [by apply reach_top | by rewrite marks_open, E]. }
    all: match goal with |- context [mark_token ?s _] => change (mark_token s (ch "{")) with (true :: s) end; rewrite <- E; split_if; [by apply open_block|]; cbv zeta;
      destruct (open_block st (BlockInfo_init (Z.of_nat ln) true) Hw Hh eq_refl) as [Hr Hm]; split_if; [|done];
      split; [eapply reach_trans; [exact Hr | by apply reach_top] | rewrite marks_upd; [done | by apply push_wf | done]].
  - pose proof (top_marks st) as Hm. destruct (top st) as [b|] eqn:Et; [|apply runs_ret; split; [apply reach_refl | by rewrite Hm]].
    eapply runs_bind; [apply (CheckEnd_runs N); try done|intros _ _; apply runs_ret; split; [apply reach_pop | apply marks_pop]].
    unfold top in Et. destruct (head (stack st)); [|done]. injection Et as <-. by apply deref_start.
Qed.

Lemma brace_loop_marks ln fuel st line :
  (ln < length (elided c))%nat -> nesting_wf st -> starts N st -> no_nl line -> (length line < fuel)%nat ->
  runs I X (brace_loop fuel st filename line c (Z.of_nat ln) error)
    (fun st' => reach N st st' /\ marks st' = fold_left mark_token (tokens line) (marks st)).
Proof.
  intros Hln. revert st line. induction fuel as [|fuel IH]; intros st line Hw Hs Hn Hl; [lia|]. cbn [brace_loop].
  pose proof (brace_match line Hn) as Hm. destruct (Match _ line) as [m|]; [|apply runs_ret; split; [apply reach_refl | by rewrite Hm]].
  destruct Hm as (t & Ht & Hg & -> & Hn2 & Hl2). rewrite Hg. cbv zeta.
  eapply runs_bind; [by apply token_runs|]. intros st' [Hr Hm]. destruct (reach_keeps _ _ Hr Hw Hs) as [Hw' Hs'].
  eapply runs_weaken; [apply IH; [done.. | lia]|]. intros st2 [Hr2 Hm2]. split; [by eapply reach_trans|]. cbn [fold_left]. by rewrite Hm2, Hm.
Qed.

Lemma count_parens_marks st line : nesting_wf st -> marks (count_parens st line) = marks st.
Proof.
  intros Hw. unfold count_parens. destruct (stack st); [done|]. apply marks_upd; [done|]. intros b.
  destruct (inline_asm _); try done; by split_if.
Qed.

Lemma begin_marks ln st :
  (ln < length (elided c))%nat -> nesting_wf st ->
  runs I X (if negb (SeenOpenBrace st) then
              match top st with
              | Some b => b' <- CheckBegin b c (Z.of_nat ln);; ret (upd_top (fun _ => b') st)
              | None => ret st
              end
            else ret st) (fun st' => reach N st st' /\ marks st' = marks st).
Proof.
  intros Hln Hw. assert (Hret : runs I X (ret st) (fun st' => reach N st st' /\ marks st' = marks st)) by (apply runs_ret; split; [apply reach_refl | done]).
  split_if; [|done]. pose proof (top_marks st) as Ht. destruct (top st) as [b|] eqn:Et; [|done]. destruct Ht as [s Ht].
  eapply (runs_bind _ _ _ _ (fun b' => starting_linenum b' = starting_linenum b /\ seen_open_brace b' = seen_open_brace b)).
  { unfold CheckBegin. destruct (kind b); try (by apply runs_ret).
    eapply runs_bind; [apply runs_index; unfold len; lia|]. intros l _. apply runs_ret. by split_if. }
  intros b' [Hl Hb]. apply runs_ret. split; [apply reach_set_top; [done | by rewrite Et]|].
  unfold marks in *. rewrite upd_top_values by done. cbn [v_upd_top v_stack]. destruct (v_stack (values st)); [done|]. cbn in *. congruence.
Qed.

Lemma access_marks ln st line :
  (ln < length (elided c))%nat -> nesting_wf st ->
  runs I X (access_control st filename line (Z.of_nat ln) error) (fun st' => reach N st st' /\ marks st' = marks st).
Proof.
  intros Hln Hw. assert (Hret : runs I X (ret st) (fun st' => reach N st st' /\ marks st' = marks st)) by (apply runs_ret; split; [apply reach_refl | done]).
  assert (Hh : 0 <= Z.of_nat ln < N) by (unfold len in HNc; lia).
  unfold access_control. destruct (top st) as [b|]; [|done]. destruct (kind b); try done. destruct (Match _ line); [|done]. cbv zeta.
  eapply (runs_bind _ _ _ _ (fun _ => True)); [apply runs_when; [apply Herr; solve_message | done]|].
  intros _ _. apply runs_ret. split; [by apply reach_top | by apply marks_upd].
Qed.

(** What a line of statements does to the stack. *)
Lemma Update_marks ln st line :
  elided c !! ln = Some line -> statement_line line = true -> nesting_wf st -> starts N st ->
  runs I X (Update st filename c (Z.of_nat ln) error)
    (fun st' => nesting_wf st' /\ starts N st' /\ marks st' = fold_left mark_token (tokens line) (marks st)).
Proof.
  intros Hl Hp Hw Hs. assert (Hln : (ln < length (elided c))%nat) by (by eapply lookup_lt_Some).
  unfold statement_line in Hp. rewrite !andb_true_iff, !negb_true_iff, bool_decide_eq_true in Hp. destruct Hp as [[[Hn Hd] Hns] Hcl].
  assert (directive_of line = DNone) as Hd' by (by destruct (directive_of line)). clear Hd.
  unfold MatchB in Hns, Hcl. unfold Update. rewrite index_nat, Hl. cbn [or_raise]. 
  eapply (runs_bind _ _ _ _ (fun l => l = line)); [by apply runs_ret|]. intros ? ->. cbv zeta.
  set (st0 := Nesting (heap st) (next st) (stack st) (head (stack st)) (pp_stack st)). rewrite update_preprocessor_eq, Hd'.
  cbn [namespace_loop]. destruct (Match _ line) as [?|]; [done|].
  eapply (runs_bind _ _ _ _ (fun r => r = (count_parens st0 line, line))); [by apply runs_ret|]. intros ? ->. cbn [fst snd]. unfold class_decl.
  destruct (Match _ line) as [?|]; [done|].
  eapply (runs_bind _ _ _ _ (fun r => r = (count_parens st0 line, line))); [by apply runs_ret|]. intros ? ->.
  assert (Hw0 : nesting_wf st0) by done.
  pose proof (reach_parens N HN st0 line) as R1. destruct (reach_keeps _ _ R1 Hw0 Hs) as [Hw1 Hs1].
  eapply runs_bind; [by apply begin_marks|]. intros st2 [R2 M2]. destruct (reach_keeps _ _ R2 Hw1 Hs1) as [Hw2 Hs2].
  eapply runs_bind; [by apply access_marks|]. intros st3 [R3 M3]. destruct (reach_keeps _ _ R3 Hw2 Hs2) as [Hw3 Hs3].
  eapply runs_weaken; [apply brace_loop_marks; try done; lia|]. intros st4 [R4 M4]. destruct (reach_keeps _ _ R4 Hw3 Hs3) as [Hw4 Hs4].
  split; [done|]. split; [done|]. by rewrite M4, M3, M2, count_parens_marks.
Qed.

(** C16. The nesting follows the braces: where no block waits for its brace, [Update] over any run of lines that hold no conditional directive and
    declare no class and no namespace leaves as many blocks on the stack as the braces of those lines say, counted one by one with a closing brace that
    has no partner passed over, and again no block waiting; parentheses, semicolons, access specifiers and inline assembly
    on the lines do not matter. *)
Theorem braces_followed ls a st
    (Hls : take (length ls) (drop a (elided c)) = ls) (Hplain : Forall (fun l => statement_line l = true) ls)
    (Hw : nesting_wf st) (Hs : starts N st) (Hopen : none_pending st) :
  runs I X (fold_m (fun st i => Update st filename c i error) (map Z.of_nat (seq a (length ls))) st)
    (fun st' => length (stack st') = fold_left follow (concat ls) (length (stack st)) /\ none_pending st' /\ nesting_wf st' /\ starts N st').
Proof.
  revert a st Hls Hw Hs Hopen. induction Hplain as [|l ls Hl Hplain IH]; intros a st Hls Hw Hs Hopen; cbn [length seq map fold_m concat];
    [by apply runs_ret|].
  assert (Ha : elided c !! a = Some l /\ take (length ls) (drop (S a) (elided c)) = ls).
  { cbn [length] in Hls. rewrite <- Nat.add_1_r, <- drop_drop. pose proof (lookup_drop (elided c) a 0) as Hd. rewrite Nat.add_0_r in Hd. rewrite <- Hd.
    destruct (drop a (elided c)); [done|]. cbn [take drop] in *. injection Hls as -> Hls. by rewrite drop_0. }
  destruct Ha as [Ha Hrest]. eapply runs_bind; [by eapply Update_marks|]. intros st1 (Hw1 & Hs1 & Hm).
  destruct (marks_depth l (marks st) Hopen) as [H1 H2]. rewrite <- Hm in H1, H2. rewrite !length_marks in H2.
  eapply runs_weaken; [by apply IH|]. intros st' (Hd & Hrest'). split; [|done]. by rewrite Hd, fold_left_app, H2.
Qed.

End Follows.

End BraceDepth.

(** ** Witness *)

Definition body_lines : list str := lits ["void f(int a) {"; "  if (a) { g(); } else {"; "    for (;;) h();"; "  }"; "  while (x) {"; "} }"].
Definition body_sample : CleansedLines := Cleansed body_lines body_lines body_lines body_lines 6.

(** Two blocks are open after the first two lines, and two after the fifth. *)
Lemma braces_followed_witness :
  exists st' w', fold_m (fun st i => Update (U := ascii_db) st "a.cc" body_sample i no_error) (map Z.of_nat (seq 0 5)) NestingState_init world_init
                 = (Ok st', w') /\ length (stack st') = 2%nat.
Proof.
  assert (Herr : forall l k n m, message_ok 6 l k n -> runs (fun _ => True) (fun _ => False) (no_error (lit "a.cc") l k n m) (fun _ => True))
    by (intros; by apply runs_ret).
  assert (Hc : lines_wf body_sample) by (by split).
  assert (HN : len (elided body_sample) <= 6) by (vm_compute; discriminate).
  pose proof (braces_followed (U := ascii_db) 6 ltac:(lia) body_sample Hc HN (fun _ => True) (fun _ => False) no_error "a.cc" Herr (take 5 body_lines) 0
    NestingState_init ltac:(vm_compute; reflexivity) ltac:(repeat constructor; vm_compute; reflexivity) init_wf (init_starts 6)
    ltac:(constructor) world_init Logic.I) as [_ H]. revert H. change (length (take 5 body_lines)) with 5%nat.
  destruct (fold_m _ _ _ _) as [[st'|e] w'] eqn:E; [|by intros []].
  intros [Hd _]. exists st', w'. split; [reflexivity | exact Hd].
Defined.
