(* ===== verification/Braces.v ===== *)
(** * Checks of braces, semicolons and empty bodies

    Models [CheckBraces], [CheckTrailingSemicolon], [CheckEmptyBlockBody] and [GetLineWidth] of cpplint.py.  The loops over the lines that follow
    run on the number of lines left, which is enough for every file. *)

From S2P Require Import Prelude PyStr PyRe PyEff Tables Regexps Lint Cleanse Expr Includes Paths FileChecks Nesting Spacing.

Local Open Scope Z_scope.

Section Braces.
Context {U : UnicodeDB}.

(** ** The width of a line *)

Definition is_ascii (c : N) : bool := (c <? 128)%N.

(** [unicodedata.normalize('NFC', s)]; a text of ASCII characters is its own normal form. *)
Definition nfc (s : str) : str := if forallb is_ascii s then s else udb_nfc s.

Definition char_width (c : N) : Z :=
  if is_ascii c then 1 else if udb_wide c then 2 else if udb_combining c then 0 else 1.

Definition GetLineWidth (line : str) : Z := fold_left (fun width uc => width + char_width uc) (nfc line) 0.

(** ** Braces *)

(** The first line from [endlinenum] on that has a semicolon, from column [endpos] on in the first of them. *)
Fixpoint semicolon_line (n : nat) (elided : list str) (endlinenum endpos : Z) : P Z :=
  if len elided <=? endlinenum then ret endlinenum else
  match n with
  | O => raise OutOfFuel
  | S n' =>
      l <- get_line elided endlinenum;;
      if contains ";" (slice_from l endpos) then ret endlinenum else semicolon_line n' elided (endlinenum + 1) 0
  end.

(** The body of an [if] or [else] without braces ends at [endlinenum]. *)
Definition check_single_statement (filename : str) (elided : list str) (linenum if_indent endlinenum : Z) (is_if : bool)
    (error : error_fn) : P unit :=
  endline <- get_line elided endlinenum;;
  let endpos := find endline ";" in
  if negb (MatchB ";[\s}]*(\\?)$" (slice_from endline endpos)) then
    when (negb (MatchB "^[^{};]*\[[^\[\]]*\][^{}]*\{[^{}]*\}\s*\)*[;,]\s*$" endline))
      (error filename (Some linenum) "readability/braces" 4 "If/else bodies with multiple statements require braces")
  else when (endlinenum <? len elided - 1)
    (next_line <- get_line elided (endlinenum + 1);;
     let next_indent := GetIndentLevel next_line in
     if is_if && MatchB "\s*else\b" next_line && negb (next_indent =? if_indent) then
       error filename (Some linenum) "readability/braces" 4
         ("Else clause should be indented at the same level as if. "
          ++ "Ambiguous nested if/else chains require braces.")
     else when (if_indent <? next_indent)
       (error filename (Some linenum) "readability/braces" 4 "If/else bodies with multiple statements require braces")).

(** Whether a brace follows, after the condition or alone on the next line. *)
Definition brace_follows (elided : list str) (endline : str) (endlinenum endpos : Z) : P bool :=
  if MatchB "\s*{" (slice_from endline endpos) then ret true
  else if MatchB "\s*$" (slice_from endline endpos) && (endlinenum <? len elided - 1) then
    l <- get_line elided (endlinenum + 1);; ret (MatchB "\s*{" l)
  else ret false.

Definition check_if_else (filename line : str) (clean_lines : CleansedLines) (linenum : Z) (error : error_fn) : P unit :=
  match Search "\b(if\s*\(|else\b)" line with
  | None => ret tt
  | Some if_else_match =>
      when (negb (MatchB "\s*#" line))
        (let if_indent := GetIndentLevel line in
         let if_match := Search "\bif\s*\(" line in
         r <- match if_match with
              | Some m => CloseExpression clean_lines linenum (m_end m 0 - 1)
              | None => ret (line, linenum, m_end if_else_match 0)
              end;;
         let '(endline, endlinenum, endpos) := r in
         brace <- brace_follows (elided clean_lines) endline endlinenum endpos;;
         when (negb brace)
           (endlinenum <- semicolon_line (Z.to_nat (len (elided clean_lines) - endlinenum)) (elided clean_lines) endlinenum endpos;;
            when (endlinenum <? len (elided clean_lines))
              (check_single_statement filename (elided clean_lines) linenum if_indent endlinenum (is_some if_match) error)))
  end.

(** An [else] with a brace on one side only; the condition of an [else if] may run over several lines. *)
Definition check_else_braces (filename line : str) (clean_lines : CleansedLines) (linenum : Z) (error : error_fn) : P unit :=
  let both := error filename (Some linenum) "readability/braces" 5
                "If an else has a brace on one side, it should have it on both" in
  if SearchB "else if\s*\(" line then
    let brace_on_left := SearchB "}\s*else if\s*\(" line in
    let pos := find line "else if" in
    let pos := find_at line "(" pos in
    when (0 <? pos)
      (r <- CloseExpression clean_lines linenum pos;;
       let '(endline, _, endpos) := r in
       let brace_on_right := negb (find (slice_from endline endpos) "{" =? -1) in
       when (negb (eqb brace_on_left brace_on_right)) both)
  else when (SearchB "}\s*else[^{]*$" line || MatchB "[^}]*else\s*{" line) both.

Definition CheckBraces (filename : str) (clean_lines : CleansedLines) (linenum : Z) (error : error_fn) : P unit :=
  line <- get_line (elided clean_lines) linenum;;
  when (MatchB "\s*{\s*$" line)
    (prev <- GetPreviousNonBlankLine clean_lines linenum;;
     let prevline := fst prev in
     w <- get;;
     when (negb (SearchB "[,;:}{(]\s*$" prevline) && negb (MatchB "\s*#" prevline)
           && negb ((_line_length w - 2 <? GetLineWidth prevline) && contains "[]" prevline))
       (error filename (Some linenum) "whitespace/braces" 4
          "{ should almost always be at the end of the previous line"));;
  when (MatchB "\s*else\b\s*(?:if\b|\{|$)" line)
    (prev <- GetPreviousNonBlankLine clean_lines linenum;;
     when (MatchB "\s*}\s*$" (fst prev))
       (error filename (Some linenum) "whitespace/newline" 4
          "An else should appear on the same line as the preceding }"));;
  check_else_braces filename line clean_lines linenum error;;
  when (SearchB "\belse [^\s{]" line && negb (SearchB "\belse if\b" line))
    (error filename (Some linenum) "whitespace/newline" 4
       "Else clause should never be on same line as else (use 2 lines)");;
  when (MatchB "\s*do [^\s{]" line)
    (error filename (Some linenum) "whitespace/newline" 4 "do/while clauses should not be on a single line");;
  check_if_else filename line clean_lines linenum error.

(** ** Semicolons after a block *)

Definition safe_macros : list str := lits [
  "TEST"; "TEST_F"; "MATCHER"; "MATCHER_P"; "TYPED_TEST"; "EXCLUSIVE_LOCKS_REQUIRED"; "SHARED_LOCKS_REQUIRED";
  "LOCKS_EXCLUDED"; "INTERFACE_DEF"
].

(** What stands before the parameter list shows that the brace does not open a function body. *)
Definition not_a_function (line_prefix : str) : bool :=
  match Search "\b([A-Z_][A-Z0-9_]*)\s*$" line_prefix with
  | Some macro => negb (mem_str (group_str macro 1) safe_macros) | None => false end
  || match Match "^(.*\])\s*$" line_prefix with
     | Some func => negb (SearchB "\boperator\s*\[\s*\]" (group_str func 1)) | None => false end
  || SearchB "\b(?:struct|union)\s+alignas\s*$" line_prefix
  || SearchB "\bdecltype$" line_prefix
  || SearchB "\s+=\s*$" line_prefix.

(** The length of the text before a brace that opens a block, if the line has one. *)
Definition block_brace (line : str) (clean_lines : CleansedLines) (linenum : Z) : P (option match_obj) :=
  match Match "^(.*\)\s*)\{" line with
  | Some m =>
      opening <- ReverseCloseExpression clean_lines linenum (rfind (group_str m 1) ")");;
      let '(oline, olinenum, opos) := opening in
      if (-1 <? opos) && not_a_function (slice oline 0 opos) then ret None
      else if 1 <? olinenum then
        prev <- get_line (elided clean_lines) (olinenum - 1);;
        ret (if SearchB "\]\s*$" prev then None else Some m)
      else ret (Some m)
  | None =>
      match Match "^(.*(?:else|\)\s*const)\s*)\{" line with
      | Some m => ret (Some m)
      | None =>
          prev <- GetPreviousNonBlankLine clean_lines linenum;;
          ret (if nonempty (fst prev) && SearchB "[;{}]\s*$" (fst prev) then Match "^(\s*)\{" line else None)
      end
  end.

Definition CheckTrailingSemicolon (filename : str) (clean_lines : CleansedLines) (linenum : Z) (error : error_fn) : P unit :=
  line <- get_line (elided clean_lines) linenum;;
  m <- block_brace line clean_lines linenum;;
  match m with
  | None => ret tt
  | Some m =>
      r <- CloseExpression clean_lines linenum (len (group_str m 1));;
      let '(endline, endlinenum, endpos) := r in
      when ((-1 <? endpos) && MatchB "^\s*;" (slice_from endline endpos))
        (prev_raw <- get_line (raw_lines clean_lines) (endlinenum - 1);;
         ParseNolintSuppressions filename prev_raw (endlinenum - 1) error;;
         raw <- get_line (raw_lines clean_lines) endlinenum;;
         ParseNolintSuppressions filename raw endlinenum error;;
         error filename (Some endlinenum) "readability/braces" 4 "You don't need a ; after a }")
  end.

(** ** Empty bodies *)

(** [_EMPTY_CONDITIONAL_BODY_PATTERN.search(body)] *)
Definition _EMPTY_CONDITIONAL_BODY_PATTERN (body : str) : bool :=
  match re_compile {| f_icase := false; f_multiline := false; f_dotall := true |} "^\s*$" with
  | Some rx => is_some (rx_search rx body)
  | None => false
  end.

(** The line of the opening brace and what is left of it; [None] where something else comes first. *)
Fixpoint find_opening (n : nat) (elided : list str) (opening_linenum : Z) (fragment : str) : P (option (Z * str)) :=
  if SearchB "^\s*\{" fragment then ret (Some (opening_linenum, fragment))
  else if SearchB "^(?!\s*$)" fragment then ret None
  else
    let opening_linenum := opening_linenum + 1 in
    if opening_linenum =? len elided then ret None
    else
      match n with
      | O => raise OutOfFuel
      | S n' => l <- get_line elided opening_linenum;; find_opening n' elided opening_linenum l
      end.

(** Whether an [else] is the next thing after the block. *)
Fixpoint else_follows (n : nat) (elided : list str) (current_linenum : Z) (fragment : str) : P bool :=
  if SearchB "^\s*$|^(?=\s*else)" fragment then
    if SearchB "^(?=\s*else)" fragment then ret true
    else
      let current_linenum := current_linenum + 1 in
      if current_linenum =? len elided then ret false
      else
        match n with
        | O => raise OutOfFuel
        | S n' => l <- get_line elided current_linenum;; else_follows n' elided current_linenum l
        end
  else ret false.

(** The text between the braces; the characters of the opening line are separate elements of the list that is joined. *)
Definition block_body (clean_lines : CleansedLines) (opening_line : str) (opening_linenum opening_pos closing_linenum closing_pos : Z)
    : P str :=
  if opening_linenum <? closing_linenum then
    closing <- get_line (elided clean_lines) closing_linenum;;
    ret (join nl (map (fun c => [c]) (slice_from opening_line (opening_pos + 1))
                  ++ slice (raw_lines clean_lines) (opening_linenum + 1) closing_linenum
                  ++ [slice_to closing (closing_pos - 1)]))
  else ret (slice opening_line (opening_pos + 1) (closing_pos - 1)).

Definition check_empty_if (filename end_line : str) (clean_lines : CleansedLines) (end_linenum end_pos : Z) (error : error_fn)
    : P unit :=
  let els := elided clean_lines in
  opening <- find_opening (Z.to_nat (len els - end_linenum)) els end_linenum (slice_from end_line end_pos);;
  match opening with
  | None => ret tt
  | Some (opening_linenum, fragment) =>
      opening_line <- get_line els opening_linenum;;
      let opening_pos := find fragment "{" + (if opening_linenum =? end_linenum then end_pos else 0) in
      r <- CloseExpression clean_lines opening_linenum opening_pos;;
      let '(closing_line, closing_linenum, closing_pos) := r in
      if closing_pos <? 0 then ret tt
      else
        raw <- get_line (raw_lines clean_lines) opening_linenum;;
        if negb (str_eqb raw (CleanseComments raw)) then ret tt
        else
          body <- block_body clean_lines opening_line opening_linenum opening_pos closing_linenum closing_pos;;
          if negb (_EMPTY_CONDITIONAL_BODY_PATTERN body) then ret tt
          else
            has_else <- else_follows (Z.to_nat (len els - closing_linenum)) els closing_linenum
                          (slice_from closing_line closing_pos);;
            when (negb has_else)
              (error filename (Some end_linenum) "whitespace/empty_if_body" 4
                 "If statement had no body and no else clause")
  end.

Definition CheckEmptyBlockBody (filename : str) (clean_lines : CleansedLines) (linenum : Z) (error : error_fn) : P unit :=
  line <- get_line (elided clean_lines) linenum;;
  match Match "\s*(for|while|if)\s*\(" line with
  | None => ret tt
  | Some matched =>
      r <- CloseExpression clean_lines linenum (find line "(");;
      let '(end_line, end_linenum, end_pos) := r in
      when ((0 <=? end_pos) && MatchB ";" (slice_from end_line end_pos))
        (if str_eqb (group_str matched 1) "if" then
           error filename (Some end_linenum) "whitespace/empty_conditional_body" 5 "Empty conditional bodies should use {}"
         else
           error filename (Some end_linenum) "whitespace/empty_loop_body" 5 "Empty loop bodies should use {} or continue");;
      when ((0 <=? end_pos) && str_eqb (group_str matched 1) "if")
        (check_empty_if filename end_line clean_lines end_linenum end_pos error)
  end.

(** ** Triples *)

Section BracesRuns.
Context (N : Z) (filename : str) (I : world -> Prop) (X : exn -> Prop) (error : error_fn) {R : Reporter N filename I X error}.

Lemma semicolon_line_runs n els i p :
  0 <= i -> len els - i <= Z.of_nat n -> runs I X (semicolon_line n els i p) (fun k => 0 <= k).
Proof.
  revert i p. induction n as [|n IH]; intros i p Hi Hn; cbn [semicolon_line];
    (destruct (len els <=? i) eqn:Ei; [by apply runs_ret|]); [lia|].
  eapply runs_bind; [apply get_line_runs; lia|]. intros l _. split_if; [by apply runs_ret | apply IH; lia].
Qed.

Section Line.
Context (c : CleansedLines) (linenum : Z) (Hc : sized N c) (Hl : 0 <= linenum < N).

Lemma check_single_statement_runs ind k b :
  0 <= k < len (elided c) -> runs I X (check_single_statement filename (elided c) linenum ind k b error) (fun _ => True).
Proof. intros Hk. unfold check_single_statement. runs_walk. Qed.

Lemma if_pos line m : Search "\bif\s*\(" line = Some m -> 0 <= m_end m 0 - 1 < len line.
Proof. intros H. eapply Search_end in H; [|vm_compute; reflexivity | done]. cbn [rx_re min_len Nat.add Nat.mul] in H. lia. Qed.

Lemma check_if_else_runs line :
  index (elided c) linenum = Some line -> runs I X (check_if_else filename line c linenum error) (fun _ => True).
Proof.
  intros Hi. unfold check_if_else. destruct (Search _ line) as [m|] eqn:E1; [|by apply runs_ret]. apply runs_when; [|done]. cbv zeta.
  eapply (runs_bind _ _ _ _ (fun r => 0 <= snd (fst r))).
  { destruct (Search "\bif\s*\(" line) as [m'|] eqn:E; [|apply runs_ret; simpl; lia].
    eapply runs_weaken; [eapply CloseExpression_runs; [done.. | by apply if_pos]|].
    intros [[l k] p] [[_ ->]|(_ & ? & _)]; simpl; lia. }
  intros [[l k] p] Hk. simpl in Hk.
  pose proof (semicolon_line_runs (Z.to_nat (len (elided c) - k)) (elided c) k p ltac:(lia) ltac:(lia)).
  pose proof check_single_statement_runs. unfold brace_follows. runs_walk.
Qed.

Lemma else_if_pos line : 0 < find_at line "(" (find line "else if") -> 0 <= find_at line "(" (find line "else if") < len line.
Proof.
  intros H. pose proof (find_fits line "else if") as Hf. change (len (lit "else if")) with 7 in Hf.
  destruct (find_at_fits line "(" (find line "else if")) as [He|He]; [unfold len in *; lia.. |].
  change (len (lit "(")) with 1 in He. lia.
Qed.

Lemma CheckBraces_runs : runs I X (CheckBraces filename c linenum error) (fun _ => True).
Proof.
  pose proof check_if_else_runs. unfold CheckBraces, check_else_braces.
  eapply runs_bind; [eauto with runs|]. intros line Hi. cbv beta in Hi.
  pose proof (else_if_pos line). runs_walk.
Qed.

Lemma block_pos line m :
  Match "^(.*\)\s*)\{" line = Some m \/ Match "^(.*(?:else|\)\s*const)\s*)\{" line = Some m \/ Match "^(\s*)\{" line = Some m ->
  0 <= len (group_str m 1) < len line.
Proof. intros [H|[H|H]]; revert H; group_range. Qed.

Lemma block_brace_runs line :
  index (elided c) linenum = Some line ->
  runs I X (block_brace line c linenum) (fun r => match r with Some m => 0 <= len (group_str m 1) < len line | None => True end).
Proof.
  intros Hi. unfold block_brace. destruct (Match _ line) as [m|] eqn:E1.
  - assert (Hm : 0 <= len (group_str m 1) < len line) by (apply block_pos; auto).
    pose proof (rfind_fits (group_str m 1) ")") as Hr. change (len (lit ")")) with 1 in Hr.
    eapply runs_bind; [eapply ReverseCloseExpression_runs; [done.. | lia]|]. intros [[ol ok] op] Ho. cbn [start_at] in Ho.
    split_if; [by apply runs_ret|]. split_if; [|by apply runs_ret].
    eapply runs_bind; [apply get_line_runs; line_lia|]. intros prev _. apply runs_ret. by split_if.
  - destruct (Match "^(.*(?:else|\)\s*const)\s*)\{" line) as [m|] eqn:E2; [apply runs_ret, block_pos; auto|].
    eapply runs_bind; [by apply (GetPreviousNonBlankLine_runs N)|]. intros prev _. apply runs_ret. split_if; [|done].
    destruct (Match "^(\s*)\{" line) as [m|] eqn:E3; [apply block_pos; auto | done].
Qed.

(** The first line of a file is a marker, of which nothing is left. *)
Lemma CheckTrailingSemicolon_runs :
  index (elided c) 0 = Some [] -> runs I X (CheckTrailingSemicolon filename c linenum error) (fun _ => True).
Proof.
  intros H0. unfold CheckTrailingSemicolon. eapply runs_bind; [eauto with runs|]. intros line Hi. cbv beta in Hi.
  eapply runs_bind; [by apply block_brace_runs|]. intros [m|] Hm; [|by apply runs_ret]. cbv beta iota in Hm.
  assert (0 < linenum).
  { destruct (Z.eq_dec linenum 0) as [E|]; [|lia]. rewrite E, H0 in Hi. injection Hi as <-. change (len []) with 0 in Hm. lia. }
  eapply runs_bind; [eapply CloseExpression_runs; [done.. | lia]|]. intros [[l k] p] Hr. cbn [end_at] in Hr. runs_walk.
Qed.

(** The line of an opening brace that is found is a line of the file. *)
Lemma find_opening_runs n els i fragment :
  0 <= i < len els -> len els - i <= Z.of_nat n ->
  runs I X (find_opening n els i fragment) (fun r => match r with
    | Some (k, f) => SearchB "^\s*\{" f = true /\ (k = i /\ f = fragment \/ i < k < len els /\ index els k = Some f)
    | None => True end).
Proof.
  revert i fragment. induction n as [|n IH]; intros i fragment Hi Hn; cbn [find_opening]; cbv zeta;
    (destruct (SearchB "^\s*\{" fragment) eqn:Es; [apply runs_ret; auto|]); (split_if; [by apply runs_ret|]);
    (destruct (i + 1 =? len els) eqn:Ei; [by apply runs_ret|]); [lia|].
  eapply runs_bind; [apply get_line_runs; lia|]. intros l Hline. cbv beta in Hline.
  eapply runs_weaken; [apply IH; lia|]. intros [[k f]|]; [|done]. intros [Hf [[-> ->]|[? ?]]]; (split; [done|]); right; (split; [lia | done]).
Qed.

Lemma else_follows_runs n els i fragment :
  0 <= i < len els -> len els - i <= Z.of_nat n -> runs I X (else_follows n els i fragment) (fun _ => True).
Proof.
  revert i fragment. induction n as [|n IH]; intros i fragment Hi Hn; cbn [else_follows]; cbv zeta; runs_walk.
  - lia.
  - apply IH; lia.
Qed.

(** The column of the opening brace. *)
Lemma opening_pos k ln p ol f l :
  index (elided c) k = Some ol -> index (elided c) ln = Some l -> 1 <= p <= len l ->
  SearchB "^\s*\{" f = true -> (k = ln /\ f = slice_from l p \/ ln < k < len (elided c) /\ index (elided c) k = Some f) ->
  0 <= find f "{" + (if k =? ln then p else 0) < len ol.
Proof.
  intros Hk Hln Hp Hs Hf. pose proof (find_needed "^\s*\{" (ch "{") f eq_refl (or_introl Hs)) as Hb. change [ch "{"] with (lit "{") in Hb.
  destruct Hf as [[-> ->]|[? Hf]].
  - rewrite Z.eqb_refl. assert (ol = l) as -> by congruence. revert Hb. generalize (find (slice_from l p) "{"). intros x Hb.
    assert (len (slice_from l p) = len l - p); [|lia].
    unfold slice_from, len, bound in *. rewrite length_drop. destruct (p <? 0) eqn:E0; lia.
  - assert (f = ol) as <- by congruence. rewrite (proj2 (Z.eqb_neq k ln)) by lia. lia.
Qed.

Lemma check_empty_if_runs l k p :
  0 <= k < N -> index (elided c) k = Some l -> 1 <= p <= len l ->
  runs I X (check_empty_if filename l c k p error) (fun _ => True).
Proof.
  intros Hk Hi Hp. unfold check_empty_if. cbv zeta. eapply runs_bind; [apply find_opening_runs; line_lia|].
  intros [[o fragment]|] Ho; [|by apply runs_ret]. destruct Ho as [Hs Ho].
  assert (Hok : 0 <= o < N) by line_lia. eapply runs_bind; [apply get_line_runs; line_lia|]. intros ol Hol. cbv beta in Hol.
  eapply runs_bind; [eapply CloseExpression_runs; [done.. | by eapply opening_pos]|].
  intros [[cl cn] cp] He. cbn [end_at] in He. destruct (Z.ltb_spec cp 0); [by apply runs_ret|].
  eapply runs_bind; [apply get_line_runs; line_lia|]. intros raw _. split_if; [by apply runs_ret|].
  eapply (runs_bind _ _ _ _ (fun _ => True)); [unfold block_body; runs_walk|]. intros body _. split_if; [by apply runs_ret|].
  eapply runs_bind; [apply else_follows_runs; line_lia|]. intros b _. runs_walk.
Qed.

Lemma CheckEmptyBlockBody_runs : runs I X (CheckEmptyBlockBody filename c linenum error) (fun _ => True).
Proof.
  unfold CheckEmptyBlockBody. eapply runs_bind; [eauto with runs|]. intros line Hi. cbv beta in Hi.
  destruct (Match _ line) as [m|] eqn:E; [|by apply runs_ret].
  assert (Hp : 0 <= find line "(" < len line).
  { apply (find_needed "\s*(for|while|if)\s*\(" (ch "(")); [by vm_compute|]. right. unfold MatchB. by rewrite E. }
  eapply runs_bind; [by eapply CloseExpression_runs|]. intros [[el en] ep] He. cbn [end_at] in He.
  eapply (runs_bind _ _ _ _ (fun _ => True)); [runs_walk|]. intros _ _. apply runs_when_cond.
  intros Hw. destruct He as [[-> _]|(? & ? & ?)]; [done|]. apply check_empty_if_runs; [lia | done | lia].
Qed.
End Line.
End BracesRuns.

End Braces.

#[export] Hint Resolve CheckBraces_runs CheckTrailingSemicolon_runs CheckEmptyBlockBody_runs : runs.
