(* ===== verification/Style.v ===== *)
(** * Checks of style, of function lengths and of namespaces

    Models [FindCheckMacro], [CheckCheck], [CheckAltTokens] and [CheckStyle] of cpplint.py, which calls all checks of [Spacing] and [Braces] on a
    line, [CheckForFunctionLengths], and the checks of indentation inside namespaces. *)

From S2P Require Import Prelude PyStr PyRe PyEff Tables Regexps Lint Cleanse Expr Includes Paths FileChecks Nesting Spacing Braces.

Local Open Scope Z_scope.

Section Style.
Context {U : UnicodeDB} {FS : FileSystem}.

(** ** Assertion macros *)

(** The macro and the position of its opening parenthesis. *)
Fixpoint find_macro (line : str) (macros : list str) : option (str * Z) :=
  match macros with
  | [] => None
  | macro :: macros' =>
      if 0 <=? find line macro then
        match Match ("^(.*\b" ++ macro ++ "\s*)\(") line with
        | Some matched => Some (macro, len (group_str matched 1))
        | None => find_macro line macros'
        end
      else find_macro line macros'
  end.

Definition FindCheckMacro (line : str) : option (str * Z) := find_macro line _CHECK_MACROS.

Definition _RE_OPERATORS : str := "^\s*(<<|<<=|>>|>>=|->\*|->|&&|\|\||" ++ "==|!=|>=|>|<=|<|\()(.*)$".

(** The left operand, the operator and the right operand of a boolean expression; [None] where the function returns. *)
Fixpoint parse_check (fuel : nat) (lhs expression : str) : P (option (str * option str * str)) :=
  match expression with
  | [] => ret (Some (lhs, None, []))
  | _ =>
      match fuel with
      | O => raise OutOfFuel
      | S f =>
          match Match _RE_OPERATORS expression with
          | Some matched =>
              let token := group_str matched 1 in
              let rest := group_str matched 2 in
              if str_eqb token "(" then
                r <- FindEndOfExpressionInLine rest 0 [ch "("];;
                if fst r <? 0 then ret None
                else parse_check f (lhs ++ "(" ++ slice rest 0 (fst r)) (slice_from rest (fst r))
              else if mem_str token (lits ["&&"; "||"]) then ret None
              else if mem_str token (lits ["<<"; "<<="; ">>"; ">>="; "->*"; "->"]) then parse_check f (lhs ++ token) rest
              else ret (Some (lhs, Some token, rest))
          | None =>
              match (match Match "^([^-=!<>()&|]+)(.*)$" expression with
                     | Some matched => Some matched
                     | None => Match "^(\s*\S)(.*)$" expression
                     end) with
              | Some matched => parse_check f (lhs ++ group_str matched 1) (group_str matched 2)
              | None => ret (Some (lhs, None, []))
              end
          end
      end
  end.

(** The text between the parentheses of the macro, over the lines [linenum] to [end_line]. *)
Definition check_expression (elided : list str) (last_line : str) (linenum start_pos end_line end_pos : Z) : P str :=
  line <- get_line elided linenum;;
  if linenum =? end_line then ret (slice line (start_pos + 1) (end_pos - 1))
  else
    expression <- fold_m (fun expression i => l <- get_line elided i;; ret (expression ++ l))
                    (zrange (linenum + 1) end_line) (slice_from line (start_pos + 1));;
    ret (expression ++ slice last_line 0 (end_pos - 1)).

Definition match_constant : str := "^([-+]?(\d+|0[xX][0-9a-fA-F]+)[lLuU]{0,3}|`.*`|\'.*\')$".

Definition CheckCheck (filename : str) (clean_lines : CleansedLines) (linenum : Z) (error : error_fn) : P unit :=
  line <- get_line (elided clean_lines) linenum;;
  match FindCheckMacro line with
  | None => ret tt
  | Some (check_macro, start_pos) =>
      r <- CloseExpression clean_lines linenum start_pos;;
      let '(last_line, end_line, end_pos) := r in
      if end_pos <? 0 then ret tt
      else if negb (MatchB "\s*;" (slice_from last_line end_pos)) then ret tt
      else
        expression <- check_expression (elided clean_lines) last_line linenum start_pos end_line end_pos;;
        parts <- parse_check (length expression) [] expression;;
        match parts with
        | Some (lhs, Some operator, rhs) =>
            if negb (nonempty lhs && nonempty rhs) then ret tt
            else if (-1 <? find rhs "&&") || (-1 <? find rhs "||") then ret tt
            else when (MatchB match_constant (strip lhs) || MatchB match_constant (strip rhs))
              (replacement <- or_raise KeyError (_CHECK_REPLACEMENT check_macro operator);;
               error filename (Some linenum) "readability/check" 2
                 ("Consider using " ++ replacement ++ " instead of " ++ check_macro ++ "(a " ++ operator ++ " b)"))
        | _ => ret tt
        end
  end.

(** ** Alternative tokens *)

Definition _ALT_TOKEN_REPLACEMENT_PATTERN : str :=
  "[ =()](" ++ join "|" (map fst _ALT_TOKEN_REPLACEMENT) ++ ")(?=[ (]|$)".

Definition alt_token (key : str) : option str := snd <$> List.find (fun p => str_eqb (fst p) key) _ALT_TOKEN_REPLACEMENT.

Definition CheckAltTokens (filename : str) (clean_lines : CleansedLines) (linenum : Z) (error : error_fn) : P unit :=
  line <- get_line (elided clean_lines) linenum;;
  if MatchB "^\s*#" line then ret tt
  else if (0 <=? find line "/*") || (0 <=? find line "*/") then ret tt
  else for_each (FindIter _ALT_TOKEN_REPLACEMENT_PATTERN line) (fun m =>
    replacement <- or_raise KeyError (alt_token (group_str m 1));;
    error filename (Some linenum) "readability/alt_tokens" 2
      ("Use operator " ++ replacement ++ " instead of " ++ group_str m 1)).

(** ** Style *)

(** [while initial_spaces < len(line) and line[initial_spaces] == ' ': initial_spaces += 1] *)
Fixpoint initial_spaces (line : str) : Z :=
  match line with
  | c :: line' => if (c =? ch " ")%N then 1 + initial_spaces line' else 0
  | [] => 0
  end.

Definition scope_or_label_pattern : str := "\s*\w+\s*:\s*\\?$".

(** The indentation and the end of the line. *)
Definition check_line_ends (filename line prev cleansed_line raw_line : str) (linenum : Z) (error : error_fn) : P unit :=
  when (negb (find line [c_tab] =? -1))
    (error filename (Some linenum) "whitespace/tab" 1 "Tab found; better to use spaces");;
  when (negb (SearchB "[`,=><] *$" prev)
        && ((initial_spaces line =? 1) || (initial_spaces line =? 3))
        && negb (MatchB scope_or_label_pattern cleansed_line)
        && negb (negb (str_eqb raw_line line) && MatchB "^\s*``" line))
    (error filename (Some linenum) "whitespace/indent" 3
       ("Weird number of spaces at line-start.  " ++ "Are you using a 2-space indent?"));;
  when (nonempty line && match last line with Some c => is_space c | None => false end)
    (error filename (Some linenum) "whitespace/end_of_line" 4
       "Line ends in whitespace.  Consider deleting these extra spaces.").

Definition is_header_guard (filename line file_extension : str) : P bool :=
  is_header <- IsHeaderExtension file_extension;;
  if is_header : bool then
    cppvar <- GetHeaderGuardCPPVariable filename;;
    ret (startswith line ("#ifndef " ++ cppvar) || startswith line ("#define " ++ cppvar)
         || startswith line ("#endif  // " ++ cppvar))
  else ret false.

(** Lines that may be long. *)
Definition may_be_long (line : str) : bool :=
  startswith line "#include"
  || MatchB "^\s*//.*http(s?)://\S*$" line
  || MatchB "^\s*//\s*[^\s]*$" line
  || MatchB "^// \$Id:.*#[0-9]+ \$$" line
  || MatchB "^\s*/// [@\\](copydoc|copydetails|copybrief) .*$" line.

Definition check_line_length (filename line file_extension : str) (linenum : Z) (error : error_fn) : P unit :=
  header_guard <- is_header_guard filename line file_extension;;
  w <- get;;
  when (negb header_guard && negb (may_be_long line) && (_line_length w <? GetLineWidth line))
    (error filename (Some linenum) "whitespace/line_length" 2
       ("Lines should be <= " ++ str_of_Z (_line_length w) ++ " characters long")).

Definition check_one_command (filename line cleansed_line : str) (clean_lines : CleansedLines) (linenum : Z) (error : error_fn)
    : P unit :=
  when ((1 <? count cleansed_line ";")
        && negb (MatchB ("^[^{};]*\[[^\[\]]*\][^{}]*\{[^{}\n\r]*\}") line)
        && (find cleansed_line "for" =? -1))
    (prev <- GetPreviousNonBlankLine clean_lines linenum;;
     when (((find (fst prev) "for" =? -1) || negb (find (fst prev) ";" =? -1))
           && negb ((negb (find cleansed_line "case " =? -1) || negb (find cleansed_line "default:" =? -1))
                    && negb (find cleansed_line "break;" =? -1)))
       (error filename (Some linenum) "whitespace/newline" 0 "More than one command on the same line")).

Definition CheckStyle (filename : str) (clean_lines : CleansedLines) (linenum : Z) (file_extension : str)
    (nesting_state : NestingState) (error : error_fn) : P unit :=
  let raw := lines_without_raw_strings clean_lines in
  line <- get_line raw linenum;;
  prev <- (if 0 <? linenum then get_line raw (linenum - 1) else ret []);;
  cleansed_line <- get_line (elided clean_lines) linenum;;
  raw_line <- get_line (raw_lines clean_lines) linenum;;
  check_line_ends filename line prev cleansed_line raw_line linenum error;;
  check_line_length filename line file_extension linenum error;;
  check_one_command filename line cleansed_line clean_lines linenum error;;
  CheckBraces filename clean_lines linenum error;;
  CheckTrailingSemicolon filename clean_lines linenum error;;
  CheckEmptyBlockBody filename clean_lines linenum error;;
  CheckSpacing filename clean_lines linenum nesting_state error;;
  CheckOperatorSpacing filename clean_lines linenum error;;
  CheckParenthesisSpacing filename clean_lines linenum error;;
  CheckCommaSpacing filename clean_lines linenum error;;
  CheckBracesSpacing filename clean_lines linenum nesting_state error;;
  CheckSpacingForFunctionCall filename clean_lines linenum error;;
  CheckCheck filename clean_lines linenum error;;
  CheckAltTokens filename clean_lines linenum error;;
  match InnermostClass nesting_state with
  | Some classinfo => CheckSectionSpacing filename clean_lines classinfo linenum error
  | None => ret tt
  end.

(** ** Function lengths *)

(** Whether the line begins a function: its last word before the parenthesis is no macro name. *)
Definition starting_func (line : str) : P bool :=
  match Match "(\w(\w|::|\*|\&|\s)*)\(" line with
  | Some match_result =>
      function_name <- or_raise IndexError (last (split_ws (group_str match_result 1)));;
      ret (str_eqb function_name "TEST" || str_eqb function_name "TEST_F"
           || negb (MatchB "[A-Z_]+$" function_name))
  | None => ret false
  end.

(** The name under which a function is counted. *)
Definition function_title (line joined_line : str) : P str :=
  m <- or_raise AttributeError (Search "((\w|:)*)\(" line);;
  let function := group_str m 1 in
  ret (if MatchB "TEST" function then
         match Search "(\(.*\))" joined_line with
         | Some parameter_regexp => function ++ group_str parameter_regexp 1
         | None => function
         end
       else function ++ "()").

(** The search for the start of the body over the given line numbers; the last component is [body_found]. *)
Fixpoint body_loop (lines : list str) (line joined_line : str) (fs : _FunctionState) (ks : list Z) : P (_FunctionState * bool) :=
  match ks with
  | [] => ret (fs, false)
  | start_linenum :: ks' =>
      start_line <- get_line lines start_linenum;;
      let joined_line := joined_line ++ " " ++ lstrip start_line in
      if SearchB "(;|})" start_line then ret (fs, true)
      else if SearchB "{" start_line then
        function <- function_title line joined_line;; ret (Begin fs function, true)
      else body_loop lines line joined_line fs ks'
  end.

Definition CheckForFunctionLengths (filename : str) (clean_lines : CleansedLines) (linenum : Z) (function_state : _FunctionState)
    (error : error_fn) : P _FunctionState :=
  line <- get_line (lines clean_lines) linenum;;
  starting <- starting_func line;;
  if starting : bool then
    r <- body_loop (lines clean_lines) line [] function_state (zrange linenum (NumLines clean_lines));;
    when (negb (snd r))
      (error filename (Some linenum) "readability/fn_size" 5 "Lint failed to find start of function body.");;
    ret (fst r)
  else if MatchB "^\}\s*$" line then
    Check_ function_state error filename linenum;; ret (End_ function_state)
  else if negb (MatchB "^\s*$" line) then ret (Count function_state)
  else ret function_state.

(** ** Indentation inside namespaces *)

Definition IsBlockInNameSpace (nesting_state : NestingState) (is_forward_declaration : bool) : bool :=
  match map (deref nesting_state) (stack nesting_state) with
  | [] => false
  | b :: bs =>
      if is_forward_declaration then is_namespace b
      else match bs with b' :: _ => check_namespace_indentation b && is_namespace b' | [] => false end
  end.

Definition ShouldCheckNamespaceIndentation (nesting_state : NestingState) (is_namespace_indent_item : bool)
    (raw_lines_no_comments : list str) (linenum : Z) : P bool :=
  fwd <- IsForwardClassDeclaration raw_lines_no_comments linenum;;
  let is_forward_declaration := is_some fwd in
  if negb (is_namespace_indent_item || is_forward_declaration) then ret false
  else
    macro <- IsMacroDefinition raw_lines_no_comments linenum;;
    if macro : bool then ret false else ret (IsBlockInNameSpace nesting_state is_forward_declaration).

Definition CheckItemIndentationInNamespace (filename : str) (raw_lines_no_comments : list str) (linenum : Z) (error : error_fn)
    : P unit :=
  line <- get_line raw_lines_no_comments linenum;;
  when (MatchB "^\s+" line)
    (error filename (Some linenum) "runtime/indentation_namespace" 4 "Do not indent within a namespace").

(** The item on top of the stack was pushed on the namespace that was the top before this line; the two blocks are
    compared as objects. *)
Definition is_namespace_indent_item (nesting_state : NestingState) : bool :=
  match stack nesting_state, previous_stack_top nesting_state with
  | o :: o' :: _, Some p =>
      check_namespace_indentation (deref nesting_state o) && is_namespace (deref nesting_state p) && bool_decide (p = o')
  | _, _ => false
  end.

Definition CheckForNamespaceIndentation (filename : str) (nesting_state : NestingState) (clean_lines : CleansedLines) (line : Z)
    (error : error_fn) : P unit :=
  should <- ShouldCheckNamespaceIndentation nesting_state (is_namespace_indent_item nesting_state) (elided clean_lines) line;;
  when should (CheckItemIndentationInNamespace filename (elided clean_lines) line error).

(** ** The operands of an assertion *)

Definition relational : list str := lits ["=="; "!="; ">="; ">"; "<="; "<"].
Definition operator_tokens : list str :=
  lits ["<<"; "<<="; ">>"; ">>="; "->*"; "->"] ++ lits ["&&"; "||"] ++ relational ++ lits ["("].

Lemma operators_shape e m :
  Match _RE_OPERATORS e = Some m ->
  group_str m 1 ∈ operator_tokens /\ (length (group_str m 2) < length e)%nat.
Proof.
  intros H. eapply Match_sound in H as (st & Hs & ->); [|vm_compute; reflexivity|done]. cbn [rx_re rx_flags] in Hs.
  destruct Hs as (s0 & [_ ->] & s1 & Hsp & s2 & (g1 & H1 & ->) & s3 & (g2 & H2 & ->) & s4 & [_ ->] & Hend).
  cbn [sem] in Hend. subst st. sem_words.
  assert (Hg : w0 ∈ operator_tokens) by (eapply spells_words; [|exact H1]; vm_compute; reflexivity).
  assert (Hlen : (1 <= length w0)%nat) by (by apply spells_min_len in H1).
  split.
  - replace (group_str _ 1) with w0 by (symmetry; group_is). done.
  - replace (group_str _ 2) with w by (symmetry; group_is). rewrite !length_app. lia.
Qed.

Lemma operand_shape pattern e m :
  pattern = lit "^([^-=!<>()&|]+)(.*)$" \/ pattern = lit "^(\s*\S)(.*)$" -> Match pattern e = Some m ->
  (length (group_str m 2) < length e)%nat.
Proof.
  intros [-> | ->] H; (eapply Match_sound in H as (st & Hs & ->); [|vm_compute; reflexivity|done]); cbn [rx_re rx_flags] in Hs;
  destruct Hs as (s0 & [_ ->] & s1 & (g1 & H1 & ->) & s2 & (g2 & H2 & ->) & s4 & [_ ->] & Hend);
  cbn [sem] in Hend; subst st; sem_words; apply spells_min_len in H1; cbn in H1;
  (replace (group_str _ 2) with w by (symmetry; group_is)); rewrite !length_app; lia.
Qed.

Lemma find_macro_elem line macros macro p : find_macro line macros = Some (macro, p) -> macro ∈ macros.
Proof.
  induction macros as [|m ms IH]; cbn [find_macro]; [done|]. repeat split_if; try (intros; right; by apply IH).
  destruct (Match _ line); [intros [= -> _]; left | intros; right; by apply IH].
Qed.

(** Every macro the check knows has a replacement for every relational operator. *)
Lemma replacement_total macro op : macro ∈ _CHECK_MACROS -> op ∈ relational -> is_Some (_CHECK_REPLACEMENT macro op).
Proof.
  intros Hm Ho. apply (bool_decide_unpack (is_Some (_CHECK_REPLACEMENT macro op))).
  revert op Ho. apply Forall_forall. revert macro Hm. apply Forall_forall. vm_compute. repeat constructor.
Qed.

Section StyleRuns.
Context (N : Z) (filename : str) (I : world -> Prop) (X : exn -> Prop) (error : error_fn) {R : Reporter N filename I X error}.

Lemma parse_check_runs fuel lhs e :
  (length e <= fuel)%nat ->
  runs I X (parse_check fuel lhs e) (fun r => match r with Some (_, Some op, _) => op ∈ relational | _ => True end).
Proof.
  revert lhs e. induction fuel as [|fuel IH]; intros lhs e He.
  { destruct e; [|cbn in He; lia]. by apply runs_ret. }
  cbn [parse_check]. destruct e as [|c e']; [by apply runs_ret|]. set (e := c :: e') in *.
  destruct (Match _RE_OPERATORS e) as [m|] eqn:E.
  - apply operators_shape in E as [Ht Hl]. cbv zeta. split_if.
    { eapply runs_bind; [apply FindEndOfExpressionInLine_runs; unfold len; lia|]. intros r _. split_if; [by apply runs_ret|]. apply IH.
      pose proof (slice_from_length (group_str m 2) (fst r)). lia. }
    split_if; [by apply runs_ret|]. split_if; [apply IH; lia|]. apply runs_ret.
    unfold operator_tokens in Ht. rewrite !elem_of_app in Ht. destruct Ht as [Ht|[Ht|[Ht|Ht]]]; [| |done|].
    + apply mem_str_elem in Ht. congruence.
    + apply mem_str_elem in Ht. congruence.
    + apply list_elem_of_singleton, str_eqb_eq in Ht. congruence.
  - destruct (Match "^([^-=!<>()&|]+)(.*)$" e) as [m|] eqn:E1.
    + apply operand_shape in E1; [|by left]. apply IH. lia.
    + destruct (Match "^(\s*\S)(.*)$" e) as [m|] eqn:E2; [|by apply runs_ret].
      apply operand_shape in E2; [|by right]. apply IH. lia.
Qed.

Lemma macro_pos line macro m :
  macro ∈ _CHECK_MACROS -> Match ("^(.*\b" ++ macro ++ "\s*)\(") line = Some m -> 0 <= len (group_str m 1) < len line.
Proof. intros H. repeat (apply elem_of_cons in H as [->|H]; [group_range|]). by apply not_elem_of_nil in H. Qed.

Lemma FindCheckMacro_pos line macro p : FindCheckMacro line = Some (macro, p) -> 0 <= p < len line.
Proof.
  unfold FindCheckMacro. assert (Hs : _CHECK_MACROS ⊆ _CHECK_MACROS) by done. revert Hs. generalize _CHECK_MACROS at 1 3.
  induction l as [|m ms IH]; intros Hs; cbn [find_macro]; [done|].
  assert (Hr : find_macro line ms = Some (macro, p) -> 0 <= p < len line) by (apply IH; set_solver).
  split_if; [|done]. destruct (Match _ line) as [mo|] eqn:E; [|done]. intros [= <- <-]. eapply macro_pos; [|done]. set_solver.
Qed.

Section Line.
Context (c : CleansedLines) (linenum : Z) (Hc : sized N c) (Hl : 0 <= linenum < N).

Lemma check_expression_runs l b k p :
  linenum <= k < N -> runs I X (check_expression (elided c) l linenum b k p) (fun _ => True).
Proof.
  intros Hk. unfold check_expression. eapply runs_bind; [eauto with runs|]. intros line _. split_if; [by apply runs_ret|].
  eapply (runs_bind _ _ _ _ (fun _ => True)); [|intros; runs_walk].
  apply (runs_fold_m _ _ _ (fun _ => True)); [done|]. intros e i _ Hi%elem_of_zrange. runs_walk.
Qed.

Lemma CheckCheck_runs : runs I X (CheckCheck filename c linenum error) (fun _ => True).
Proof.
  unfold CheckCheck. eapply runs_bind; [eauto with runs|]. intros line Hi. cbv beta in Hi.
  destruct (FindCheckMacro line) as [[macro p]|] eqn:Em; [|by apply runs_ret]. pose proof (FindCheckMacro_pos _ _ _ Em).
  apply find_macro_elem in Em. eapply runs_bind; [by eapply CloseExpression_runs|]. intros [[l k] q] He. cbn [end_at] in He.
  destruct (q <? 0) eqn:Eq; [by apply runs_ret|]. split_if; [by apply runs_ret|].
  eapply runs_bind; [apply check_expression_runs; lia|]. intros e _. eapply runs_bind; [apply parse_check_runs; lia|].
  intros [[[lhs [op|]] rhs]|] Hop; [|by apply runs_ret..]. destruct (replacement_total macro op Em Hop) as [r ->]. cbn [or_raise]. runs_walk.
Qed.

(** The tokens that are found have a replacement. *)
Lemma alt_token_found line m : m ∈ FindIter _ALT_TOKEN_REPLACEMENT_PATTERN line -> is_Some (alt_token (group_str m 1)).
Proof.
  intros H. destruct (re_parse _ALT_TOKEN_REPLACEMENT_PATTERN) as [rx|] eqn:Hp; [|by vm_compute in Hp].
  pose proof Hp as Hr. vm_compute in Hr. injection Hr as Hr.
  destruct (FindIter_sound _ rx line m Hp ltac:(by rewrite <- Hr) H) as (q & st & Hq & Hs & ->). subst rx. clear H Hp.
  assert (Hg : is_Some (group (MatchObj line (q, pos st) (caps st)) 1)).
  { cbn [rx_re rx_flags] in Hs. destruct Hs as (s1 & H1 & s2 & (g1 & H2 & ->) & s3 & (s4 & H4 & ->) & Hend).
    cbn [sem] in Hend. subst st. apply sem_group_free in H4; [|done]. unfold group, m_group_span. cbn [m_caps caps with_caps].
    rewrite H4. cbn. eauto. }
  destruct Hg as [a Ha]. unfold group_str. rewrite Ha. cbn [default]. unfold id.
  destruct (group_spells (Build_regex _ _ _) line q st 0 a Hq Hs Ha) as (b & Hb & Hw). cbn in Hb. apply list_elem_of_singleton in Hb as ->.
  eapply spells_words in Hw; [|vm_compute; reflexivity]. apply (bool_decide_unpack (is_Some (alt_token a))).
  clear Ha. revert a Hw. apply Forall_forall. vm_compute. repeat constructor.
Qed.

Lemma CheckAltTokens_runs : runs I X (CheckAltTokens filename c linenum error) (fun _ => True).
Proof.
  unfold CheckAltTokens. eapply runs_bind; [eauto with runs|]. intros line _. repeat (split_if; [by apply runs_ret|]).
  apply runs_for_each. intros m Hm. destruct (alt_token_found line m Hm) as [r ->]. cbn [or_raise]. runs_walk.
Qed.

Lemma CheckStyle_runs ext st :
  no_svn_root -> index (elided c) 0 = Some [] -> starts N st -> runs I X (CheckStyle filename c linenum ext st error) (fun _ => True).
Proof.
  intros Hsvn H0 Hs. pose proof CheckCheck_runs. pose proof CheckAltTokens_runs.
  assert (Hcls : forall b, InnermostClass st = Some b -> 0 <= starting_linenum b).
  { intros b [Hb _]%List.find_some. apply in_map_iff in Hb as (o & <- & _). pose proof (deref_start N ltac:(lia) st o Hs). lia. }
  assert (Hlen : forall line, runs I X (check_line_length filename line ext linenum error) (fun _ => True)).
  { intros. unfold check_line_length, is_header_guard. runs_walk. }
  assert (Hone : forall line cl, runs I X (check_one_command filename line cl c linenum error) (fun _ => True)).
  { intros. unfold check_one_command. runs_walk. }
  unfold CheckStyle, check_line_ends. runs_walk.
Qed.

(** A line with a parenthesis has a name in front of it, which may be empty. *)
Lemma function_name_found line : ch "(" ∈ line -> is_Some (Search "((\w|:)*)\(" line).
Proof.
  intros (u & v & ->)%list_elem_of_split. assert (Hs : SearchB "((\w|:)*)\(" (u ++ ch "(" :: v) = true).
  2: { unfold SearchB in Hs. destruct (Search _ _); [eauto | done]. }
  eapply SearchB_iff; [vm_compute; reflexivity|done|]. exists (length u). eexists. split; [rewrite length_app; lia|].
  unfold state_at. rewrite drop_app_length, take_app_length. cbn [rx_re rx_flags].
  eexists. split; [eexists; split; [|reflexivity]; eexists; split; [|reflexivity]; exists 0%nat; split; [split; [lia|done]|constructor]|].
  eexists. split; [|reflexivity]. unfold set_cap, with_caps. cbn [before after caps]. by eapply sem_one.
Qed.

(** The name before the parenthesis has a last word. *)
Lemma function_words line m :
  words_not_spaces -> Match "(\w(\w|::|\*|\&|\s)*)\(" line = Some m -> is_Some (last (split_ws (group_str m 1))).
Proof.
  intros Hw H. destruct (last (split_ws (group_str m 1))) eqn:E; [done|]. apply last_None in E. exfalso. revert E.
  destruct (re_parse "(\w(\w|::|\*|\&|\s)*)\(") as [rx|] eqn:Hp; [|by vm_compute in Hp]. pose proof Hp as Hr. vm_compute in Hr. injection Hr as <-.
  eapply Match_first_group in H as Hg; [|exact Hp | reflexivity..]. destruct Hg as [a Ha].
  eapply Match_group in H as (b & Hb & Hsp); [|exact Hp | done | exact Ha]. cbn in Hb. apply list_elem_of_singleton in Hb as ->.
  apply spells_seq in Hsp as (u & v & -> & Hu & _). eapply spells_one in Hu as (c' & -> & Hc'); [|reflexivity].
  unfold group_str. rewrite Ha. cbn [default]. unfold id. refine (split_ws_word _ c' (list_elem_of_here _ _) _). apply Hw.
  unfold set_has in Hc'. cbn in Hc'. by destruct (is_word c').
Qed.

Lemma CheckForFunctionLengths_runs fs :
  X IndexError \/ words_not_spaces -> runs I X (CheckForFunctionLengths filename c linenum fs error) (fun _ => True).
Proof.
  intros Hx. unfold CheckForFunctionLengths. eapply runs_bind; [eauto with runs|]. intros line _.
  eapply (runs_bind _ _ _ _ (fun b => b = true -> ch "(" ∈ line)).
  { unfold starting_func. destruct (Match _ line) as [m|] eqn:Em; [|by apply runs_ret].
    eapply (runs_bind _ _ _ _ (fun _ => True)).
    { destruct Hx as [Hx|Hx]; [by eapply runs_any, runs_or_raise_may|].
      destruct (function_words line m Hx Em) as [name Hname]. by eapply runs_or_raise. }
    intros name _. apply runs_ret. intros _.
    destruct (decide (ch "(" ∈ line)) as [|Hn]; [done|]. rewrite (Match_needs _ (ch "(") line) in Em; [done | vm_compute; reflexivity | done]. }
  intros starting Hst. split_if; [|runs_walk].
  assert (Hb : forall ks j fs, (forall i, i ∈ ks -> 0 <= i < N) -> runs I X (body_loop (lines c) line j fs ks) (fun _ => True)).
  { induction ks as [|k ks IH]; intros j fs' Hks; cbn [body_loop]; [by apply runs_ret|].
    pose proof (Hks k ltac:(left)). assert (forall i, i ∈ ks -> 0 <= i < N) by (intros; apply Hks; by right). runs_walk.
    unfold function_title. destruct (function_name_found line) as [m ->]; [by apply Hst|]. cbn [or_raise]. runs_walk. }
  assert (Hks : forall i, i ∈ zrange linenum (NumLines c) -> 0 <= i < N) by (intros i Hi%elem_of_zrange; line_lia).
  runs_walk.
Qed.

Lemma CheckForNamespaceIndentation_runs st :
  runs I X (CheckForNamespaceIndentation filename st c linenum error) (fun _ => True).
Proof. unfold CheckForNamespaceIndentation, ShouldCheckNamespaceIndentation, CheckItemIndentationInNamespace. runs_walk. Qed.
End Line.
End StyleRuns.

(** ** The operands of an assertion are its text *)

Definition unspaced (s : str) : str := List.filter (fun c => negb (is_space c)) s.

Lemma unspaced_app s t : unspaced (s ++ t) = unspaced s ++ unspaced t.
Proof. apply List.filter_app. Qed.

Lemma unspaced_spaces f s : (forall c, f c = is_space c) -> forallb f s = true -> unspaced s = [].
Proof. intros Hf. induction s as [|c s IH]; [done|]. cbn. rewrite Hf. intros [-> H]%andb_true_iff. auto. Qed.

Lemma nl_tail (s rest : str) : c_nl ∉ s ++ rest -> rest = [] \/ rest = nl -> rest = [].
Proof. intros H [->| ->]; [done|]. exfalso. apply H, elem_of_app. right. left. Qed.

Lemma operators_split e m :
  Match _RE_OPERATORS e = Some m -> c_nl ∉ e -> unspaced e = unspaced (group_str m 1 ++ group_str m 2).
Proof.
  intros H Hn. eapply Match_sound in H as (st & Hs & ->); [|vm_compute; reflexivity|done]. cbn [rx_re rx_flags] in Hs.
  destruct Hs as (s0 & [_ ->] & s1 & Hsp & s2 & (g1 & H1 & ->) & s3 & (g2 & H2 & ->) & s4 & [Heol ->] & Hend).
  cbn [sem] in Hend. subst st. sem_words. apply eol_rest in Heol; [|done]. cbn [after] in Heol.
  replace (group_str _ 1) with w0 by (symmetry; group_is). replace (group_str _ 2) with w by (symmetry; group_is).
  rewrite !app_assoc in Hn. apply (nl_tail _ rest Hn) in Heol as ->. eapply spells_class in Hsp; [|reflexivity]. rewrite app_nil_r, unspaced_app.
  erewrite unspaced_spaces; [done| |exact Hsp]. intros c. unfold set_has, item_has. cbn. by destruct (is_space c).
Qed.

Lemma operators_nl e m : Match _RE_OPERATORS e = Some m -> c_nl ∉ e -> c_nl ∉ group_str m 2.
Proof.
  intros H Hn Hin. apply Hn. apply Match_text in H as <-. unfold group_str in Hin. unfold group in Hin.
  destruct (m_group_span m 2) as [[a b]|]; cbn in Hin; [|by apply elem_of_nil in Hin].
  rewrite <- (take_drop a (m_text m)), elem_of_app. right. rewrite <- (take_drop (b - a) (drop a (m_text m))), elem_of_app. by left.
Qed.

Lemma operand_split pattern e m :
  pattern = lit "^([^-=!<>()&|]+)(.*)$" \/ pattern = lit "^(\s*\S)(.*)$" -> Match pattern e = Some m -> c_nl ∉ e ->
  e = group_str m 1 ++ group_str m 2.
Proof.
  intros [-> | ->] H Hn; (eapply Match_sound in H as (st & Hs & ->); [|vm_compute; reflexivity|done]); cbn [rx_re rx_flags] in Hs;
  destruct Hs as (s0 & [_ ->] & s1 & (g1 & H1 & ->) & s2 & (g2 & H2 & ->) & s4 & [Heol ->] & Hend);
  cbn [sem] in Hend; subst st; sem_words; (apply eol_rest in Heol; [|done]); cbn [after] in Heol;
  (replace (group_str _ 1) with w0 by (symmetry; group_is)); (replace (group_str _ 2) with w by (symmetry; group_is));
  rewrite !app_assoc in Hn; apply (nl_tail _ rest Hn) in Heol as ->; by rewrite app_nil_r.
Qed.

Lemma slice_split (s : str) k : 0 <= k -> slice s 0 k ++ slice_from s k = s.
Proof.
  intros Hk. unfold slice, slice_from, bound, len. rewrite (proj2 (Z.ltb_ge k 0)) by done. rewrite (proj2 (Z.ltb_ge 0 0)) by lia.
  rewrite (Z.min_l 0) by lia. rewrite Z.sub_0_r. change (Z.to_nat 0) with 0%nat. cbn [drop]. apply take_drop.
Qed.

(** A parse that found an operator has it between the two operands, and white space apart nothing is lost. *)
Definition parsed (text : str) (r : option (str * option str * str)) : Prop :=
  match r with
  | Some (lhs, Some op, rhs) => op ∈ relational /\ unspaced (lhs ++ op ++ rhs) = unspaced text
  | _ => True
  end.

Lemma parse_check_pieces fuel lhs e w :
  (length e <= fuel)%nat -> c_nl ∉ e -> exists r, parse_check fuel lhs e w = (Ok r, w) /\ parsed (lhs ++ e) r.
Proof.
  revert lhs e. induction fuel as [|fuel IH]; intros lhs e He Hn.
  { destruct e; [|cbn in He; lia]. eexists. by split. }
  cbn [parse_check]. destruct e as [|c e']; [eexists; by split|]. set (e := c :: e') in *.
  assert (Hgo : forall l1 e1, (length e1 < length e)%nat -> c_nl ∉ e1 -> unspaced (l1 ++ e1) = unspaced (lhs ++ e) ->
            exists r, parse_check fuel l1 e1 w = (Ok r, w) /\ parsed (lhs ++ e) r).
  { intros l1 e1 H1 H2 H3. destruct (IH l1 e1) as (r & Hr & Hp); [lia|done|]. exists r. split; [done|].
    destruct r as [[[l [op|]] rhs]|]; [|done..]. cbn [parsed] in *. by rewrite <- H3. }
  destruct (Match _RE_OPERATORS e) as [m|] eqn:E.
  - pose proof (operators_split e m E Hn) as Hsp. pose proof (operators_nl e m E Hn) as Hnl. apply operators_shape in E as [Ht Hl]. cbv zeta.
    destruct (str_eqb (group_str m 1) "(") eqn:Ep.
    { apply str_eqb_eq in Ep. unfold FindEndOfExpressionInLine.
      destruct (end_loop_progress (Z.to_nat (len (group_str m 2) - 0)) (group_str m 2) 0 [ch "("] w) as (r & Hr & Hk); [unfold len; lia|].
      unfold bind. change (Z.of_nat 0) with 0 in Hr. rewrite Hr. destruct Hk as [->|(j & -> & Hj)]; [eexists; by split|].
      rewrite (proj2 (Z.ltb_ge _ 0)) by lia. apply Hgo.
      - pose proof (slice_from_length (group_str m 2) (Z.of_nat j)). lia.
      - intros Hin. apply Hnl. rewrite <- (slice_split (group_str m 2) (Z.of_nat j)) by lia. apply elem_of_app. by right.
      - rewrite <- !app_assoc, slice_split by lia. rewrite (unspaced_app lhs), (unspaced_app lhs e), Hsp, Ep. done. }
    assert (Hall : unspaced (lhs ++ group_str m 1 ++ group_str m 2) = unspaced (lhs ++ e)) by (by rewrite (unspaced_app lhs), (unspaced_app lhs e), Hsp).
    split_if; [eexists; by split|]. split_if; [apply Hgo; [lia|done|by rewrite <- app_assoc]|]. eexists. split; [reflexivity|]. split; [|done].
    unfold operator_tokens in Ht. rewrite !elem_of_app in Ht. destruct Ht as [Ht|[Ht|[Ht|Ht]]]; [| |done|].
    + apply mem_str_elem in Ht. congruence.
    + apply mem_str_elem in Ht. congruence.
    + apply list_elem_of_singleton, str_eqb_eq in Ht. congruence.
  - assert (Hop : forall p m, p = lit "^([^-=!<>()&|]+)(.*)$" \/ p = lit "^(\s*\S)(.*)$" -> Match p e = Some m ->
              exists r, parse_check fuel (lhs ++ group_str m 1) (group_str m 2) w = (Ok r, w) /\ parsed (lhs ++ e) r).
    { intros p m Hp Em. pose proof (operand_split p e m Hp Em Hn) as Hs. apply Hgo; [by apply (operand_shape p)| |].
      - intros Hin. apply Hn. rewrite Hs. apply elem_of_app. by right.
      - rewrite <- app_assoc. by rewrite <- Hs. }
    destruct (Match "^([^-=!<>()&|]+)(.*)$" e) as [m|] eqn:E1; [eapply Hop; [by left | done]|].
    destruct (Match "^(\s*\S)(.*)$" e) as [m|] eqn:E2; [eapply Hop; [by right | done]|]. eexists. by split.
Qed.

(** C21. The operands of an assertion: taking the text between the parentheses of [CHECK(...)] apart always ends, and where it finds an operator
    to put into the name of the macro, that operator is a comparison and the text is, apart from white space, the left operand, the operator and
    the right operand: nothing is lost, repeated or moved. *)
Theorem parse_check_spec e w (Hn : c_nl ∉ e) : exists r, parse_check (length e) [] e w = (Ok r, w) /\ parsed e r.
Proof. by apply parse_check_pieces. Qed.

End Style.

#[export] Hint Resolve CheckStyle_runs CheckForFunctionLengths_runs CheckForNamespaceIndentation_runs : runs.

(** ** Witnesses *)

Lemma parse_check_spec_witness :
  exists r, parse_check (U := ascii_db) 18 [] "f(x)->y >= (a < b)" world_init = (Ok r, world_init) /\
    r = Some (lit "f(x)->y ", Some (lit ">="), lit " (a < b)").
Proof.
  destruct (parse_check_spec (U := ascii_db) "f(x)->y >= (a < b)" world_init) as (r & H & _).
  - intros H; vm_compute in H; set_solver.
  - exists r. split; [exact H|]. vm_compute in H. injection H as <-. reflexivity.
Defined.
