(* ===== verification/IncludeChecks.v ===== *)
(** * Checks of include directives

    Models [_ClassifyInclude], [CheckIncludeLine], [FilesBelongToSameModule], [UpdateIncludeState] and [CheckForIncludeWhatYouUse] of
    cpplint.py.  Reading a header file is a parameter.  The dictionaries that are built here are association lists in the order of
    insertion, which is the order Python iterates over them in. *)

From stdpp Require Import sorting.
From S2P Require Import Prelude PyStr PyRe PyEff Tables Regexps Lint Cleanse Expr Includes Paths FileChecks Nesting Spacing.

Local Open Scope Z_scope.

Class FileReader := {
  open_utf8 : str -> option str   (* the text codecs.open(name, 'r', 'utf8', 'replace') reads, None for an IOError *)
}.

(** ** Dictionaries *)

Section Dict.
Context {V : Type}.

Definition dict_mem (k : str) (d : list (str * V)) : bool := existsb (fun p => str_eqb (fst p) k) d.

(** [d[k] = v] *)
Fixpoint dict_set (k : str) (v : V) (d : list (str * V)) : list (str * V) :=
  match d with
  | [] => [(k, v)]
  | p :: d' => if str_eqb (fst p) k then (k, v) :: d' else p :: dict_set k v d'
  end.

(** [d.setdefault(k, v)] *)
Definition dict_setdefault (k : str) (v : V) (d : list (str * V)) : list (str * V) :=
  if dict_mem k d then d else d ++ [(k, v)].

(** [dict(pairs)] *)
Definition dict_of (pairs : list (str * V)) : list (str * V) := fold_left (fun d p => dict_set (fst p) (snd p) d) pairs [].
End Dict.

Section IncludeChecks.
Context {U : UnicodeDB} {FS : FileSystem} {FR : FileReader}.

(** ** The kind of a header *)

Definition _THIRD_PARTY_HEADERS_PATTERN : str := "^(?:[^/]*[A-Z][^/]*\.h|lua\.h|lauxlib\.h|lualib\.h)$".
Definition _RE_FIRST_COMPONENT : str := "^[^-_.]+".

(** The suffixes [_DropCommonSuffixes] drops, in the order they are tried. *)
Definition common_suffixes (non_headers headers : list str) : list str :=
  flat_map (fun test_suffix => map (fun ext => lstrip_chars test_suffix "_" ++ "." ++ ext) non_headers) _test_suffixes
  ++ flat_map (fun suffix => map (fun ext => suffix ++ "." ++ ext) headers) (lits ["inl"; "imp"; "internal"]).

Definition has_common_suffix (filename suffix : str) : bool :=
  endswith filename suffix && (len suffix <? len filename)
  && match index filename (- len suffix - 1) with Some c => in_chars "-_" c | None => false end.

Definition _DropCommonSuffixes (filename : str) : P str :=
  non_headers <- GetNonHeaderExtensions;;
  headers <- GetHeaderExtensions;;
  match List.find (has_common_suffix filename) (common_suffixes (elements non_headers) (elements headers)) with
  | Some suffix => ret (slice_to filename (- len suffix - 1))
  | None => ret (fst (OsPath.splitext filename))
  end.

(** [fileinfo] is the name of the file that is checked. *)
Definition _ClassifyInclude (fileinfo include : str) (is_system : bool) : P Z :=
  let is_cpp_h := mem_str include _CPP_HEADERS in
  let is_system := is_system && negb (mem_str (snd (OsPath.splitext include)) (lits [".hpp"; ".hxx"; ".h++"])) in
  if is_system then ret (if is_cpp_h then _CPP_SYS_HEADER else _C_SYS_HEADER)
  else
    name <- RepositoryName fileinfo;;
    target <- _DropCommonSuffixes name;;
    let '(target_dir, target_base) := OsPath.split target in
    inc <- _DropCommonSuffixes include;;
    let '(include_dir, include_base) := OsPath.split inc in
    let target_dir_pub := replace (OsPath.normpath (target_dir ++ "/../public")) "\" "/" in
    if str_eqb target_base include_base && (str_eqb include_dir target_dir || str_eqb include_dir target_dir_pub)
    then ret _LIKELY_MY_HEADER
    else
      match Match _RE_FIRST_COMPONENT target_base, Match _RE_FIRST_COMPONENT include_base with
      | Some t, Some i => if str_eqb (group_str t 0) (group_str i 0) then ret _POSSIBLE_MY_HEADER else ret _OTHER_HEADER
      | _, _ => ret _OTHER_HEADER
      end.

(** ** One include directive *)

(** The first extension of a source file that the included name has, where the two files are in different directories. *)
Definition foreign_source (filename include : str) (exts : list str) : P (option str) :=
  name <- RepositoryName filename;;
  ret (List.find (fun extension => endswith include ("." ++ extension)
                                   && negb (str_eqb (OsPath.dirname name) (OsPath.dirname include))) exts).

(** Whether the include names the header of the file that is checked. *)
Fixpoint third_src_header (filename include : str) (exts : list str) : P bool :=
  match exts with
  | [] => ret false
  | ext :: exts' =>
      extension <- Extension filename;;
      let basefilename := slice filename 0 (len filename - len extension) in
      let headerfile := basefilename ++ "." ++ ext in
      headername <- RepositoryName headerfile;;
      if contains headername include || contains include headername then ret true
      else third_src_header filename include exts'
  end.

(** The order of the headers: their sections, then the alphabet. *)
Definition check_include_order (filename : str) (clean_lines : CleansedLines) (linenum : Z) (st : _IncludeState)
    (include : str) (is_system : bool) (error : error_fn) : P _IncludeState :=
  header_type <- _ClassifyInclude filename include is_system;;
  r <- CheckNextIncludeOrder st header_type;;
  let '(error_message, st) := r in
  when (nonempty error_message)
    (base <- BaseName filename;;
     error filename (Some linenum) "build/include_order" 4
       (error_message ++ ". Should be: " ++ base ++ ".h, c system, c++ system, other."));;
  let canonical_include := CanonicalizeAlphabeticalOrder include in
  sorted <- IsInAlphabeticalOrder st clean_lines linenum canonical_include;;
  when (negb sorted)
    (error filename (Some linenum) "build/include_alpha" 4 ("Include `" ++ include ++ "` not in alphabetical order"));;
  ret (SetLastHeader st canonical_include).

Definition CheckIncludeLine (filename : str) (clean_lines : CleansedLines) (linenum : Z) (st : _IncludeState) (error : error_fn)
    : P _IncludeState :=
  line <- get_line (lines clean_lines) linenum;;
  match Match "#include\s*`([^/]+\.h)`" line with
  | Some m =>
      when (negb (MatchB _THIRD_PARTY_HEADERS_PATTERN (group_str m 1)))
        (error filename (Some linenum) "build/include_subdir" 4 "Include the directory when naming .h files")
  | None => ret tt
  end;;
  match Search _RE_PATTERN_INCLUDE line with
  | None => ret st
  | Some m =>
      let include := group_str m 2 in
      let is_system := str_eqb (group_str m 1) "<" in
      let duplicate_line := FindHeader st include in
      if 0 <=? duplicate_line then
        error filename (Some linenum) "build/include" 4
          ("`" ++ include ++ "` already included at " ++ filename ++ ":" ++ str_of_Z duplicate_line);;
        ret st
      else
        non_headers <- GetNonHeaderExtensions;;
        foreign <- foreign_source filename include (elements non_headers);;
        match foreign with
        | Some extension =>
            error filename (Some linenum) "build/include" 4
              ("Do not include ." ++ extension ++ " files from other packages");;
            ret st
        | None =>
            headers <- GetHeaderExtensions;;
            third <- third_src_header filename include (elements headers);;
            if third || negb (MatchB _THIRD_PARTY_HEADERS_PATTERN include) then
              check_include_order filename clean_lines linenum (append_include st include linenum) include is_system error
            else ret st
        end
  end.

(** ** Which header a name comes from *)

Definition _HEADERS_CONTAINING_TEMPLATES : list (str * list str) := [
  (lit "<deque>", lits ["deque"]);
  (lit "<functional>", lits ["unary_function"; "binary_function"; "plus"; "minus"; "multiplies"; "divides"; "modulus"; "negate";
     "equal_to"; "not_equal_to"; "greater"; "less"; "greater_equal"; "less_equal"; "logical_and"; "logical_or"; "logical_not";
     "unary_negate"; "not1"; "binary_negate"; "not2"; "bind1st"; "bind2nd"; "pointer_to_unary_function";
     "pointer_to_binary_function"; "ptr_fun"; "mem_fun_t"; "mem_fun"; "mem_fun1_t"; "mem_fun1_ref_t"; "mem_fun_ref_t";
     "const_mem_fun_t"; "const_mem_fun1_t"; "const_mem_fun_ref_t"; "const_mem_fun1_ref_t"; "mem_fun_ref"]);
  (lit "<limits>", lits ["numeric_limits"]);
  (lit "<list>", lits ["list"]);
  (lit "<map>", lits ["multimap"]);
  (lit "<memory>", lits ["allocator"; "make_shared"; "make_unique"; "shared_ptr"; "unique_ptr"; "weak_ptr"]);
  (lit "<queue>", lits ["queue"; "priority_queue"]);
  (lit "<set>", lits ["multiset"]);
  (lit "<stack>", lits ["stack"]);
  (lit "<string>", lits ["char_traits"; "basic_string"]);
  (lit "<tuple>", lits ["tuple"]);
  (lit "<unordered_map>", lits ["unordered_map"; "unordered_multimap"]);
  (lit "<unordered_set>", lits ["unordered_set"; "unordered_multiset"]);
  (lit "<utility>", lits ["pair"]);
  (lit "<vector>", lits ["vector"]);
  (lit "<hash_map>", lits ["hash_map"; "hash_multimap"]);
  (lit "<hash_set>", lits ["hash_set"; "hash_multiset"]);
  (lit "<slist>", lits ["slist"])
].

Definition _HEADERS_MAYBE_TEMPLATES : list (str * list str) := [
  (lit "<algorithm>", lits ["copy"; "max"; "min"; "min_element"; "sort"; "transform"]);
  (lit "<utility>", lits ["forward"; "make_pair"; "move"; "swap"])
].

Definition _RE_PATTERN_STRING : str := "\bstring\b".

(** Patterns, what they find, and the header it needs. *)
Definition _re_pattern_headers_maybe_templates : list (str * str * str) :=
  flat_map (fun '(_header, _templates) =>
    map (fun _template => ("[^>.]\b" ++ _template ++ "(<.*?>)?\([^\)]", _template, _header)) _templates)
    _HEADERS_MAYBE_TEMPLATES
  ++ [(lit "[^>.]\bset\s*\<", lit "set<>", lit "<set>");
      (lit "(std\b::\bmap\s*\<)|(^(std\b::\b)map\b\(\s*\<)", lit "map<>", lit "<map>")].

Definition _re_pattern_templates : list (str * str * str) :=
  flat_map (fun '(_header, _templates) =>
    map (fun _template => ("(\<|\b)" ++ _template ++ "\s*\<", _template ++ "<>", _header)) _templates)
    _HEADERS_CONTAINING_TEMPLATES.

(** ** Modules *)

Definition FilesBelongToSameModule (filename_cc filename_h : str) : P (bool * str) :=
  ext_cc <- Extension filename_cc;;
  non_headers <- GetNonHeaderExtensions;;
  if negb (bool_decide (lstrip_chars ext_cc "." ∈ non_headers)) then ret (false, [])
  else
    ext_h <- Extension filename_h;;
    is_header <- IsHeaderExtension (lstrip_chars ext_h ".");;
    if negb is_header then ret (false, [])
    else
      base_cc <- BaseName filename_cc;;
      let filename_cc := slice_to filename_cc (- len ext_cc) in
      let filename_cc := match Search _TEST_FILE_SUFFIX base_cc with
                         | Some matched_test_suffix => slice_to filename_cc (- len (group_str matched_test_suffix 1))
                         | None => filename_cc
                         end in
      let filename_cc := replace (replace filename_cc "/public/" "/") "/internal/" "/" in
      let filename_h := slice_to filename_h (- len ext_h) in
      let filename_h := if endswith filename_h "-inl" then slice_to filename_h (-4) else filename_h in
      let filename_h := replace (replace filename_h "/public/" "/") "/internal/" "/" in
      if endswith filename_cc filename_h then ret (true, slice_to filename_cc (- len filename_h)) else ret (false, []).

(** The dictionary with the headers that the lines of a file include. *)
Fixpoint add_includes (linenum : Z) (ls : list str) (include_dict : list (str * Z)) : list (str * Z) :=
  match ls with
  | [] => include_dict
  | line :: ls' =>
      let linenum := linenum + 1 in
      add_includes linenum ls'
        (match Search _RE_PATTERN_INCLUDE (CleanseComments line) with
         | Some m => dict_setdefault (group_str m 2) linenum include_dict
         | None => include_dict
         end)
  end.

Definition UpdateIncludeState (filename : str) (include_dict : list (str * Z)) : bool * list (str * Z) :=
  match open_utf8 filename with
  | None => (false, include_dict)
  | Some text => (true, add_includes 0 (splitlines text) include_dict)
  end.

(** ** Include what you use *)

(** The match is not in a namespace other than [std]. *)
Definition in_std (line : str) (matched : match_obj) : bool :=
  let prefix := slice_to line (m_start matched 0) in
  endswith prefix "std::" || negb (endswith prefix "::").

(** The headers one line needs, added to those of the lines before it. *)
Definition require_line (required : list (str * (Z * str))) (linenum : Z) (line : str) : list (str * (Z * str)) :=
  match line with
  | [] => required
  | c :: _ =>
      if (c =? ch "#")%N then required
      else
        let required := match Search _RE_PATTERN_STRING line with
                        | Some matched => if in_std line matched then dict_set "<string>" (linenum, lit "string") required else required
                        | None => required
                        end in
        let required := fold_left (fun required '(pattern, template, header) =>
                          if SearchB pattern line then dict_set header (linenum, template) required else required)
                          _re_pattern_headers_maybe_templates required in
        if negb (contains "<" line) then required
        else fold_left (fun required '(pattern, template, header) =>
               match Search pattern line with
               | Some matched => if in_std line matched then dict_set header (linenum, template) required else required
               | None => required
               end) _re_pattern_templates required
  end.

Definition required_headers (elided : list str) : list (str * (Z * str)) :=
  fold_left (fun required '(linenum, line) => require_line required linenum line) (enumerate elided) [].

(** The order of [(linenum, template)] pairs. *)
Definition use_ltb (a b : Z * str) : bool := (fst a <? fst b) || ((fst a =? fst b) && str_ltb (snd a) (snd b)).

(** [sorted(required, key=required.__getitem__)]: a stable sort. *)
Fixpoint insert_use (x : str * (Z * str)) (l : list (str * (Z * str))) : list (str * (Z * str)) :=
  match l with
  | [] => [x]
  | y :: l' => if use_ltb (snd y) (snd x) then y :: insert_use x l' else x :: l
  end.
Definition sort_uses (l : list (str * (Z * str))) : list (str * (Z * str)) := fold_right insert_use [] l.

(** The headers of the same module are read, and what they include counts as included. *)
Definition load_headers (abs_filename : str) (include_dict : list (str * Z)) : P (bool * list (str * Z)) :=
  fold_m (fun '(header_found, include_dict) header =>
    r <- FilesBelongToSameModule abs_filename header;;
    let '(same_module, common_path) := r in
    if same_module : bool then
      let '(ok, include_dict) := UpdateIncludeState (common_path ++ header) include_dict in
      ret (header_found || ok, include_dict)
    else ret (header_found, include_dict)) (map fst include_dict) (false, include_dict).

Definition CheckForIncludeWhatYouUse (filename : str) (clean_lines : CleansedLines) (include_state : _IncludeState)
    (error : error_fn) : P unit :=
  let required := required_headers (slice_to (elided clean_lines) (NumLines clean_lines)) in
  let include_dict := dict_of (concat (include_list include_state)) in
  let abs_filename := ReplaceAll "_flymake\.cc$" ".cc" (FullName filename) in
  r <- load_headers abs_filename include_dict;;
  let '(header_found, include_dict) := r in
  non_headers <- GetNonHeaderExtensions;;
  if negb header_found && existsb (fun extension => endswith filename ("." ++ extension)) (elements non_headers) then ret tt
  else for_each (sort_uses required) (fun '(required_header_unstripped, (linenum, template)) =>
    when (negb (dict_mem (strip_chars required_header_unstripped "<>`") include_dict))
      (error filename (Some linenum) "build/include_what_you_use" 4
         ("Add #include " ++ required_header_unstripped ++ " for " ++ template))).

(** ** Triples *)

Section IncludeRuns.
Context (I : world -> Prop) (X : exn -> Prop) (Hsvn : no_svn_root).

(** Every include is classified as one of the five kinds. *)
Lemma _ClassifyInclude_runs filename include is_system :
  runs I X (_ClassifyInclude filename include is_system) header_type_ok.
Proof.
  assert (Hd : forall f, runs I X (_DropCommonSuffixes f) (fun _ => True)) by (intros; unfold _DropCommonSuffixes; runs_walk).
  assert (Hk : header_type_ok _C_SYS_HEADER /\ header_type_ok _CPP_SYS_HEADER /\ header_type_ok _LIKELY_MY_HEADER /\
               header_type_ok _POSSIBLE_MY_HEADER /\ header_type_ok _OTHER_HEADER) by (unfold header_type_ok; repeat split; done).
  destruct Hk as (H1 & H2 & H3 & H4 & H5).
  unfold _ClassifyInclude. cbv zeta. split_if; [apply runs_ret; by split_if|].
  eapply runs_bind; [eauto with runs|]. intros name _. eapply runs_bind; [apply Hd|]. intros t _. destruct (OsPath.split t).
  eapply runs_bind; [apply Hd|]. intros i _. destruct (OsPath.split i). split_if; [by apply runs_ret|].
  repeat (destruct (Match _ _); [|by apply runs_ret]). split_if; by apply runs_ret.
Qed.

Lemma FilesBelongToSameModule_runs cc h : runs I X (FilesBelongToSameModule cc h) (fun _ => True).
Proof. unfold FilesBelongToSameModule. runs_walk. Qed.

Context (N : Z) (filename : str) (error : error_fn) {R : Reporter N filename I X error} (c : CleansedLines) (Hc : sized N c).

Lemma CheckIncludeLine_runs linenum st :
  0 <= linenum < N -> includes_in N st -> runs I X (CheckIncludeLine filename c linenum st error) (includes_in N).
Proof.
  intros Hl Hst. assert (Ht : forall i exts, runs I X (third_src_header filename i exts) (fun _ => True)).
  { intros i. induction exts as [|e exts IH]; cbn [third_src_header]; runs_walk. }
  assert (Hf : forall i exts, runs I X (foreign_source filename i exts) (fun _ => True)) by (intros; unfold foreign_source; runs_walk).
  unfold CheckIncludeLine. eapply runs_bind; [eauto with runs|]. intros line _.
  eapply (runs_bind _ _ _ _ (fun _ => True)); [runs_walk|]. intros _ _.
  destruct (Search _ line) as [m|]; [|by apply runs_ret]. cbv zeta. split_if; [eapply runs_bind; [eauto with runs|]; intros; by apply runs_ret|].
  eapply runs_bind; [eauto with runs|]. intros nh _. eapply runs_bind; [apply Hf|]. intros [e|] _;
    [eapply runs_bind; [eauto with runs|]; intros; by apply runs_ret|].
  eapply runs_bind; [eauto with runs|]. intros hs _. eapply runs_bind; [apply Ht|]. intros b _. split_if; [|by apply runs_ret].
  unfold check_include_order. eapply runs_bind; [apply _ClassifyInclude_runs|]. intros t Hk.
  eapply runs_bind; [apply (CheckNextIncludeOrder_runs N); [done | by apply append_include_in; [lia|]]|]. intros [msg st'] Hst'. cbn [snd] in Hst'.
  eapply (runs_bind _ _ _ _ (fun _ => True)); [runs_walk|]. intros _ _. cbv zeta. eapply runs_bind; [eauto with runs|]. intros s _.
  eapply (runs_bind _ _ _ _ (fun _ => True)); [runs_walk|]. intros _ _. apply runs_ret. done.
Qed.

(** Headers are required by lines of the file. *)
Definition used_at (M : Z) (r : list (str * (Z * str))) : Prop := Forall (fun p => 0 <= fst (snd p) < M) r.

Lemma dict_set_used M k v r : 0 <= fst v < M -> used_at M r -> used_at M (dict_set k v r).
Proof.
  intros Hv. induction 1 as [|p r Hp Hr IH]; cbn [dict_set]; [by apply Forall_singleton|]. split_if; by constructor.
Qed.

Lemma fold_used {A} M (f : list (str * (Z * str)) -> A -> list (str * (Z * str))) l r :
  (forall r x, x ∈ l -> used_at M r -> used_at M (f r x)) -> used_at M r -> used_at M (fold_left f l r).
Proof.
  revert r. induction l as [|x l IH]; intros r Hf Hr; cbn [fold_left]; [done|].
  apply IH; [intros; apply Hf; [by right | done]|]. apply Hf; [left | done].
Qed.

Lemma require_line_used M r i line : 0 <= i < M -> used_at M r -> used_at M (require_line r i line).
Proof.
  intros Hi Hr. unfold require_line. destruct line as [|a line]; [done|]. split_if; [done|].
  assert (H1 : forall (b : bool) k t r, used_at M r -> used_at M (if b then dict_set k (i, t) r else r)).
  { intros b k t r' Hr'. destruct b; [by apply dict_set_used | done]. }
  cbv zeta. assert (H2 : forall l r, used_at M r -> used_at M (fold_left (fun required '(pattern, template, header) =>
    if SearchB pattern (a :: line) then dict_set header (i, template) required else required) l r)).
  { intros l r' Hr'. apply fold_used; [|done]. intros r2 [[p t] h] _. apply H1. }
  split_if; [apply H2 | apply fold_used]; [destruct (Search _ _); auto | | apply H2; destruct (Search _ _); auto].
  intros r2 [[p t] h] _ Hr2. destruct (Search p _); auto.
Qed.

Lemma required_headers_used ls : used_at (len ls) (required_headers ls).
Proof.
  apply fold_used; [|constructor]. intros r [i line] Hi%elem_of_enumerate Hr. by apply require_line_used.
Qed.

Lemma sort_uses_used M r : used_at M r -> used_at M (sort_uses r).
Proof.
  induction 1 as [|p r Hp _ IH]; [constructor|]. change (used_at M (insert_use p (sort_uses r))).
  induction IH as [|q l Hq Hl IH]; cbn [insert_use]; [by apply Forall_singleton|].
  split_if; repeat (apply Forall_cons; split); done.
Qed.

Lemma CheckForIncludeWhatYouUse_runs st : runs I X (CheckForIncludeWhatYouUse filename c st error) (fun _ => True).
Proof.
  assert (Hu : used_at N (sort_uses (required_headers (slice_to (elided c) (NumLines c))))).
  { apply sort_uses_used. eapply Forall_impl; [apply required_headers_used|]. intros p Hp. cbv beta in *.
    assert (len (slice_to (elided c) (NumLines c)) <= N); [|lia]. size_facts. unfold slice_to, len in *. rewrite length_take. lia. }
  assert (Hl : forall f d, runs I X (load_headers f d) (fun _ => True)).
  { intros f d. unfold load_headers. apply (runs_fold_m _ _ _ (fun _ => True)); [done|]. intros [b d'] h _ _.
    pose proof FilesBelongToSameModule_runs. runs_walk. }
  unfold CheckForIncludeWhatYouUse. runs_walk. unfold used_at in Hu. rewrite Forall_forall in Hu.
  match goal with H : _ ∈ sort_uses _ |- _ => specialize (Hu _ H); cbn [fst snd] in Hu end. runs_walk.
Qed.
End IncludeRuns.

(** ** What is used and not included *)

(** A dictionary has one entry for a key, the value it was given last. *)
Lemma dict_set_elem {V} k (v : V) d k' v' :
  NoDup (map fst d) -> (k', v') ∈ dict_set k v d <-> (k' = k /\ v' = v) \/ (k' <> k /\ (k', v') ∈ d).
Proof.
  induction d as [|[a b] d IH]; intros Hd; cbn [dict_set map fst] in *.
  - rewrite list_elem_of_singleton, elem_of_nil. naive_solver.
  - apply NoDup_cons in Hd as [Ha Hd]. unfold str_eqb. case_bool_decide as E.
    + subst a. rewrite !elem_of_cons. split; [intros [[= -> ->]|H]; [by left | right]|].
      * split; [|by right]. intros ->. apply Ha. apply list_elem_of_fmap. by exists (k, v').
      * intros [[-> ->]|[Hn [[= -> _]|H]]]; [by left | done | by right].
    + rewrite !elem_of_cons, IH by done. naive_solver.
Qed.

Lemma dict_set_keys {V} k (v : V) d : NoDup (map fst d) -> NoDup (map fst (dict_set k v d)).
Proof.
  induction d as [|[a b] d IH]; intros Hd; cbn [dict_set map fst] in *; [apply NoDup_singleton|].
  apply NoDup_cons in Hd as [Ha Hd]. unfold str_eqb. case_bool_decide as E; cbn [map fst]; [subst a; by constructor|].
  constructor; [|by apply IH]. rewrite list_elem_of_fmap. intros ([k' v'] & Hk & H%dict_set_elem); [|done]. cbn in Hk. subst k'.
  destruct H as [[-> _]|[_ H]]; [done|]. apply Ha, list_elem_of_fmap. by exists (a, v').
Qed.

(** The last of the pairs with a key. *)
Definition last_use {V} (pairs : list (str * V)) (k : str) : option V :=
  snd <$> List.find (fun p => str_eqb (fst p) k) (rev pairs).

Lemma dict_of_spec {V} (pairs : list (str * V)) :
  NoDup (map fst (dict_of pairs)) /\ forall k v, (k, v) ∈ dict_of pairs <-> last_use pairs k = Some v.
Proof.
  unfold last_use. induction pairs as [|[a b] pairs [Hn IH]] using rev_ind.
  - split; [constructor|]. intros k v. cbn. rewrite elem_of_nil. naive_solver.
  - unfold dict_of in *. rewrite fold_left_app. cbn [fold_left fst snd]. split; [by apply dict_set_keys|]. intros k v.
    rewrite dict_set_elem, rev_app_distr by done. cbn [rev app List.find fst]. unfold str_eqb at 1. case_bool_decide as E; cbn.
    + subst a. naive_solver.
    + rewrite IH. naive_solver.
Qed.

(** The uses of standard headers on a line, in the order in which they are looked for, without the test for an angle bracket. *)
Definition line_uses (linenum : Z) (line : str) : list (str * (Z * str)) :=
  match line with
  | [] => []
  | c :: _ =>
      if (c =? ch "#")%N then []
      else
        match Search _RE_PATTERN_STRING line with
        | Some matched => if in_std line matched then [(lit "<string>", (linenum, lit "string"))] else []
        | None => []
        end
        ++ flat_map (fun '(pattern, template, header) => if SearchB pattern line then [(header, (linenum, template))] else [])
             _re_pattern_headers_maybe_templates
        ++ flat_map (fun '(pattern, template, header) =>
             match Search pattern line with
             | Some matched => if in_std line matched then [(header, (linenum, template))] else []
             | None => []
             end) _re_pattern_templates
  end.

Definition uses (elided : list str) : list (str * (Z * str)) := flat_map (fun '(n, l) => line_uses n l) (enumerate elided).

Lemma fold_left_flat {A B C} (f : C -> A -> C) (g : C -> B -> C) (F : A -> list B) l c :
  (forall c x, f c x = fold_left g (F x) c) -> fold_left f l c = fold_left g (flat_map F l) c.
Proof. intros H. revert c. induction l as [|x l IH]; intros c; cbn [fold_left flat_map]; [done|]. by rewrite fold_left_app, IH, H. Qed.

(** Every template is followed by an angle bracket. *)
Lemma templates_need : Forall (fun '(pattern, _, _) => pattern_needs pattern (ch "<") = true) _re_pattern_templates.
Proof.
  apply Forall_forall. intros [[p t] h] Hp%list_elem_of_In. revert p t h Hp.
  enough (H : forall x, In x _re_pattern_templates -> pattern_needs (fst (fst x)) (ch "<") = true) by (intros p t h; apply (H (p, t, h))).
  apply forallb_forall. vm_compute. reflexivity.
Qed.

Lemma no_templates line (F : match_obj -> str -> str -> list (str * (Z * str))) :
  ch "<" ∉ line ->
  flat_map (fun '(pattern, template, header) =>
    match Search pattern line with Some matched => F matched template header | None => [] end) _re_pattern_templates = [].
Proof.
  intros Hc. pose proof templates_need as H. induction H as [|[[p t] h] l Hp Hl IH]; [done|]. cbn [flat_map].
  by rewrite (Search_needs p (ch "<") line).
Qed.

Lemma require_line_eq required n line :
  require_line required n line = fold_left (fun d p => dict_set (fst p) (snd p) d) (line_uses n line) required.
Proof.
  destruct line as [|c line]; [done|]. unfold require_line, line_uses. destruct (c =? ch "#")%N; [done|]. cbv zeta.
  set (l := c :: line). rewrite !fold_left_app.
  set (r1 := match Search _RE_PATTERN_STRING l with Some _ => _ | None => _ end).
  replace (fold_left _ (match Search _RE_PATTERN_STRING l with Some _ => _ | None => _ end) required) with r1.
  2: { unfold r1. destruct (Search _RE_PATTERN_STRING l); [|done]. by split_if. }
  rewrite (fold_left_flat _ (fun d p => dict_set (fst p) (snd p) d) (fun '(pattern, template, header) =>
    if SearchB pattern l then [(header, (n, template))] else []) _ r1) by (intros d [[p t] h]; by split_if).
  set (r2 := fold_left _ (flat_map _ _) r1).
  rewrite (fold_left_flat _ (fun d p => dict_set (fst p) (snd p) d) (fun '(pattern, template, header) =>
    match Search pattern l with Some matched => if in_std l matched then [(header, (n, template))] else [] | None => [] end) _ r2)
    by (intros d [[p t] h]; destruct (Search p l); [by split_if | done]).
  destruct (contains "<" l) eqn:E; cbn [negb]; [done|].
  rewrite (no_templates l (fun matched template header => if in_std l matched then [(header, (n, template))] else [])); [done|].
  intros Hc. apply (contains_char (ch "<")) in Hc. change [ch "<"] with (lit "<") in Hc. congruence.
Qed.

Lemma required_spec elided :
  required_headers elided = dict_of (uses elided) /\
  NoDup (map fst (required_headers elided)) /\
  forall header use, (header, use) ∈ required_headers elided <-> last_use (uses elided) header = Some use.
Proof.
  assert (H : required_headers elided = dict_of (uses elided)).
  { apply fold_left_flat. intros d [n l]. apply require_line_eq. }
  rewrite H. split; [done|]. apply dict_of_spec.
Qed.

(** C25. The headers a file needs: the scan of the lines, with its test for an angle bracket that is there for speed only, gives for every header
    the last of the uses that the patterns find, each with its line and its name, and nothing else. *)
Theorem required_headers_spec elided :
  required_headers elided = dict_of (uses elided) /\
  NoDup (map fst (required_headers elided)) /\
  forall header use, (header, use) ∈ required_headers elided <-> last_use (uses elided) header = Some use.
Proof. apply required_spec. Qed.

Lemma str_ltb_asym s t : str_ltb s t = true -> str_ltb t s = false.
Proof.
  revert t. induction s as [|c s IH]; intros [|d t]; cbn [str_ltb]; try done.
  rewrite (N.eqb_sym d c). case N.eqb_spec; [auto|]. intros _ H%N.ltb_lt. apply N.ltb_ge. lia.
Qed.

Lemma str_le_trans s t u : str_ltb t s = false -> str_ltb u t = false -> str_ltb u s = false.
Proof.
  revert t u. induction s as [|c s IH]; intros [|d t] [|e u]; cbn [str_ltb]; try done.
  repeat case N.eqb_spec; intros; subst; rewrite ?N.ltb_ge in *; try lia; eauto.
Qed.

Definition use_le (a b : str * (Z * str)) : Prop := use_ltb (snd b) (snd a) = false.

Lemma use_ltb_le a b : use_ltb (snd a) (snd b) = true -> use_le a b.
Proof.
  unfold use_le, use_ltb. rewrite orb_true_iff, andb_true_iff, orb_false_iff, andb_false_iff, Z.ltb_lt, Z.ltb_ge, Z.eqb_eq.
  intros [H|[H1 H2]]; [split; [lia | left; apply Z.eqb_neq; lia]|]. split; [lia | right; by apply str_ltb_asym].
Qed.

#[local] Instance use_le_trans : Transitive use_le.
Proof.
  intros a b c. unfold use_le, use_ltb. rewrite !orb_false_iff, !andb_false_iff, !Z.ltb_ge, !Z.eqb_neq. intros [H1 H2] [H3 H4].
  split; [lia|]. destruct H2 as [H2|H2]; [left; lia|]. destruct H4 as [H4|H4]; [left; lia|]. right. by eapply str_le_trans.
Qed.

Lemma insert_use_perm x l : insert_use x l ≡ₚ x :: l.
Proof. induction l as [|y l IH]; cbn [insert_use]; [done|]. split_if; [|done]. rewrite IH. apply Permutation_swap. Qed.

Lemma sort_uses_perm l : sort_uses l ≡ₚ l.
Proof. induction l as [|x l IH]; [done|]. cbn. rewrite insert_use_perm. by apply perm_skip. Qed.

Lemma insert_use_sorted x l : Sorted use_le l -> Sorted use_le (insert_use x l).
Proof.
  induction 1 as [|y l Hl IH Hy]; cbn [insert_use]; [by repeat constructor|]. split_if; [|by repeat constructor].
  constructor; [done|]. destruct l as [|z l]; cbn [insert_use].
  - constructor. by apply use_ltb_le.
  - split_if; constructor; [by inversion Hy | by apply use_ltb_le].
Qed.

Lemma sort_uses_sorted l : Sorted use_le (sort_uses l).
Proof. induction l as [|x l IH]; [constructor | by apply insert_use_sorted]. Qed.

Lemma nodup_filter_keys {A B} (b : A * B -> bool) l : NoDup (map fst l) -> NoDup (map fst (List.filter b l)).
Proof.
  induction l as [|x l IH]; intros H; [done|]. cbn [map List.filter] in *. apply NoDup_cons in H as [Hx Hl]. destruct (b x); [|auto].
  cbn [map]. constructor; [|auto]. intros (y & Hy & Hin)%list_elem_of_fmap. apply Hx, list_elem_of_fmap. exists y. split; [done|].
  rewrite list_elem_of_In, filter_In, <- list_elem_of_In in Hin. apply Hin.
Qed.

Lemma sorted_filter {A} (R : A -> A -> Prop) b (l : list A) : Transitive R -> Sorted R l -> Sorted R (List.filter b l).
Proof.
  intros HR Hl. apply Sorted_StronglySorted in Hl; [|done]. apply StronglySorted_Sorted.
  induction Hl as [|x l Hl IH Hx]; cbn [List.filter]; [constructor|]. destruct (b x); [|done]. constructor; [done|].
  rewrite List.Forall_forall in *. intros y Hy%filter_In. apply Hx, Hy.
Qed.

(** What is reported: the uses of headers that are missing from the dictionary. *)
Definition missing (required : list (str * (Z * str))) (include_dict : list (str * Z)) : list (str * (Z * str)) :=
  List.filter (fun '(header, _) => negb (dict_mem (strip_chars header "<>`") include_dict)) (sort_uses required).

(** *** The headers of the module *)

(** A line of a header includes a file. *)
Definition includes_name (line name : str) : Prop :=
  exists m, Search _RE_PATTERN_INCLUDE (CleanseComments line) = Some m /\ group_str m 2 = name.

(** One of the named headers that belongs to the same module, and its text. *)
Definition module_header (abs_filename : str) (names : list str) (w : world) (text : str) : Prop :=
  exists header path, header ∈ names /\ FilesBelongToSameModule abs_filename header w = (Ok (true, path), w) /\
    open_utf8 (path ++ header) = Some text.

Lemma dict_mem_iff {V} name (d : list (str * V)) : dict_mem name d = true <-> name ∈ map fst d.
Proof.
  unfold dict_mem. rewrite existsb_exists, list_elem_of_fmap. split.
  - intros (p & Hp & E%str_eqb_eq). exists p. split; [done | by apply list_elem_of_In].
  - intros (p & -> & Hp). exists p. split; [by apply list_elem_of_In | apply str_eqb_refl].
Qed.

Lemma dict_set_mem {V} k (v : V) d name : name ∈ map fst (dict_set k v d) <-> name = k \/ name ∈ map fst d.
Proof.
  induction d as [|p d IH]; cbn [dict_set map fst]; [set_solver|]. split_if; cbn [map fst]; [|rewrite !elem_of_cons, IH; tauto].
  match goal with H : str_eqb _ _ = true |- _ => apply str_eqb_eq in H as -> end. set_solver.
Qed.

Lemma dict_of_mem {V} (pairs : list (str * V)) name : dict_mem name (dict_of pairs) = true <-> name ∈ map fst pairs.
Proof.
  rewrite dict_mem_iff. unfold dict_of.
  enough (H : forall d, name ∈ map fst (fold_left (fun d p => dict_set (fst p) (snd p) d) pairs d) <-> name ∈ map fst d \/ name ∈ map fst pairs)
    by (rewrite H; set_solver).
  induction pairs as [|p pairs IH]; intros d; cbn [fold_left map]; [set_solver|]. rewrite IH, dict_set_mem. set_solver.
Qed.

Lemma setdefault_mem {V} k (v : V) d name : dict_mem name (dict_setdefault k v d) = true <-> dict_mem name d = true \/ name = k.
Proof.
  unfold dict_setdefault. destruct (dict_mem k d) eqn:E; [split; [auto | by intros [?| ->]]|].
  rewrite !dict_mem_iff, map_app. set_solver.
Qed.

Lemma add_includes_mem n ls d name :
  dict_mem name (add_includes n ls d) = true <-> dict_mem name d = true \/ exists line, line ∈ ls /\ includes_name line name.
Proof.
  revert n d. induction ls as [|l ls IH]; intros n d; cbn [add_includes]; [set_solver|]. rewrite IH. unfold includes_name.
  destruct (Search _ (CleanseComments l)) as [m|] eqn:E.
  - rewrite setdefault_mem. split.
    + intros [[?| ->]|(line & ? & ?)]; [by left | right; exists l; split; [left | by exists m] | right; exists line; split; [by right | done]].
    + intros [?|(line & [-> |?]%elem_of_cons & m' & Em & <-)]; [auto| |right; eauto]. left. right. congruence.
  - split.
    + intros [?|(line & ? & ?)]; [by left | right; exists line; split; [by right | done]].
    + intros [?|(line & [-> |?]%elem_of_cons & m' & Em & <-)]; [by left | congruence | right; eauto].
Qed.

(** What is known of the module after some of the headers have been read. *)
Lemma load_loop abs names b d w :
  no_svn_root ->
  exists found d', fold_m (fun '(header_found, include_dict) header =>
      r <- FilesBelongToSameModule abs header;;
      let '(same_module, common_path) := r in
      if same_module : bool then
        let '(ok, include_dict) := UpdateIncludeState (common_path ++ header) include_dict in
        ret (header_found || ok, include_dict)
      else ret (header_found, include_dict)) names (b, d) w = (Ok (found, d'), w) /\
    (found = true <-> b = true \/ exists text, module_header abs names w text) /\
    forall name, dict_mem name d' = true <->
      dict_mem name d = true \/ exists text line, module_header abs names w text /\ line ∈ splitlines text /\ includes_name line name.
Proof.
  intros Hsvn. revert b d. induction names as [|h names IH]; intros b d; cbn [fold_m].
  { exists b, d. unfold module_header. split; [done|]. split; [|intros name]; split; try tauto; intros [?|H]; [done| |done|]; set_solver. }
  destruct (FilesBelongToSameModule_runs (fun w' => w' = w) (fun _ => False) Hsvn abs h w eq_refl) as [Hw Hr].
  destruct (FilesBelongToSameModule abs h w) as [[[same path]|e] w'] eqn:E; cbn [fst snd] in Hw, Hr; [subst w'|done].
  unfold bind. rewrite E. unfold UpdateIncludeState.
  assert (Hcons : forall text, module_header abs (h :: names) w text <->
    (same = true /\ open_utf8 (path ++ h) = Some text) \/ module_header abs names w text).
  { intros text. unfold module_header. split.
    - intros (header & p & [-> |Hin]%elem_of_cons & Ef & Eo); [left; rewrite E in Ef; injection Ef as -> ->; done | right; eauto].
    - intros [[-> Eo]|(header & p & Hin & ?)]; [exists h, path | exists header, p]; split; [left | done | by right | done]. }
  destruct same; [destruct (open_utf8 (path ++ h)) as [text|] eqn:Eo|].
  - destruct (IH (b || true) (add_includes 0 (splitlines text) d)) as (found & d' & Hf & Hb & Hd).
    exists found, d'. split; [exact Hf|]. split.
    + rewrite Hb, orb_true_r. split; [|tauto]. intros _. right. exists text. apply Hcons. by left.
    + intros name. rewrite Hd, add_includes_mem. setoid_rewrite Hcons. split.
      * intros [[?|(line & Hl & Hi)]|(t & line & Hm & ?)]; [by left | right; exists text, line; auto | right; exists t, line; auto].
      * intros [?|(t & line & [[_ [= <-]]|Hm] & Hl & Hi)]; [auto | left; right; eauto | right; eauto 6].
  - destruct (IH (b || false) d) as (found & d' & Hf & Hb & Hd). exists found, d'. split; [exact Hf|]. rewrite orb_false_r in Hb. split.
    + rewrite Hb. setoid_rewrite Hcons. split; [intros [?|[t ?]]; eauto | intros [?|[t [[_ ?]|?]]]; [auto | done | eauto]].
    + intros name. rewrite Hd. setoid_rewrite Hcons. split; [intros [?|(t & l & ? & ?)]; eauto 6 | intros [?|(t & l & [[_ ?]|?] & ?)]; [auto | done | eauto 6]].
  - destruct (IH b d) as (found & d' & Hf & Hb & Hd). exists found, d'. split; [exact Hf|]. split.
    + rewrite Hb. setoid_rewrite Hcons. split; [intros [?|[t ?]]; eauto | intros [?|[t [[? _]|?]]]; [auto | done | eauto]].
    + intros name. rewrite Hd. setoid_rewrite Hcons. split; [intros [?|(t & l & ? & ?)]; eauto 6 | intros [?|(t & l & [[? _]|?] & ?)]; [auto | done | eauto 6]].
Qed.

(** C11. Include what you use: the check reads the headers of the same module that the file includes and that can be read, and gives up, for a source
    file, when there is none; otherwise it reports exactly the headers that the lines use and that are included neither by the file nor by a line of one of
    these headers, one report for each header, at its last use, in the order of the lines. *)
Theorem CheckForIncludeWhatYouUse_spec filename c st error w (Hsvn : no_svn_root) :
  let required := required_headers (slice_to (elided c) (NumLines c)) in
  let abs_filename := ReplaceAll "_flymake\.cc$" ".cc" (FullName filename) in
  let own := map fst (concat (include_list st)) in
  exists header_found include_dict,
    (header_found = true <-> exists text, module_header abs_filename own w text) /\
    (forall name, dict_mem name include_dict = true <->
       name ∈ own \/ exists text line, module_header abs_filename own w text /\ line ∈ splitlines text /\ includes_name line name) /\
    (forall header use, (header, use) ∈ missing required include_dict <->
       last_use (uses (slice_to (elided c) (NumLines c))) header = Some use /\ dict_mem (strip_chars header "<>`") include_dict = false) /\
    Sorted use_le (missing required include_dict) /\ NoDup (map fst (missing required include_dict)) /\
    CheckForIncludeWhatYouUse filename c st error w =
      (non_headers <- GetNonHeaderExtensions;;
       if negb header_found && existsb (fun extension => endswith filename ("." ++ extension)) (elements non_headers) then ret tt
       else for_each (missing required include_dict) (fun '(header, (linenum, template)) =>
              error filename (Some linenum) "build/include_what_you_use" 4 ("Add #include " ++ header ++ " for " ++ template))) w.
Proof.
  cbv zeta. set (required := required_headers _). set (abs := ReplaceAll _ _ _). set (d0 := dict_of (concat (include_list st))).
  destruct (load_loop abs (map fst d0) false d0 w Hsvn) as (found & d & E & Hfound & Hd).
  assert (Hown : forall text, module_header abs (map fst d0) w text <-> module_header abs (map fst (concat (include_list st))) w text).
  { intros text. unfold module_header.
    assert (H : forall h, h ∈ map fst d0 <-> h ∈ map fst (concat (include_list st))) by (intros h; rewrite <- dict_mem_iff; apply dict_of_mem).
    by setoid_rewrite H. }
  exists found, d. destruct (required_spec (slice_to (elided c) (NumLines c))) as (_ & Hn & Hu). split_and!.
  - rewrite Hfound. setoid_rewrite Hown. split; [by intros [?|?] | by right].
  - intros name. rewrite Hd. unfold d0. rewrite dict_of_mem. fold d0. setoid_rewrite Hown. done.
  - intros header use. unfold missing. rewrite <- Hu, list_elem_of_In, filter_In, <- list_elem_of_In, sort_uses_perm, negb_true_iff. done.
  - apply sorted_filter; [apply _ | apply sort_uses_sorted].
  - unfold missing. apply nodup_filter_keys. by rewrite sort_uses_perm.
  - unfold CheckForIncludeWhatYouUse. fold abs d0. unfold bind at 1. unfold load_headers. rewrite E. unfold bind.
    destruct (GetNonHeaderExtensions w) as [[exts|e] w1]; [|done]. split_if; [done|]. unfold missing. rewrite <- for_each_filter.
    apply for_each_ext. by intros [h [n t]].
Qed.

End IncludeChecks.

#[export] Hint Resolve CheckIncludeLine_runs CheckForIncludeWhatYouUse_runs : runs.

(** ** Witnesses *)

Definition iwyu_lines : CleansedLines :=
  let ls := lits ["std::vector<int> v;"; "std::string s;"; "std::map<int, int> m;"; "std::vector<int> u;"] in Cleansed ls ls ls ls 4.

(** A machine with the header of the file, which includes a file itself. *)
Definition own_header_reader : FileReader :=
  {| open_utf8 := fun name => if str_eqb name "/home/u/a.h" then Some ("#include <map>  // for M" ++ nl) else None |}.

(** The file includes string and its own header, which includes map: only vector is missing, at its last use. *)
Lemma CheckForIncludeWhatYouUse_spec_witness :
  exists d, dict_mem "string" d = true /\ dict_mem "map" d = true /\ dict_mem "vector" d = false /\
    missing (required_headers (U := ascii_db) (elided iwyu_lines)) d = [(lit "<vector>", (3, lit "vector<>"))] /\
    CheckForIncludeWhatYouUse (U := ascii_db) (FS := git_fs) (FR := own_header_reader) "a.cc" iwyu_lines
      (IncludeState [[(lit "string", 1); (lit "a.h", 2)]] 0 []) (fun _ _ _ _ message => raise (ValueError message)) world_init =
    (Raise (ValueError "Add #include <vector> for vector<>"), world_init).
Proof.
  destruct (CheckForIncludeWhatYouUse_spec (U := ascii_db) (FS := git_fs) (FR := own_header_reader) "a.cc" iwyu_lines
    (IncludeState [[(lit "string", 1); (lit "a.h", 2)]] 0 []) (fun _ _ _ _ message => raise (ValueError message)) world_init git_fs_no_svn)
    as (found & d & _ & Hd & _ & _ & _ & _).
  set (text := lit "#include <map>  // for M" ++ nl).
  assert (Hs : dict_mem "string" d = true) by (apply Hd; left; left).
  assert (Hm : dict_mem "map" d = true).
  { apply Hd. right. exists text, text. split_and!.
    - exists (lit "a.h"), (lit "/home/u/"). split_and!; [right; left | vm_compute; reflexivity | vm_compute; reflexivity].
    - vm_compute. left.
    - eexists. split; vm_compute; reflexivity. }
  assert (Hv : dict_mem "vector" d = false).
  { apply not_true_iff_false. intros [Hin|(t & line & (h & path & _ & _ & Ho) & Hl & m & E & Hg)]%Hd; [apply list_elem_of_In in Hin as [H|[H|[]]]; vm_compute in H; discriminate|].
    cbn [open_utf8 own_header_reader] in Ho. destruct (str_eqb _ _); [injection Ho as <-|done].
    vm_compute in Hl. apply list_elem_of_singleton in Hl as ->. vm_compute in E. injection E as <-. vm_compute in Hg. done. }
  assert (Hr : missing (required_headers (U := ascii_db) (elided iwyu_lines)) d = [(lit "<vector>", (3, lit "vector<>"))]).
  { unfold missing. replace (sort_uses _) with [(lit "<string>", (1, lit "string")); (lit "<map>", (2, lit "map<>")); (lit "<vector>", (3, lit "vector<>"))]
      by (vm_compute; reflexivity).
    cbn [List.filter]. change (strip_chars (lit "<string>") "<>`") with (lit "string"). change (strip_chars (lit "<map>") "<>`") with (lit "map").
    change (strip_chars (lit "<vector>") "<>`") with (lit "vector"). by rewrite Hs, Hm, Hv. }
  exists d. split_and!; [exact Hs | exact Hm | exact Hv | exact Hr | vm_compute; reflexivity].
Defined.
