(* ===== verification/Language.v ===== *)
(** * Checks of the language rules

    Models [_GetTextInside], [CheckLanguage] with the checks it calls, and [CheckForNonConstReference] of cpplint.py. *)

From S2P Require Import Prelude PyStr PyRe PyEff Tables Regexps Lint Cleanse Expr Includes Paths FileChecks Nesting Spacing IncludeChecks.

Local Open Scope Z_scope.

(** [xrange(hi, lo, -1)] *)
Definition zrange_down (hi lo : Z) : list Z := map (fun n => hi - Z.of_nat n) (seq 0 (Z.to_nat (hi - lo))).

Section Language.
Context {U : UnicodeDB} {FS : FileSystem}.

(** ** The text inside matching brackets *)

Definition matching_punctuation (c : N) : option N :=
  if (c =? ch "(")%N then Some (ch ")") else if (c =? ch "{")%N then Some (ch "}")
  else if (c =? ch "[")%N then Some (ch "]") else None.
Definition closing_punctuation (c : N) : bool := in_chars ")}]" c.

(** [re.search(pattern, text, re.M)] *)
Definition search_lines (pattern text : str) : option match_obj :=
  match re_compile {| f_icase := false; f_multiline := true; f_dotall := false |} pattern with
  | Some rx => rx_search rx text
  | None => None
  end.

(** The loop over the text that is left: the number of characters read when the stack is empty, [None] where
    the function returns [None]. *)
Fixpoint inside_loop (stack : list N) (s : str) : option nat :=
  match stack with
  | [] => Some 0%nat
  | expected :: stack' =>
      match s with
      | [] => None
      | c :: s' =>
          S <$> (if (c =? expected)%N then inside_loop stack' s'
                 else if closing_punctuation c then None
                 else match matching_punctuation c with
                      | Some close => inside_loop (close :: stack) s'
                      | None => inside_loop stack s'
                      end)
      end
  end.

Definition _GetTextInside (text start_pattern : str) : P (option str) :=
  match search_lines start_pattern text with
  | None => ret None
  | Some m =>
      let start_position := m_end m 0 in
      if start_position <=? 0 then raise AssertionError
      else
        c <- or_raise IndexError (index text (start_position - 1));;
        close <- or_raise AssertionError (matching_punctuation c);;
        match inside_loop [close] (slice_from text start_position) with
        | None => ret None
        | Some n => ret (Some (slice text start_position (start_position + Z.of_nat n - 1)))
        end
  end.

(** ** Casts *)

Definition ExpectingFunctionArgs (clean_lines : CleansedLines) (linenum : Z) : P bool :=
  line <- get_line (elided clean_lines) linenum;;
  if MatchB "^\s*MOCK_(CONST_)?METHOD\d+(_T)?\(" line then ret true
  else if 2 <=? linenum then
    prev <- get_line (elided clean_lines) (linenum - 1);;
    if MatchB "^\s*MOCK_(?:CONST_)?METHOD\d+(?:_T)?\((?:\S+,)?\s*$" prev then ret true
    else
      prev2 <- get_line (elided clean_lines) (linenum - 2);;
      ret (MatchB "^\s*MOCK_(?:CONST_)?METHOD\d+(?:_T)?\(\s*$" prev2
           || SearchB "\bstd::m?function\s*\<\s*$" prev)
  else ret false.

Definition CheckCStyleCast (filename : str) (clean_lines : CleansedLines) (linenum : Z) (cast_type pattern : str) (error : error_fn)
    : P bool :=
  line <- get_line (elided clean_lines) linenum;;
  match Search pattern line with
  | None => ret false
  | Some m =>
      let context := slice line 0 (m_start m 1 - 1) in
      if MatchB ".*\b(?:sizeof|alignof|alignas|[_A-Z][_A-Z0-9]*)\s*$" context then ret false
      else
        context <- (if 0 <? linenum then
                      fold_m (fun context i => l <- get_line (elided clean_lines) i;; ret (l ++ context))
                        (zrange_down (linenum - 1) (Z.max 0 (linenum - 5))) context
                    else ret context);;
        if MatchB ".*\b[_A-Z][_A-Z0-9]*\s*\((?:\([^()]*\)|[^()])*$" context then ret false
        else if endswith context " operator++" || endswith context " operator--" then ret false
        else if MatchB "^\s*(?:;|const\b|throw\b|final\b|override\b|[=>{),]|->)" (slice_from line (m_end m 0)) then ret false
        else
          error filename (Some linenum) "readability/casting" 4
            ("Using C-style cast.  Use " ++ cast_type ++ "<" ++ group_str m 1 ++ ">(...) instead");;
          ret true
  end.

(** The use of a type as a conversion function; the answer is whether the function returns at an array. *)
Definition check_function_cast (filename line : str) (linenum : Z) (m : match_obj) (error : error_fn) : P bool :=
  let matched_type := group_str m 2 in
  let matched_funcptr := group_str m 3 in
  if MatchB "\([^()]+\)\s*\[" matched_funcptr then ret true
  else
    when (negb (is_some (group m 1))
          && negb (nonempty matched_funcptr
                   && (MatchB "\((?:[^() ]+::\s*\*\s*)?[^() ]+\)\s*\(" matched_funcptr || startswith matched_funcptr "(*)"))
          && negb (MatchB ("\s*using\s+\S+\s*=\s*" ++ matched_type) line)
          && negb (SearchB ("new\(\S+\)\s*" ++ matched_type) line))
      (error filename (Some linenum) "readability/casting" 4
         ("Using deprecated casting style.  " ++ "Use static_cast<" ++ matched_type ++ ">(...) instead"));;
    ret false.

(** Whether the address is of something the cast pointer is dereferenced to. *)
Definition parenthesis_error (clean_lines : CleansedLines) (linenum pos : Z) : P bool :=
  r <- CloseExpression clean_lines linenum pos;;
  let '(_, y1, x1) := r in
  if 0 <=? x1 then
    l1 <- get_line (elided clean_lines) y1;;
    c <- or_raise IndexError (index l1 x1);;
    if (c =? ch "(")%N then
      r <- CloseExpression clean_lines y1 x1;;
      let '(_, y2, x2) := r in
      if 0 <=? x2 then
        l2 <- get_line (elided clean_lines) y2;;
        more <- (if y2 <? NumLines clean_lines - 1 then get_line (elided clean_lines) (y2 + 1) else ret []);;
        ret (MatchB "\s*(?:->|\[)" (slice_from l2 x2 ++ more))
      else ret false
    else ret false
  else ret false.

Definition check_cast_address (filename line : str) (clean_lines : CleansedLines) (linenum : Z) (error : error_fn) : P unit :=
  when (SearchB ("(?:[^\w]&\(([^)*][^)]*)\)[\w(])|" ++ "(?:[^\w]&(static|dynamic|down|reinterpret)_cast\b)") line)
    (parens <- match Match "^(.*&(?:static|dynamic|down|reinterpret)_cast\b)<" line with
               | Some m => parenthesis_error clean_lines linenum (len (group_str m 1))
               | None => ret false
               end;;
     if parens : bool then
       error filename (Some linenum) "readability/casting" 4
         ("Are you taking an address of something dereferenced " ++ "from a cast?  Wrapping the dereferenced expression in "
          ++ "parentheses will make the binding more obvious")
     else
       error filename (Some linenum) "runtime/casting" 4
         ("Are you taking an address of a cast?  " ++ "This is dangerous: could be a temp var.  "
          ++ "Take the address before doing the cast, rather than after")).

Definition CheckCasts (filename : str) (clean_lines : CleansedLines) (linenum : Z) (error : error_fn) : P unit :=
  line <- get_line (elided clean_lines) linenum;;
  let m := Search ("(\bnew\s+(?:const\s+)?|\S<\s*(?:const\s+)?)?\b"
                   ++ "(int|float|double|bool|char|int32|uint32|int64|uint64)" ++ "(\([^)].*)") line in
  expecting_function <- ExpectingFunctionArgs clean_lines linenum;;
  returned <- match m with
              | Some m => if negb expecting_function then check_function_cast filename line linenum m error else ret false
              | None => ret false
              end;;
  if returned : bool then ret tt
  else
    (if negb expecting_function then
       CheckCStyleCast filename clean_lines linenum "static_cast" "\((int|float|double|bool|char|u?int(16|32|64))\)" error
     else ret false);;
    const <- CheckCStyleCast filename clean_lines linenum "const_cast" "\((char\s?\*+\s?)\)\s*`" error;;
    (if const : bool then ret true
     else CheckCStyleCast filename clean_lines linenum "reinterpret_cast" "\((\w+\s?\*+\s?)\)" error);;
    check_cast_address filename line clean_lines linenum error.

(** ** Global strings, printf *)

Definition CheckGlobalStatic (filename : str) (clean_lines : CleansedLines) (linenum : Z) (error : error_fn) : P unit :=
  line <- get_line (elided clean_lines) linenum;;
  line <- (if (linenum + 1 <? NumLines clean_lines) && negb (SearchB "[;({]" line) then
             next_line <- get_line (elided clean_lines) (linenum + 1);; ret (line ++ strip next_line)
           else ret line);;
  match Match ("((?:|static +)(?:|const +))(?::*std::)?string( +const)? +" ++ "([a-zA-Z0-9_:]+)\b(.*)") line with
  | Some m =>
      when (negb (SearchB "\bstring\b(\s+const)?\s*[\*\&]\s*(const\s+)?\w" line)
            && negb (SearchB "\boperator\W" line)
            && negb (MatchB "\s*(<.*>)?(::[a-zA-Z0-9_]+)*\s*\(([^`]|$)" (group_str m 4)))
        (if SearchB "\bconst\b" line then
           error filename (Some linenum) "runtime/string" 4
             ("For a static/global string constant, use a C style string " ++ "instead: `" ++ group_str m 1 ++ "char"
              ++ group_str m 2 ++ " " ++ group_str m 3 ++ "[]`.")
         else
           error filename (Some linenum) "runtime/string" 4 "Static/global string variables are not permitted.")
  | None => ret tt
  end;;
  when (SearchB "\b([A-Za-z0-9_]*_)\(\1\)" line || SearchB "\b([A-Za-z0-9_]*_)\(CHECK_NOTNULL\(\1\)\)" line)
    (error filename (Some linenum) "runtime/init" 4 "You seem to be initializing a member variable with itself.").

Definition CheckPrintf (filename : str) (clean_lines : CleansedLines) (linenum : Z) (error : error_fn) : P unit :=
  line <- get_line (elided clean_lines) linenum;;
  match Search "snprintf\s*\(([^,]*),\s*([0-9]*)\s*," line with
  | Some m =>
      when (negb (str_eqb (group_str m 2) "0"))
        (error filename (Some linenum) "runtime/printf" 3
           ("If you can, use sizeof(" ++ group_str m 1 ++ ") instead of " ++ group_str m 2 ++ " as the 2nd arg "
            ++ "to snprintf."))
  | None => ret tt
  end;;
  when (SearchB "\bsprintf\s*\(" line)
    (error filename (Some linenum) "runtime/printf" 5 "Never use sprintf. Use snprintf instead.");;
  match Search "\b(strcpy|strcat)\s*\(" line with
  | Some m =>
      error filename (Some linenum) "runtime/printf" 4 ("Almost always, snprintf is better than " ++ group_str m 1)
  | None => ret tt
  end.

(** ** The language rules of one line *)

(** Whether all tokens of an array size are compile time constants. *)
Fixpoint const_tokens (skip_next : bool) (tokens : list str) : bool :=
  match tokens with
  | [] => true
  | tok :: tokens' =>
      if skip_next then const_tokens false tokens'
      else if SearchB "sizeof\(.+\)" tok || SearchB "arraysize\(\w+\)" tok then const_tokens false tokens'
      else
        let tok := rstrip_chars (lstrip_chars tok "(") ")" in
        if negb (nonempty tok) || MatchB "\d+" tok || MatchB "0[xX][0-9a-fA-F]+" tok || MatchB "k[A-Z0-9]\w*" tok
           || MatchB "(.+::)?k[A-Z0-9]\w*" tok || MatchB "(.+::)?[A-Z][A-Z0-9_]*" tok
        then const_tokens false tokens'
        else if startswith tok "sizeof" then const_tokens true tokens'
        else false
  end.

Definition check_array (filename line : str) (linenum : Z) (error : error_fn) : P unit :=
  match Match "\s*(.+::)?(\w+) [a-z]\w*\[(.+)];" line with
  | Some m =>
      when (negb (str_eqb (group_str m 2) "return") && negb (str_eqb (group_str m 2) "delete")
            && (find (group_str m 3) "]" =? -1)
            && negb (const_tokens false (ReSplit "\s|\+|\-|\*|\/|<<|>>]" (group_str m 3))))
        (error filename (Some linenum) "runtime/arrays" 1
           ("Do not use variable-length arrays.  Use an appropriately named "
            ++ "('k' followed by CamelCase) compile-time constant for the size."))
  | None => ret tt
  end.

Definition check_format_string (filename line : str) (linenum : Z) (error : error_fn) : P unit :=
  printf_args <- _GetTextInside line "(?i)\b(string)?printf\s*\(";;
  match printf_args with
  | Some ((_ :: _) as args) =>
      match Match "([\w.\->()]+)$" args with
      | Some m =>
          when (negb (str_eqb (group_str m 1) "__VA_ARGS__"))
            (f <- or_raise AttributeError (SearchI "\b((?:string)?printf)\s*\(" line);;
             error filename (Some linenum) "runtime/printf" 4
               ("Potential format string bug. Do " ++ group_str f 1 ++ "(`%s`, " ++ group_str m 1 ++ ") instead."))
      | None => ret tt
      end
  | _ => ret tt
  end.

Definition check_int_types (filename line : str) (linenum : Z) (error : error_fn) : P unit :=
  if SearchB "\bshort port\b" line then
    when (negb (SearchB "\bunsigned short port\b" line))
      (error filename (Some linenum) "runtime/int" 4 "Use `unsigned short` for ports, not `short`")
  else
    match Search "\b(short|long(?! +double)|long long)\b" line with
    | Some m =>
        error filename (Some linenum) "runtime/int" 4
          ("Use int16/int64/etc, rather than the C type " ++ group_str m 1)
    | None => ret tt
    end.

(** What follows the casts, globals and printf calls. *)
Definition check_language_rest (filename line file_extension : str) (linenum : Z) (error : error_fn) : P unit :=
  check_int_types filename line linenum error;;
  when (SearchB "\boperator\s*&\s*\(\s*\)" line)
    (error filename (Some linenum) "runtime/operator" 4 "Unary operator& is dangerous.  Do not use it.");;
  when (SearchB "\}\s*if\s*\(" line)
    (error filename (Some linenum) "readability/braces" 4
       "Did you mean `else if`? If not, start a new line for `if`.");;
  check_format_string filename line linenum error;;
  match Search "memset\s*\(([^,]*),\s*([^,]*),\s*0\s*\)" line with
  | Some m =>
      when (negb (MatchB "^''|-?[0-9]+|0x[0-9A-Fa-f]$" (group_str m 2)))
        (error filename (Some linenum) "runtime/memset" 4
           ("Did you mean `memset(" ++ group_str m 1 ++ ", 0, " ++ group_str m 2 ++ ")`?"))
  | None => ret tt
  end;;
  when (SearchB "\busing namespace\b" line)
    (if SearchB "\bliterals\b" line then
       error filename (Some linenum) "build/namespaces_literals" 5
         ("Do not use namespace using-directives.  " ++ "Use using-declarations instead.")
     else
       error filename (Some linenum) "build/namespaces" 5
         ("Do not use namespace using-directives.  " ++ "Use using-declarations instead."));;
  check_array filename line linenum error;;
  is_header <- IsHeaderExtension file_extension;;
  when (is_header && SearchB "\bnamespace\s*{" line)
    (c <- or_raise IndexError (index line (-1));;
     when (negb (c =? ch "\")%N)
       (error filename (Some linenum) "build/namespaces" 4
          ("Do not use unnamed namespaces in header files.  See "
           ++ "https://google-styleguide.googlecode.com/svn/trunk/cppguide.xml#Namespaces"
           ++ " for more information."))).

Definition CheckLanguage (filename : str) (clean_lines : CleansedLines) (linenum : Z) (file_extension : str)
    (include_state : _IncludeState) (nesting_state : NestingState) (error : error_fn) : P _IncludeState :=
  line <- get_line (elided clean_lines) linenum;;
  match line with
  | [] => ret include_state
  | _ =>
      if SearchB _RE_PATTERN_INCLUDE line then CheckIncludeLine filename clean_lines linenum include_state error
      else
        let include_state := match Match "^\s*#\s*(if|ifdef|ifndef|elif|else|endif)\b" line with
                             | Some m => ResetSection include_state (group_str m 1)
                             | None => include_state
                             end in
        CheckCasts filename clean_lines linenum error;;
        CheckGlobalStatic filename clean_lines linenum error;;
        CheckPrintf filename clean_lines linenum error;;
        check_language_rest filename line file_extension linenum error;;
        ret include_state
  end.

(** ** Parameters passed by reference *)

Definition _RE_PATTERN_IDENT : str := "[_a-zA-Z]\w*".
Definition _RE_PATTERN_TYPE : str :=
  "(?:const\s+)?(?:typename\s+|class\s+|struct\s+|union\s+|enum\s+)?" ++ "(?:\w|"
  ++ "\s*<(?:<(?:<[^<>]*>|[^<>])*>|[^<>])*>|" ++ "::)+".
Definition _RE_PATTERN_REF_PARAM : str :=
  "(" ++ _RE_PATTERN_TYPE ++ "(?:\s*(?:\bconst\b|[*]))*\s*" ++ "&\s*" ++ _RE_PATTERN_IDENT ++ ")\s*(?:=[^,()]+)?[,)]".
Definition _RE_PATTERN_CONST_REF_PARAM : str :=
  "(?:.*\s*\bconst\s*&\s*" ++ _RE_PATTERN_IDENT ++ "|const\s+" ++ _RE_PATTERN_TYPE ++ "\s*&\s*" ++ _RE_PATTERN_IDENT ++ ")".
Definition _RE_PATTERN_REF_STREAM_PARAM : str := "(?:.*stream\s*&\s*" ++ _RE_PATTERN_IDENT ++ ")".

(** The first of the given lines that begins a function, with its number. *)
Fixpoint function_start (elided : list str) (ks : list Z) : P (option (Z * match_obj)) :=
  match ks with
  | [] => ret None
  | i :: ks' =>
      line <- get_line elided i;;
      match Match "^([^()]*\w+)\(" line with
      | Some m => ret (Some (i, m))
      | None => function_start elided ks'
      end
  end.

Definition IsDerivedFunction (clean_lines : CleansedLines) (linenum : Z) : P bool :=
  start <- function_start (elided clean_lines) (zrange_down linenum (Z.max (-1) (linenum - 10)));;
  match start with
  | Some (i, m) =>
      r <- CloseExpression clean_lines i (len (group_str m 1));;
      let '(line, _, closing_paren) := r in
      ret ((0 <=? closing_paren) && SearchB "\boverride\b" (slice_from line closing_paren))
  | None => ret false
  end.

Definition IsOutOfLineMethodDefinition (clean_lines : CleansedLines) (linenum : Z) : P bool :=
  start <- function_start (elided clean_lines) (zrange_down linenum (Z.max (-1) (linenum - 10)));;
  match start with
  | Some (i, _) => line <- get_line (elided clean_lines) i;; ret (MatchB "^[^()]*\w+::\w+\(" line)
  | None => ret false
  end.

Fixpoint initializer_loop (elided : list str) (linenum : Z) (ks : list Z) : P bool :=
  match ks with
  | [] => ret false
  | i :: ks' =>
      line <- get_line elided i;;
      let line := if i =? linenum then
                    match Match "^(.*)\{\s*$" line with Some m => group_str m 1 | None => line end
                  else line in
      if SearchB "\s:\s*\w+[({]" line then ret true
      else if SearchB "\}\s*,\s*$" line then ret true
      else if SearchB "[{};]\s*$" line then ret false
      else initializer_loop elided linenum ks'
  end.

Definition IsInitializerList (clean_lines : CleansedLines) (linenum : Z) : P bool :=
  initializer_loop (elided clean_lines) linenum (zrange_down linenum 1).

(** The line, joined with what precedes it where a type is split over several lines. *)
Definition join_split_type (clean_lines : CleansedLines) (linenum : Z) (line : str) : P str :=
  if negb (1 <? linenum) then ret line
  else
    prev <- get_line (elided clean_lines) (linenum - 1);;
    let previous :=
      if MatchB "\s*::(?:[\w<>]|::)+\s*&\s*\S" line then Search "\b((?:const\s*)?(?:[\w<>]|::)+[\w<>])\s*$" prev
      else if MatchB "\s*[a-zA-Z_]([\w<>]|::)+\s*&\s*\S" line then Search "\b((?:const\s*)?(?:[\w<>]|::)+::)\s*$" prev
      else None in
    match previous with
    | Some m => ret (group_str m 1 ++ lstrip line)
    | None =>
        let endpos := rfind line ">" in
        if -1 <? endpos then
          r <- ReverseCloseExpression clean_lines linenum endpos;;
          let '(_, startline, startpos) := r in
          if (-1 <? startpos) && (startline <? linenum) then
            fold_m (fun line i => l <- get_line (elided clean_lines) i;; ret (line ++ strip l)) (zrange startline (linenum + 1)) []
          else ret line
        else ret line
    end.

(** Whether one of the given lines above, all of which end a parameter, starts with a colon. *)
Fixpoint after_colon (elided : list str) (ks : list Z) : P bool :=
  match ks with
  | [] => ret false
  | i :: ks' =>
      previous_line <- get_line elided i;;
      if negb (SearchB "[),]\s*$" previous_line) then ret false
      else if MatchB "^\s*:\s+\S" previous_line then ret true
      else after_colon elided ks'
  end.

Definition whitelisted_functions : str :=
  "(?:[sS]wap(?:<\w:+>)?|" ++ "operator\s*[<>][<>]|" ++ "static_assert|COMPILE_ASSERT" ++ ")\s*\(".

(** The name of a function that may take references, on this line or, in a parameter list, on the two before it. *)
Definition is_whitelisted (elided : list str) (linenum : Z) (line : str) : P bool :=
  if SearchB whitelisted_functions line then ret true
  else if negb (SearchB "\S+\([^)]*$" line) then
    any_line whitelisted_functions elided (map (fun i => linenum - i - 1) (List.filter (fun i => i <? linenum) (zrange 0 2)))
  else ret false.

(** Not at top level, in a class or in a namespace. *)
Definition in_other_block (nesting_state : NestingState) : bool :=
  match previous_stack_top nesting_state with
  | Some o => negb (is_class (deref nesting_state o) || is_namespace (deref nesting_state o))
  | None => false
  end.

Definition CheckForNonConstReference (filename : str) (clean_lines : CleansedLines) (linenum : Z) (nesting_state : NestingState)
    (error : error_fn) : P unit :=
  line <- get_line (elided clean_lines) linenum;;
  if negb (contains "&" line) then ret tt else
  derived <- IsDerivedFunction clean_lines linenum;;
  if derived : bool then ret tt else
  out_of_line <- IsOutOfLineMethodDefinition clean_lines linenum;;
  if out_of_line : bool then ret tt else
  line <- join_split_type clean_lines linenum line;;
  if in_other_block nesting_state then ret tt else
  colon <- (if 0 <? linenum then after_colon (elided clean_lines) (zrange_down (linenum - 1) (Z.max 0 (linenum - 10))) else ret false);;
  if colon : bool then ret tt else
  if SearchB "\\\s*$" line then ret tt else
  init <- IsInitializerList clean_lines linenum;;
  if init : bool then ret tt else
  whitelisted <- is_whitelisted (elided clean_lines) linenum line;;
  if whitelisted : bool then ret tt else
  for_each (FindAll1 _RE_PATTERN_REF_PARAM (ReplaceAll "{[^}]*}" " " line)) (fun parameter =>
    when (negb (MatchB _RE_PATTERN_CONST_REF_PARAM parameter) && negb (MatchB _RE_PATTERN_REF_STREAM_PARAM parameter))
      (error filename (Some linenum) "runtime/references" 2
         ("Is this a non-const reference? " ++ "If so, make const or use a pointer: " ++ ReplaceAll " *<" "<" parameter))).

(** ** Calls of printf *)

(** No character outside ASCII is a parenthesis when case is ignored. *)
Definition parens_unique : Prop := forall c, (128 <= c)%N -> udb_fold c <> ch "(".

Definition _RE_PRINTF : str := "(?i)\b(string)?printf\s*\(".

Lemma printf_sem line m :
  search_lines _RE_PRINTF line = Some m ->
  exists rx q st, re_compile {| f_icase := false; f_multiline := true; f_dotall := false |} _RE_PRINTF = Some rx /\
    (q <= length line)%nat /\ sem (rx_flags rx) (rx_re rx) (state_at line q) st /\ m_end m 0 = Z.of_nat (pos st).
Proof.
  unfold search_lines. destruct (re_compile _ _RE_PRINTF) as [rx|] eqn:Hp; [|done]. intros H.
  assert (Hb : no_backref (rx_re rx) = true) by (vm_compute in Hp; by injection Hp as <-).
  apply search_from_sound in H as (q & st & Hq & Hs & ->); [|done]. exists rx, q, st. split; [done|]. split; [lia | done].
Qed.

(** A match ends with its parenthesis. *)
Lemma printf_paren line m :
  parens_unique -> search_lines _RE_PRINTF line = Some m ->
  exists u v, line = u ++ ch "(" :: v /\ m_end m 0 = len u + 1.
Proof.
  intros Hu (rx & q & st & Hp & Hq & Hs & ->)%printf_sem. vm_compute in Hp. injection Hp as <-. cbn [rx_re rx_flags] in Hs.
  apply sem_moves in Hs as Ht. destruct Ht as [Ht _].
  destruct Hs as (s1 & _ & s2 & _ & s3 & _ & s4 & _ & s5 & _ & s6 & _ & s7 & _ & s8 & _ & s9 & _ & s10 & Hc & Hend).
  cbn [sem] in Hend, Hc. subst s10. apply step1_iff in Hc as (c & rest & Ha & Hc & ->).
  assert (c = ch "(") as ->.
  { unfold eq_char in Hc. cbn [f_icase] in Hc. apply N.eqb_eq in Hc. unfold fold1 in Hc. cbn in Hc.
    destruct (is_upper_ascii c) eqn:Hup; [apply andb_true_iff in Hup as [Hup%N.leb_le _]; lia|].
    destruct (N.ltb_spec c 128); [done|]. by apply Hu in Hc. }
  exists (rev (before s9)), rest. cbn [before after state_at] in Ht. rewrite rev_involutive, take_drop in Ht. split.
  - rewrite Ht. cbn [rev]. by rewrite <- app_assoc.
  - unfold pos, len. cbn [before length]. rewrite length_rev. lia.
Qed.

Lemma sem_elsewhere fl r s1 s2 st : sem fl r s1 st -> no_backref r = true -> same s1 s2 -> exists st2, sem fl r s2 st2.
Proof. intros Hs Hb Hsame. destruct (sem_insensitive fl r Hb s1 s2 st Hsame Hs) as (st2 & H & _). eauto. Qed.

(** Wherever the first search finds a call, so does the second. *)
Lemma printf_again line m : search_lines _RE_PRINTF line = Some m -> is_Some (SearchI "\b((?:string)?printf)\s*\(" line).
Proof.
  intros (rx & q & st & Hp & Hq & Hs & _)%printf_sem. vm_compute in Hp. injection Hp as <-. cbn [rx_re rx_flags] in Hs.
  unfold SearchI. destruct (re_compile _ "\b((?:string)?printf)\s*\(") as [rx|] eqn:Hp; [|by vm_compute in Hp].
  apply not_eq_None_Some, rx_search_iff; [vm_compute in Hp; by injection Hp as <-|]. exists q.
  vm_compute in Hp. injection Hp as <-. cbn [rx_re rx_flags].
  destruct Hs as (s1 & Hb & s2 & (n & Hn & Hi) & Hs).
  set (word := RSeq (RChar 115) (RSeq (RChar 116) (RSeq (RChar 114) (RSeq (RChar 105) (RSeq (RChar 110) (RSeq (RChar 103) REmpty)))))) in *.
  assert (Hopt : exists s2', sem {| f_icase := true; f_multiline := true; f_dotall := false |} (RRep true 0 (Some 1%nat) word) s1 s2' /\ same s2 s2').
  { destruct Hn as [_ Hn]. inversion Hi as [s|k sa sb sc (mid & Hw & ->) Hk]; subst.
    - exists s2. split; [exists 0%nat; by split; [split; [lia|cbn; lia]|constructor] | done].
    - destruct k; [|cbn in Hn; lia]. inversion Hk; subst. exists mid. split; [|done].
      exists 1%nat. split; [split; [lia|cbn; lia]|]. econstructor; [done|constructor]. }
  destruct Hopt as (s2' & Hopt & Hsame).
  destruct (sem_elsewhere _ _ _ s2' _ Hs eq_refl Hsame) as (st' & Hs'). clear Hs Hsame.
  destruct Hs' as (s3 & H3 & s4 & H4 & s5 & H5 & s6 & H6 & s7 & H7 & s8 & H8 & Hrest).
  destruct (sem_elsewhere _ _ _ (set_cap 1 (pos s1) s8) _ Hrest eq_refl ltac:(by split)) as (st2 & Hrest').
  exists st2. split; [done|]. exists s1. split; [exact Hb|]. exists (set_cap 1 (pos s1) s8). split; [|exact Hrest'].
  exists s8. split; [|done]. exists s2'. split; [exact Hopt|].
  exists s3. split; [exact H3|]. exists s4. split; [exact H4|]. exists s5. split; [exact H5|]. exists s6. split; [exact H6|].
  exists s7. split; [exact H7|]. exists s8. split; [exact H8 | done].
Qed.

Lemma elem_of_zrange_down hi lo i : i ∈ zrange_down hi lo -> lo < i <= hi.
Proof. unfold zrange_down. intros (n & -> & Hn%elem_of_seq)%list_elem_of_fmap. lia. Qed.

Lemma cast_pos line m :
  Match "^(.*&(?:static|dynamic|down|reinterpret)_cast\b)<" line = Some m -> 0 <= len (group_str m 1) < len line.
Proof. group_range. Qed.

Lemma function_pos line m : Match "^([^()]*\w+)\(" line = Some m -> 0 <= len (group_str m 1) < len line.
Proof. group_range. Qed.

(** The address of a cast is taken whose template argument ends where a line ends. *)
Definition cast_ends_line (c : CleansedLines) (linenum : Z) : Prop :=
  exists line m l k w, index (elided c) linenum = Some line /\
    Match "^(.*&(?:static|dynamic|down|reinterpret)_cast\b)<" line = Some m /\
    CloseExpression c linenum (len (group_str m 1)) w = (Ok (l, k, len l), w).

Section LanguageRuns.
Context (N : Z) (filename : str) (I : world -> Prop) (X : exn -> Prop) (Hparen : parens_unique) (error : error_fn) {R : Reporter N filename I X error}.
Context (c : CleansedLines) (linenum : Z) (Hc : sized N c) (Hl : 0 <= linenum < N).

Lemma ExpectingFunctionArgs_runs : runs I X (ExpectingFunctionArgs c linenum) (fun _ => True).
Proof. unfold ExpectingFunctionArgs. runs_walk. Qed.

Lemma CheckCStyleCast_runs t p : runs I X (CheckCStyleCast filename c linenum t p error) (fun _ => True).
Proof.
  assert (Hf : forall x, runs I X (fold_m (fun x i => l <- get_line (elided c) i;; ret (l ++ x))
    (zrange_down (linenum - 1) (Z.max 0 (linenum - 5))) x) (fun _ => True)).
  { intros x. apply (runs_fold_m _ _ _ (fun _ => True)); [done|]. intros y i _ Hi%elem_of_zrange_down. runs_walk. }
  unfold CheckCStyleCast. runs_walk.
Qed.

Lemma parenthesis_error_runs line p :
  index (elided c) linenum = Some line -> 0 <= p < len line ->
  (forall l k w, CloseExpression c linenum p w = (Ok (l, k, len l), w) -> X IndexError) ->
  runs I X (parenthesis_error c linenum p) (fun _ => True).
Proof.
  intros Hi Hp Hx. unfold parenthesis_error.
  eapply (runs_bind _ _ _ _ (fun r => end_at N c linenum r /\ (snd r = len (fst (fst r)) -> X IndexError))).
  { intros w Hw. pose proof (CloseExpression_runs (fun w' => w' = w) X N c linenum line p Hc Hl Hi Hp w eq_refl) as [Hs Hr].
    destruct (CloseExpression c linenum p w) as [[[[l k] q]|e] w'] eqn:E; cbn [fst snd] in *; subst w'; [|done].
    split; [done|]. split; [done|]. intros ->. by eapply Hx. }
  intros [[l1 y1] x1] [He Hend]. cbn [end_at fst snd] in He, Hend. destruct (0 <=? x1) eqn:Ex; [|by apply runs_ret].
  destruct He as [[-> _]|(Hx1 & Hy1 & Hl1)]; [done|]. eapply runs_bind; [apply get_line_runs; line_lia|].
  intros l' Hl'. cbv beta in Hl'. assert (l' = l1) as -> by congruence.
  destruct (decide (x1 = len l1)) as [->|Hne].
  { assert (X IndexError) by auto. destruct (index l1 (len l1)) eqn:En; [apply index_lt in En; lia|]. by apply runs_raise. }
  eapply runs_bind; [apply runs_index; lia|]. intros ch0 _. split_if; [|by apply runs_ret].
  eapply runs_bind; [eapply CloseExpression_runs; [done | lia | done | lia]|]. intros [[l2 y2] x2] He2. cbn [end_at] in He2. runs_walk.
Qed.

Lemma CheckCasts_runs :
  (cast_ends_line c linenum -> X IndexError) -> runs I X (CheckCasts filename c linenum error) (fun _ => True).
Proof.
  intros Hx. pose proof ExpectingFunctionArgs_runs. pose proof CheckCStyleCast_runs.
  assert (He : forall line m, index (elided c) linenum = Some line ->
    Match "^(.*&(?:static|dynamic|down|reinterpret)_cast\b)<" line = Some m ->
    runs I X (parenthesis_error c linenum (len (group_str m 1))) (fun _ => True)).
  { intros line m Hi Hm. eapply parenthesis_error_runs; [done | by apply cast_pos|]. intros l k w E. apply Hx. by exists line, m, l, k, w. }
  unfold CheckCasts, check_function_cast, check_cast_address. runs_walk.
Qed.

Lemma CheckGlobalStatic_runs : runs I X (CheckGlobalStatic filename c linenum error) (fun _ => True).
Proof. unfold CheckGlobalStatic. runs_walk. Qed.

Lemma CheckPrintf_runs : runs I X (CheckPrintf filename c linenum error) (fun _ => True).
Proof. unfold CheckPrintf. runs_walk. Qed.

(** Neither assertion of [_GetTextInside] fails, and the second search succeeds. *)
Lemma _GetTextInside_printf_runs line : runs I X (_GetTextInside line _RE_PRINTF) (fun _ => True).
Proof.
  unfold _GetTextInside. destruct (search_lines _RE_PRINTF line) as [m|] eqn:Em; [|by apply runs_ret].
  destruct (printf_paren line m Hparen Em) as (u & v & Huv & Hend). rewrite Hend. cbv zeta.
  rewrite (proj2 (Z.leb_gt _ 0)) by (unfold len; lia).
  eapply runs_bind; [eapply (runs_or_raise _ _ _ _ (fun c => c = ch "(")); [|reflexivity]|].
  { replace (len u + 1 - 1) with (len u) by lia. unfold len. rewrite index_nat, Huv. by apply list_lookup_middle. }
  intros ? ->. cbn. runs_walk.
Qed.

Lemma check_format_string_runs line : runs I X (check_format_string filename line linenum error) (fun _ => True).
Proof.
  unfold check_format_string. change (lit "(?i)\b(string)?printf\s*\(") with _RE_PRINTF.
  destruct (search_lines _RE_PRINTF line) as [m|] eqn:Em.
  - destruct (printf_again line m Em) as [m2 ->]. cbn [or_raise].
    eapply runs_bind; [apply _GetTextInside_printf_runs|]. intros r _. runs_walk.
  - unfold _GetTextInside. rewrite Em. by apply runs_ret.
Qed.

Lemma CheckLanguage_runs ext st ns :
  no_svn_root -> includes_in N st -> (cast_ends_line c linenum -> X IndexError) ->
  runs I X (CheckLanguage filename c linenum ext st ns error) (includes_in N).
Proof.
  intros Hsvn Hst Hx. unfold CheckLanguage. eapply runs_bind; [eauto with runs|]. intros [|ch0 line'] _; [by apply runs_ret|].
  set (line := ch0 :: line'). assert (0 < len line) by (unfold len; simpl; lia). split_if; [eauto with runs|]. cbv zeta.
  eapply runs_bind; [by apply CheckCasts_runs|]. intros _ _. eapply runs_bind; [apply CheckGlobalStatic_runs|]. intros _ _.
  eapply runs_bind; [apply CheckPrintf_runs|]. intros _ _.
  eapply (runs_bind _ _ _ _ (fun _ => True)).
  { pose proof check_format_string_runs. unfold check_language_rest, check_int_types, check_array. runs_walk. }
  intros _ _. apply runs_ret. destruct (Match _ line); [|done]. by apply ResetSection_in.
Qed.

Lemma function_start_runs ks :
  (forall i, i ∈ ks -> 0 <= i < N) ->
  runs I X (function_start (elided c) ks) (fun r => match r with
    | Some (i, m) => 0 <= i < N /\ exists l, index (elided c) i = Some l /\ 0 <= len (group_str m 1) < len l
    | None => True end).
Proof.
  induction ks as [|i ks IH]; intros Hk; cbn [function_start]; [by apply runs_ret|].
  pose proof (Hk i ltac:(left)). eapply runs_bind; [apply get_line_runs; line_lia|]. intros l Hi. cbv beta in Hi.
  destruct (Match _ l) as [m|] eqn:E; [apply runs_ret; split; [done|]; exists l; by split; [|apply function_pos]|].
  apply IH. intros j Hj. apply Hk. by right.
Qed.

Lemma method_start_runs :
  runs I X (function_start (elided c) (zrange_down linenum (Z.max (-1) (linenum - 10)))) (fun r => match r with
    | Some (i, m) => 0 <= i < N /\ exists l, index (elided c) i = Some l /\ 0 <= len (group_str m 1) < len l
    | None => True end).
Proof. apply function_start_runs. intros i Hi%elem_of_zrange_down. lia. Qed.

Lemma IsDerivedFunction_runs : runs I X (IsDerivedFunction c linenum) (fun _ => True).
Proof.
  unfold IsDerivedFunction. eapply runs_bind; [apply method_start_runs|]. intros [[i m]|]; [|by intros; apply runs_ret].
  intros (Hi & l & Hline & Hp). eapply runs_bind; [by eapply CloseExpression_runs|]. intros [[l' k] p] _. by apply runs_ret.
Qed.

Lemma IsOutOfLineMethodDefinition_runs : runs I X (IsOutOfLineMethodDefinition c linenum) (fun _ => True).
Proof.
  unfold IsOutOfLineMethodDefinition. eapply runs_bind; [apply method_start_runs|]. intros [[i m]|]; [|by intros; apply runs_ret].
  intros (Hi & _). runs_walk.
Qed.

Lemma initializer_loop_runs ks :
  (forall i, i ∈ ks -> 0 <= i < N) -> runs I X (initializer_loop (elided c) linenum ks) (fun _ => True).
Proof.
  induction ks as [|i ks IH]; intros Hk; cbn [initializer_loop]; [by apply runs_ret|].
  pose proof (Hk i ltac:(left)). assert (forall j, j ∈ ks -> 0 <= j < N) by (intros; apply Hk; by right). runs_walk.
Qed.

Lemma after_colon_runs ks : (forall i, i ∈ ks -> 0 <= i < N) -> runs I X (after_colon (elided c) ks) (fun _ => True).
Proof.
  induction ks as [|i ks IH]; intros Hk; cbn [after_colon]; [by apply runs_ret|].
  pose proof (Hk i ltac:(left)). assert (forall j, j ∈ ks -> 0 <= j < N) by (intros; apply Hk; by right). runs_walk.
Qed.

Lemma join_split_type_runs line :
  index (elided c) linenum = Some line -> runs I X (join_split_type c linenum line) (fun _ => True).
Proof.
  intros Hi. pose proof (rfind_fits line ">") as Hr. change (len (lit ">")) with 1 in Hr. unfold join_split_type.
  split_if; [by apply runs_ret|]. eapply runs_bind; [eauto with runs|]. intros prev _. cbv zeta.
  match goal with |- runs _ _ (match ?o with _ => _ end) _ => destruct o end; [by apply runs_ret|].
  destruct (-1 <? rfind line ">") eqn:Er; [|by apply runs_ret].
  eapply runs_bind; [eapply ReverseCloseExpression_runs; [done.. | lia]|]. intros [[l k] p] Hs. cbn [start_at] in Hs.
  split_if; [|by apply runs_ret]. apply (runs_fold_m _ _ _ (fun _ => True)); [done|]. intros x i _ Hk%elem_of_zrange. runs_walk.
Qed.

Lemma CheckForNonConstReference_runs ns :
  runs I X (CheckForNonConstReference filename c linenum ns error) (fun _ => True).
Proof.
  pose proof IsDerivedFunction_runs. pose proof IsOutOfLineMethodDefinition_runs. pose proof join_split_type_runs.
  assert (runs I X (after_colon (elided c) (zrange_down (linenum - 1) (Z.max 0 (linenum - 10)))) (fun _ => True)).
  { apply after_colon_runs. intros i Hi%elem_of_zrange_down. lia. }
  assert (runs I X (IsInitializerList c linenum) (fun _ => True)).
  { apply initializer_loop_runs. intros i Hi%elem_of_zrange_down. lia. }
  assert (Hw : forall line, runs I X (is_whitelisted (elided c) linenum line) (fun _ => True)).
  { intros line. unfold is_whitelisted. split_if; [by apply runs_ret|]. split_if; [|by apply runs_ret].
    apply any_line_runs. intros i Hi%list_elem_of_In. apply in_map_iff in Hi as (k & <- & [Hk Hlt]%filter_In).
    apply list_elem_of_In, elem_of_zrange in Hk. line_lia. }
  unfold CheckForNonConstReference. runs_walk.
Qed.
End LanguageRuns.

(** ** The text inside brackets *)

Lemma opener_iff o : opener o = true <-> o = ch "(" \/ o = ch "[" \/ o = ch "{".
Proof. unfold opener, char_in. simpl. rewrite !orb_true_iff, !N.eqb_eq. naive_solver. Qed.

Lemma matching_opener o : opener o = true -> exists c, matching_punctuation o = Some c /\ forall d, closes o d = (d =? c)%N.
Proof.
  intros [->|[->| ->]]%opener_iff; eexists; (split; [reflexivity|]); intros d; unfold closes; simpl; by rewrite ?orb_false_r.
Qed.

Lemma matching_other c : opener c = false -> matching_punctuation c = None.
Proof.
  intros H. unfold matching_punctuation. repeat (case N.eqb_spec; [intros ->; done | intros _]). done.
Qed.

Lemma closing_closer c : closing_punctuation c = closer c.
Proof. unfold closing_punctuation, closer, char_in, in_chars. simpl. by destruct (c =? 41)%N, (c =? 93)%N, (c =? 125)%N. Qed.

(** The expected brackets are those that close what is open. *)
Definition expected (st : list N) : list N := omap matching_punctuation st.

Lemma inside_run st s :
  Forall (fun o => opener o = true) st -> st <> [] ->
  inside_loop (expected st) s = match run st s with Found n => Some n | _ => None end.
Proof.
  revert st. induction s as [|c s IH]; intros st Hst Hne.
  - destruct st as [|o st]; [done|]. apply Forall_cons in Hst as [Ho _]. destruct (matching_opener o Ho) as (d & E & _).
    unfold expected. cbn [omap list_omap]. by rewrite E.
  - destruct st as [|o st]; [done|]. pose proof Hst as [Ho Hst']%Forall_cons. destruct (matching_opener o Ho) as (d & E & Hd).
    assert (Hx : expected (o :: st) = d :: expected st) by (unfold expected; cbn [omap list_omap]; by rewrite E).
    rewrite Hx. cbn [inside_loop run]. rewrite <- Hd. rewrite closing_closer.
    assert (Hs : forall st', Forall (fun o => opener o = true) st' -> st' <> [] ->
              S <$> inside_loop (expected st') s = match shift 1 (run st' s) with Found n => Some n | _ => None end).
    { intros st' H1 H2. rewrite IH by done. by destruct (run st' s). }
    destruct (opener c) eqn:Hc.
    + rewrite (opener_not_closer c Hc). destruct (closes o c) eqn:Hk; [apply closes_kinds in Hk as (_ & _ & _ & Hk); congruence|].
      destruct (matching_opener c Hc) as (e & Ee & _). rewrite Ee. rewrite <- (Hs (c :: o :: st)) by (by constructor || done).
      replace (expected (c :: o :: st)) with (e :: d :: expected st); [done|]. rewrite <- Hx. unfold expected. cbn [omap list_omap]. by rewrite Ee.
    + rewrite (matching_other c Hc). destruct (closes o c) eqn:Hk.
      * apply closes_kinds in Hk as (_ & -> & _ & _). destruct st as [|o2 st]; [by destruct s|]. by apply Hs.
      * destruct (closer c); [done|]. rewrite <- Hx. by apply Hs.
Qed.

Lemma run_inside o v :
  opener o = true ->
  forall n, run [o] v = Found n <-> exists b c r, v = b ++ c :: r /\ balanced b /\ closes o c = true /\ n = (length b + 1)%nat.
Proof.
  intros Ho n. pose proof (run_partner o v (S n) Ho) as Hp. cbn [run] in Hp. rewrite Ho in Hp. split.
  - intros Hr. rewrite Hr in Hp. destruct (proj1 Hp eq_refl) as (b & c & r & ? & ? & ? & ?). exists b, c, r. split_and!; [done..|lia].
  - intros (b & c & r & H1 & H2 & H3 & H4). destruct (run [o] v) as [k| |]; cbn [shift] in Hp;
      (assert (Hn : exists b c r, v = b ++ c :: r /\ balanced b /\ closes o c = true /\ S n = (length b + 2)%nat)
         by (exists b, c, r; split_and!; [done..|lia])); apply Hp in Hn; try done. by injection Hn as ->.
Qed.

Lemma inside_text {A} (a b r v : list A) : v = b ++ r -> slice (a ++ v) (len a) (len a + len b) = b.
Proof.
  intros ->. unfold slice, bound, len. rewrite !length_app, !(proj2 (Z.ltb_ge _ 0)) by lia.
  rewrite !Z.min_l by lia. rewrite Nat2Z.id, drop_app_length. apply take_app_length'. lia.
Qed.

(** C22. The text inside brackets: after a match of the start pattern that ends with an opening bracket, [_GetTextInside] returns the
    text up to the bracket that closes it if that text is balanced, and [None] if there is no such bracket; neither of its assertions fails. *)
Theorem GetTextInside_spec text pattern m u o v w
    (Hm : search_lines pattern text = Some m) (Ht : text = u ++ o :: v) (He : m_end m 0 = len u + 1) (Ho : opener o = true) :
  exists r, _GetTextInside text pattern w = (Ok r, w) /\
    forall t, r = Some t <-> exists c rest, v = t ++ c :: rest /\ balanced t /\ closes o c = true.
Proof.
  destruct (matching_opener o Ho) as (d & E & _). unfold _GetTextInside. rewrite Hm, He. cbv zeta.
  rewrite (proj2 (Z.leb_gt _ 0)) by (unfold len; lia). replace (len u + 1 - 1) with (len u) by lia.
  assert (Hi : index text (len u) = Some o) by (unfold len; rewrite index_nat, Ht; by apply list_lookup_middle).
  assert (Hu : text = (u ++ [o]) ++ v) by (by rewrite Ht, <- app_assoc). assert (Hl : len u + 1 = len (u ++ [o])) by (unfold len; len_lia).
  unfold bind. rewrite Hi. cbn [or_raise ret]. rewrite E. cbn [or_raise ret]. rewrite Hl, Hu, (proj2 (slice_at _ v)).
  assert (Hx : inside_loop [d] v = match run [o] v with Found n => Some n | _ => None end).
  { rewrite <- inside_run by (repeat constructor; done). unfold expected. cbn [omap list_omap]. by rewrite E. }
  pose proof (run_inside o v Ho) as Hp.
  rewrite Hx. destruct (run [o] v) as [n| |] eqn:Er.
  - eexists. split; [reflexivity|]. intros t. destruct (proj1 (Hp n) eq_refl) as (b & c & r & Hv & Hb & Hc & ->).
    replace (len (u ++ [o]) + Z.of_nat (length b + 1) - 1) with (len (u ++ [o]) + len b) by (unfold len; lia).
    rewrite (inside_text (u ++ [o]) b _ v Hv). split; [intros [= <-]; eauto|].
    intros (c' & r' & Hv' & Hb' & Hc'). assert (Hn : Found (length b + 1) = Found (length t + 1)) by (apply Hp; by exists t, c', r'). injection Hn as Hn.
    rewrite Hv in Hv'. apply app_inj_1 in Hv' as [-> _]; [done | lia].
  - eexists. split; [reflexivity|]. intros t. split; [done|]. intros (c & r & Hv & Hb & Hc).
    by pose proof (proj2 (Hp _) (ex_intro _ t (ex_intro _ c (ex_intro _ r (conj Hv (conj Hb (conj Hc eq_refl))))))).
  - eexists. split; [reflexivity|]. intros t. split; [done|]. intros (c & r & Hv & Hb & Hc).
    by pose proof (proj2 (Hp _) (ex_intro _ t (ex_intro _ c (ex_intro _ r (conj Hv (conj Hb (conj Hc eq_refl))))))).
Qed.

End Language.

#[export] Hint Resolve CheckLanguage_runs CheckForNonConstReference_runs : runs.

(** ** Witnesses *)

(** The example of the documentation of [_GetTextInside]. *)
Lemma GetTextInside_spec_witness :
  exists r, _GetTextInside (U := ascii_db) "printf(a(), b(c()));" "printf\(" world_init = (Ok r, world_init) /\ r = Some (lit "a(), b(c())").
Proof.
  destruct (GetTextInside_spec (U := ascii_db) "printf(a(), b(c()));" "printf\(" _ "printf" (ch "(") "a(), b(c()));" world_init
              ltac:(vm_compute; reflexivity) eq_refl eq_refl eq_refl) as (r & H & _).
  exists r. split; [exact H|]. vm_compute in H. injection H as <-. reflexivity.
Defined.
