(* ===== verification/Constructs.v ===== *)
(** * Checks of constructors, virtual functions and restricted features

    Models [CheckForNonStandardConstructs], [CheckMakePairUsesDeduction], [CheckRedundantVirtual], [CheckRedundantOverrideOrFinal] and the two
    functions that flag features of C++11 and C++14 in cpplint.py. *)

From S2P Require Import Prelude PyStr PyRe PyEff Tables Regexps Lint Cleanse Expr Includes Paths FileChecks Nesting Spacing.

Local Open Scope Z_scope.

Section Constructs.
Context {U : UnicodeDB}.

(** ** Non-standard constructs *)

Definition _RE_STORAGE_CLASS : str :=
  "\b(const|volatile|void|char|short|int|long" ++ "|float|double|signed|unsigned"
  ++ "|schar|u?int8|u?int16|u?int32|u?int64)" ++ "\s+(register|static|extern|typedef)\b".

(** The constructs that can appear anywhere; [source] has its comments removed, [line] its strings too. *)
Definition check_constructs (filename source line : str) (linenum : Z) (error : error_fn) : P unit :=
  when (SearchB "printf\s*\(.*`.*%[-+ ]?\d*q" source)
    (error filename (Some linenum) "runtime/printf_format" 3 "%q in format strings is deprecated.  Use %ll instead.");;
  when (SearchB "printf\s*\(.*`.*%\d+\$" source)
    (error filename (Some linenum) "runtime/printf_format" 2
       "%N$ formats are unconventional.  Try rewriting to avoid them.");;
  when (SearchB "(`|\').*\\(%|\[|\(|{)" (replace source "\\" []))
    (error filename (Some linenum) "build/printf_format" 3
       "%, [, (, and { are undefined character escapes.  Unescape them.");;
  when (SearchB _RE_STORAGE_CLASS line)
    (error filename (Some linenum) "build/storage_class" 5
       ("Storage-class specifier (static, extern, typedef, etc) should be " ++ "at the beginning of the declaration."));;
  when (MatchB "\s*#\s*endif\s*[^/\s]+" line)
    (error filename (Some linenum) "build/endif_comment" 5
       "Uncommented text after #endif is non-standard.  Use a comment.");;
  when (MatchB "\s*class\s+(\w+\s*::\s*)+\w+\s*;" line)
    (error filename (Some linenum) "build/forward_decl" 5
       "Inner-style forward declarations are invalid.  Remove this line.");;
  when (SearchB "(\w+|[+-]?\d+(\.\d*)?)\s*(<|>)\?=?\s*(\w+|[+-]?\d+)(\.\d*)?" line)
    (error filename (Some linenum) "build/deprecated" 3
       ">? and <? (max and min) operators are non-standard and deprecated.");;
  when (SearchB "^\s*const\s*string\s*&\s*\w+\s*;" line)
    (error filename (Some linenum) "runtime/member_string_references" 2
       ("const string& members are dangerous. It is much better to use "
        ++ "alternatives, such as pointers or simple constants.")).

(** ** Constructors *)

(** An argument that goes on after its comma. *)
Definition open_arg (arg : str) : bool := (count arg ">" <? count arg "<") || (count arg ")" <? count arg "(").

(** The inner loop: take the pieces that follow until the brackets are even. *)
Fixpoint absorb (constructor_arg : str) (rest : list str) : P (str * list str) :=
  if open_arg constructor_arg then
    match rest with
    | [] => raise IndexError
    | a :: rest' => absorb (constructor_arg ++ "," ++ a) rest'
    end
  else ret (constructor_arg, rest).

(** The outer loop, in at most [n] rounds. *)
Fixpoint collapse_args (n : nat) (constructor_args : list str) : P (list str) :=
  match constructor_args with
  | [] => ret []
  | a :: rest =>
      match n with
      | O => raise OutOfFuel
      | S n' =>
          r <- absorb a rest;;
          more <- collapse_args n' (snd r);;
          ret (fst r :: more)
      end
  end.

Definition constructor_pattern (base_classname : str) : str :=
  "\s+(?:(?:inline|constexpr)\s+)*(explicit\s+)?" ++ "(?:(?:inline|constexpr)\s+)*" ++ re_escape base_classname ++ "\s*"
  ++ "\(((?:[^()]|\([^()]*\))*)\)".

(** The parameters, cut at their commas. *)
Definition constructor_pieces (m : match_obj) : list str := match group_str m 2 with [] => [] | args => split args "," end.

Definition copy_pattern (base_classname : str) : str :=
  "(const\s+)?" ++ re_escape base_classname ++ "(\s*<[^>]*>)?(\s+const)?\s*(?:<\w+>\s*)?&".

Definition check_explicit (filename base_classname : str) (linenum : Z) (is_marked_explicit : bool) (constructor_args : list str)
    (error : error_fn) : P unit :=
  let variadic_args := List.filter (contains "&&...") constructor_args in
  let defaulted_args := List.filter (contains "=") constructor_args in
  let noarg_constructor := match constructor_args with [] => true | [a] => str_eqb (strip a) "void" | _ => false end in
  let onearg_constructor :=
    ((len constructor_args =? 1) && negb noarg_constructor)
    || ((1 <=? len constructor_args) && negb noarg_constructor && (len constructor_args - 1 <=? len defaulted_args))
    || ((len constructor_args <=? 2) && (1 <=? len variadic_args)) in
  first <- (if onearg_constructor then or_raise IndexError (head constructor_args) else ret []);;
  let initializer_list_constructor := onearg_constructor && SearchB "\bstd\s*::\s*initializer_list\b" first in
  let copy_constructor := onearg_constructor && MatchB (copy_pattern base_classname) (strip first) in
  if negb is_marked_explicit && onearg_constructor && negb initializer_list_constructor && negb copy_constructor then
    if nonempty defaulted_args || nonempty variadic_args then
      error filename (Some linenum) "runtime/explicit" 5
        ("Constructors callable with one argument " ++ "should be marked explicit.")
    else
      error filename (Some linenum) "runtime/explicit" 5 "Single-parameter constructors should be marked explicit."
  else when (is_marked_explicit && negb onearg_constructor && noarg_constructor)
    (error filename (Some linenum) "runtime/explicit" 5 "Zero-parameter constructors should not be marked explicit.").

Definition class_name (b : block) : str := match kind b with _ClassInfo name _ _ _ _ _ => name | _ => [] end.

Definition CheckForNonStandardConstructs (filename : str) (clean_lines : CleansedLines) (linenum : Z) (nesting_state : NestingState)
    (error : error_fn) : P unit :=
  source <- get_line (lines clean_lines) linenum;;
  line <- get_line (elided clean_lines) linenum;;
  check_constructs filename source line linenum error;;
  match InnermostClass nesting_state with
  | None => ret tt
  | Some classinfo =>
      if negb (seen_open_brace classinfo) then ret tt
      else
        base_classname <- or_raise IndexError (last (split (class_name classinfo) "::"));;
        match Match (constructor_pattern base_classname) line with
        | None => ret tt
        | Some m =>
            let pieces := constructor_pieces m in
            constructor_args <- collapse_args (length pieces) pieces;;
            check_explicit filename base_classname linenum (nonempty (group_str m 1)) constructor_args error
        end
  end.

(** ** Pairs, virtual functions *)

Definition _RE_PATTERN_EXPLICIT_MAKEPAIR : str := "\bmake_pair\s*<".

Definition CheckMakePairUsesDeduction (filename : str) (clean_lines : CleansedLines) (linenum : Z) (error : error_fn) : P unit :=
  line <- get_line (elided clean_lines) linenum;;
  when (SearchB _RE_PATTERN_EXPLICIT_MAKEPAIR line)
    (error filename (Some linenum) "build/explicit_make_pair" 4
       ("For C++11-compatibility, omit template arguments from make_pair"
        ++ " OR use pair directly OR if appropriate, construct a pair directly")).

(** The end of the parameter list that opens on one of the given lines, [-1] for none. *)
Fixpoint parameter_end (clean_lines : CleansedLines) (start_col : Z) (ks : list Z) : P (Z * Z) :=
  match ks with
  | [] => ret (-1, -1)
  | start_line :: ks' =>
      l <- get_line (elided clean_lines) start_line;;
      match Match "^([^(]*)\(" (slice_from l start_col) with
      | Some parameter_list =>
          r <- CloseExpression clean_lines start_line (start_col + len (group_str parameter_list 1));;
          let '(_, end_line, end_col) := r in ret (end_line, end_col)
      | None => parameter_end clean_lines 0 ks'
      end
  end.

(** The search for a second specifier after the parameter list, up to a line that ends in a symbol. *)
Fixpoint redundant_specifier (filename : str) (elided : list str) (linenum end_col : Z) (ks : list Z) (error : error_fn) : P unit :=
  match ks with
  | [] => ret tt
  | i :: ks' =>
      l <- get_line elided i;;
      let line := slice_from l end_col in
      match Search "\b(override|final)\b" line with
      | Some m =>
          error filename (Some linenum) "readability/inheritance" 4
            ("`virtual` is redundant since function is " ++ "already declared as `" ++ group_str m 1 ++ "`")
      | None => ret tt
      end;;
      if SearchB "[^\w]\s*$" line then ret tt else redundant_specifier filename elided linenum 0 ks' error
  end.

Definition CheckRedundantVirtual (filename : str) (clean_lines : CleansedLines) (linenum : Z) (error : error_fn) : P unit :=
  line <- get_line (elided clean_lines) linenum;;
  match Match "^(.*)(\bvirtual\b)(.*)$" line with
  | None => ret tt
  | Some virtual =>
      if SearchB "\b(public|protected|private)\s+$" (group_str virtual 1)
         || MatchB "^\s+(public|protected|private)\b" (group_str virtual 3) then ret tt
      else if MatchB "^.*[^:]:[^:].*$" line then ret tt
      else
        r <- parameter_end clean_lines (len (group_str virtual 2)) (zrange linenum (Z.min (linenum + 3) (NumLines clean_lines)));;
        let '(end_line, end_col) := r in
        if end_col <? 0 then ret tt
        else redundant_specifier filename (elided clean_lines) linenum end_col
               (zrange end_line (Z.min (end_line + 3) (NumLines clean_lines))) error
  end.

Definition CheckRedundantOverrideOrFinal (filename : str) (clean_lines : CleansedLines) (linenum : Z) (error : error_fn) : P unit :=
  line <- get_line (elided clean_lines) linenum;;
  let declarator_end := rfind line ")" in
  fragment <- (if 0 <=? declarator_end then ret (Some (slice_from line declarator_end))
               else if 1 <? linenum then
                 prev <- get_line (elided clean_lines) (linenum - 1);;
                 ret (if 0 <=? rfind prev ")" then Some line else None)
               else ret None);;
  match fragment with
  | None => ret tt
  | Some fragment =>
      when (SearchB "\boverride\b" fragment && SearchB "\bfinal\b" fragment)
        (error filename (Some linenum) "readability/inheritance" 4
           ("`override` is redundant since function is " ++ "already declared as `final`"))
  end.

(** ** Features of C++11 and C++14 *)

Definition _RE_CXX_INCLUDE : str := "\s*#\s*include\s+[<`]([^<`]+)[`>]".

Definition cxx11_headers : list str := lits [
  "cfenv"; "condition_variable"; "fenv.h"; "future"; "mutex"; "thread"; "chrono"; "ratio"; "regex"; "system_error"
].

Definition FlagCxx11Features (filename : str) (clean_lines : CleansedLines) (linenum : Z) (error : error_fn) : P unit :=
  line <- get_line (elided clean_lines) linenum;;
  match Match _RE_CXX_INCLUDE line with
  | Some include =>
      when (startswith (group_str include 1) "tr1/")
        (error filename (Some linenum) "build/c++tr1" 5
           ("C++ TR1 headers such as <" ++ group_str include 1 ++ "> are unapproved."));;
      when (mem_str (group_str include 1) cxx11_headers)
        (error filename (Some linenum) "build/c++11" 5 ("<" ++ group_str include 1 ++ "> is an unapproved C++11 header."))
  | None => ret tt
  end;;
  if MatchB "\s*#" line && negb (MatchB "\s*#\s*define\b" line) then ret tt
  else for_each (lits ["alignment_of"; "aligned_union"]) (fun top_name =>
    when (SearchB ("\bstd::" ++ top_name ++ "\b") line)
      (error filename (Some linenum) "build/c++11" 5
         ("std::" ++ top_name ++ " is an unapproved C++11 class or function.  Send c-style "
          ++ "an example of where it would make your code more readable, and " ++ "they may let you use it."))).

Definition FlagCxx14Features (filename : str) (clean_lines : CleansedLines) (linenum : Z) (error : error_fn) : P unit :=
  line <- get_line (elided clean_lines) linenum;;
  match Match _RE_CXX_INCLUDE line with
  | Some include =>
      when (mem_str (group_str include 1) (lits ["scoped_allocator"; "shared_mutex"]))
        (error filename (Some linenum) "build/c++14" 5 ("<" ++ group_str include 1 ++ "> is an unapproved C++14 header."))
  | None => ret tt
  end.

(** ** The arguments of a constructor *)

(** The pieces that make up one argument: after the last of them, and not before, there are no more of [<] than of [>] and no more of the opening
    than of the closing parentheses.  Braces and square brackets do not count. *)
Definition one_arg (g : list str) : Prop :=
  g <> [] /\ open_arg (join "," g) = false /\ forall k, (0 < k < length g)%nat -> open_arg (join "," (take k g)) = true.

(** Pieces that never make up an argument. *)
Definition unfinished (g : list str) : Prop :=
  g <> [] /\ forall k, (0 < k <= length g)%nat -> open_arg (join "," (take k g)) = true.

Lemma absorb_ok pre rest w :
  pre <> [] -> (forall k, (0 < k < length pre)%nat -> open_arg (join "," (take k pre)) = true) ->
  (exists g rest', rest = g ++ rest' /\ one_arg (pre ++ g) /\ absorb (join "," pre) rest w = (Ok (join "," (pre ++ g), rest'), w)) \/
  (unfinished (pre ++ rest) /\ absorb (join "," pre) rest w = (Raise IndexError, w)).
Proof.
  revert pre. induction rest as [|a rest IH]; intros pre Hne Hpre; cbn [absorb]; destruct (open_arg (join "," pre)) eqn:Ho.
  - right. rewrite app_nil_r. split; [|done]. split; [done|]. intros k Hk. destruct (decide (k = length pre)) as [->|]; [by rewrite firstn_all|].
    apply Hpre. lia.
  - left. exists [], []. rewrite !app_nil_r. by repeat split.
  - rewrite <- join_snoc by done. destruct (IH (pre ++ [a])) as [(g & rest' & -> & Hg & E)|[Hu E]].
    + by destruct pre.
    + intros k Hk. rewrite length_app in Hk. cbn [length] in Hk. rewrite take_app_le by lia.
      destruct (decide (k = length pre)) as [->|]; [by rewrite firstn_all|]. apply Hpre. lia.
    + left. exists (a :: g), rest'. rewrite <- app_assoc in Hg, E. done.
    + right. by rewrite <- app_assoc in Hu.
  - left. exists [], (a :: rest). rewrite !app_nil_r. by repeat split.
Qed.

Lemma collapse_args_ok n ps w :
  (length ps <= n)%nat ->
  (exists gs, concat gs = ps /\ Forall one_arg gs /\ collapse_args n ps w = (Ok (map (join ",") gs), w)) \/
  (exists gs g, concat gs ++ g = ps /\ Forall one_arg gs /\ unfinished g /\ collapse_args n ps w = (Raise IndexError, w)).
Proof.
  revert n. remember (length ps) as m eqn:Hm. assert (Hle : (length ps <= m)%nat) by lia. clear Hm.
  revert ps Hle. induction m as [|m IH]; intros [|a rest] Hle n Hn; cbn [length] in Hle; try lia;
    [left; exists []; destruct n; by cbn..|]. destruct n as [|n]; [lia|]. cbn [collapse_args].
  destruct (absorb_ok [a] rest w) as [(g & rest' & -> & Hg & E)|[Hu E]]; [done | cbn [length]; lia | |];
    change (join "," [a]) with a in E; unfold bind; rewrite E; cbn [fst snd].
  - rewrite length_app in Hle. destruct (IH rest' ltac:(lia) n ltac:(lia)) as [(gs & <- & Hgs & ->)|(gs & u & <- & Hgs & Hu & ->)].
    + left. exists (([a] ++ g) :: gs). split; [done|]. split; [by constructor | done].
    + right. exists (([a] ++ g) :: gs), u. split; [cbn; by rewrite <- app_assoc|]. split; [by constructor | done].
  - right. exists [], ([a] ++ rest). done.
Qed.

Lemma one_arg_prefix g g' r r' : one_arg g -> one_arg g' -> g ++ r = g' ++ r' -> (length g <= length g')%nat -> g = g'.
Proof.
  intros (Hn & Hc & _) (_ & _ & Ho) E Hl. assert (Ht : take (length g) g' = g).
  { rewrite <- (take_app_le g' r') by done. rewrite <- E. apply take_app_length. }
  destruct (decide (length g = length g')) as [El|]; [by rewrite <- Ht, El, firstn_all|].
  exfalso. specialize (Ho (length g)). rewrite Ht, Hc in Ho. destruct g; [done|]. cbn [length] in *. discriminate Ho. lia.
Qed.

Lemma one_arg_finished g r : one_arg g -> ~ unfinished (g ++ r).
Proof.
  intros (Hn & Hc & _) [_ Hu]. specialize (Hu (length g)). rewrite take_app_length, Hc in Hu. destruct g; [done|].
  rewrite length_app in Hu. cbn [length] in Hu. discriminate Hu. lia.
Qed.

(** There is one way to make arguments of the pieces. *)
Lemma args_unique gs gs' g g' :
  Forall one_arg gs -> Forall one_arg gs' -> g = [] \/ unfinished g -> g' = [] \/ unfinished g' ->
  concat gs ++ g = concat gs' ++ g' -> gs = gs' /\ g = g'.
Proof.
  intros Hgs. revert gs'. induction Hgs as [|x gs Hx _ IH]; intros gs' Hgs' Hg Hg'; destruct Hgs' as [|y gs' Hy Hgs']; cbn [concat];
    rewrite <- ?app_assoc; intros E; cbn [app] in E; [done | | |].
  - subst g. destruct Hg as [Hg|Hg]; [|by apply one_arg_finished in Hg]. apply app_eq_nil in Hg as [-> _]. by destruct Hy.
  - subst g'. destruct Hg' as [Hg'|Hg']; [|by apply one_arg_finished in Hg']. apply app_eq_nil in Hg' as [-> _]. by destruct Hx.
  - assert (x = y) as <-.
    { destruct (Nat.le_ge_cases (length x) (length y)); [by eapply one_arg_prefix | symmetry; by eapply one_arg_prefix]. }
    apply app_inv_head in E. by destruct (IH gs' Hgs' Hg Hg' E) as [<- <-].
Qed.

(** C23. The parameters of a constructor: the pieces between commas are put together again, in order and without loss, into arguments, a comma
    being one that separates arguments where the text since the last such comma has no more of [<] than of [>] and no more of the opening than of
    the closing parentheses (braces and square brackets are not looked at).  The loop ends: with the one list of such arguments exactly when the
    pieces can all be put into arguments, and with an [IndexError], past the last piece, exactly when the pieces that are left after some
    arguments never make up one. *)
Theorem collapse_args_spec ps w :
  (forall out, collapse_args (length ps) ps w = (Ok out, w) <->
     exists gs, concat gs = ps /\ Forall one_arg gs /\ out = map (join ",") gs) /\
  (collapse_args (length ps) ps w = (Raise IndexError, w) <->
     exists gs g, concat gs ++ g = ps /\ Forall one_arg gs /\ unfinished g) /\
  ((exists out, collapse_args (length ps) ps w = (Ok out, w)) \/ collapse_args (length ps) ps w = (Raise IndexError, w)).
Proof.
  destruct (collapse_args_ok (length ps) ps w (Nat.le_refl _)) as [(gs & Hc & Hgs & ->)|(gs & g & Hc & Hgs & Hg & ->)]; (split; [|split]).
  - intros out. split; [intros [= <-]; by exists gs|]. intros (gs' & Hc' & Hgs' & ->).
    destruct (args_unique gs gs' [] []) as [<- _]; try done; [by left | by left |]. by rewrite !app_nil_r, Hc, Hc'.
  - split; [done|]. intros (gs' & g & Hc' & Hgs' & Hg). destruct (args_unique gs gs' [] g) as [_ <-]; try done; [by left | by right | |].
    + by rewrite app_nil_r, Hc, Hc'.
    + by destruct Hg.
  - left. by eexists.
  - intros out. split; [done|]. intros (gs' & Hc' & Hgs' & ->). destruct (args_unique gs gs' g []) as [_ ->]; try done; [by right | by left | |].
    + by rewrite app_nil_r, Hc, Hc'.
    + by destruct Hg.
  - split; [by exists gs, g | done].
  - by right.
Qed.

(** The commas between angle brackets and in calls stay, the ones between braces and after an arrow do not count as inside. *)
Example collapse_args_examples w :
  collapse_args 3 (lits ["std::map<int"; " int> m"; " int n"]) w = (Ok (lits ["std::map<int, int> m"; " int n"]), w) /\
  collapse_args 2 (lits ["A a = {1"; " 2}"]) w = (Ok (lits ["A a = {1"; " 2}"]), w) /\
  collapse_args 2 (lits ["int x = p->n"; " int y"]) w = (Ok (lits ["int x = p->n"; " int y"]), w) /\
  collapse_args 2 (lits ["bool b = i < n"; " int k"]) w = (Raise IndexError, w).
Proof. vm_compute. repeat split; reflexivity. Qed.

(** ** Triples *)

(** A constructor with parameters of which the pieces from some piece on never make up an argument. *)
Definition open_parameters (line : str) : Prop :=
  exists name m gs g, Match (constructor_pattern name) line = Some m /\
    concat gs ++ g = constructor_pieces m /\ Forall one_arg gs /\ unfinished g.

(** A text whose opening brackets are missing is not open. *)
Lemma open_arg_needs a : open_arg a = true -> ch "<" ∈ a \/ ch "(" ∈ a.
Proof.
  assert (Hc : forall o, 0 < count a [o] -> o ∈ a).
  { intros o. unfold count. induction a as [|x a IH]; cbn [count_skip]; [lia|]. unfold startswith at 1.
    destruct (N.eqb_spec o x) as [->|]; cbn [andb]; [left|]. intros H. right. by apply IH. }
  unfold open_arg. rewrite orb_true_iff. intros [H%Z.ltb_lt|H%Z.ltb_lt]; [left|right]; apply Hc; (eapply Z.le_lt_trans; [|exact H]); unfold count; lia.
Qed.

Lemma join_elem sep ps c : c ∈ join sep ps -> c ∈ sep \/ exists p, p ∈ ps /\ c ∈ p.
Proof.
  induction ps as [|p [|q ps] IH]; [set_solver..|].
  change (join sep (p :: q :: ps)) with (p ++ sep ++ join sep (q :: ps)). rewrite !elem_of_app. intros [H|[H|H]]; [set_solver..|].
  destruct (IH H) as [?|(x & ? & ?)]; set_solver.
Qed.

Lemma split_skip_elem sep skip acc s p c : p ∈ split_skip sep skip acc s -> c ∈ p -> c ∈ acc \/ c ∈ s.
Proof.
  assert (Hr : forall l : str, c ∈ rev l -> c ∈ l) by (intros l; by rewrite !list_elem_of_In, <- in_rev).
  revert skip acc. induction s as [|x s IH]; intros skip acc; cbn [split_skip].
  - intros ->%list_elem_of_singleton. auto.
  - destruct skip; [split_if|]; rewrite ?elem_of_cons; [intros [->|H]; [auto|] | intros H..]; intros Hc;
      destruct (IH _ _ H Hc) as [?|?]; set_solver.
Qed.

(** A line without opening brackets keeps the checks of constructors in range. *)
Lemma closed_parameters line : ch "<" ∉ line -> ch "(" ∉ line -> ~ open_parameters line.
Proof.
  intros Ha Hp (name & m & gs & g & Hm & Hg & _ & Hne & Ho).
  assert (Hin : forall c, c ∈ join "," g -> c = ch "," \/ c ∈ line).
  { intros c [H|(p & Hpin & Hc)]%join_elem; [left; by apply list_elem_of_singleton in H|]. right.
    rewrite <- (Match_text _ _ _ Hm). apply (group_elem m 2).
    assert (Hp' : p ∈ constructor_pieces m) by (rewrite <- Hg; set_solver). unfold constructor_pieces in Hp'.
    destruct (group_str m 2); [by apply elem_of_nil in Hp'|]. eapply split_skip_elem in Hp'; [|exact Hc]. set_solver. }
  assert (Hlen : (0 < length g)%nat) by (destruct g; [done | cbn; lia]).
  specialize (Ho (length g) ltac:(lia)). rewrite firstn_all in Ho.
  destruct (open_arg_needs _ Ho) as [H|H]; destruct (Hin _ H) as [E|?]; try done.
Qed.

Lemma split_last_some s sep : last (split s sep) <> None.
Proof.
  assert (H : forall s skip acc, split_skip sep skip acc s <> []).
  { induction s0 as [|a s0 IH]; intros skip acc; cbn [split_skip]; [done|]. destruct skip; [split_if; [done | apply IH] | apply IH]. }
  intros E%last_None. by apply H in E.
Qed.

Lemma parameter_pos l k m :
  0 <= k -> Match "^([^(]*)\(" (slice_from l k) = Some m -> 0 <= k + len (group_str m 1) < len l.
Proof.
  intros Hk H. assert (Hr : 0 <= len (group_str m 1) < len (slice_from l k)) by (revert H; group_range).
  unfold slice_from, len, bound in *. rewrite length_drop in Hr. destruct (k <? 0) eqn:E; lia.
Qed.

Section ConstructsRuns.
Context (N : Z) (filename : str) (I : world -> Prop) (X : exn -> Prop) (error : error_fn) {R : Reporter N filename I X error}.
Context (c : CleansedLines) (linenum : Z) (Hc : sized N c) (Hl : 0 <= linenum < N).

Lemma check_explicit_runs name b args : runs I X (check_explicit filename name linenum b args error) (fun _ => True).
Proof.
  unfold check_explicit. cbv zeta. eapply (runs_bind _ _ _ _ (fun _ => True)); [|intros first _; runs_walk].
  match goal with |- runs _ _ (if ?b then _ else _) _ => destruct b eqn:E end; [|by apply runs_ret].
  assert (args <> []) as Ha; [|destruct args; [done | by apply runs_ret]].
  intros ->. done.
Qed.

Lemma CheckForNonStandardConstructs_runs st :
  (forall line, index (elided c) linenum = Some line -> open_parameters line -> X IndexError) ->
  runs I X (CheckForNonStandardConstructs filename c linenum st error) (fun _ => True).
Proof.
  intros Hx. unfold CheckForNonStandardConstructs. eapply runs_bind; [eauto with runs|]. intros source _.
  eapply runs_bind; [eauto with runs|]. intros line Hi. cbv beta in Hi.
  eapply (runs_bind _ _ _ _ (fun _ => True)); [unfold check_constructs; runs_walk|]. intros _ _.
  destruct (InnermostClass st) as [info|]; [|by apply runs_ret]. split_if; [by apply runs_ret|].
  destruct (last (split (class_name info) "::")) as [name|] eqn:En; [|by apply split_last_some in En].
  eapply runs_bind; [by apply (runs_ret _ _ name (fun _ => True))|]. intros base _.
  destruct (Match _ line) as [m|] eqn:Em; [|by apply runs_ret]. fold (constructor_pieces m).
  eapply (runs_bind _ _ _ _ (fun _ => True)); [|intros args _; apply check_explicit_runs].
  intros w Hw. destruct (collapse_args_ok (length (constructor_pieces m)) (constructor_pieces m) w (Nat.le_refl _))
    as [(gs & _ & _ & ->)|(gs & g & H1 & H2 & H3 & ->)]; [done|].
  split; [done|]. apply (Hx line Hi). by exists base, m, gs, g.
Qed.

Lemma CheckMakePairUsesDeduction_runs : runs I X (CheckMakePairUsesDeduction filename c linenum error) (fun _ => True).
Proof. unfold CheckMakePairUsesDeduction. runs_walk. Qed.

Lemma parameter_end_runs ks k :
  (forall i, i ∈ ks -> 0 <= i < N) -> 0 <= k ->
  runs I X (parameter_end c k ks) (fun r => snd r < 0 \/ 0 <= fst r < N).
Proof.
  revert k. induction ks as [|i ks IH]; intros k Hks Hk; cbn [parameter_end]; [apply runs_ret; left; simpl; lia|].
  pose proof (Hks i ltac:(left)). eapply runs_bind; [apply get_line_runs; line_lia|]. intros l Hi. cbv beta in Hi.
  destruct (Match _ _) as [m|] eqn:Em; [|apply IH; [intros; apply Hks; by right | lia]]. apply parameter_pos in Em; [|done].
  eapply runs_bind; [by eapply CloseExpression_runs|]. intros [[l' e] p] He. cbn [end_at] in He. apply runs_ret. simpl. lia.
Qed.

Lemma redundant_specifier_runs e ks :
  (forall i, i ∈ ks -> 0 <= i < N) ->
  runs I X (redundant_specifier filename (elided c) linenum e ks error) (fun _ => True).
Proof.
  revert e. induction ks as [|i ks IH]; intros e Hks; cbn [redundant_specifier]; [by apply runs_ret|].
  pose proof (Hks i ltac:(left)). assert (forall j, j ∈ ks -> 0 <= j < N) by (intros; apply Hks; by right). runs_walk.
Qed.

Lemma CheckRedundantVirtual_runs : runs I X (CheckRedundantVirtual filename c linenum error) (fun _ => True).
Proof.
  unfold CheckRedundantVirtual. eapply runs_bind; [eauto with runs|]. intros line _.
  destruct (Match _ line) as [m|]; [|by apply runs_ret]. split_if; [by apply runs_ret|]. split_if; [by apply runs_ret|].
  eapply runs_bind; [apply parameter_end_runs|].
  - intros i Hi%elem_of_zrange. line_lia.
  - unfold len. lia.
  - intros [el ec] He. cbn [fst snd] in He. destruct (ec <? 0) eqn:Ee; [by apply runs_ret|].
    apply redundant_specifier_runs. intros i Hi%elem_of_zrange. line_lia.
Qed.

Lemma CheckRedundantOverrideOrFinal_runs :
  runs I X (CheckRedundantOverrideOrFinal filename c linenum error) (fun _ => True).
Proof. unfold CheckRedundantOverrideOrFinal. runs_walk. Qed.

Lemma FlagCxx11Features_runs : runs I X (FlagCxx11Features filename c linenum error) (fun _ => True).
Proof. unfold FlagCxx11Features. runs_walk. Qed.

Lemma FlagCxx14Features_runs : runs I X (FlagCxx14Features filename c linenum error) (fun _ => True).
Proof. unfold FlagCxx14Features. runs_walk. Qed.
End ConstructsRuns.

End Constructs.

#[export] Hint Resolve CheckForNonStandardConstructs_runs CheckMakePairUsesDeduction_runs CheckRedundantVirtual_runs
  CheckRedundantOverrideOrFinal_runs FlagCxx11Features_runs FlagCxx14Features_runs : runs.
