(* ===== verification/Driver.v ===== *)
(** * The driver: files, configuration files, the command line

    Models the part of cpplint.py from [ProcessLine] to [main].  What the driver asks of the operating system is a parameter: which files and
    directories there are, what is in them, and the version of the interpreter.  Options of the configuration files that are
    regular expressions are read with the syntax of [PyRe]. *)

From S2P Require Import Prelude PyStr PyRe PyEff Tables Usage Regexps Lint JUnit Cleanse Expr Includes Paths FileChecks Nesting Spacing.
From S2P Require Import Braces Style IncludeChecks Language Constructs.

Local Open Scope Z_scope.

Class DriverEnv := {
  isfile : str -> bool;                    (* os.path.isfile *)
  isdir : str -> bool;                     (* os.path.isdir *)
  walk : str -> list (str * list str);     (* os.walk: directories and the files in them *)
  glob : str -> list str;                  (* glob.glob *)
  config_text : str -> list str * option exn;  (* the lines that opening and reading a configuration file gives, and the exception
                                              that ends it, if one does: an IOError, or an error of the decoding *)
  read_stdin : result str;                 (* what reading the standard input as UTF-8 gives *)
  sys_version : str                        (* sys.version *)
}.

Section Driver.
Context {U : UnicodeDB} {FS : FileSystem} {FR : FileReader} {DE : DriverEnv}.

(** ** One line *)

(** The objects that are carried from line to line. *)
Record scan_state := Scan { include_state : _IncludeState; function_state : _FunctionState; nesting_state : NestingState }.

Definition scan_start : scan_state := Scan _IncludeState_init _FunctionState_init NestingState_init.

(** The type of the elements of [extra_check_functions]. *)
Abbreviation check_fn := (str -> CleansedLines -> Z -> error_fn -> P unit).

(** The checks of a line, once its NOLINT comment has been read. *)
Definition line_checks (filename file_extension : str) (clean_lines : CleansedLines) (line : Z) (s : scan_state) (error : error_fn)
    (extra_check_functions : list check_fn) : P scan_state :=
  nesting <- Update (nesting_state s) filename clean_lines line error;;
  CheckForNamespaceIndentation filename nesting clean_lines line error;;
  if InAsmBlock nesting then ret (Scan (include_state s) (function_state s) nesting)
  else
    function <- CheckForFunctionLengths filename clean_lines line (function_state s) error;;
    CheckForMultilineCommentsAndStrings filename clean_lines line error;;
    CheckStyle filename clean_lines line file_extension nesting error;;
    include <- CheckLanguage filename clean_lines line file_extension (include_state s) nesting error;;
    CheckForNonConstReference filename clean_lines line nesting error;;
    CheckForNonStandardConstructs filename clean_lines line nesting error;;
    CheckVlogArguments filename clean_lines line error;;
    CheckPosixThreading filename clean_lines line error;;
    CheckInvalidIncrement filename clean_lines line error;;
    CheckMakePairUsesDeduction filename clean_lines line error;;
    CheckRedundantVirtual filename clean_lines line error;;
    CheckRedundantOverrideOrFinal filename clean_lines line error;;
    for_each extra_check_functions (fun check_fn => check_fn filename clean_lines line error);;
    ret (Scan include function nesting).

Definition ProcessLine (filename file_extension : str) (clean_lines : CleansedLines) (line : Z) (s : scan_state) (error : error_fn)
    (extra_check_functions : list check_fn) : P scan_state :=
  raw <- get_line (raw_lines clean_lines) line;;
  ParseNolintSuppressions filename raw line error;;
  line_checks filename file_extension clean_lines line s error extra_check_functions.

(** ** One file *)

(** The lines from [lo] to [hi], one after the other. *)
Definition check_lines (filename file_extension : str) (clean_lines : CleansedLines) (error : error_fn)
    (extra_check_functions : list check_fn) (lo hi : Z) (s : scan_state) : P scan_state :=
  fold_m (fun s line =>
    s <- ProcessLine filename file_extension clean_lines line s error extra_check_functions;;
    FlagCxx11Features filename clean_lines line error;;
    ret s) (zrange lo hi) s.

Definition ProcessFileData (filename file_extension : str) (lines : list str) (error : error_fn)
    (extra_check_functions : list check_fn) : P unit :=
  let lines := marked lines in
  ResetNolintSuppressions;;
  CheckForCopyright filename lines error;;
  ProcessGlobalSuppresions lines;;
  lines <- RemoveMultiLineComments filename lines error;;
  clean_lines <- CleansedLines_init lines;;
  is_header <- IsHeaderExtension file_extension;;
  when is_header (CheckForHeaderGuard filename clean_lines error);;
  s <- check_lines filename file_extension clean_lines error extra_check_functions 0 (NumLines clean_lines) scan_start;;
  CheckCompletedBlocks (nesting_state s) filename error;;
  CheckForIncludeWhatYouUse filename clean_lines (include_state s) error;;
  is_source <- _IsSourceExtension file_extension;;
  when is_source (CheckHeaderFileIncluded filename (include_state s) error);;
  CheckForBadCharacters filename lines error;;
  CheckForNewlineAtEOF filename lines error.

(** ** Access to the state *)

Definition _OutputFormat : P str := s <- lint;; ret (output_format s).
Definition _SetOutputFormat (output_format : str) : P unit := SetOutputFormat output_format.
Definition _Quiet : P bool := s <- lint;; ret (quiet s).
Definition _SetQuiet (quiet : bool) : P bool := SetQuiet quiet.
Definition _VerboseLevel : P Z := s <- lint;; ret (verbose_level s).
Definition _SetVerboseLevel (level : Z) : P Z := SetVerboseLevel level.
Definition _SetCountingStyle (level : str) : P unit := SetCountingStyle level.
Definition _Filters : P (list str) := s <- lint;; ret (filters s).
Definition _SetFilters (filters : str) : P unit := SetFilters filters.
Definition _AddFilters (filters : str) : P unit := AddFilters filters.
Definition _BackupFilters : P unit := BackupFilters.
Definition _RestoreFilters : P unit := RestoreFilters.

(** ** Configuration files *)

(** One line of a configuration file.  The state is [keep_looking] and the filters so far; [None] means that the file
    is not to be processed. *)
Definition config_line (filename cfg_file base_name : str) (keep_looking : bool) (cfg_filters : list str) (line : str)
    : P (option (bool * list str)) :=
  let line := fst (partition line "#") in
  let go_on := ret (Some (keep_looking, cfg_filters)) in
  if negb (nonempty (strip line)) then go_on
  else
    let '(name, val) := partition line "=" in
    let name := strip name in
    let val := strip val in
    if str_eqb name "set noparent" then ret (Some (false, cfg_filters))
    else if str_eqb name "filter" then ret (Some (keep_looking, cfg_filters ++ [val]))
    else if str_eqb name "exclude_files" then
      if nonempty base_name then
        pattern <- or_raise ReError (re_parse val);;
        if is_some (rx_match pattern base_name) then
          s <- lint;;
          if quiet s then ret None
          else
            PrintInfo ("Ignoring `" ++ filename ++ "`: file excluded by `" ++ cfg_file ++ "`. " ++ "File path component `"
                       ++ base_name ++ "` matches " ++ "pattern `" ++ val ++ "`" ++ nl);;
            ret None
        else go_on
      else go_on
    else if str_eqb name "linelength" then
      match py_int val with
      | Some n => modify (with_line_length n);; go_on
      | None => PrintError "Line length must be numeric.";; go_on
      end
    else if str_eqb name "extensions" then ProcessExtensionsOption val;; go_on
    else if str_eqb name "root" then modify (with_root (Some (OsPath.join2 (OsPath.dirname cfg_file) val)));; go_on
    else if str_eqb name "headers" then ProcessHppHeadersOption val;; go_on
    else
      PrintError ("Invalid configuration option (" ++ name ++ ") in file " ++ cfg_file ++ nl);; go_on.

Fixpoint config_file (filename cfg_file base_name : str) (keep_looking : bool) (cfg_filters : list str) (ls : list str)
    : P (option (bool * list str)) :=
  match ls with
  | [] => ret (Some (keep_looking, cfg_filters))
  | line :: ls' =>
      r <- config_line filename cfg_file base_name keep_looking cfg_filters line;;
      match r with
      | Some (keep_looking, cfg_filters) => config_file filename cfg_file base_name keep_looking cfg_filters ls'
      | None => ret None
      end
  end.

(** The climb from the file to the root directory: the filters found on the way, or [None]. *)
Fixpoint config_climb (fuel : nat) (filename abs_filename : str) (keep_looking : bool) (cfg_filters : list str)
    : P (option (list str)) :=
  if negb keep_looking then ret (Some cfg_filters) else
  match fuel with
  | O => raise OutOfFuel
  | S f =>
      let '(abs_path, base_name) := OsPath.split abs_filename in
      if negb (nonempty base_name) then ret (Some cfg_filters)
      else
        let cfg_file := OsPath.join2 abs_path "CPPLINT.cfg" in
        if negb (isfile cfg_file) then config_climb f filename abs_path keep_looking cfg_filters
        else
          let '(ls, failure) := config_text cfg_file in
          r <- config_file filename cfg_file base_name keep_looking cfg_filters ls;;
          match r with
          | Some (keep_looking, cfg_filters) =>
              match failure with
              | None => config_climb f filename abs_path keep_looking cfg_filters
              | Some IOError =>
                  PrintError ("Skipping config file '" ++ cfg_file ++ "': Can't open for reading" ++ nl);;
                  config_climb f filename abs_path false cfg_filters
              | Some e => raise e
              end
          | None => ret None
          end
  end.

Definition ProcessConfigOverrides (filename : str) : P bool :=
  let abs_filename := OsPath.abspath filename in
  r <- config_climb (S (length abs_filename)) filename abs_filename true [];;
  match r with
  | Some cfg_filters => for_each (rev cfg_filters) _AddFilters;; ret true
  | None => ret false
  end.

(** ** A file and its configuration *)

(** The lines without their carriage returns, and the numbers of the lines that end in LF and in CR LF; the last piece is
    what follows the last newline. *)
Fixpoint strip_cr (linenum : Z) (ls : list str) : list str * list Z * list Z :=
  match ls with
  | [] => ([], [], [])
  | [l] => ([l], [], [])
  | l :: ls' =>
      let '(out, lf_lines, crlf_lines) := strip_cr (linenum + 1) ls' in
      if endswith l [c_cr] then (rstrip_chars l [c_cr] :: out, lf_lines, linenum :: crlf_lines)
      else (l :: out, linenum :: lf_lines, crlf_lines)
  end.

(** The text of the file, [None] for an [IOError]. *)
Definition read_file (filename : str) : P (option str) :=
  if str_eqb filename "-" then
    match read_stdin with
    | Ok text => ret (Some text)
    | Raise IOError => ret None
    | Raise e => raise e
    end
  else ret (open_utf8 filename).

(** What [ProcessFile] does with the text. *)
Definition lint_text (filename text : str) (extra_check_functions : list check_fn) : P unit :=
  let '(lines, lf_lines, crlf_lines) := strip_cr 1 (split text nl) in
  let file_extension := slice_from filename (rfind filename "." + 1) in
  extensions <- GetAllExtensions;;
  if negb (str_eqb filename "-") && negb (bool_decide (file_extension ∈ extensions)) then
    PrintError ("Ignoring " ++ filename ++ "; not a valid file name " ++ "(" ++ join ", " (elements extensions) ++ ")" ++ nl)
  else
    ProcessFileData filename file_extension lines Error extra_check_functions;;
    when (nonempty lf_lines && nonempty crlf_lines)
      (for_each crlf_lines (fun linenum =>
         Error filename (Some linenum) "whitespace/newline" 1 "Unexpected \r (^M) found; better to use only \n")).

Definition ProcessFile (filename : str) (vlevel : Z) (extra_check_functions : list check_fn) : P unit :=
  _SetVerboseLevel vlevel;;
  _BackupFilters;;
  s <- lint;;
  let old_errors := error_count s in
  go <- ProcessConfigOverrides filename;;
  if negb go then _RestoreFilters
  else
    text <- read_file filename;;
    match text with
    | None =>
        PrintError ("Skipping input '" ++ filename ++ "': Can't open for reading" ++ nl);;
        _RestoreFilters
    | Some text =>
        lint_text filename text extra_check_functions;;
        s <- lint;;
        when (negb (quiet s) || negb (old_errors =? error_count s)) (PrintInfo ("Done processing " ++ filename ++ nl));;
        _RestoreFilters
    end.

(** ** The command line *)

(** [repr] of a list and of a set of texts. *)
Definition list_repr (l : list str) : str := "[" ++ join ", " (map py_repr l) ++ "]".
Definition set_repr (l : list str) : str := if nonempty l then "{" ++ join ", " (map py_repr l) ++ "}" else "set()".

(** [sys.exit(message)]: the interpreter writes the message and exits with code 1. *)
Definition exit_message {A} (message : str) : P A := modify (write_stderr (message ++ nl));; raise (SystemExit 1).

Definition PrintUsage {A} (message : option str) : P A :=
  extensions <- GetAllExtensions;;
  headers <- GetHeaderExtensions;;
  modify (write_stderr (_USAGE [list_repr (elements extensions); join "," (elements extensions);
                                set_repr (elements headers); join "," (elements headers)]));;
  match message with
  | Some ((_ :: _) as message) => exit_message (nl ++ "FATAL ERROR: " ++ message)
  | _ => raise (SystemExit 0)
  end.

Definition __VERSION__ : str := "1.4.4".

Definition PrintVersion {A} : P A :=
  modify (write_stdout ("Cpplint fork (https://github.com/cpplint/cpplint)" ++ nl));;
  modify (write_stdout ("cpplint " ++ __VERSION__ ++ nl));;
  modify (write_stdout ("Python " ++ sys_version ++ nl));;
  raise (SystemExit 0).

Definition PrintCategories {A} : P A :=
  modify (write_stderr (concat (map (fun cat => "  " ++ cat ++ nl) _ERROR_CATEGORIES)));;
  raise (SystemExit 0).

(** [getopt.getopt] without short options: [None] for a [GetoptError]. *)
Definition long_has_args (opt : str) (longopts : list str) : option (bool * str) :=
  let possibilities := List.filter (fun o => startswith o opt) longopts in
  if mem_str opt possibilities then Some (false, opt)
  else if mem_str (opt ++ "=") possibilities then Some (true, opt)
  else match possibilities with
       | [unique_match] =>
           Some (if endswith unique_match "=" then (true, slice_to unique_match (-1)) else (false, unique_match))
       | _ => None
       end.

(** One long option, with the arguments after it: the option, its value and the arguments left. *)
Definition do_longs (opt : str) (longopts args : list str) : option (str * str * list str) :=
  let '(name, optarg) :=
    if contains "=" opt then let '(n, v) := partition opt "=" in (n, Some v) else (opt, None) in
  match long_has_args name longopts, optarg with
  | None, _ => None
  | Some (true, name), Some v => Some ("--" ++ name, v, args)
  | Some (true, name), None => match args with v :: args' => Some ("--" ++ name, v, args') | [] => None end
  | Some (false, _), Some _ => None
  | Some (false, name), None => Some ("--" ++ name, [], args)
  end.

(** At most [n] rounds, each of which consumes an argument. *)
Fixpoint getopt (n : nat) (longopts args : list str) : option (list (str * str) * list str) :=
  match args with
  | [] => Some ([], [])
  | a :: args' =>
      if negb (startswith a "-") || str_eqb a "-" then Some ([], args)
      else if str_eqb a "--" then Some ([], args')
      else if startswith a "--" then
        match n with
        | O => None
        | S n' =>
            match do_longs (slice_from a 2) longopts args' with
            | None => None
            | Some (o, v, rest) =>
                match getopt n' longopts rest with
                | Some (opts, files) => Some ((o, v) :: opts, files)
                | None => None
                end
            end
        end
      else None
  end.

Definition longopts : list str := lits [
  "help"; "output="; "verbose="; "v="; "version"; "counting="; "filter="; "root="; "repository="; "linelength="; "extensions=";
  "exclude="; "recursive"; "headers="; "quiet"
].

Definition _ExpandDirectories (filenames : list str) : P (list str) :=
  let expand (filename : str) : list str :=
    if negb (isdir filename) then [filename]
    else flat_map (fun '(root, files) =>
           map (fun loopfile =>
             let fullname := OsPath.join2 root loopfile in
             if startswith fullname "./" then slice_from fullname 2 else fullname) files) (walk filename) in
  let expanded : gset str := list_to_set (flat_map expand filenames) in
  extensions <- GetAllExtensions;;
  ret (List.filter (fun filename => bool_decide (slice_from (snd (OsPath.splitext filename)) 1 ∈ extensions)) (elements expanded)).

Definition _FilterExcludedFiles (filenames : list str) : P (list str) :=
  w <- get;;
  let exclude_paths := map OsPath.abspath (elements (default ∅ (_excludes w))) in
  ret (List.filter (fun f => negb (mem_str (OsPath.abspath f) exclude_paths)) filenames).

(** The variables [ParseArguments] sets from the options. *)
Record options := Options {
  o_verbosity : Z; o_output_format : str; o_filters : str; o_quiet : bool; o_counting_style : str; o_recursive : bool }.

(** [int(val)] where a [ValueError] is not caught. *)
Definition int_or_raise (val : str) : P Z :=
  or_raise (ValueError ("invalid literal for int() with base 10: " ++ py_repr val)) (py_int val).

Definition parse_option (o : options) (opt_val : str * str) : P options :=
  let '(opt, val) := opt_val in
  let 'Options verbosity output_format filters quiet counting_style recursive := o in
  if str_eqb opt "--help" then PrintUsage None
  else if str_eqb opt "--version" then PrintVersion
  else if str_eqb opt "--output" then
    if negb (mem_str val (lits ["emacs"; "vs7"; "eclipse"; "junit"])) then
      PrintUsage (Some ("The only allowed output formats are emacs, vs7, eclipse " ++ "and junit."))
    else ret (Options verbosity val filters quiet counting_style recursive)
  else if str_eqb opt "--quiet" then ret (Options verbosity output_format filters true counting_style recursive)
  else if str_eqb opt "--verbose" || str_eqb opt "--v" then
    v <- int_or_raise val;; ret (Options v output_format filters quiet counting_style recursive)
  else if str_eqb opt "--filter" then
    if negb (nonempty val) then PrintCategories
    else ret (Options verbosity output_format val quiet counting_style recursive)
  else if str_eqb opt "--counting" then
    if negb (mem_str val (lits ["total"; "toplevel"; "detailed"])) then
      PrintUsage (Some (lit "Valid counting options are total, toplevel, and detailed"))
    else ret (Options verbosity output_format filters quiet val recursive)
  else if str_eqb opt "--root" then modify (with_root (Some val));; ret o
  else if str_eqb opt "--repository" then modify (with_repository (Some val));; ret o
  else if str_eqb opt "--linelength" then
    match py_int val with
    | Some n => modify (with_line_length n);; ret o
    | None => PrintUsage (Some (lit "Line length must be digits."))
    end
  else if str_eqb opt "--exclude" then
    modify (fun w => with_excludes (Some (default ∅ (_excludes w) ∪ list_to_set (glob val))) w);; ret o
  else if str_eqb opt "--extensions" then ProcessExtensionsOption val;; ret o
  else if str_eqb opt "--headers" then ProcessHppHeadersOption val;; ret o
  else if str_eqb opt "--recursive" then ret (Options verbosity output_format filters quiet counting_style true)
  else ret o.

Definition ParseArguments (args : list str) : P (list str) :=
  match getopt (length args) longopts args with
  | None => PrintUsage (Some (lit "Invalid arguments."))
  | Some (opts, filenames) =>
      verbosity <- _VerboseLevel;;
      output_format <- _OutputFormat;;
      quiet <- _Quiet;;
      o <- fold_m parse_option opts (Options verbosity output_format [] quiet [] false);;
      filenames <- (if negb (nonempty filenames) then PrintUsage (Some (lit "No files were specified.")) else ret filenames);;
      filenames <- (if o_recursive o then _ExpandDirectories filenames else ret filenames);;
      w <- get;;
      filenames <- (if negb (bool_decide (default ∅ (_excludes w) = ∅)) then _FilterExcludedFiles filenames else ret filenames);;
      _SetOutputFormat (o_output_format o);;
      _SetQuiet (o_quiet o);;
      _SetVerboseLevel (o_verbosity o);;
      _SetFilters (o_filters o);;
      _SetCountingStyle (o_counting_style o);;
      ret filenames
  end.

(** ** The program *)

Definition process_all (filenames : list str) : P unit :=
  for_each filenames (fun filename => s <- lint;; ProcessFile filename (verbose_level s) []).

(** The standard error stream is wrapped while files are checked, which does not change what is written. *)
Definition main (argv : list str) : P unit :=
  filenames <- ParseArguments argv;;
  ResetErrorCounts;;
  process_all filenames;;
  s <- lint;;
  when (negb (quiet s) || (0 <? error_count s)) PrintErrorCounts;;
  s <- lint;;
  when (str_eqb (output_format s) "junit") (modify (write_stderr (FormatJUnitXML s)));;
  raise (SystemExit (if 0 <? error_count s then 1 else 0)).

(** ** Triples *)

(** What is carried from line to line is well formed and speaks of lines of the file. *)
Definition scan_in (N : Z) (s : scan_state) : Prop :=
  includes_in N (include_state s) /\ nesting_wf (nesting_state s) /\ starts N (nesting_state s).

Lemma scan_start_in N : scan_in N scan_start.
Proof. split; [|split; [apply init_wf | apply init_starts]]. by split; [split | constructor]. Qed.

(** The two places at which a check reads past the end of something: the parameters of a constructor, and a line that ends with a cast. *)
Definition reads_past (c : CleansedLines) (line : Z) : Prop :=
  cast_ends_line c line \/ exists l, index (elided c) line = Some l /\ open_parameters l.

Lemma calm_line c line :
  (forall l, index (elided c) line = Some l -> ch "<" ∉ l /\ ch "(" ∉ l) -> ~ reads_past c line.
Proof.
  intros Hb [(l & m & l' & k & w & Hl & Hm & _)|(l & Hl & Ho)]; destruct (Hb l Hl) as [Ha Hp].
  - by rewrite (Match_needs _ (ch "<")) in Hm.
  - by apply closed_parameters in Ho.
Qed.

(** A file with such a line. *)
Definition hazard (ls : list str) : Prop :=
  exists c w line, CleansedLines_init (fst (erase_comments 0 None (marked ls))) w = (Ok c, w) /\ reads_past c line.

Section FileRuns.
Context (N : Z) (filename : str) (I : world -> Prop) (X : exn -> Prop) (error : error_fn) {R : Reporter N filename I X error}.
Context (Hsvn : no_svn_root) (Hparen : parens_unique) (Hwords : X IndexError \/ words_not_spaces).
Context (extra : list check_fn) (Hextra : forall f c line, f ∈ extra -> sized N c -> 0 <= line < N ->
  runs I X (f filename c line error) (fun _ => True)).

Lemma line_checks_runs ext c line s :
  sized N c -> 0 <= line < N -> index (elided c) 0 = Some [] -> (reads_past c line -> X IndexError) -> scan_in N s ->
  runs I X (line_checks filename ext c line s error extra) (scan_in N).
Proof.
  intros Hc Hl H0 Hx (Hi & Hn & Hs). unfold line_checks.
  assert (Hup : runs I X (Update (nesting_state s) filename c line error) (fun st => nesting_wf st /\ starts N st)).
  { rewrite <- (Z2Nat.id line) by lia. eapply runs_weaken.
    - apply (Update_runs N); try done; [lia | by apply (sized_wf N) | size_facts; unfold len in *; lia | line_lia | apply report_runs].
    - by intros st (l & _ & _ & H). }
  eapply runs_bind; [exact Hup|]. intros st [Hn' Hs'].
  eapply runs_bind; [eauto with runs|]. intros _ _. split_if; [by apply runs_ret|].
  eapply runs_bind; [eauto with runs|]. intros fs _. eapply runs_bind; [eauto with runs|]. intros _ _.
  eapply runs_bind; [by eapply CheckStyle_runs|]. intros _ _.
  eapply runs_bind; [eapply CheckLanguage_runs; try done; intros; apply Hx; by left|]. intros inc Hinc.
  eapply runs_bind; [eauto with runs|]. intros _ _.
  eapply runs_bind; [eapply CheckForNonStandardConstructs_runs; try done; intros; apply Hx; right; eauto|]. intros _ _.
  do 6 (eapply runs_bind; [eauto with runs|]; intros _ _).
  eapply (runs_bind _ _ _ _ (fun _ => True)); [apply runs_for_each; intros; by apply Hextra|]. intros _ _. by apply runs_ret.
Qed.

Lemma ProcessLine_runs ext c line s :
  sized N c -> 0 <= line < N -> index (elided c) 0 = Some [] -> (reads_past c line -> X IndexError) -> scan_in N s ->
  runs I X (ProcessLine filename ext c line s error extra) (scan_in N).
Proof.
  intros Hc Hl H0 Hx Hs. unfold ProcessLine. eapply runs_bind; [eauto with runs|]. intros raw _.
  eapply runs_bind; [apply (ParseNolintSuppressions_runs N); [done | lia]|]. intros _ _. by apply line_checks_runs.
Qed.

Lemma flag_runs c line (s : scan_state) :
  sized N c -> 0 <= line < N -> scan_in N s -> runs I X (FlagCxx11Features filename c line error;; ret s) (scan_in N).
Proof. intros Hc Hl Hs. eapply runs_bind; [eauto with runs|]. intros _ _. by apply runs_ret. Qed.

Lemma check_lines_runs ext c lo s :
  sized N c -> 0 <= lo -> index (elided c) 0 = Some [] -> (forall line, lo <= line < N -> reads_past c line -> X IndexError) -> scan_in N s ->
  runs I X (check_lines filename ext c error extra lo (NumLines c) s) (scan_in N).
Proof.
  intros Hc Hlo H0 Hx Hs. apply runs_fold_m; [done|]. intros s' i Hs' Hi%elem_of_zrange. rewrite (sized_num _ _ Hc) in Hi.
  assert (0 <= i < N) by lia. eapply runs_bind; [apply ProcessLine_runs; try done; by apply Hx|]. intros s2 Hs2. by apply flag_runs.
Qed.

End FileRuns.

Section WholeRuns.
Context (N : Z) (filename : str) (I : world -> Prop) (X : exn -> Prop) (error : error_fn) {F : FileReporter N filename I X error}.
Context (Hsvn : no_svn_root) (Hparen : parens_unique) (Hwords : X IndexError \/ words_not_spaces).
Context (extra : list check_fn) (Hextra : forall f c line, f ∈ extra -> sized N c -> 0 <= line < N ->
  runs I X (f filename c line error) (fun _ => True)).

Lemma ProcessFileData_runs ext ls :
  len ls + 2 = N -> Forall no_nl ls -> (hazard ls -> X IndexError) ->
  runs I X (ProcessFileData filename ext ls error extra) (fun _ => True).
Proof.
  intros HN Hls Hx. pose proof (line_reporter : Reporter N filename I X error) as R. unfold ProcessFileData. cbv zeta.
  assert (Hall : Forall no_nl (marked ls)).
  { unfold marked. rewrite !Forall_app. repeat split; [|done|]; (constructor; [|constructor]); apply (bool_decide_unpack (no_nl _)); vm_compute; exact Logic.I. }
  assert (Hlen : len (marked ls) = N) by (rewrite len_marked; lia).
  assert (Hlast : last (marked ls) = Some (lit "// marker so line numbers end in a known way")) by (unfold marked; rewrite app_assoc; apply last_snoc).
  assert (0 <= len ls) by (unfold len; lia).
  eapply runs_bind; [eauto with runs|]; intros _ _. eapply runs_bind; [apply (CheckForCopyright_runs N); [done | lia]|]; intros _ _.
  eapply runs_bind; [eauto with runs|]; intros _ _.
  eapply runs_bind; [eapply (RemoveMultiLineComments_runs I X N); [done | exact Hlast | done | lia | done]|]. intros ls' (Hout & Hls' & Hlen').
  assert (HN' : len ls' = N) by (unfold len in *; lia).
  eapply runs_bind; [by apply CleansedLines_runs|]. intros c [Hc [w Hw]]. rewrite HN' in Hc.
  assert (H0 : index (elided c) 0 = Some []).
  { rewrite Hout in Hw. unfold marked in Hw. cbn [app erase_comments] in Hw.
    change (opens_comment "// marker so line numbers and indices both start at 1") with false in Hw. cbv iota in Hw.
    destruct (erase_comments 1 None _) as [out e]. cbn [fst] in Hw. eapply comment_line_elided; [| | | |exact Hw]; [done|..];
      apply (bool_decide_unpack (_ ∉ _)); vm_compute; exact Logic.I. }
  eapply runs_bind; [eauto with runs|]. intros h _.
  eapply (runs_bind _ _ _ _ (fun _ => True)); [apply runs_when_cond; intros _; apply (CheckForHeaderGuard_runs N); [done.. | lia]|]. intros _ _.
  eapply runs_bind; [apply (check_lines_runs N); try done; [|apply scan_start_in]|].
  { intros line _ Hr. apply Hx. exists c, w, line. by rewrite <- Hout. }
  intros s (Hi & _ & Hst). eapply runs_bind; [eapply (CheckCompletedBlocks_runs N); [lia | done | done]|]. intros _ _.
  eapply runs_bind; [eauto with runs|]. intros _ _. eapply runs_bind; [eauto with runs|]. intros b _.
  eapply (runs_bind _ _ _ _ (fun _ => True)); [apply runs_when_cond; intros _; apply (CheckHeaderFileIncluded_runs N); [done.. | lia]|].
  intros _ _. eapply runs_bind; [apply (CheckForBadCharacters_runs N); [done | lia]|]. intros _ _. apply (CheckForNewlineAtEOF_runs N); [done | lia].
Qed.
End WholeRuns.

(** ** The state between the files *)

(** What holds while files are checked: the filters are well formed, the backup is [b], the counters add up and have not gone below [n],
    and a JUnit report has one failure for every error. *)
Definition session (b : list str) (n : Z) (w : world) : Prop :=
  filters_wf (_cpplint_state w) /\ _filters_backup (_cpplint_state w) = b /\ counts_ok w /\ n <= error_count (_cpplint_state w) /\
  (output_format (_cpplint_state w) = "junit" -> len (_junit_failures (_cpplint_state w)) = error_count (_cpplint_state w)).

Lemma session_same b n f :
  (forall w, _cpplint_state (f w) = _cpplint_state w) -> forall w, session b n w -> session b n (f w).
Proof. intros Hf w H. unfold session, counts_ok in *. by rewrite Hf. Qed.

Section Session.
Context (b : list str) (n : Z) (X : exn -> Prop).

Lemma PrintError_session message : runs (session b n) X (PrintError message) (fun _ => True).
Proof.
  unfold PrintError. eapply runs_bind; [apply lint_runs|]. intros s _. split_if; apply runs_modify; [|by apply session_same].
  intros w (H1 & H2 & H3 & H4 & H5). unfold session. by split_and!.
Qed.

Lemma PrintInfo_session message : runs (session b n) X (PrintInfo message) (fun _ => True).
Proof. unfold PrintInfo. runs_walk. apply runs_modify. by apply session_same. Qed.

Lemma Error_session filename linenum category confidence message :
  runs (session b n) X (Error filename linenum category confidence message) (fun _ => True).
Proof.
  intros w Hw. pose proof Hw as (Hf & Hb & Hc & Hn & Hj). unfold Error, bind. rewrite ShouldPrintError_eq by done.
  destruct (printed w category confidence linenum); [|done]. unfold when.
  assert (Hi : let w1 := snd (IncrementErrorCount category w) in
            filters_wf (_cpplint_state w1) /\ _filters_backup (_cpplint_state w1) = b /\ counts_ok w1 /\ n <= error_count (_cpplint_state w1) /\
            (output_format (_cpplint_state w1) = "junit" ->
             len (_junit_failures (_cpplint_state w1)) + 1 = error_count (_cpplint_state w1))).
  { pose proof (IncrementErrorCount_counts category w Hc) as Hc'. cbv zeta. repeat split; try done; try apply Hf; try apply Hc'; cbn; [lia|].
    intros E. by rewrite Hj. }
  destruct (IncrementErrorCount category w) as [r w1] eqn:E. injection E as <- E. cbn [snd] in Hi. clear E Hw Hf Hb Hc Hn Hj w.
  destruct Hi as (Hf & Hb & Hc & Hn & Hj). unfold emit, PrintError, AddJUnitFailure, lint, upd_lint, bind, gets, modify.
  repeat split_if; (split; [|done]); cbn [snd];
    try (unfold str_eqb in *; repeat match goal with H : bool_decide _ = _ |- _ => first [apply bool_decide_eq_true in H | apply bool_decide_eq_false in H] end).
  all: repeat split; try done; try apply Hf; try apply Hc; cbn [with_lint write_stderr _cpplint_state set_junit output_format _junit_failures error_count];
    try congruence.
  all: intros E; try (exfalso; rewrite E in *; match goal with H : lit "junit" = lit _ |- _ => by vm_compute in H end).
  rewrite <- Hj by done. unfold len. rewrite length_app. cbn [length]. lia.
Qed.

#[export] Instance Error_reporter N filename : FileReporter N filename (session b n) X Error.
Proof. split; [split; [intros; apply Error_session | intros key k w; by apply session_same] | intros w; by apply session_same | intros f; by apply session_same]. Qed.
End Session.

(** ** Line endings *)

Lemma elem_of_rev {A} (x : A) l : x ∈ rev l <-> x ∈ l.
Proof. by rewrite !list_elem_of_In, <- in_rev. Qed.

Lemma split_skip_line acc l rest : no_nl l -> split_skip nl 0 acc (l ++ nl ++ rest) = (rev acc ++ l) :: split rest nl.
Proof.
  revert acc. induction l as [|c l IH]; intros acc Hl.
  - rewrite app_nil_r. cbn [app nl split_skip]. by unfold startswith.
  - cbn [app split_skip]. unfold startswith at 1. cbn [nl]. unfold no_nl in Hl. rewrite elem_of_cons in Hl.
    destruct (N.eqb_spec c_nl c) as [?|_]; [tauto|]. cbn [andb]. rewrite IH by (intros H; tauto). cbn [rev]. by rewrite <- app_assoc.
Qed.

Lemma split_skip_end acc l : no_nl l -> split_skip nl 0 acc l = [rev acc ++ l].
Proof.
  revert acc. induction l as [|c l IH]; intros acc Hl; [by rewrite app_nil_r|].
  cbn [split_skip]. unfold startswith at 1. cbn [nl]. unfold no_nl in Hl. rewrite elem_of_cons in Hl.
  destruct (N.eqb_spec c_nl c) as [?|_]; [tauto|]. cbn [andb]. rewrite IH by (intros H; tauto). cbn [rev]. by rewrite <- app_assoc.
Qed.

Lemma split_no_nl acc s : no_nl acc -> Forall no_nl (split_skip nl 0 acc s).
Proof.
  assert (Hr : forall a, no_nl a -> no_nl (rev a)) by (intros a Ha H; apply Ha; by apply elem_of_rev).
  revert acc. induction s as [|c s IH]; intros acc Ha; cbn [split_skip]; [by constructor; [apply Hr|]|].
  unfold startswith at 1. cbn [nl]. destruct (N.eqb_spec c_nl c) as [<-|Hc]; cbn [andb].
  - constructor; [by apply Hr | apply IH; by intros ?%elem_of_nil].
  - apply IH. unfold no_nl in *. rewrite elem_of_cons. intros [?|?]; [congruence | done].
Qed.

(** The pieces that are left of a line are pieces of the line. *)
Lemma rstrip_elem s chars c : c ∈ rstrip_chars s chars -> c ∈ s.
Proof.
  unfold rstrip_chars. rewrite elem_of_rev, <- (elem_of_rev c s).
  induction (rev s) as [|d l IH]; cbn [drop_while]; [done|]. split_if; [|done]. intros; right; by apply IH.
Qed.

Lemma strip_cr_no_nl n ls : Forall no_nl ls -> Forall no_nl (fst (fst (strip_cr n ls))).
Proof.
  revert n. induction ls as [|l ls IH]; intros n H; [constructor|]. apply Forall_cons in H as [Hl Hls]. cbn [strip_cr].
  destruct ls as [|l2 ls]; [by constructor|]. specialize (IH (n + 1) Hls). destruct (strip_cr (n + 1) (l2 :: ls)) as [[out lf] crlf]. cbn [fst] in IH.
  split_if; constructor; try done. intros Hc%rstrip_elem. done.
Qed.

(** The numbers, from [n], of the lines that end the given way. *)
Fixpoint ended (dos : bool) (n : Z) (ls : list (str * bool)) : list Z :=
  match ls with
  | [] => []
  | (_, d) :: ls' => (if Bool.eqb d dos then [n] else []) ++ ended dos (n + 1) ls'
  end.

Definition line_text (p : str * bool) : str := fst p ++ (if snd p then [c_cr] else []) ++ nl.

Definition plain_line (l : str) : Prop := no_nl l /\ c_cr ∉ l.

Lemma strip_cr_plain l : c_cr ∉ l -> endswith l [c_cr] = false /\ endswith (l ++ [c_cr]) [c_cr] = true /\ rstrip_chars (l ++ [c_cr]) [c_cr] = l.
Proof.
  intros Hl. split; [|split].
  - apply not_true_iff_false. intros (u & ->)%endswith_iff. apply Hl, elem_of_app. right. left.
  - apply endswith_iff. by exists l.
  - unfold rstrip_chars. rewrite rev_app_distr. cbn [rev app drop_while]. change (in_chars [c_cr] c_cr) with true. cbv iota.
    destruct (rev l) as [|d r] eqn:E; [apply (f_equal (@rev N)) in E; by rewrite rev_involutive in E|]. cbn [drop_while].
    replace (in_chars [c_cr] d) with false; [by rewrite <- E, rev_involutive|]. symmetry. unfold in_chars. cbn. rewrite orb_false_r.
    apply N.eqb_neq. intros ->. apply Hl. apply elem_of_rev. rewrite E. left.
Qed.

Lemma strip_cr_lines n ls l :
  Forall plain_line (map fst ls) -> no_nl l ->
  strip_cr n (split (flat_map line_text ls ++ l) nl) = (map fst ls ++ [l], ended false n ls, ended true n ls).
Proof.
  intros Hls Hl. revert n. induction ls as [|[s d] ls IH]; intros n.
  - cbn [flat_map app map ended]. unfold split. by rewrite split_skip_end.
  - cbn [flat_map map fst] in *. apply Forall_cons in Hls as [[Hs Hr] Hls]. specialize (IH Hls).
    destruct (strip_cr_plain s Hr) as (E1 & E2 & E3). unfold line_text at 1. cbn [fst snd]. rewrite <- !app_assoc, (app_assoc s).
    unfold split. rewrite split_skip_line.
    2: { destruct d; [|by rewrite app_nil_r]. unfold no_nl in *. rewrite elem_of_app, list_elem_of_singleton. by intros [?|?]. }
    cbn [rev app ended]. specialize (IH (n + 1)). pose proof (split_nonempty (flat_map line_text ls ++ l)) as Hne.
    change (map (fun x : str * bool => x.1)) with (map (@fst str bool)) in *.
    destruct (split (flat_map line_text ls ++ l) nl) as [|x xs]; [done|].
    cbn [strip_cr] in *. rewrite IH. destruct d; cbn [Bool.eqb]; [by rewrite E2, E3 | by rewrite app_nil_r, E1].
Qed.

(** Line endings: a file whose lines end in LF or CR LF in any mixture is checked as the same lines without their ends, whatever the
    mixture, and the two lists that [ProcessFile] compares hold the numbers of the lines with each ending, in order; what follows the last
    newline is taken as it is. *)
Theorem strip_cr_spec ls l (Hls : Forall plain_line (map fst ls)) (Hl : no_nl l) :
  strip_cr 1 (split (flat_map line_text ls ++ l) nl) = (map fst ls ++ [l], ended false 1 ls, ended true 1 ls).
Proof. by apply strip_cr_lines. Qed.

(** ** Configuration files *)

(** The name and the value on a line of a configuration file. *)
Definition cfg_option (line : str) : option (str * str) :=
  let line := fst (partition line "#") in
  if nonempty (strip line) then let '(name, val) := partition line "=" in Some (strip name, strip val) else None.

Definition cfg_is (name : str) (line : str) : bool :=
  match cfg_option line with Some (n, _) => str_eqb n name | None => false end.

Definition cfg_values (name : str) (ls : list str) : list str :=
  flat_map (fun l => match cfg_option l with Some (n, v) => if str_eqb n name then [v] else [] | None => [] end) ls.

(** A pattern of the file matches the component of the path that is beside it. *)
Definition cfg_excludes (base : str) (ls : list str) : bool :=
  existsb (fun v => match re_parse v with Some rx => is_some (rx_match rx base) | None => false end) (cfg_values "exclude_files" ls).

(** The configuration files that are opened for a path, the nearest first, each with the component of the path that is beside it: up to the
    first one that says [set noparent] or whose reading fails. *)
Fixpoint opened (fuel : nat) (path : str) : list (str * str) :=
  match fuel with
  | O => []
  | S f =>
      let '(d, base) := OsPath.split path in
      let cfg_file := OsPath.join2 d "CPPLINT.cfg" in
      if negb (nonempty base) then []
      else if negb (isfile cfg_file) then opened f d
      else (base, cfg_file) ::
        (if is_some (snd (config_text cfg_file)) || existsb (cfg_is "set noparent") (fst (config_text cfg_file)) then [] else opened f d)
  end.

(** What they say. *)
Definition consulted (fuel : nat) (path : str) : list (str * list str) :=
  map (fun '(base, cfg_file) => (base, fst (config_text cfg_file))) (opened fuel path).

Definition cfg_excluded (levels : list (str * list str)) : bool := existsb (fun '(base, ls) => cfg_excludes base ls) levels.
Definition cfg_filters_of (levels : list (str * list str)) : list str := flat_map (fun '(_, ls) => cfg_values "filter" ls) levels.

(** A configuration file ends the program: its reading fails otherwise than with an [IOError], or one of its patterns is none. *)
Definition cfg_raises (cfg_file : str) (e : exn) : Prop :=
  (snd (config_text cfg_file) = Some e /\ e <> IOError) \/
  (e = ReError /\ exists v, v ∈ cfg_values "exclude_files" (fst (config_text cfg_file)) /\ re_parse v = None).

(** A path with a last component has a shorter parent. *)
Lemma split_shorter p d t : OsPath.split p = (d, t) -> t <> [] -> (length d < length p)%nat.
Proof.
  intros E Ht. destruct (split_cases p) as [[_ H]|(u & v & -> & _ & H)]; rewrite H in E; injection E as <- <-.
  - destruct p; [done | cbn; lia].
  - pose proof (rstrip_shorter u). destruct v; [done|]. split_if; unfold lit in *; len_lia.
Qed.

(** What is done with the configuration files, for every property of the state that is kept by messages and by the options outside of
    [_cpplint_state], and every set of exceptions with those of the files. *)
Section ConfigSpec.
Context (I : world -> Prop) (X : exn -> Prop).
Context (Hsame : forall f, (forall w, _cpplint_state (f w) = _cpplint_state w) -> forall w, I w -> I (f w)).
Context (Hprint : forall m, runs I X (PrintError m) (fun _ => True)).

Lemma PrintInfo_same m : runs I X (PrintInfo m) (fun _ => True).
Proof. unfold PrintInfo. runs_walk. apply runs_modify. by apply Hsame. Qed.

Lemma config_line_says filename cfg base keep fs line :
  base <> [] -> (forall v, v ∈ cfg_values "exclude_files" [line] -> re_parse v = None -> X ReError) ->
  runs I X (config_line filename cfg base keep fs line) (fun r =>
    r = if cfg_excludes base [line] then None
        else Some (keep && negb (cfg_is "set noparent" line), fs ++ cfg_values "filter" [line])).
Proof.
  intros Hb Hx. unfold config_line, cfg_excludes, cfg_values, cfg_is, cfg_option in *. cbv zeta. cbn [flat_map] in *. rewrite !app_nil_r in *.
  destruct (nonempty (strip (fst (partition line "#")))); cbn [negb].
  2: { apply runs_ret. cbn. by rewrite andb_true_r, app_nil_r. }
  destruct (partition (fst (partition line "#")) "=") as [n v].
  assert (Hd : forall a b : str, str_eqb a b = false -> str_eqb (strip n) a = true -> str_eqb (strip n) b = false).
  { by intros a b Hab ->%str_eqb_eq. }
  pose proof PrintInfo_same as Hi.
  destruct (str_eqb (strip n) "set noparent") eqn:E1.
  { rewrite (Hd (lit "set noparent") (lit "filter") eq_refl E1), (Hd (lit "set noparent") (lit "exclude_files") eq_refl E1). apply runs_ret. cbn. by rewrite andb_false_r, app_nil_r. }
  destruct (str_eqb (strip n) "filter") eqn:E2.
  { rewrite (Hd (lit "filter") (lit "exclude_files") eq_refl E2). apply runs_ret. cbn. by rewrite andb_true_r. }
  cbn [negb]. rewrite andb_true_r, app_nil_r. destruct (str_eqb (strip n) "exclude_files") eqn:E3.
  { cbn [existsb]. destruct base as [|c base]; [done|]. cbn [nonempty]. rewrite orb_false_r.
    destruct (re_parse (strip v)) as [rx|] eqn:Er; cbn [or_raise]; [|apply runs_raise, (Hx (strip v)); [left | done]].
    apply (runs_bind _ _ _ _ (fun r => r = rx)); [by apply runs_ret|]. intros ? ->. destruct (rx_match rx _); cbn [is_some]; [|by apply runs_ret].
    eapply runs_bind; [apply lint_runs|]. intros s _. split_if; [by apply runs_ret|]. eapply runs_bind; [apply Hi|]. intros _ _. by apply runs_ret. }
  cbn [existsb]. unfold ProcessExtensionsOption, ProcessHppHeadersOption.
  repeat (split_if; [try destruct (py_int _); (eapply runs_bind; [first [apply runs_modify; by apply Hsame | apply Hprint]|]); intros _ _; by apply runs_ret|]).
  eapply runs_bind; [apply Hprint|]. intros _ _. by apply runs_ret.
Qed.

Lemma cfg_values_cons name l ls : cfg_values name (l :: ls) = cfg_values name [l] ++ cfg_values name ls.
Proof. unfold cfg_values. cbn [flat_map]. by rewrite app_nil_r. Qed.

Lemma cfg_excludes_cons base l ls : cfg_excludes base (l :: ls) = cfg_excludes base [l] || cfg_excludes base ls.
Proof. unfold cfg_excludes. by rewrite cfg_values_cons, existsb_app. Qed.

Lemma config_file_says filename cfg base keep fs ls :
  base <> [] -> (forall v, v ∈ cfg_values "exclude_files" ls -> re_parse v = None -> X ReError) ->
  runs I X (config_file filename cfg base keep fs ls) (fun r =>
    r = if cfg_excludes base ls then None
        else Some (keep && negb (existsb (cfg_is "set noparent") ls), fs ++ cfg_values "filter" ls)).
Proof.
  intros Hb. revert keep fs. induction ls as [|l ls IH]; intros keep fs Hx; cbn [config_file existsb].
  - apply runs_ret. cbn. by rewrite andb_true_r, app_nil_r.
  - rewrite cfg_excludes_cons, (cfg_values_cons "filter"). eapply runs_bind; [apply config_line_says; [done|]|].
    { intros v Hv. apply Hx. rewrite cfg_values_cons. apply elem_of_app. by left. }
    intros r ->.
    destruct (cfg_excludes base [l]); [by apply runs_ret|]. rewrite orb_false_l, app_assoc, negb_orb, andb_assoc. apply IH.
    intros v Hv. apply Hx. rewrite cfg_values_cons. apply elem_of_app. by right.
Qed.

Lemma config_climb_stops fuel filename abs fs : config_climb fuel filename abs false fs = ret (Some fs).
Proof. by destruct fuel. Qed.

Lemma config_climb_says fuel filename abs fs :
  (length abs < fuel)%nat -> (forall base cfg e, (base, cfg) ∈ opened fuel abs -> cfg_raises cfg e -> X e) ->
  runs I X (config_climb fuel filename abs true fs) (fun r =>
    r = if cfg_excluded (consulted fuel abs) then None else Some (fs ++ cfg_filters_of (consulted fuel abs))).
Proof.
  revert abs fs. induction fuel as [|fuel IH]; intros abs fs Hf Hx; [lia|]. unfold consulted. cbn [config_climb opened negb] in *.
  destruct (OsPath.split abs) as [d t] eqn:E. cbv zeta in *.
  destruct (nonempty t) eqn:Et; cbn [negb] in *; [|apply runs_ret; cbn; by rewrite app_nil_r].
  assert (Ht : t <> []) by (by destruct t). pose proof (split_shorter abs d t E Ht) as Hd.
  destruct (isfile _); cbn [negb] in *; [|apply IH; [lia | exact Hx]].
  set (cfg := OsPath.join2 d "CPPLINT.cfg") in *. pose proof (fun e => Hx t cfg e (list_elem_of_here _ _)) as Hcfg. unfold cfg_raises in Hcfg.
  destruct (config_text cfg) as [ls failure] eqn:Ec. cbn [fst snd map] in *. rewrite Ec. cbn [fst].
  eapply runs_bind; [apply config_file_says; [done|] |].
  { intros v Hv Er. apply Hcfg. right. split; [done|]. by exists v. }
  intros r ->. unfold cfg_excluded, cfg_filters_of. cbn [existsb flat_map].
  destruct (cfg_excludes t ls); [by apply runs_ret|]. rewrite orb_false_l, (app_assoc fs). cbn [andb].
  assert (Hstop : forall m : P unit, runs I X m (fun _ => True) -> runs I X (m;; config_climb fuel filename d false (fs ++ cfg_values "filter" ls)) (fun r =>
    r = Some ((fs ++ cfg_values "filter" ls) ++ []))).
  { intros m Hm. eapply runs_bind; [exact Hm|]. intros _ _. rewrite config_climb_stops, app_nil_r. by apply runs_ret. }
  destruct failure as [e|]; cbn [is_some orb map existsb flat_map] in *.
  - destruct e; first [apply Hstop, Hprint | apply runs_raise, Hcfg; by left].
  - destruct (existsb (cfg_is _) ls); cbn [negb].
    + rewrite config_climb_stops, app_nil_r. by apply runs_ret.
    + eapply runs_weaken; [apply IH; [lia|]|]; [|done]. intros base c e Hin. eapply Hx. by right.
Qed.
End ConfigSpec.

(** The configuration files that [ProcessConfigOverrides] opens for a file. *)
Definition opened_for (filename : str) : list (str * str) :=
  let path := OsPath.abspath filename in opened (S (length path)) path.

Definition levels_for (filename : str) : list (str * list str) :=
  let path := OsPath.abspath filename in consulted (S (length path)) path.

(** ** One file *)

(** The text of a file that can be read, and the lines that are checked of it. *)
Definition text_read (filename : str) : option str :=
  if str_eqb filename "-" then match read_stdin with Ok text => Some text | Raise _ => None end else open_utf8 filename.
Definition lines_read (text : str) : list str := fst (fst (strip_cr 1 (split text nl))).

(** One of the files has a line at which a check reads past an end. *)
Definition hazardous (files : list str) : Prop :=
  exists filename text, filename ∈ files /\ text_read filename = Some text /\ hazard (lines_read text).

(** A filter without a sign in a configuration file of a file. *)
Definition cfg_filter_raises (filename : str) (e : exn) : Prop :=
  exists bad, bad ∈ flat_map clean_filters (cfg_filters_of (levels_for filename)) /\ filter_ok bad = false /\ e = filter_error bad.

(** The exceptions that can end a run over the given files, with their causes: an index out of range where one of the files is hazardous; for
    a configuration file of one of them, what its reading raised, a pattern that is none, or a filter without a sign; and what reading the
    standard input raised. *)
Definition crash (files : list str) (e : exn) : Prop :=
  (e = IndexError /\ hazardous files) \/
  (exists filename, filename ∈ files /\
     ((exists base cfg_file, (base, cfg_file) ∈ opened_for filename /\ cfg_raises cfg_file e) \/ cfg_filter_raises filename e)) \/
  (lit "-" ∈ files /\ read_stdin = Raise e /\ e <> IOError).

Section FileEnds.
Context (Hsvn : no_svn_root) (Hparen : parens_unique) (Hwords : words_not_spaces) (files : list str).

Lemma AddFilters_ends b n arg :
  (forall bad, bad ∈ clean_filters arg -> filter_ok bad = false -> crash files (filter_error bad)) ->
  ends (session b n) (crash files) (_AddFilters arg) (fun _ => True).
Proof.
  intros Hbad w (Hf & Hb & Hc & Hn & Hj). unfold _AddFilters. pose proof (AddFilters_wf arg w) as Hwf. pose proof (AddFilters_bad arg w) as Hx.
  rewrite AddFilters_eq in *. destruct (List.find _ _).
  - cbn [fst snd] in *. destruct (Hx _ _ Hf eq_refl) as (bad & -> & Hin & Ho). by apply Hbad.
  - split; [|done]. unfold session. split_and!; try done. by eapply Hwf.
Qed.

Lemma ProcessConfigOverrides_ends b n filename :
  filename ∈ files -> ends (session b n) (crash files) (ProcessConfigOverrides filename) (fun _ => True).
Proof.
  intros Hin. unfold ProcessConfigOverrides. eapply ends_bind.
  { apply ends_runs, (config_climb_says (session b n)); [by apply session_same | apply PrintError_session | lia|].
    intros base cfg e Ho He. right. left. exists filename. split; [done|]. left. by exists base, cfg. }
  intros r ->. destruct (cfg_excluded _); [by apply ends_runs, runs_ret|].
  eapply ends_bind; [|intros _ _; by apply ends_runs, runs_ret]. apply ends_for_each. intros arg Harg. apply AddFilters_ends. intros bad Hbad Ho.
  right. left. exists filename. split; [done|]. right. exists bad. split; [|done]. apply list_elem_of_In, in_flat_map. exists arg.
  split; apply list_elem_of_In; [by apply elem_of_rev|done].
Qed.

Lemma read_file_ends b n filename :
  filename ∈ files ->
  ends (session b n) (crash files) (read_file filename) (fun text => forall t, text = Some t -> text_read filename = Some t).
Proof.
  intros Hin. unfold read_file, text_read. destruct (str_eqb filename "-") eqn:Ef; [|by apply ends_runs, runs_ret].
  apply str_eqb_eq in Ef as ->. destruct read_stdin as [t|e] eqn:E; [by apply ends_runs, runs_ret|].
  destruct e; first [by apply ends_runs, runs_ret | apply ends_runs, runs_raise; right; right; by split].
Qed.

Lemma lint_text_runs b n filename text :
  filename ∈ files -> text_read filename = Some text ->
  runs (session b n) (crash files) (lint_text filename text []) (fun _ => True).
Proof.
  intros Hin Htext. pose proof (PrintError_session b n (crash files)). pose proof (Error_session b n (crash files)).
  unfold lint_text. pose proof (strip_cr_no_nl 1 (split text nl)) as Hl. destruct (strip_cr 1 (split text nl)) as [[ls lf] crlf] eqn:E.
  eapply runs_bind; [eauto with runs|]. intros exts _. split_if; [done|]. eapply runs_bind; [|intros; runs_walk].
  apply (ProcessFileData_runs (len ls + 2) _ _ _ _ Hsvn Hparen); [by right | by intros ? ? ? ?%elem_of_nil | done | |].
  - apply Hl, split_no_nl. by intros ?%elem_of_nil.
  - intros Hz. left. split; [done|]. exists filename, text. unfold lines_read. by rewrite E.
Qed.

(** The state between two files: the filters are [fs]. *)
Definition idle (fs : list str) (n : Z) (w : world) : Prop :=
  session (_filters_backup (_cpplint_state w)) n w /\ filters (_cpplint_state w) = fs.

Lemma RestoreFilters_idle fs n :
  spec (session fs n) _RestoreFilters (fun r w => match r with Ok _ => idle fs n w | Raise e => crash files e end).
Proof. intros w ([Hf1 Hf2] & <- & Hc & Hn & Hj). split; [|done]. unfold session. by split_and!. Qed.

Lemma ProcessFile_ends fs n filename v : filename ∈ files -> ends (idle fs n) (crash files) (ProcessFile filename v []) (fun _ => True).
Proof.
  intros Hin w [(Hf & _ & Hc & Hn & Hj) Hfs]. set (w1 := with_lint (fun s => set_backup (filters s) s) (with_lint (set_verbose v) w)).
  assert (H1 : session fs n w1) by (destruct Hf; unfold session; by split_and!).
  unfold ProcessFile. match goal with |- context [bind (_SetVerboseLevel v) (fun _ => bind _ (fun _ => ?k))] => set (rest := k) end.
  match goal with |- context [?m w] => change (m w) with (rest w1) end.
  enough (H : spec (session fs n) rest (fun r w => match r with Ok _ => idle fs n w | Raise e => crash files e end)).
  { specialize (H w1 H1). by destruct (fst (rest w1)). }
  pose proof (RestoreFilters_idle fs n) as Hr. unfold rest.
  eapply ends_then; [apply ends_runs, lint_runs|]. intros s _. cbv zeta.
  eapply ends_then; [by apply ProcessConfigOverrides_ends|]. intros go _. split_if; [done|].
  eapply ends_then; [by apply read_file_ends|]. intros [text|] Ht.
  - eapply ends_then; [by apply ends_runs, lint_text_runs, Ht|]. intros _ _. eapply ends_then; [apply ends_runs, lint_runs|]. intros s' _.
    eapply ends_then; [|by intros _ _]. apply ends_runs, runs_when; [apply PrintInfo_session | done].
  - eapply ends_then; [apply ends_runs, PrintError_session|]. done.
Qed.
End FileEnds.

(** ** The program *)

(** The state in which the program starts. *)
Definition fresh (w : world) : Prop := filters_wf (_cpplint_state w) /\ _junit_failures (_cpplint_state w) = [].

(** An option whose value is not accepted and not reported either: a level that is no number, a filter without a sign. *)
Definition bad_option (opts : list (str * str)) (e : exn) : Prop :=
  (exists opt val : str, (opt, val) ∈ opts /\ (opt = "--verbose" \/ opt = "--v") /\ py_int val = None /\
     e = ValueError ("invalid literal for int() with base 10: " ++ py_repr val)) \/
  (exists val bad, (lit "--filter", val) ∈ opts /\ bad ∈ clean_filters val /\ filter_ok bad = false /\ e = filter_error bad).

(** The ways in which reading the command line ends the program. *)
Definition refused (opts : list (str * str)) (e : exn) : Prop := e = SystemExit 0 \/ e = SystemExit 1 \/ bad_option opts e.

(** The options of a command line, as far as it can be split into options. *)
Definition options_of (argv : list str) : list (str * str) :=
  match getopt (length argv) longopts argv with Some (opts, _) => opts | None => [] end.

Lemma fresh_same f : (forall w, _cpplint_state (f w) = _cpplint_state w) -> forall w, fresh w -> fresh (f w).
Proof. intros Hf w H. unfold fresh. by rewrite Hf. Qed.

Lemma PrintUsage_runs {A} opts message (Q : A -> Prop) : runs fresh (refused opts) (PrintUsage message) Q.
Proof.
  unfold PrintUsage, exit_message. eapply runs_bind; [apply GetAllExtensions_runs|]. intros e _.
  eapply runs_bind; [apply GetHeaderExtensions_runs|]. intros h _.
  eapply runs_bind; [apply runs_modify; by apply fresh_same|]. intros _ _.
  destruct message as [[|c m]|]; [by apply runs_raise; left| |by apply runs_raise; left].
  eapply runs_bind; [apply runs_modify; by apply fresh_same|]. intros _ _. apply runs_raise. by right; left.
Qed.

(** The filters are those of an option, if there are any. *)
Definition filters_given (opts : list (str * str)) (o : options) : Prop := o_filters o = [] \/ (lit "--filter", o_filters o) ∈ opts.

Lemma parse_option_runs opts o opt :
  opt ∈ opts -> filters_given opts o -> runs fresh (refused opts) (parse_option o opt) (filters_given opts).
Proof.
  intros Hin Ho. pose proof (fun A m Q => @PrintUsage_runs A opts m Q) as Hu. destruct opt as [opt val], o as [v f fs q cs r].
  unfold parse_option, PrintVersion, PrintCategories.
  assert (Hm : forall f, (forall w, _cpplint_state (f w) = _cpplint_state w) -> runs fresh (refused opts) (modify f) (fun _ => True)).
  { intros f0 Hf. apply runs_modify. by apply fresh_same. }
  assert (Hv : str_eqb opt "--verbose" || str_eqb opt "--v" = true -> runs fresh (refused opts) (int_or_raise val) (fun _ => True)).
  { intros Hb. unfold int_or_raise. destruct (py_int val) eqn:Hn; [by apply runs_ret|]. apply runs_raise. right. right. left. exists opt, val.
    split_and!; try done. apply orb_true_iff in Hb as [?%str_eqb_eq|?%str_eqb_eq]; auto. }
  assert (Hf : str_eqb opt "--filter" = true -> (lit "--filter", val) ∈ opts) by (by intros <-%str_eqb_eq).
  repeat (split_if; [runs_walk; try (by apply Hm); try (by left); try done; try (by right; apply Hf)|]). by apply runs_ret.
Qed.

Lemma ParseArguments_ends argv : ends fresh (refused (options_of argv)) (ParseArguments argv) (fun _ => True).
Proof.
  unfold ParseArguments, options_of. destruct (getopt _ _ _) as [[opts files]|]; [|apply ends_runs, PrintUsage_runs].
  do 3 (eapply (ends_bind _ _ _ _ (fun _ => True)); [by intros w Hw|]; intros ? _).
  eapply ends_bind; [apply ends_runs, (runs_fold_m _ _ _ (filters_given opts)); [by left | intros; by apply parse_option_runs]|]. intros o Ho.
  eapply ends_bind; [apply ends_runs; split_if; [apply (PrintUsage_runs _ _ (fun _ => True)) | by apply runs_ret]|]. intros fs _.
  eapply (ends_bind _ _ _ _ (fun _ => True)); [apply ends_runs; unfold _ExpandDirectories; runs_walk|]. intros fs2 _.
  eapply ends_bind; [apply ends_runs, (runs_any _ _ _ _ (runs_get _ _))|]. intros w0 _.
  eapply (ends_bind _ _ _ _ (fun _ => True)); [apply ends_runs; unfold _FilterExcludedFiles; runs_walk|]. intros fs3 _.
  eapply (ends_bind _ _ _ _ (fun _ => True)); [apply ends_runs, runs_modify; by intros w Hw|]. intros _ _.
  do 2 (eapply (ends_bind _ _ _ _ (fun _ => True)); [by intros w Hw|]; intros _ _).
  eapply (ends_bind _ _ _ _ (fun _ => True)).
  { intros w [[Hf Hb] Hj]. unfold _SetFilters, SetFilters, bind, upd_lint, modify.
    pose proof (AddFilters_wf (o_filters o) (with_lint (set_filters _DEFAULT_FILTERS) w)) as Hwf.
    pose proof (AddFilters_bad (o_filters o) (with_lint (set_filters _DEFAULT_FILTERS) w)) as Hbad. rewrite AddFilters_eq in *.
    assert (Hd : filters_wf (_cpplint_state (with_lint (set_filters _DEFAULT_FILTERS) w))) by (split; [by repeat constructor | done]).
    destruct (List.find _ _); [|split; [|done]; split; [|done]; by eapply Hwf].
    destruct (Hbad _ _ Hd eq_refl) as (bad & -> & Hin & Hok). right. right. right. destruct Ho as [Ho|Ho]; [rewrite Ho in Hin; by apply elem_of_nil in Hin|].
    by exists (o_filters o), bad. }
  intros _ _. eapply (ends_bind _ _ _ _ (fun _ => True)); [by intros w Hw|]. intros _ _. by apply ends_runs, runs_ret.
Qed.

Section Main.
Context (Hsvn : no_svn_root) (Hparen : parens_unique) (Hwords : words_not_spaces).

Lemma process_all_ends fs n files : ends (idle fs n) (crash files) (process_all files) (fun _ => True).
Proof.
  apply ends_for_each. intros f Hf. eapply ends_bind; [apply ends_runs, lint_runs|]. intros s _. by apply ProcessFile_ends.
Qed.

Lemma ResetErrorCounts_idle w : fresh w -> idle (filters (_cpplint_state w)) 0 (snd (ResetErrorCounts w)).
Proof.
  intros [Hf Hj]. split; [|done]. unfold session, counts_ok. cbn. rewrite Hj. split_and!; try done. by destruct (counts_categories _).
Qed.

(** What follows the files: the totals, the JUnit report and the exit status. *)
Lemma report_ends fs n :
  runs (idle fs n) (fun _ => False) (s <- lint;; when (negb (quiet s) || (0 <? error_count s)) PrintErrorCounts) (fun _ => True).
Proof.
  assert (Hp : forall m, runs (idle fs n) (fun _ => False) (PrintInfo m) (fun _ => True)).
  { intros m. unfold PrintInfo. runs_walk. apply runs_modify. intros w [H ?]. split; [|done]. by apply (session_same _ _ (write_stdout m)). }
  unfold PrintErrorCounts. runs_walk.
Qed.

Lemma main_runs argv w :
  fresh w ->
  exists e w', main argv w = (Raise e, w') /\
    ((exists w1, ParseArguments argv w = (Raise e, w1) /\ refused (options_of argv) e) \/
     (exists files w1, ParseArguments argv w = (Ok files, w1) /\
        (crash files e \/ e = SystemExit (if 0 <? error_count (_cpplint_state w') then 1 else 0) /\
           idle (filters (_cpplint_state w1)) 0 w'))).
Proof.
  intros Hw. pose proof (ParseArguments_ends argv w Hw) as Ha. unfold main, bind at 1.
  destruct (ParseArguments argv w) as [[files|e] w1]; cbn [fst snd] in Ha; [|by exists e, w1; split; [|left; exists w1]].
  destruct Ha as [Ha _]. pose proof (ResetErrorCounts_idle w1 Ha) as Hi. unfold bind at 1.
  destruct (ResetErrorCounts w1) as [r w2] eqn:E. injection E as <- E. cbn [snd] in Hi.
  pose proof (process_all_ends _ _ files w2 Hi) as Hp. unfold bind at 1.
  destruct (process_all files w2) as [[[]|e] w3]; cbn [fst snd] in Hp; [|exists e, w3; split; [done|]; right; eauto].
  destruct Hp as [Hi3 _]. destruct (report_ends _ _ w3 Hi3) as [Hi4 Hr].
  match goal with |- exists e w', ?m w3 = _ /\ _ => replace (m w3) with
    (((s <- lint;; when (negb (quiet s) || (0 <? error_count s)) PrintErrorCounts);;
      s <- lint;; when (str_eqb (output_format s) "junit") (modify (write_stderr (FormatJUnitXML s)));;
      raise (A := unit) (SystemExit (if 0 <? error_count s then 1 else 0))) w3) by apply bind_assoc end.
  unfold bind at 1. destruct ((s <- lint;; when _ PrintErrorCounts) w3) as [[[]|e] w4]; cbn [fst snd] in Hr, Hi4; [|done].
  unfold lint, gets, bind, when. split_if; eexists _, _; (split; [reflexivity|]); right; exists files, w1; (split; [done|]); by right.
Qed.

(** C1. The program ends, and in few ways, each with its cause: whatever the arguments, the files, their configuration files and the directories around them
    (no Subversion directory at a file system root, no exotic parenthesis, no letter that is white space), [main] never falls off its end and never runs
    out of rounds in a loop.  It ends by [sys.exit] with 0 or 1, or by one of these exceptions: a [ValueError] for a [--verbose] or [--v] value that is no
    number or for a filter without a sign, on the command line or in a configuration file opened for one of the files; the error of a pattern after
    [exclude_files] in such a configuration file that does not compile; what reading such a file raised other than an [IOError], as when it cannot be
    decoded; what reading the standard input raised, where it is one of the files; and an [IndexError] of a check, only when one of the files to check has
    a line with an unfinished constructor parameter or a cast at its end.  In particular no assertion fails, no dictionary lookup misses, no match that is
    used is [None], no other index is out of range, and no check raises on the text of a file otherwise. *)
Theorem main_outcomes argv w (Hw : fresh w) :
  exists e w', main argv w = (Raise e, w') /\
    (e = SystemExit 0 \/ e = SystemExit 1 \/ bad_option (options_of argv) e \/
     exists files w1, ParseArguments argv w = (Ok files, w1) /\ crash files e).
Proof.
  destruct (main_runs argv w Hw) as (e & w' & Hm & [(w1 & _ & [He|[He|He]])|(files & w1 & Hp & [He|[-> _]])]); eexists _, w'; (split; [exact Hm|]); auto.
  - right. right. right. eauto.
  - destruct (0 <? _); auto.
Qed.

(** C2. The exit status tells whether errors were found: when the arguments are accepted and no exception ends the run, [main] exits with 1 if
    the error count is positive and with 0 if it is zero; by then the count is the sum of the counts of the categories where these are counted, it
    is the number of failures a JUnit report lists, and the filters are those of the command line again, whatever the files' configurations added. *)
Theorem lint_exit_status argv w files w1 (Hw : fresh w) (Ha : ParseArguments argv w = (Ok files, w1)) :
  exists e w', main argv w = (Raise e, w') /\
    (crash files e \/
     let s := _cpplint_state w' in
     e = SystemExit (if 0 <? error_count s then 1 else 0) /\ 0 <= error_count s /\
     (if counts_categories s then category_sum (errors_by_category s) = error_count s else errors_by_category s = ∅) /\
     (output_format s = "junit" -> len (_junit_failures s) = error_count s) /\
     filters s = filters (_cpplint_state w1)).
Proof.
  destruct (main_runs argv w Hw) as (e & w' & Hm & [(w2 & Hp & _)|(fs & w2 & Hp & H)]); [congruence|].
  rewrite Ha in Hp. injection Hp as <- <-.
  exists e, w'. split; [done|]. destruct H as [H|[-> [(_ & _ & [H1 H2] & _ & Hj) Hf]]]; [by left | right]. by split_and!.
Qed.

(** C14. A file leaves the session as it found it: from a state between two files, [ProcessFile] on any file ends in such a state again with the
    filters there were before, also when a configuration file added some, the file is excluded or cannot be read; the counters still add
    up, and a JUnit report still has one failure for every error.  The only other ending is one of the exceptions above. *)
Theorem ProcessFile_restores fs n filename v : ends (idle fs n) (crash [filename]) (ProcessFile filename v []) (fun _ => True).
Proof. apply ProcessFile_ends; [done.. | left]. Qed.

(** C12. The checks of a file end, for any error function and any further checks that the error function can stand: given lines without
    newlines, [ProcessFileData] comes to an end and keeps every property of the module state that the error function keeps.  What it reports
    is always in order (the name of the file, a known category, a confidence of at most 5, and one of the lines or of the two markers around them; only a report in the
    category build/include may come without a line), so that an error function need only run on such reports; and [IndexError] is raised only for a file with an unfinished constructor parameter or a cast at the end of a line. *)
Theorem ProcessFileData_ends I X error extra filename ext ls
    (R : FileReporter (len ls + 2) filename I X error) (Hx : hazard ls -> X IndexError)
    (Hextra : forall f c line, f ∈ extra -> sized (len ls + 2) c -> 0 <= line < len ls + 2 ->
       runs I X (f filename c line error) (fun _ => True)) (Hls : Forall no_nl ls) :
  runs I X (ProcessFileData filename ext ls error extra) (fun _ => True).
Proof. apply (ProcessFileData_runs (len ls + 2)); auto. Qed.
End Main.

Lemma PrintError_filters f m : runs (fun w => filters (_cpplint_state w) = f) (fun _ => True) (PrintError m) (fun _ => True).
Proof. unfold PrintError, upd_lint. runs_walk; by apply runs_modify. Qed.

Lemma AddFilters_all (vs : list str) w w' :
  for_each vs _AddFilters w = (Ok tt, w') -> filters (_cpplint_state w') = filters (_cpplint_state w) ++ flat_map clean_filters vs.
Proof.
  revert w. induction vs as [|v vs IH]; intros w; cbn [for_each flat_map]; [intros [= <-]; by rewrite app_nil_r|].
  unfold bind, _AddFilters at 1. rewrite AddFilters_eq. destruct (List.find _ _); [done|]. intros H%IH. rewrite H. cbn. by rewrite <- app_assoc.
Qed.

Lemma passes_filters_app category fs gs :
  passes_filters category (fs ++ gs) =
  match List.find (filter_applies category) (rev gs) with Some f => startswith f "+" | None => passes_filters category fs end.
Proof. unfold passes_filters. rewrite rev_app_distr, find_app. by destruct (List.find _ (rev gs)). Qed.

(** C6. Configuration files, where they do not end the program: a file is left out exactly when a configuration file on the way from its directory to
    the root (or to the first one that says [set noparent] or that cannot be opened or read to its end) has a pattern that matches the component of the
    path beside it; otherwise the filters on the way are added to those in place, the farthest first, so that about a category the nearest
    configuration file that says anything decides.  The filters of one configuration file, too, are added from its last line to its first, and of one
    that cannot be read to its end those that were read count. *)
Theorem ProcessConfigOverrides_spec filename w go w'
    (H : ProcessConfigOverrides filename w = (Ok go, w')) :
  go = negb (cfg_excluded (levels_for filename)) /\
  (go = true ->
   filters (_cpplint_state w') = filters (_cpplint_state w) ++ flat_map clean_filters (rev (cfg_filters_of (levels_for filename))) /\
   forall category near far, levels_for filename = near :: far ->
     passes_filters category (filters (_cpplint_state w')) =
     match List.find (filter_applies category) (rev (flat_map clean_filters (rev (cfg_filters_of [near])))) with
     | Some f => startswith f "+"
     | None => passes_filters category (filters (_cpplint_state w) ++ flat_map clean_filters (rev (cfg_filters_of far)))
     end).
Proof.
  unfold ProcessConfigOverrides in H. apply bind_ok in H as (r & w1 & Hc & H).
  pose proof (config_climb_says (fun w0 => filters (_cpplint_state w0) = filters (_cpplint_state w)) (fun _ => True)
    ltac:(by intros f Hf w0 <-; rewrite Hf) (PrintError_filters _) _ filename (OsPath.abspath filename) [] (Nat.lt_succ_diag_r _)
    (fun _ _ _ _ _ => Logic.I) w eq_refl) as Hs.
  rewrite Hc in Hs. cbn [fst snd] in Hs. destruct Hs as [Hf ->]. fold (levels_for filename) in H.
  destruct (cfg_excluded (levels_for filename)); [injection H as <- <-; by split|].
  apply bind_ok in H as ([] & w2 & Hadd%AddFilters_all & [= <- <-]). rewrite Hf in Hadd. split; [done|]. intros _. split; [done|].
  intros category near far El. rewrite Hadd, El, app_nil_l. unfold cfg_filters_of. cbn [flat_map].
  destruct near as [base ls]. rewrite app_nil_r, rev_app_distr, flat_map_app, app_assoc. apply passes_filters_app.
Qed.

(** ** Options *)

(** The options that set something, with their values as they are written. *)
Inductive cl_option :=
| OOutput (val : str) | OVerbose (val : str) | OV (val : str) | OCounting (val : str) | OFilter (val : str) | ORoot (val : str)
| ORepository (val : str) | OLinelength (val : str) | OExtensions (val : str) | OExclude (val : str) | OHeaders (val : str)
| OQuiet | ORecursive.

Definition cl_name (o : cl_option) : str :=
  match o with
  | OOutput _ => "output" | OVerbose _ => "verbose" | OV _ => "v" | OCounting _ => "counting" | OFilter _ => "filter" | ORoot _ => "root"
  | ORepository _ => "repository" | OLinelength _ => "linelength" | OExtensions _ => "extensions" | OExclude _ => "exclude"
  | OHeaders _ => "headers" | OQuiet => "quiet" | ORecursive => "recursive"
  end.

Definition cl_value (o : cl_option) : option str :=
  match o with
  | OOutput v | OVerbose v | OV v | OCounting v | OFilter v | ORoot v | ORepository v | OLinelength v | OExtensions v | OExclude v | OHeaders v => Some v
  | OQuiet | ORecursive => None
  end.

(** An option on the command line: [--name], [--name=value], or [--name] and the value after it. *)
Definition cl_args (p : cl_option * bool) : list str :=
  let '(o, apart) := p in
  match cl_value o with
  | None => ["--" ++ cl_name o]
  | Some v => if apart : bool then ["--" ++ cl_name o; v] else ["--" ++ cl_name o ++ "=" ++ v]
  end.

(** The values that are accepted. *)
Definition accepted (o : cl_option) : Prop :=
  match o with
  | OOutput v => v ∈ lits ["emacs"; "vs7"; "eclipse"; "junit"]
  | OCounting v => v ∈ lits ["total"; "toplevel"; "detailed"]
  | OVerbose v | OV v | OLinelength v => is_some (py_int v) = true
  | OFilter v => v <> []
  | _ => True
  end.

(** The last of the options that say something about a setting, and what there is without them. *)
Definition last_value {A} (f : cl_option -> option A) (d : A) (os : list cl_option) : A := default d (last (omap f os)).

Definition output_of o := match o with OOutput v => Some v | _ => None end.
Definition verbose_of o := match o with OVerbose v | OV v => py_int v | _ => None end.
Definition counting_of o := match o with OCounting v => Some v | _ => None end.
Definition filter_of o := match o with OFilter v => Some v | _ => None end.
Definition root_of o := match o with ORoot v => Some (Some v) | _ => None end.
Definition repository_of o := match o with ORepository v => Some (Some v) | _ => None end.
Definition linelength_of o := match o with OLinelength v => py_int v | _ => None end.
Definition extensions_of o := match o with OExtensions v => Some (ext_set v) | _ => None end.
Definition headers_of o := match o with OHeaders v => Some (ext_set v) | _ => None end.
Definition quiet_of o := match o with OQuiet => Some true | _ => None end.
Definition recursive_of o := match o with ORecursive => Some true | _ => None end.
Definition exclude_of o := match o with OExclude v => Some v | _ => None end.

(** The patterns after [--exclude] add up. *)
Definition excludes_after (e : option (gset str)) (os : list cl_option) : option (gset str) :=
  match omap exclude_of os with [] => e | vs => Some (default ∅ e ∪ list_to_set (flat_map glob vs)) end.

(** The state of the module with the settings outside of [_cpplint_state] that the options make. *)
Definition with_options (os : list cl_option) (w : world) : world :=
  World (_cpplint_state w) (_error_suppressions w) (_global_error_suppressions w) (last_value root_of (_root w) os)
    (last_value repository_of (_repository w) os) (excludes_after (_excludes w) os) (_quiet w) (last_value linelength_of (_line_length w) os)
    (last_value headers_of (_hpp_headers w) os) (last_value extensions_of (_valid_extensions w) os) (stdout w) (stderr w).

(** And the settings of [_cpplint_state]. *)
Definition configured (os : list cl_option) (w : world) : world :=
  with_lint (fun s =>
    LintState (last_value verbose_of (verbose_level s) os) (error_count s) (_DEFAULT_FILTERS ++ clean_filters (last_value filter_of [] os))
      (_filters_backup s) (last_value counting_of [] os) (errors_by_category s) (last_value quiet_of (quiet s) os)
      (last_value output_of (output_format s) os) (_junit_errors s) (_junit_failures s)) (with_options os w).

Lemma last_value_cons {A} (f : cl_option -> option A) d o os : last_value f d (o :: os) = last_value f (default d (f o)) os.
Proof.
  unfold last_value. cbn [omap list_omap]. destruct (f o) as [x|]; [|done]. cbn [default]. change (default d (last (x :: omap f os)) = default x (last (omap f os))). rewrite last_cons. by destruct (last _).
Qed.

Lemma excludes_after_cons e o os :
  excludes_after e (o :: os) =
  excludes_after (match o with OExclude v => Some (default ∅ e ∪ list_to_set (glob v)) | _ => e end) os.
Proof.
  unfold excludes_after. cbn [omap list_omap]. destruct o; cbn [exclude_of]; try done.
  destruct (omap exclude_of os) as [|v l]; cbn [flat_map]; [by rewrite app_nil_r|]. f_equal. cbn [default]. rewrite !list_to_set_app_L. set_solver.
Qed.

(** Decides which option a name is. *)
Ltac pick_option :=
  repeat match goal with
  | |- context [str_eqb ?a ?b] => let r := eval vm_compute in (str_eqb a b) in change (str_eqb a b) with r
  end; cbv beta iota; cbn [orb].

Lemma parse_option_ok o w v f fs q cs r :
  accepted o ->
  parse_option (Options v f fs q cs r) ("--" ++ cl_name o, default [] (cl_value o)) w =
  (Ok (Options (default v (verbose_of o)) (default f (output_of o)) (default fs (filter_of o)) (default q (quiet_of o))
         (default cs (counting_of o)) (default r (recursive_of o))), with_options [o] w).
Proof.
  intros Ho. unfold parse_option. destruct o; cbn [cl_name cl_value default id accepted] in *; pick_option;
    try (by destruct w); try (unfold mem_str; rewrite bool_decide_true by done; by destruct w).
  - destruct (py_int val) eqn:E; [|done]. unfold int_or_raise, bind. cbn [verbose_of]. rewrite E. by destruct w.
  - destruct (py_int val) eqn:E; [|done]. unfold int_or_raise, bind. cbn [verbose_of]. rewrite E. by destruct w.
  - destruct val; [done|]. by destruct w.
  - destruct (py_int val) eqn:E; [|done]. unfold with_options, last_value. cbn. rewrite E. by destruct w.
  - unfold with_options, excludes_after. cbn. rewrite app_nil_r. by destruct w.
Qed.

Lemma with_options_cons o os w : with_options os (with_options [o] w) = with_options (o :: os) w.
Proof. unfold with_options. cbn. rewrite !last_value_cons, (excludes_after_cons _ o os), (excludes_after_cons _ o []). by destruct w. Qed.

Lemma parse_options_ok os w v f fs q cs r :
  Forall accepted os ->
  fold_m parse_option (map (fun o => ("--" ++ cl_name o, default [] (cl_value o))) os) (Options v f fs q cs r) w =
  (Ok (Options (last_value verbose_of v os) (last_value output_of f os) (last_value filter_of fs os) (last_value quiet_of q os)
         (last_value counting_of cs os) (last_value recursive_of r os)), with_options os w).
Proof.
  intros Hos. revert w v f fs q cs r. induction Hos as [|o os Ho Hos IH]; intros w v f fs q cs r; [by destruct w|].
  cbn [map fold_m]. unfold bind. by rewrite parse_option_ok, IH, !last_value_cons, with_options_cons.
Qed.

Lemma partition_eq name v : ch "=" ∉ name -> contains "=" (name ++ "=" ++ v) = true /\ partition (name ++ "=" ++ v) "=" = (name, v).
Proof.
  intros Hn. assert (Hf : find_nat (name ++ "=" ++ v) "=" = Some (length name)).
  { induction name as [|c name IH]; [done|]. rewrite elem_of_cons in Hn. cbn [app find_nat length].
    change (startswith (c :: name ++ "=" ++ v) "=") with ((ch "=" =? c)%N && true). case N.eqb_spec; [tauto|]. intros _. cbn [andb].
    rewrite IH by tauto. done. }
  unfold contains, partition. rewrite Hf. split; [done|]. rewrite take_app_length. f_equal.
  change (length (lit "=")) with 1%nat. rewrite <- drop_drop, drop_app_length. done.
Qed.

Lemma cl_name_ok o :
  long_has_args (cl_name o) longopts = Some (is_some (cl_value o), cl_name o) /\ ch "=" ∉ cl_name o /\ cl_name o <> [] /\
  contains "=" (cl_name o) = false.
Proof. destruct o; (split_and!; [vm_compute; reflexivity | vm_compute; set_solver | done | vm_compute; reflexivity]). Qed.

Lemma getopt_round n name (args : list str) :
  name <> [] ->
  getopt (S n) longopts (("--" ++ name) :: args) =
  match do_longs name longopts args with
  | Some (o, v, rest) => match getopt n longopts rest with Some (opts, files) => Some ((o, v) :: opts, files) | None => None end
  | None => None
  end.
Proof. intros Hn. cbn [getopt]. replace (slice_from ("--" ++ name) 2) with name by (symmetry; apply (slice_at (lit "--") name)). by destruct name. Qed.

Lemma getopt_option n p args :
  getopt (S n) longopts (cl_args p ++ args) =
  match getopt n longopts args with
  | Some (opts, files) => Some (("--" ++ cl_name (fst p), default [] (cl_value (fst p))) :: opts, files)
  | None => None
  end.
Proof.
  destruct p as [o apart], (cl_name_ok o) as (Hl & He & Hn & Hc). unfold cl_args. cbn [fst].
  destruct (cl_value o) as [v|] eqn:Ev; [destruct apart|]; cbn [app default is_some] in *.
  - rewrite getopt_round by done. unfold do_longs. by rewrite Hc, Hl.
  - rewrite getopt_round by (by destruct (cl_name o)). unfold do_longs. destruct (partition_eq (cl_name o) v He) as [-> ->]. by rewrite Hl.
  - rewrite getopt_round by done. unfold do_longs. by rewrite Hc, Hl.
Qed.

(** A name that does not look like an option. *)
Definition plain_name (f : str) : Prop := startswith f "-" = false \/ f = "-".

Lemma getopt_options n ps files :
  (length ps <= n)%nat -> (forall f, head files = Some f -> plain_name f) ->
  getopt n longopts (concat (map cl_args ps) ++ files) =
  Some (map (fun o => ("--" ++ cl_name o, default [] (cl_value o))) (map fst ps), files).
Proof.
  intros Hn Hf. revert n Hn. induction ps as [|p ps IH]; intros n Hn; cbn [map concat app].
  - destruct files as [|f files]; [by destruct n|]. by destruct (Hf f eq_refl) as [E| ->]; destruct n; cbn [getopt]; rewrite ?E.
  - cbn [length] in Hn. destruct n as [|n]; [lia|]. by rewrite <- app_assoc, getopt_option, IH by lia.
Qed.

Lemma bind_value {A B} (m : P A) (k : A -> P B) w a w' : m w = (Ok a, w') -> bind m k w = k a w'.
Proof. intros E. unfold bind. by rewrite E. Qed.

Lemma expand_same (r : bool) files g w :
  exists l, (if r then _ExpandDirectories files else ret files) w = (Ok l, w) /\
    (if r then _ExpandDirectories files else ret files) (with_lint g w) = (Ok l, with_lint g w).
Proof. destruct r; eexists; split; reflexivity. Qed.

Lemma exclude_same files g w :
  exists l, (if negb (bool_decide (default ∅ (_excludes w) = ∅)) then _FilterExcludedFiles files else ret files) w = (Ok l, w) /\
    _FilterExcludedFiles files (with_lint g w) = (Ok l, with_lint g w).
Proof.
  case_bool_decide as E; cbn [negb]; [|eexists; split; reflexivity]. exists files. split; [done|].
  unfold _FilterExcludedFiles, bind, get, gets. cbn [with_lint _excludes]. rewrite E. unfold ret. repeat f_equal.
  induction files as [|f files IH]; [done|]. cbn [List.filter]. by rewrite IH.
Qed.

(** The settings at the end of [ParseArguments]. *)
Lemma final_settings (o : options) (fs : list str) w :
  Forall (fun f => filter_ok f = true) (clean_filters (o_filters o)) ->
  (_SetOutputFormat (o_output_format o);; _SetQuiet (o_quiet o);; _SetVerboseLevel (o_verbosity o);; _SetFilters (o_filters o);;
   _SetCountingStyle (o_counting_style o);; ret fs) w =
  (Ok fs, with_lint (fun s => LintState (o_verbosity o) (error_count s) (_DEFAULT_FILTERS ++ clean_filters (o_filters o)) (_filters_backup s)
     (o_counting_style o) (errors_by_category s) (o_quiet o) (o_output_format o) (_junit_errors s) (_junit_failures s)) w).
Proof.
  intros Hs.
  assert (Hadd : forall w, _SetFilters (o_filters o) w = (Ok tt, with_lint (set_filters (_DEFAULT_FILTERS ++ clean_filters (o_filters o))) w)).
  { intros w0. unfold _SetFilters, SetFilters, upd_lint, bind, modify. rewrite AddFilters_eq. cbn [with_lint _cpplint_state filters set_filters].
    rewrite (proj2 (find_bad_none _)); [done|]. apply Forall_app. split; [by repeat constructor | done]. }
  do 3 (erewrite bind_value by reflexivity). by erewrite bind_value by apply Hadd.
Qed.

(** C34. The command line: for options in any order and number, each in full as [--name], [--name=value] or [--name value], with values that are accepted, and then at
    least one file name, [ParseArguments] makes exactly the settings that the options ask for and leaves the rest of the state alone: of several options for one
    setting the last one counts, the patterns of all the [--exclude] options are expanded and added up, a setting without an option keeps its value, except that the
    filters start from the default ones and the counting style from none.  It returns the file names, with directories expanded if [--recursive] is among the
    options, less the excluded ones. *)
Theorem ParseArguments_settings ps files w
    (Ho : Forall accepted (map fst ps)) (Hs : Forall (fun f => filter_ok f = true) (clean_filters (last_value filter_of [] (map fst ps))))
    (Hf : exists f, head files = Some f /\ plain_name f) :
  let w' := configured (map fst ps) w in
  exists expanded kept,
    (if last_value recursive_of false (map fst ps) then _ExpandDirectories files else ret files) w' = (Ok expanded, w') /\
    _FilterExcludedFiles expanded w' = (Ok kept, w') /\
    ParseArguments (concat (map cl_args ps) ++ files) w = (Ok kept, w').
Proof.
  cbv zeta. destruct Hf as (f & Hh & Hf). set (args := concat _ ++ _).
  assert (Hg : getopt (length args) longopts args = Some (map (fun o => ("--" ++ cl_name o, default [] (cl_value o))) (map fst ps), files)).
  { apply getopt_options; [|intros f' E; rewrite Hh in E; by injection E as <-]. unfold args. rewrite length_app.
    assert (length ps <= length (concat (map cl_args ps)))%nat; [|lia]. clear. induction ps as [|[o b] ps IH]; [done|].
    cbn [map concat length]. rewrite length_app. unfold cl_args at 1. destruct (cl_value o); [destruct b|]; cbn [length]; lia. }
  unfold ParseArguments. rewrite Hg. set (os := map fst ps) in *. do 3 (erewrite bind_value by reflexivity).
  erewrite bind_value by (by apply parse_options_ok). cbn [o_recursive o_output_format o_quiet o_verbosity o_filters o_counting_style].
  destruct files as [|f0 files]; [done|]. cbn [nonempty negb]. erewrite bind_value by reflexivity.
  set (o := Options (last_value verbose_of (verbose_level (_cpplint_state w)) os) (last_value output_of (output_format (_cpplint_state w)) os)
    (last_value filter_of [] os) (last_value quiet_of (quiet (_cpplint_state w)) os) (last_value counting_of [] os) (last_value recursive_of false os)).
  pose proof (final_settings o) as Hset. cbn [o o_output_format o_quiet o_verbosity o_filters o_counting_style] in Hset.
  unfold configured. match goal with |- context [with_lint ?g (with_options os w)] => set (set_lint := g) end.
  destruct (expand_same (last_value recursive_of false os) (f0 :: files) set_lint (with_options os w)) as (l & El & El').
  destruct (exclude_same l set_lint (with_options os w)) as (kept & Ek & Ek').
  exists l, kept. split_and!; [done | done|]. erewrite bind_value by exact El. erewrite bind_value by reflexivity. erewrite bind_value by exact Ek.
  by rewrite Hset.
Qed.

(** C35. Directories: with [--recursive] the files checked are, each of them once, the arguments that are no directories and the files below those that
    are, as far as they have one of the known extensions; excluded files are then left out, and nothing else is. *)
Theorem ExpandDirectories_spec filenames w :
  exists l, _ExpandDirectories filenames w = (Ok l, w) /\ NoDup l /\
    (forall f, f ∈ l <->
       (exists arg, arg ∈ filenames /\
          if isdir arg then exists root files file, (root, files) ∈ walk arg /\ file ∈ files /\
                              f = (let full := OsPath.join2 root file in if startswith full "./" then slice_from full 2 else full)
          else f = arg) /\
       exists exts, GetAllExtensions w = (Ok exts, w) /\ slice_from (snd (OsPath.splitext f)) 1 ∈ exts) /\
    exists kept, _FilterExcludedFiles l w = (Ok kept, w) /\
      forall f, f ∈ kept <-> f ∈ l /\ forall e, e ∈ default ∅ (_excludes w) -> OsPath.abspath f <> OsPath.abspath e.
Proof.
  unfold _ExpandDirectories, bind at 1. destruct (GetAllExtensions w) as [[exts|e] w1] eqn:E; [|done].
  assert (w1 = w) as -> by (by injection E).
  eexists. split; [reflexivity|]. split; [apply NoDup_ListNoDup, List.NoDup_filter, NoDup_ListNoDup, NoDup_elements|].
  split.
  - intros f. rewrite list_elem_of_In, filter_In, <- list_elem_of_In, elem_of_elements, elem_of_list_to_set, bool_decide_eq_true.
    rewrite list_elem_of_In, in_flat_map. split.
    + intros [(arg & Ha & Hf) He]. split; [|by exists exts]. exists arg. split; [by apply list_elem_of_In|].
      destruct (isdir arg); cbn [negb] in Hf; [|by destruct Hf].
      apply in_flat_map in Hf as ([root fs] & Hr & Hf). apply in_map_iff in Hf as (file & <- & Hf). exists root, fs, file.
      split_and!; [by apply list_elem_of_In..|done].
    + intros [(arg & Ha & Hf) (x & [= <-] & He)]. split; [|done]. exists arg. split; [by apply list_elem_of_In|].
      destruct (isdir arg); cbn [negb]; [|by left].
      destruct Hf as (root & fs & file & Hr & Hf & ->). apply in_flat_map. exists (root, fs). split; [by apply list_elem_of_In|].
      apply in_map_iff. exists file. split; [done | by apply list_elem_of_In].
  - eexists. split; [reflexivity|]. intros f. rewrite list_elem_of_In, filter_In, <- list_elem_of_In, negb_true_iff. apply and_iff_compat_l.
    unfold mem_str. rewrite bool_decide_eq_false, list_elem_of_fmap. split.
    + intros H e He Hx. apply H. exists e. split; [done | by apply elem_of_elements].
    + intros H (e & Hx & He%elem_of_elements). by apply (H e).
Qed.

End Driver.

(** ** Sample runs *)

(** A machine with the given sources and configuration files. *)
Definition sample_reader (sources : list (str * str)) : FileReader :=
  {| open_utf8 := fun name => snd <$> List.find (fun p => str_eqb (fst p) name) sources |}.
Definition sample_env (configs : list (str * list str)) : DriverEnv :=
  {| isfile := fun name => existsb (fun p => str_eqb (fst p) name) configs;
     isdir := fun _ => false; walk := fun _ => []; glob := fun _ => [];
     config_text := fun name => match List.find (fun p => str_eqb (fst p) name) configs with Some (_, ls) => (ls, None) | None => ([], Some IOError) end;
     read_stdin := Ok []; sys_version := "3.8" |}.
Definition sample_main (sources : list (str * str)) (configs : list (str * list str)) (argv : list str) : result unit * world :=
  main (U := ascii_db) (FS := git_fs) (FR := sample_reader sources) (DE := sample_env configs) argv world_init.

Definition text_of (ls : list str) : str := concat (map (fun l => l ++ nl) ls).

(** The end of a constructor's parameter that has a shift in its default value is looked for past the last comma. *)
Example shift_in_default_argument :
  fst (sample_main [(lit "a.h", text_of (lits ["class A {"; " public:"; "  explicit A(int x = 1 << 2);"; "};"]))] [] (lits ["a.h"]))
  = Raise IndexError.
Proof. vm_compute. reflexivity. Qed.

(** The character after a cast at the end of a line is looked at, and there is none. *)
Example cast_at_end_of_line :
  fst (sample_main [(lit "a.cc", text_of (lits ["int* p = &static_cast<int*>"; "    (q);"]))] [] (lits ["a.cc"])) = Raise IndexError.
Proof. vm_compute. reflexivity. Qed.

Definition long_line : str := "int a = " ++ replicate 80 (ch "1") ++ ";".

Example line_length_of_other_file :
  let sources := [(lit "d/a.cc", text_of [lit "int b;"]); (lit "b.cc", text_of [long_line])] in
  let configs := [(lit "/home/u/d/CPPLINT.cfg", [lit "linelength=200"])] in
  fst (sample_main sources configs (lits ["--filter=-,+whitespace/line_length"; "b.cc"])) = Raise (SystemExit 1) /\
  fst (sample_main sources configs (lits ["--filter=-,+whitespace/line_length"; "d/a.cc"; "b.cc"])) = Raise (SystemExit 0).
Proof. vm_compute. split; reflexivity. Qed.

Lemma ascii_parens : parens_unique (U := ascii_db).
Proof. intros c Hc E. cbn in E. subst c. by vm_compute in Hc. Qed.

Lemma ascii_words : words_not_spaces (U := ascii_db).
Proof.
  intros c. unfold is_word, is_space, is_lower_ascii, is_upper_ascii, is_digit_ascii. cbn [udb_word ascii_db].
  destruct (N.ltb_spec c 128); [|done].
  rewrite ?orb_true_iff, ?andb_true_iff, ?orb_false_iff, ?andb_false_iff, ?N.leb_le, ?N.leb_gt, ?N.eqb_eq, ?N.eqb_neq. lia.
Qed.

Lemma fresh_init : fresh world_init.
Proof. split; [|done]. split; repeat constructor. Qed.

Lemma init_idle : idle _DEFAULT_FILTERS 0 world_init.
Proof. split; [|done]. unfold session. split_and!; try done. apply fresh_init. Qed.

Definition sample_sources : list (str * str) := [(lit "d/a.cc", text_of (lits ["int b = 3 ;"; "int* p = NULL;"]))].
Definition sample_configs : list (str * list str) :=
  [(lit "/home/u/d/CPPLINT.cfg", lits ["filter=-whitespace  # spaces are free here"; "filter=+whitespace/tab"]);
   (lit "/home/u/CPPLINT.cfg", lits ["set noparent"; "filter=-legal,+whitespace"])].

Lemma main_outcomes_witness :
  fresh world_init /\
  exists e w', sample_main sample_sources sample_configs (lits ["d/a.cc"]) = (Raise e, w') /\ e <> OutOfFuel.
Proof.
  split; [exact fresh_init|].
  destruct (main_outcomes (U := ascii_db) (FS := git_fs) (FR := sample_reader sample_sources) (DE := sample_env sample_configs)
              git_fs_no_svn ascii_parens ascii_words (lits ["d/a.cc"]) world_init fresh_init) as (e & w' & H & He).
  exists e, w'. split; [exact H|]. vm_compute in H. injection H as <- <-. discriminate.
Defined.

(** Reading on this machine does not exit. *)
Lemma sample_no_crash sources configs files code :
  ~ crash (U := ascii_db) (FS := git_fs) (FR := sample_reader sources) (DE := sample_env configs) files (SystemExit code).
Proof.
  intros [[H _]|[(f & _ & [(base & cfg & _ & [[H _]|[H _]])|(bad & _ & _ & H)])|(_ & H & _)]]; try discriminate.
  cbn [sample_env config_text] in H. destruct (List.find _ configs) as [[? ?]|]; discriminate.
Qed.

Lemma lint_exit_status_witness :
  exists e w', sample_main sample_sources sample_configs (lits ["--counting=detailed"; "--output=junit"; "d/a.cc"]) = (Raise e, w') /\
    e = SystemExit 1 /\ len (_junit_failures (_cpplint_state w')) = error_count (_cpplint_state w').
Proof.
  destruct (lint_exit_status (U := ascii_db) (FS := git_fs) (FR := sample_reader sample_sources) (DE := sample_env sample_configs)
              git_fs_no_svn ascii_parens ascii_words (lits ["--counting=detailed"; "--output=junit"; "d/a.cc"]) world_init (lits ["d/a.cc"])
              _ fresh_init ltac:(vm_compute; reflexivity)) as (e & w' & H & He).
  exists e, w'. split; [exact H|]. vm_compute in H. injection H as <- <-. destruct He as [He|He]; [by apply sample_no_crash in He|].
  split; [exact (proj1 He)|]. destruct He as (_ & _ & _ & Hj & _). apply Hj. vm_compute. reflexivity.
Defined.

Lemma ProcessFile_restores_witness :
  idle _DEFAULT_FILTERS 0 world_init /\
  exists w', ProcessFile (U := ascii_db) (FS := git_fs) (FR := sample_reader sample_sources) (DE := sample_env sample_configs)
               "d/a.cc" 1 [] world_init = (Ok tt, w') /\ filters (_cpplint_state w') = _DEFAULT_FILTERS.
Proof.
  assert (Hi : idle _DEFAULT_FILTERS 0 world_init) by exact init_idle.
  split; [exact Hi|].
  pose proof (ProcessFile_restores (U := ascii_db) (FS := git_fs) (FR := sample_reader sample_sources) (DE := sample_env sample_configs)
                git_fs_no_svn ascii_parens ascii_words _DEFAULT_FILTERS 0 "d/a.cc" 1 world_init Hi) as H.
  destruct (ProcessFile _ _ _ _) as [[[]|e] w'] eqn:E; cbn [fst snd] in H.
  - exists w'. split; [reflexivity | apply H].
  - exfalso. vm_compute in E. discriminate E.
Defined.

(** An error function that only accepts reports that are in order. *)
Definition strict_error (N : Z) (file : str) : error_fn := fun filename linenum category confidence _ =>
  if bool_decide (filename = file /\ message_ok N linenum category confidence) then ret tt else raise AssertionError.

Definition sample_class : list str := lits ["class A {"; " public:"; "  int b = 3 ;"; "};"].

Lemma sample_class_calm : ~ hazard (U := ascii_db) sample_class.
Proof.
  intros (c & w & line & Hc & Hr). vm_compute in Hc. injection Hc as <-. revert Hr. apply calm_line. intros l Hl%index_elem.
  cbn [elided] in Hl. revert l Hl. apply Forall_forall. repeat constructor; vm_compute; set_solver.
Qed.

Lemma ProcessFileData_ends_witness :
  runs (fun _ => True) (fun _ => False)
    (ProcessFileData (U := ascii_db) (FS := git_fs) (FR := sample_reader []) "a.h" "h" sample_class (strict_error 6 "a.h") []) (fun _ => True).
Proof.
  apply (ProcessFileData_ends (U := ascii_db) (FS := git_fs) (FR := sample_reader []) git_fs_no_svn ascii_parens ascii_words).
  - split; [split; [|done] | done..]. intros l k n m H w _. unfold strict_error. rewrite bool_decide_true by (split; [reflexivity | exact H]). split; exact Logic.I.
  - exact sample_class_calm.
  - intros f c line H. inversion H.
  - repeat constructor; intros H; vm_compute in H; set_solver.
Defined.

Lemma strip_cr_spec_witness :
  strip_cr 1 (split (lit "int a;" ++ [c_cr] ++ nl ++ lit "int b;" ++ nl ++ lit "int c;") nl) = (lits ["int a;"; "int b;"; "int c;"], [2], [1]).
Proof.
  apply (strip_cr_spec [(lit "int a;", true); (lit "int b;", false)] (lit "int c;")).
  - repeat constructor; intros H; vm_compute in H; set_solver.
  - intros H; vm_compute in H; set_solver.
Defined.

Lemma ProcessConfigOverrides_spec_witness :
  exists w', ProcessConfigOverrides (U := ascii_db) (FS := git_fs) (DE := sample_env sample_configs) "d/a.cc" world_init = (Ok true, w') /\
    filters (_cpplint_state w') = _DEFAULT_FILTERS ++ lits ["-legal"; "+whitespace"; "+whitespace/tab"; "-whitespace"].
Proof.
  destruct (ProcessConfigOverrides (U := ascii_db) (FS := git_fs) (DE := sample_env sample_configs) "d/a.cc" world_init) as [[go|e] w'] eqn:E.
  - destruct (ProcessConfigOverrides_spec (U := ascii_db) (FS := git_fs) (DE := sample_env sample_configs) "d/a.cc" world_init go w' E) as [-> Hf].
    exists w'. split; [vm_compute; reflexivity|]. destruct (Hf ltac:(vm_compute; reflexivity)) as [-> _]. vm_compute. reflexivity.
  - exfalso. vm_compute in E. discriminate E.
Defined.

(** The last of two filters, a level apart from its option, and two files. *)
Lemma ParseArguments_settings_witness :
  exists kept, ParseArguments (U := ascii_db) (FS := git_fs) (DE := sample_env [])
      (lits ["--filter=-build"; "--verbose"; "3"; "--quiet"; "--linelength=120"; "--filter=-legal,+x=y"; "a.cc"; "b.cc"]) world_init =
    (Ok kept, configured (U := ascii_db) (DE := sample_env []) [OFilter "-build"; OVerbose "3"; OQuiet; OLinelength "120"; OFilter "-legal,+x=y"] world_init) /\
    kept = lits ["a.cc"; "b.cc"].
Proof.
  destruct (ParseArguments_settings (U := ascii_db) (FS := git_fs) (DE := sample_env [])
    [(OFilter "-build", false); (OVerbose "3", true); (OQuiet, false); (OLinelength "120", false); (OFilter "-legal,+x=y", false)]
    (lits ["a.cc"; "b.cc"]) world_init) as (l & kept & El & Ek & E).
  - repeat constructor; done.
  - repeat constructor.
  - exists (lit "a.cc"). split; [reflexivity | left; reflexivity].
  - exists kept. split; [exact E|]. vm_compute in El. injection El as <-. vm_compute in Ek. injection Ek as <-. reflexivity.
Defined.

(** A configuration file that cannot be decoded ends the program, where one that cannot be opened is skipped. *)
Example undecodable_configuration :
  let env failure := {| isfile := fun name => str_eqb name "/home/u/CPPLINT.cfg"; isdir := fun _ => false; walk := fun _ => []; glob := fun _ => [];
                        config_text := fun _ => ([], Some failure); read_stdin := Ok []; sys_version := "3.8" |} in
  let run failure := fst (main (U := ascii_db) (FS := git_fs) (FR := sample_reader sample_sources) (DE := env failure)
                            (lits ["--filter=-"; "d/a.cc"]) world_init) in
  run UnicodeDecodeError = Raise UnicodeDecodeError /\ run IOError = Raise (SystemExit 0).
Proof. vm_compute. split; reflexivity. Qed.
