(* ===== verification/Reports.v ===== *)
(** * What the checks of a file write

    The output of [ProcessFileData] in cpplint.py with the error function [Error], as a whole: a list of reports, each of them in order, let
    through by the filters and the verbosity, counted once and written once in the output format of the run. *)

From S2P Require Import Prelude PyStr PyRe PyEff Tables Regexps Lint Cleanse Expr Includes Paths FileChecks Nesting Spacing Braces Style IncludeChecks Language Constructs Driver.

Local Open Scope Z_scope.

Section Reports.
Context {U : UnicodeDB} {FS : FileSystem} {FR : FileReader} {DE : DriverEnv}.

(** ** The meaning of a list of reports *)

(** The line of a report in the formats that write lines. *)
Definition report_line (format : str) (r : failure) : str :=
  let 'Failure file line message category confidence := r in
  let marks := "  [" ++ category ++ "] [" ++ str_of_Z confidence ++ "]" ++ nl in
  if str_eqb format "vs7" then
    file ++ "(" ++ show_line line ++ "): error cpplint: [" ++ category ++ "] " ++ message ++ " [" ++ str_of_Z confidence ++ "]" ++ nl
  else if str_eqb format "eclipse" then file ++ ":" ++ show_line line ++ ": warning: " ++ message ++ marks
  else file ++ ":" ++ show_line line ++ ":  " ++ message ++ marks.

(** What a report adds to the counts by category. *)
Definition tally (style : str) (m : gmap str Z) (r : failure) : gmap str Z :=
  if str_eqb style "detailed" then bump m (fl_category r)
  else if str_eqb style "toplevel" then bump m (default [] (head (split (fl_category r) "/")))
  else m.

(** A report about [file], of [N] lines with the markers, that the settings [s] let through; only one in build/include may be without a line. *)
Definition due (N : Z) (file : str) (s : _CppLintState) (r : failure) : Prop :=
  fl_file r = file /\ message_ok N (fl_line r) (fl_category r) (fl_confidence r) /\
  verbose_level s <= fl_confidence r /\ passes_filters (fl_category r) (filters s) = true.

(** The settings that reports do not change. *)
Definition settings (s : _CppLintState) := (verbose_level s, filters s, _filters_backup s, counting s, output_format s, quiet s).

(** [w] is [w0] with the reports [rs]. *)
Definition with_reports (w0 : world) (rs : list failure) (w : world) : Prop :=
  let s0 := _cpplint_state w0 in let s := _cpplint_state w in
  settings s = settings s0 /\ error_count s = error_count s0 + len rs /\
  errors_by_category s = fold_left (tally (counting s0)) rs (errors_by_category s0) /\
  _junit_errors s = _junit_errors s0 /\ stdout w = stdout w0 /\
  (if str_eqb (output_format s0) "junit"
   then stderr w = stderr w0 /\ _junit_failures s = _junit_failures s0 ++ rs
   else stderr w = stderr w0 ++ map (report_line (output_format s0)) rs /\ _junit_failures s = _junit_failures s0).

(** ** One report *)

Lemma IncrementErrorCount_tally w r :
  let s := _cpplint_state w in
  IncrementErrorCount (fl_category r) w = (Ok tt, with_lint (set_counts (error_count s + 1) (tally (counting s) (errors_by_category s) r)) w).
Proof.
  unfold IncrementErrorCount, upd_lint, modify, tally, with_lint. cbv zeta. do 3 f_equal.
  destruct (str_eqb (counting _) "detailed"), (str_eqb (counting _) "toplevel"); done.
Qed.

Lemma emit_adds w r :
  let 'Failure filename linenum message category confidence := r in
  let s := _cpplint_state w in
  emit filename linenum category confidence message w =
  (Ok tt, if str_eqb (output_format s) "junit" then with_lint (set_junit (_junit_errors s) (_junit_failures s ++ [r])) w
          else write_stderr (report_line (output_format s) r) w).
Proof.
  destruct r as [filename linenum message category confidence]. cbv zeta. unfold emit, PrintError, AddJUnitFailure, lint, upd_lint, bind, gets, modify.
  destruct (str_eqb (output_format (_cpplint_state w)) "junit") eqn:Ej; unfold report_line.
  - apply str_eqb_eq in Ej. rewrite Ej. reflexivity.
  - by repeat split_if.
Qed.

Lemma Error_adds w0 rs w filename linenum category confidence message :
  filters_wf (_cpplint_state w0) -> with_reports w0 rs w ->
  exists w', Error filename linenum category confidence message w = (Ok tt, w') /\
    (forall k l, suppressed_in w' k l = suppressed_in w k l) /\
    if printed w category confidence linenum
    then with_reports w0 (rs ++ [Failure filename linenum message category confidence]) w' else w' = w.
Proof.
  intros Hf (Hs & Hn & Hc & He & Ho & Hout). unfold settings in Hs. injection Hs as Hv Hfl Hb Hcs Hfmt Hq.
  assert (Hf' : filters_wf (_cpplint_state w)) by (unfold filters_wf; by rewrite Hfl, Hb).
  unfold Error, bind. rewrite ShouldPrintError_eq by done. destruct (printed w category confidence linenum); [|by exists w].
  set (r := Failure filename linenum message category confidence). unfold when.
  rewrite (IncrementErrorCount_tally w r : IncrementErrorCount category w = _).
  match goal with |- context [with_lint ?f w] => set (w1 := with_lint f w) end. rewrite (emit_adds w1 r : emit filename linenum category confidence message w1 = _).
  eexists. split; [reflexivity|]. split; [intros k l; destruct (str_eqb (output_format (_cpplint_state w1)) _); reflexivity|]. unfold with_reports, settings, w1.
  cbn [with_lint _cpplint_state set_counts set_junit write_stderr output_format].
  rewrite fold_left_app, map_app, <- Hc, <- Hfmt, <- Hcs.
  assert (Hlen : len (rs ++ [r]) = len rs + 1) by (unfold len; rewrite length_app; simpl; lia). rewrite Hlen.
  rewrite <- Hfmt in Hout. destruct (str_eqb (output_format (_cpplint_state w)) "junit"); cbn; destruct Hout as [H1 H2];
    repeat split; try congruence; try lia; rewrite ?H1, ?H2, <- ?app_assoc; try done.
Qed.

(** ** The reports of a file *)

(** The state with some reports of a kind. *)
Definition reported (kind : failure -> Prop) (w0 w : world) : Prop := exists rs, Forall kind rs /\ with_reports w0 rs w.

Lemma with_reports_refl w : with_reports w [] w.
Proof. unfold with_reports. cbn [map fold_left]. rewrite !app_nil_r, Z.add_0_r. by destruct (str_eqb _ _). Qed.

Lemma reported_refl kind w : reported kind w w.
Proof. exists []. split; [constructor | apply with_reports_refl]. Qed.

(** Reporting keeps to a kind of reports, if those that are due and not suppressed where they are made are of that kind. *)
Lemma Error_reported N file kind w0 w l k n m :
  filters_wf (_cpplint_state w0) -> message_ok N l k n ->
  (suppressed_in w k l = false -> due N file (_cpplint_state w0) (Failure file l m k n) -> kind (Failure file l m k n)) ->
  reported kind w0 w ->
  exists w', Error file l k n m w = (Ok tt, w') /\ (forall k l, suppressed_in w' k l = suppressed_in w k l) /\ reported kind w0 w'.
Proof.
  intros Hf Hm Hk (rs & Hrs & Hw). pose proof Hw as [Hs _]. destruct (Error_adds w0 rs w file l k n m Hf Hw) as (w' & HE & Hsup & H).
  exists w'. split; [done|]. split; [done|]. destruct (printed w k n l) eqn:Ep; [|subst; by exists rs].
  eexists. split; [|exact H]. apply Forall_app. split; [done|]. constructor; [|constructor].
  unfold printed in Ep. rewrite !andb_true_iff, negb_true_iff, Z.leb_le in Ep. destruct Ep as [[Hsu Hv] Hp].
  unfold settings in Hs. injection Hs as Ev Efl _ _ _ _. rewrite Ev in Hv. rewrite Efl in Hp. apply Hk; [done|]. by repeat split; try apply Hm.
Qed.

Lemma reported_reporter N file w0 X :
  filters_wf (_cpplint_state w0) -> FileReporter N file (reported (due N file (_cpplint_state w0)) w0) X Error.
Proof.
  intros Hf. split; [split; [|intros key n w (rs & H); by exists rs] | intros w (rs & H); by exists rs | intros f w (rs & H); by exists rs].
  intros l k n m Hm w Hw. destruct (Error_reported N file _ w0 w l k n m Hf Hm (fun _ H => H) Hw) as (w' & -> & _ & H). by split.
Qed.

(** C3. What the checks of a file write: whatever the lines, the settings and the state, [ProcessFileData] ends normally, or, where a line is
    hazardous, possibly with an [IndexError]; and what it did to the counters and the output is to add a list of reports.  Each report names the file and a known
    category with a confidence of at most 5, has the verbosity the run asks for and passes the filters; and it names one of the lines or one of the two
    markers around them, from 0 to the number of lines plus one, except that a report in the category build/include, and no other, may come without a line.
    Every one of them adds one to the error count and, as the counting style says, to its category; each is written once, in order,
    as a line of the output format or as a failure for the JUnit report; nothing else is written and no setting changes. *)
Theorem ProcessFileData_reports filename ext ls w
    (Hsvn : no_svn_root) (Hparen : parens_unique) (Hwords : words_not_spaces)
    (Hf : filters_wf (_cpplint_state w)) (Hls : Forall no_nl ls) :
  exists r w' rs, ProcessFileData filename ext ls Error [] w = (r, w') /\
    (r = Ok tt \/ r = Raise IndexError /\ hazard ls) /\
    Forall (due (len ls + 2) filename (_cpplint_state w)) rs /\ with_reports w rs w'.
Proof.
  set (X := fun e => e = IndexError /\ hazard ls). pose proof (reported_reporter (len ls + 2) filename w X Hf) as R.
  pose proof (ProcessFileData_runs (len ls + 2) filename _ X Error Hsvn Hparen (or_intror Hwords) [] ltac:(by intros ? ? ? ?%elem_of_nil)
    ext ls eq_refl Hls) as H.
  destruct (H ltac:(by split) w (reported_refl _ _)) as [(rs & Hrs & Hw) Hr].
  destruct (ProcessFileData filename ext ls Error [] w) as [r w']. cbn [fst snd] in *. exists r, w', rs. split; [done|]. split; [|done].
  destruct r as [[]|e]; [by left | right]. by destruct Hr as [-> ?].
Qed.

(** ** Suppressed lines *)

(** Not a report of the category on the line. *)
Definition silent_on (category : str) (line : Z) (r : failure) : Prop := fl_category r = category -> fl_line r <> Some line.

Definition silenced (N : Z) (file category : str) (line : Z) (w0 w : world) : Prop :=
  reported (fun r => due N file (_cpplint_state w0) r /\ silent_on category line r) w0 w /\ suppressed_in w category (Some line) = true.

Lemma silenced_reporter N file category line w0 X :
  filters_wf (_cpplint_state w0) -> Reporter N file (silenced N file category line w0) X Error.
Proof.
  intros Hf. split.
  - intros l k n m Hm w [Hw Hs].
    edestruct (Error_reported N file) as (w' & -> & Hsup & H); [exact Hf | exact Hm | | exact Hw |].
    + intros Hk Hd. split; [done|]. intros E1 E2. cbn in E1, E2. congruence.
    + split; [|done]. split; [done|]. by rewrite Hsup.
  - intros key n w [(rs & Hw) Hs]. split; [by exists rs|]. by rewrite suppressed_add, Hs.
Qed.

(** C13. A NOLINT comment silences its line: where the checks of a file come to a line with a NOLINT comment, of any form that covers a category, then
    from there to the end of the file they report nothing of that category on the line the comment speaks of (the next one for NOLINTNEXTLINE), whatever
    the line holds and whichever check would have reported it, also one that runs on a later line; what they do report is in order, passes the
    filters, and is counted and written once. *)
Theorem nolint_silences N filename ext c line s w raw next arg category
    (Hsvn : no_svn_root) (Hparen : parens_unique) (Hwords : words_not_spaces) (Hf : filters_wf (_cpplint_state w))
    (Hc : sized N c) (H0 : index (elided c) 0 = Some []) (Hline : 0 <= line < N) (Hs : scan_in N s)
    (Hraw : index (raw_lines c) line = Some raw) (Hnolint : nolint_directive raw = Some (next, arg))
    (Hcovers : nolint_covers arg category = true) :
  let target := if next then line + 1 else line in
  exists r w' rs, check_lines filename ext c Error [] line (NumLines c) s w = (r, w') /\
    match r with Ok _ => True | Raise e => e = IndexError /\ exists l, line <= l /\ reads_past c l end /\
    Forall (due N filename (_cpplint_state w)) rs /\ Forall (silent_on category target) rs /\ with_reports w rs w'.
Proof.
  intros target. set (X := fun e => e = IndexError /\ exists l, line <= l /\ reads_past c l).
  pose proof (silenced_reporter N filename category target w X Hf) as R.
  unfold check_lines. rewrite zrange_cons by (rewrite (sized_num _ _ Hc); lia). cbn [fold_m].
  pose proof (ParseNolintSuppressions_eq filename raw line Error w) as Hp. rewrite Hnolint, (covers_known _ _ Hcovers) in Hp. destruct Hp as (f & Hp & Hsup).
  set (w1 := with_suppressions f w) in *.
  assert (H1 : silenced N filename category target w w1).
  { split; [|rewrite Hsup, Hcovers, bool_decide_eq_true_2, orb_true_r by done; done]. exists []. split; [constructor | exact (with_reports_refl w)]. }
  assert (Hgo : forall k : scan_state -> P scan_state,
    (s <- (s <- ProcessLine filename ext c line s Error [];; FlagCxx11Features filename c line Error;; ret s);; k s) w =
    (s <- (s <- line_checks filename ext c line s Error [];; FlagCxx11Features filename c line Error;; ret s);; k s) w1).
  { intros k. unfold ProcessLine, get_line. rewrite Hraw. unfold bind at 1 2 3 4 5. cbn [or_raise]. unfold ret at 1. by rewrite Hp. }
  rewrite Hgo. assert (Hno : forall (f : str -> CleansedLines -> Z -> error_fn -> P unit) c line, f ∈ [] -> sized N c -> 0 <= line < N ->
    runs (silenced N filename category target w) X (f filename c line Error) (fun _ => True)) by (by intros ? ? ? ?%elem_of_nil).
  assert (Hr : runs (silenced N filename category target w) X
    (s <- (s <- line_checks filename ext c line s Error [];; FlagCxx11Features filename c line Error;; ret s);;
     check_lines filename ext c Error [] (line + 1) (NumLines c) s) (scan_in N)).
  { eapply runs_bind.
    - eapply runs_bind; [apply (line_checks_runs N); try done; [by right | intros H; split; [done | exists line; by split]]|].
      intros s1 Hs1. by apply (flag_runs N).
    - intros s1 Hs1. apply (check_lines_runs N); try done; [by right | lia|]. intros l Hl H. split; [done | exists l; split; [lia | done]]. }
  specialize (Hr w1 H1). destruct (bind _ _ w1) as [r w']. cbn [fst snd] in Hr. destruct Hr as [[(rs & Hrs & Hrep) _] Hr].
  rewrite Forall_and in Hrs. exists r, w', rs. split; [done|]. split; [by destruct r | by destruct Hrs].
Qed.

End Reports.

(** ** Witnesses *)

Definition bad_lines : list str := lits ["int a = 3 ;"; ""].

(** Three reports: there is no copyright line, a space stands before a semicolon, and, in build/include and without a line, the header of the file is not included. *)
Lemma ProcessFileData_reports_witness :
  exists w' rs, ProcessFileData (U := ascii_db) (FS := git_fs) (FR := sample_reader []) "a.cc" "cc" bad_lines Error [] world_init = (Ok tt, w') /\
    Forall (due 4 "a.cc" _CppLintState_init) rs /\ len rs = 3.
Proof.
  destruct (ProcessFileData_reports (U := ascii_db) (FS := git_fs) (FR := sample_reader []) "a.cc" "cc" bad_lines world_init
    git_fs_no_svn ascii_parens ascii_words (proj1 fresh_init)) as (r & w' & rs & H & _ & Hd & _ & Hn & _).
  - repeat constructor; intros H; vm_compute in H; set_solver.
  - assert (Hc : fst (r, w') = Ok tt /\ error_count (_cpplint_state (snd (r, w'))) = 3) by (rewrite <- H; vm_compute; split; reflexivity).
    cbn [fst snd] in Hc. destruct Hc as [-> Hc]. exists w', rs. split; [exact H|]. split; [exact Hd|]. rewrite Hc in Hn. change (error_count _) with 0 in Hn. lia.
Defined.

Definition nolint_raw : list str := lits ["// first"; "int a = 3 ;  // NOLINT(whitespace/semicolon)"; "int b = 4 ;"; "// last"].
Definition nolint_elided : list str := lits [""; "int a = 3 ;"; "int b = 4 ;"; ""].
Definition nolint_sample : CleansedLines := Cleansed nolint_elided nolint_elided nolint_raw nolint_raw 4.

(** Of two lines with the same mistake the one with the comment is passed over. *)
Lemma nolint_silences_witness :
  exists r w' rs, check_lines (U := ascii_db) (FS := git_fs) "a.cc" "cc" nolint_sample Error [] 1 4 scan_start world_init = (r, w') /\
    Forall (silent_on "whitespace/semicolon" 1) rs /\ len rs = 1.
Proof.
  destruct (nolint_silences (U := ascii_db) (FS := git_fs) 4 "a.cc" "cc" nolint_sample 1 scan_start world_init
    "int a = 3 ;  // NOLINT(whitespace/semicolon)" false (Some (lit "(whitespace/semicolon)")) "whitespace/semicolon"
    git_fs_no_svn ascii_parens ascii_words (proj1 fresh_init)) as (r & w' & rs & H & _ & _ & Hq & _ & Hn & _).
  - repeat split; reflexivity.
  - reflexivity.
  - lia.
  - apply scan_start_in.
  - reflexivity.
  - vm_compute. reflexivity.
  - vm_compute. reflexivity.
  - assert (Hc : error_count (_cpplint_state (snd (r, w'))) = 1) by (rewrite <- H; vm_compute; reflexivity).
    cbn [snd] in Hc. exists r, w', rs. split; [exact H|]. split; [exact Hq|]. rewrite Hc in Hn. change (error_count _) with 0 in Hn. lia.
Defined.
