(* ===== verification/ClangFormat.v ===== *)
(** * run_clang_format.py

    [check] and the main program of the script that runs clang-format over the source directories.  The processes the script
    starts, the directory tree and the contents of files are parameters ([FormatEnv]); [difflib.unified_diff] is one as well, with
    its documented behaviour (it produces nothing exactly for equal sequences) as the hypothesis [diff_law] of the theorems.
    Glob patterns ([fnmatch]) are modelled. *)

From S2P Require Import Prelude PyStr PyRe PyEff Regexps Paths.

Local Open Scope Z_scope.

Class FormatEnv := {
  walk : str -> list (str * list str * list str);      (* os.walk: directory, subdirectories, file names *)
  read_utf8 : str -> option str;                       (* the decoded contents; None where reading or decoding raises *)
  clang_format : str -> str -> option str;             (* binary, file: the decoded output; None where the call or decoding raises *)
  clang_format_i : str -> list str -> bool;            (* binary -i files: whether the call succeeds *)
  unified_diff : list str -> list str -> str -> str -> list str
}.

(** What the script has written, and the files it has handed to clang-format -i. *)
Record fworld := FWorld { f_stdout : list str; f_stderr : list str; f_rewritten : list (list str) }.

Record arguments := Arguments {
  clang_format_binary : str;
  exclude_globs_file : str;
  source_dirs : str;
  a_fix : bool;
  a_quiet : bool
}.

Abbreviation F := (M fworld).
Definition print (s : str) : F unit :=
  modify (fun w => FWorld (f_stdout w ++ [s ++ nl]) (f_stderr w) (f_rewritten w)).
Definition writelines (ls : list str) : F unit :=
  modify (fun w => FWorld (f_stdout w) (f_stderr w ++ ls) (f_rewritten w)).

Section ClangFormat.
Context {U : UnicodeDB}.

(** ** Glob patterns *)

(** The members of a bracket expression up to its end; the first member may be a closing bracket. *)
Fixpoint glob_set (first : bool) (acc : list N) (p : str) : option (list N * str) :=
  match p with
  | [] => None
  | c :: p' => if (c =? ch "]")%N && negb first then Some (rev acc, p') else glob_set false (c :: acc) p'
  end.

(** Members and ranges. *)
Fixpoint glob_items (s : list N) : list item :=
  match s with
  | [] => []
  | a :: s' =>
      match s' with
      | d :: b :: s'' => if (d =? ch "-")%N then IRange a b :: glob_items s'' else IChar a :: glob_items s'
      | _ => IChar a :: glob_items s'
      end
  end.

Definition glob_bracket (s : list N) : re :=
  match s with
  | c :: s' => if (c =? ch "!")%N then RSet true (glob_items s') else RSet false (glob_items s)
  | [] => RSet false []
  end.

Fixpoint glob_re (fuel : nat) (p : str) : re :=
  match fuel with
  | O => REmpty
  | S f =>
      match p with
      | [] => REmpty
      | c :: p' =>
          if (c =? ch "*")%N then RSeq (RRep true 0 None RAny) (glob_re f p')
          else if (c =? ch "?")%N then RSeq RAny (glob_re f p')
          else if (c =? ch "[")%N then
            let '(neg, q) := match p' with d :: q => if (d =? ch "!")%N then ([d], q) else ([], p') | [] => ([], p') end in
            match glob_set true (rev neg) q with
            | Some (members, rest) => RSeq (glob_bracket members) (glob_re f rest)
            | None => RSeq (RChar c) (glob_re f p')
            end
          else RSeq (RChar c) (glob_re f p')
      end
  end.

(** [fnmatch.fnmatch(name, pat)]: the whole name has to match, newlines included. *)
Definition fnmatch (name pat : str) : bool :=
  is_some (mtch {| f_icase := false; f_multiline := false; f_dotall := true |} (glob_re (length pat) pat)
             (fun st => match after st with [] => Some st | _ :: _ => None end) (state_at name 0)).

Section Script.
Context {E : FormatEnv}.

(** ** check *)

Definition is_source_file (x : str) : bool := endswith x ".h" || endswith x ".cpp".

Definition formatted_filenames (exclude_globs : list str) (source_dir : str) : list str :=
  concat (map (fun '(directory, _, filenames) =>
    let fullpaths := map (OsPath.join2 directory) filenames in
    let source_files := List.filter is_source_file fullpaths in
    List.filter (fun filename => negb (existsb (fnmatch filename) exclude_globs)) source_files)
    (walk source_dir)).

(** The comparison of one file. *)
Definition check_file (args : arguments) (error : bool) (filename : str) : F bool :=
  when (negb (a_quiet args)) (print ("Checking " ++ filename));;
  original <- or_raise IOError (read_utf8 filename);;
  formatted <- or_raise IOError (clang_format (clang_format_binary args) filename);;
  let diff := unified_diff (splitlines original) (splitlines formatted) filename (filename ++ " (after clang format)") in
  if nonempty diff then
    print (filename ++ " had clang-format style issues");;
    writelines diff;;
    ret true
  else ret error.

Definition check (args : arguments) (exclude_globs : list str) (source_dir : str) : F bool :=
  let names := formatted_filenames exclude_globs source_dir in
  if a_fix args then
    when (negb (a_quiet args)) (print (join nl (map (fun x => "Formatting " ++ x) names)));;
    (if clang_format_i (clang_format_binary args) names
     then modify (fun w => FWorld (f_stdout w) (f_stderr w) (f_rewritten w ++ [names]))
     else raise IOError);;
    ret false
  else fold_m (check_file args) names false.

(** ** The main program: the exit code *)

Definition main_step (args : arguments) (exclude_globs : list str) (had_err : bool) (source_dir : str) : F bool :=
  if 0 <? len source_dir then check args exclude_globs source_dir else ret had_err.

Definition main (args : arguments) (glob_lines : list str) : F Z :=
  let exclude_globs := map strip glob_lines in
  had_err <- fold_m (main_step args exclude_globs) (split (source_dirs args) ",") false;;
  ret (if had_err then 1 else 0).

End Script.
(** ** What the script decides *)

Lemma splitlines_concat_acc acc s : concat (splitlines_acc acc s) = rev acc ++ s.
Proof.
  remember (length s) as n eqn:Hn. revert acc s Hn. induction n as [n IH] using lt_wf_ind. intros acc s ->.
  destruct s as [|c s]; cbn [splitlines_acc].
  - destruct acc; cbn [nonempty concat]; by rewrite ?app_nil_r.
  - destruct (line_boundary c).
    + destruct s as [|d s]; [cbn [concat rev]; by rewrite app_nil_r|]. destruct (_ && _).
      * cbn [concat]. rewrite (IH (length s)) by (simpl; lia). cbn [rev]. rewrite <- !app_assoc. done.
      * cbn [concat]. rewrite (IH (length (d :: s))) by (simpl; lia). cbn [rev]. rewrite <- !app_assoc. done.
    + rewrite (IH (length s)) by (simpl; lia). cbn [rev]. by rewrite <- app_assoc.
Qed.

Lemma splitlines_inj s t : splitlines s = splitlines t -> s = t.
Proof.
  intros H. apply (f_equal (@concat N)) in H. unfold splitlines in H. by rewrite !splitlines_concat_acc in H.
Qed.

Section Script.
Context {E : FormatEnv}.

(** [difflib.unified_diff] produces nothing exactly when the two sequences are equal. *)
Definition diff_law : Prop := forall a b from to, unified_diff a b from to = [] <-> a = b.

(** A file that can be read and formatted. *)
Definition formattable (args : arguments) (name : str) : Prop :=
  exists original formatted, read_utf8 name = Some original /\ clang_format (clang_format_binary args) name = Some formatted.

(** A file whose contents are not what clang-format makes of them. *)
Definition badly_formatted (args : arguments) (name : str) : Prop :=
  exists original formatted, read_utf8 name = Some original /\ clang_format (clang_format_binary args) name = Some formatted /\
    original <> formatted.

Lemma check_file_eq args error name w :
  diff_law -> formattable args name ->
  exists w' b, check_file args error name w = (Ok b, w') /\ (b = true <-> error = true \/ badly_formatted args name).
Proof.
  intros Hd (o & f & Ho & Hf). unfold check_file.
  assert (Hw : exists w1, (when (negb (a_quiet args)) (print ("Checking " ++ name))) w = (Ok tt, w1)) by (destruct (negb _); by eexists).
  destruct Hw as [w1 Hw]. unfold bind at 1. rewrite Hw, Ho. unfold bind at 1. cbn [or_raise]. unfold ret at 1.
  rewrite Hf. unfold bind at 1. cbn [or_raise]. unfold ret at 1. cbv zeta.
  destruct (unified_diff _ _ _ _) as [|x l] eqn:Ed; cbn [nonempty].
  - apply Hd, splitlines_inj in Ed as ->. eexists _, _. split; [done|]. split; [by left|].
    intros [?|(o' & f' & H1 & H2 & Hne)]; [done|]. congruence.
  - eexists _, _. split; [done|]. split; [|done]. intros _. right. exists o, f. repeat split; [done..|].
    intros ->. rewrite (proj2 (Hd _ _ _ _)) in Ed by done. done.
Qed.

Lemma check_fold_eq args names error w :
  diff_law -> Forall (formattable args) names ->
  exists w' b, fold_m (check_file args) names error w = (Ok b, w') /\
    (b = true <-> error = true \/ Exists (badly_formatted args) names).
Proof.
  intros Hd Hf. revert error w. induction Hf as [|name names Hn Hf IH]; intros error w; cbn [fold_m].
  - exists w, error. split; [done|]. rewrite Exists_nil. tauto.
  - destruct (check_file_eq args error name w Hd Hn) as (w1 & b1 & H1 & Hb1). unfold bind at 1. rewrite H1.
    destruct (IH b1 w1) as (w2 & b2 & H2 & Hb2). exists w2, b2. split; [done|]. rewrite Hb2, Hb1, Exists_cons. tauto.
Qed.

(** C33. Without the fix option, [check] of a directory whose selected files can be read and formatted ends normally, and returns true
    exactly when one of them differs from what clang-format makes of it; the selected files are the .h and .cpp files of the
    tree that no exclusion pattern matches. *)
Theorem check_spec args globs dir w
    (Hfix : a_fix args = false) (Hd : diff_law) (Hf : Forall (formattable args) (formatted_filenames globs dir)) :
  (exists w' b, check args globs dir w = (Ok b, w') /\
     (b = true <-> exists name, name ∈ formatted_filenames globs dir /\ badly_formatted args name)) /\
  (forall name, name ∈ formatted_filenames globs dir <->
     exists d subdirs files f, (d, subdirs, files) ∈ walk dir /\ f ∈ files /\ name = OsPath.join2 d f /\
       is_source_file name = true /\ Forall (fun g => fnmatch name g = false) globs).
Proof.
  split.
  - unfold check. rewrite Hfix. cbv zeta. destruct (check_fold_eq args _ false w Hd Hf) as (w' & b & H & Hb).
    exists w', b. split; [done|]. rewrite Hb, Exists_exists. split; [intros [?|?]; [done|] | intros ?; right]; done.
  - intros name. unfold formatted_filenames. rewrite list_elem_of_In, in_concat. split.
    + intros (l & Hl & Hn). apply in_map_iff in Hl as ([[d s] fs] & <- & Hin). cbv zeta in Hn.
      apply filter_In in Hn as [Hn Hg]. apply filter_In in Hn as [Hn Hs]. apply in_map_iff in Hn as (f & <- & Hfs).
      exists d, s, fs, f. rewrite !list_elem_of_In. repeat split; [done..|].
      apply Forall_forall. intros g Hg'%list_elem_of_In. apply negb_true_iff in Hg.
      destruct (fnmatch _ g) eqn:Eg; [|done]. assert (existsb (fnmatch (OsPath.join2 d f)) globs = true); [|congruence].
      apply existsb_exists. eauto.
    + intros (d & s & fs & f & Hin & Hfs & -> & Hs & Hg). apply list_elem_of_In in Hin. apply list_elem_of_In in Hfs.
      eexists. split; [apply in_map_iff; eexists; split; [reflexivity | exact Hin]|]. cbv zeta.
      apply filter_In. split; [apply filter_In; split; [by apply in_map | done]|]. apply negb_true_iff.
      destruct (existsb _ globs) eqn:Ex; [|done]. apply existsb_exists in Ex as (g & Hg' & Hm).
      rewrite Forall_forall in Hg. apply list_elem_of_In, Hg in Hg'. congruence.
Qed.

(** The exit code of the main program for two source directories is decided by the second one alone: what [check] found in the
    first is overwritten. *)
Theorem main_last_directory_wins args glob_lines d1 d2 b1 b2 w w1 w2
    (Hs : split (source_dirs args) "," = [d1; d2]) (H1 : d1 <> []) (H2 : d2 <> [])
    (Hc1 : check args (map strip glob_lines) d1 w = (Ok b1, w1))
    (Hc2 : check args (map strip glob_lines) d2 w1 = (Ok b2, w2)) :
  main args glob_lines w = (Ok (if b2 then 1 else 0), w2).
Proof.
  unfold main. cbv zeta. rewrite Hs. cbn [fold_m]. unfold main_step, len.
  destruct d1 as [|x1 d1]; [done|]. destruct d2 as [|x2 d2]; [done|]. cbn [length].
  rewrite !(proj2 (Z.ltb_lt _ _)) by lia. unfold bind. rewrite Hc1, Hc2. done.
Qed.

End Script.

End ClangFormat.

(** ** Witnesses *)

(** Two directories with one header each, of which the one in [bad] is badly formatted. *)
Definition two_dirs : FormatEnv := {|
  walk := fun d => [(d, [], lits ["a.h"])];
  read_utf8 := fun f => Some f;
  clang_format := fun _ f => Some (if str_eqb f "bad/a.h" then lit "x" else f);
  clang_format_i := fun _ _ => true;
  unified_diff := fun a b _ _ => if decide (a = b) then [] else [lit "@@"]
|}.

Definition two_dirs_args : arguments := Arguments "clang-format" "excl" "bad,good" false true.

Lemma two_dirs_law : diff_law (E := two_dirs).
Proof. intros a b f t. simpl. by destruct (decide (a = b)). Qed.

Lemma check_spec_witness :
  exists w' b, check (U := ascii_db) (E := two_dirs) two_dirs_args [] "bad" (FWorld [] [] []) = (Ok b, w').
Proof.
  destruct (check_spec (U := ascii_db) (E := two_dirs) two_dirs_args [] "bad" (FWorld [] [] []) eq_refl two_dirs_law) as [(w' & b & H & _) _].
  - constructor; [|constructor]. eexists _, _. split; reflexivity.
  - exists w', b. exact H.
Defined.

(** The first directory has a badly formatted file, and the script exits with 0. *)
Lemma main_last_directory_wins_witness :
  exists w1 w2, check (U := ascii_db) (E := two_dirs) two_dirs_args [] "bad" (FWorld [] [] []) = (Ok true, w1) /\
    main (U := ascii_db) (E := two_dirs) two_dirs_args [] (FWorld [] [] []) = (Ok 0, w2).
Proof.
  eexists _, _. split; [vm_compute; reflexivity|].
  apply (main_last_directory_wins (U := ascii_db) (E := two_dirs) two_dirs_args [] "bad" "good" true false (FWorld [] [] []) _ _
    ltac:(vm_compute; reflexivity) ltac:(discriminate) ltac:(discriminate) ltac:(vm_compute; reflexivity) ltac:(vm_compute; reflexivity)).
Defined.
