(* ===== verification/ClangTidy.v ===== *)
(** * run_clang_tidy.py and run_clang_tidy_extra.py: what runs in one thread

    The sequential parts of [main] ([setup] before the threads start, [finish] after the queue is joined) are
    functions here; the threads are in [TidyThreads].  The file system and the processes the script starts are
    parameters ([TidyEnv]).  The module [yaml] that [merge_replacement_files] uses is not imported by the script
    (the import is commented out), so every use of the name raises [NameError]. *)

From S2P Require Import Prelude PyStr PyRe PyEff Regexps Paths.

Local Open Scope Z_scope.

(** A process that was started: its exit status, what it wrote to its two streams, [None] where that is not UTF-8. *)
Record proc := Proc { returncode : Z; p_output : option str; p_err : option str }.

(** [output.decode('utf-8')] and [err.decode('utf-8')] *)
Definition decodes (p : proc) : bool := is_some (p_output p) && is_some (p_err p).

Class TidyEnv := {
  isfile : str -> bool;                        (* os.path.isfile *)
  realpath : str -> str;                       (* os.path.realpath *)
  mkstemp : str -> nat -> str;                 (* tempfile.mkstemp(suffix='.yaml', dir): the name, given the files made before *)
  mkdtemp : str;                               (* tempfile.mkdtemp() *)
  cpu_count : Z;                               (* multiprocessing.cpu_count() *)
  load_json : str -> result (list (str * str));(* json.load(open(name)): the file and directory of each entry *)
  check_call : list str -> bool;               (* subprocess.check_call: whether it returns *)
  call : list str -> bool;                     (* subprocess.call: whether the process can be started *)
  open_w : str -> bool;                        (* open(name, 'w'): whether it returns; otherwise it raises an OSError *)
  rmtree_ok : str -> bool;                     (* shutil.rmtree, while nobody writes: whether it returns; otherwise it raises an OSError *)
  tidy : str -> option proc;                   (* clang-tidy on a file; None where it cannot be started *)
  pformat : list str -> str;                   (* pprint.pformat *)
  format_exc : exn -> str;                     (* what traceback.print_exc() writes *)
  excepthook : exn -> str                      (* what threading.excepthook writes for a thread that dies *)
}.

(** What the script has written, the files it emptied and the directories it removed. *)
Record tworld := TWorld { t_stdout : list str; t_stderr : list str; t_emptied : list str; t_removed : list str }.
Abbreviation T := (M tworld).
Definition print_line (s : str) : T unit :=
  modify (fun w => TWorld (t_stdout w ++ [s ++ nl]) (t_stderr w) (t_emptied w) (t_removed w)).
Definition print_err (s : str) : T unit :=
  modify (fun w => TWorld (t_stdout w) (t_stderr w ++ [s]) (t_emptied w) (t_removed w)).

(** In Python 3 an [OSError] is an [IOError]. *)
Definition empty_file {E : TidyEnv} (f : str) : T unit :=
  if open_w f then modify (fun w => TWorld (t_stdout w) (t_stderr w) (t_emptied w ++ [f]) (t_removed w)) else raise IOError.
Definition rmtree {E : TidyEnv} (d : str) : T unit :=
  if rmtree_ok d then modify (fun w => TWorld (t_stdout w) (t_stderr w) (t_emptied w) (t_removed w ++ [d])) else raise IOError.

(** The options [main] reads from the command line. *)
Record tidy_args := TidyArgs {
  clang_tidy_binary : str;
  clang_apply_replacements_binary : str;
  t_checks : option str;
  t_config : option str;
  header_filter : option str;
  export_fixes : option str;
  t_j : Z;
  t_files : list str;
  t_fix : bool;
  t_format : bool;
  t_style : str;
  build_path : option str;
  extra_arg : list str;
  extra_arg_before : list str;
  t_quiet : bool
}.

(** The defaults of the parser. *)
Definition default_args : tidy_args := {|
  clang_tidy_binary := "clang-tidy";
  clang_apply_replacements_binary := "clang-apply-replacements";
  t_checks := None;
  t_config := None;
  header_filter := None;
  export_fixes := None;
  t_j := 0;
  t_files := lits [".*"];
  t_fix := false;
  t_format := false;
  t_style := "file";
  build_path := None;
  extra_arg := [];
  extra_arg_before := [];
  t_quiet := false
|}.

(** [if s:] for a string that may be [None] *)
Definition truthy (s : option str) : bool := match s with Some (_ :: _) => true | _ => false end.

Section ClangTidy.
Context {U : UnicodeDB} {E : TidyEnv}.

(** ** CheckConfig *)

Definition ignore_pats : list str := lits [".*/third_party/.*"].
Definition should_skip (path : str) : bool := existsb (fun pat => MatchB pat path) ignore_pats.

(** ** Paths and command lines *)

Fixpoint find_db_loop (fuel : nat) (path result : str) : T str :=
  match fuel with
  | O => raise OutOfFuel
  | S f =>
      if isfile (OsPath.join2 result path) then ret (realpath result)
      else if str_eqb (realpath result) "/" then
        print_line "Error: could not find compilation database.";; raise (SystemExit 1)
      else find_db_loop f path (result ++ "../")
  end.

(** There are at most as many directories above the working directory as its name has characters. *)
Definition find_compilation_database (path : str) : T str :=
  find_db_loop (S (length (realpath "./"))) path "./".

Definition make_absolute (f directory : str) : str :=
  if startswith f "/" then f else OsPath.normpath (OsPath.join2 directory f).

(** [made] counts the temporary files made before. *)
Definition get_tidy_invocation (made : nat) (f clang_tidy_binary : str) (checks : option str) (tmpdir : option str)
    (build_path : str) (header_filter : option str) (extra_arg extra_arg_before : list str) (quiet : bool)
    (config : option str) : list str :=
  [clang_tidy_binary]
  ++ match header_filter with Some h => ["-header-filter=" ++ h] | None => [] end
  ++ (if truthy checks then ["-checks=" ++ default [] checks] else [])
  ++ match tmpdir with Some d => [lit "-export-fixes"; mkstemp d made] | None => [] end
  ++ map (fun arg => "-extra-arg=" ++ arg) extra_arg
  ++ map (fun arg => "-extra-arg-before=" ++ arg) extra_arg_before
  ++ ["-p=" ++ build_path]
  ++ (if quiet then [lit "-quiet"] else [])
  ++ (if truthy config then ["-config=" ++ default [] config] else [])
  ++ [f].

(** ** Before the threads start *)

Record job := Job {
  j_build_path : str;
  j_files : list str;
  j_max_task : Z;
  j_tmpdir : option str;
  j_file_name_re : regex
}.

Definition check_clang_apply_replacements_binary (args : tidy_args) : T unit :=
  if check_call [clang_apply_replacements_binary args; lit "--version"] then ret tt
  else print_err ("Unable to run clang-apply-replacements. Is clang-apply-replacements "
                  ++ "binary correctly specified?" ++ nl);;
       print_err (format_exc IOError);;
       raise (SystemExit 1).

Definition list_checks_invocation (args : tidy_args) (build_path : str) : list str :=
  [clang_tidy_binary args; lit "-list-checks"; "-p=" ++ build_path]
  ++ (if truthy (t_checks args) then ["-checks=" ++ default [] (t_checks args)] else []) ++ [lit "-"].

Definition setup (args : tidy_args) : T job :=
  let db_path := "compile_commands.json" in
  bp <- match build_path args with Some p => ret p | None => find_compilation_database db_path end;;
  (if check_call (list_checks_invocation args bp) then ret tt
   else print_err ("Unable to run clang-tidy." ++ nl);; raise (SystemExit 1));;
  database <- match load_json (OsPath.join2 bp db_path) with Ok d => ret d | Raise e => raise e end;;
  let files := map (fun '(file, directory) => make_absolute file directory) database in
  let max_task := if t_j args =? 0 then cpu_count else t_j args in
  tmpdir <- (if t_fix args || truthy (export_fixes args)
             then check_clang_apply_replacements_binary args;; ret (Some mkdtemp) else ret None);;
  file_name_re <- or_raise ReError (re_parse (join "|" (t_files args)));;
  ret (Job bp files max_task tmpdir file_name_re).

(** ** After the queue is joined *)

(** The loop over the replacement files raises at the first one: [yaml] is not bound.  Without any, nothing is
    merged and the file is emptied. *)
Definition merge_replacement_files (replacefiles : list str) (mergefile : str) : T unit :=
  for_each replacefiles (fun _ => raise NameError);;
  empty_file mergefile.

Definition apply_invocation (args : tidy_args) (tmpdir : str) : list str :=
  [clang_apply_replacements_binary args] ++ (if t_format args then [lit "-format"] else [])
  ++ (if nonempty (t_style args) then ["-style=" ++ t_style args] else []) ++ [tmpdir].

Definition apply_fixes (args : tidy_args) (tmpdir : str) : T unit :=
  if call (apply_invocation args tmpdir) then ret tt else raise IOError.

(** The end of [main].  [replacefiles] are the files [*.yaml] of the temporary directory. *)
Definition finish (args : tidy_args) (tmpdir : option str) (replacefiles failed_files : list str) : T unit :=
  rc <- (if nonempty failed_files then
           print_line "The files that failed were:";;
           print_line (pformat failed_files);;
           print_line ("Note that a failing .h file will fail all the .cpp files that include it." ++ nl);;
           ret 1
         else ret 0);;
  rc <- (if truthy (export_fixes args) then
           print_line ("Writing fixes to " ++ default [] (export_fixes args) ++ " ...");;
           catch (merge_replacement_files replacefiles (default [] (export_fixes args));; ret rc)
                 (fun e => print_err ("Error exporting fixes." ++ nl ++ nl);; print_err (format_exc e);; ret 1)
         else ret rc);;
  rc <- (if t_fix args then
           print_line "Applying fixes ...";;
           catch (apply_fixes args (default [] tmpdir);; ret rc)
                 (fun e => print_err ("Error applying fixes." ++ nl ++ nl);; print_err (format_exc e);; ret 1)
         else ret rc);;
  (match tmpdir with Some ((_ :: _) as d) => rmtree d | _ => ret tt end);;
  print_line "";;
  raise (SystemExit rc).

(** ** The exit status *)

(** The status [finish] computes. *)
Definition exit_status (args : tidy_args) (tmpdir : option str) (replacefiles failed : list str) : Z :=
  if nonempty failed || truthy (export_fixes args) && (nonempty replacefiles || negb (open_w (default [] (export_fixes args))))
     || t_fix args && negb (call (apply_invocation args (default [] tmpdir)))
  then 1 else 0.

(** Nothing is in the way of removing the temporary directory, if there is one. *)
Definition removable (tmpdir : option str) : bool := match tmpdir with Some ((_ :: _) as d) => rmtree_ok d | _ => true end.

Lemma finish_status args tmpdir replacefiles failed w :
  fst (finish args tmpdir replacefiles failed w) =
  Raise (if removable tmpdir then SystemExit (exit_status args tmpdir replacefiles failed) else IOError).
Proof.
  unfold finish, exit_status, merge_replacement_files, apply_fixes, empty_file, removable, rmtree.
  destruct (nonempty failed), (truthy (export_fixes args)), (t_fix args), replacefiles, (open_w (default [] (export_fixes args))),
    (call (apply_invocation args (default [] tmpdir))), tmpdir as [[|c d]|]; try destruct (rmtree_ok _); reflexivity.
Qed.

Lemma setup_tmpdir args w jb w1 :
  setup args w = (Ok jb, w1) ->
  j_tmpdir jb = if t_fix args || truthy (export_fixes args) then Some mkdtemp else None.
Proof.
  unfold setup, check_clang_apply_replacements_binary, bind.
  match goal with |- context [match ?m w with _ => _ end] => destruct (m w) as [[bp|] w2] end; [|done].
  destruct (check_call _); [|done]. cbn [ret]. destruct (load_json _) as [d|]; [|done]. cbn [ret].
  destruct (t_fix args || truthy (export_fixes args)); [destruct (check_call _); [|done]|];
    cbn [ret]; (destruct (re_parse _); [|done]); by intros [= <- _].
Qed.

(** ** Files that are skipped *)

(** A literal text followed by a pattern. *)
Lemma sem_text w r st st' :
  sem no_flags (foldr (fun c r => RSeq (RChar c) r) r w) st st' <->
  exists rest, after st = w ++ rest /\ sem no_flags r (MState (rev w ++ before st) rest (caps st)) st'.
Proof.
  revert st. induction w as [|c w IH]; intros st; cbn [foldr].
  - split; [intros H; exists (after st); by destruct st | intros (rest & Ha & H)]. simpl in *. subst. by destruct st.
  - split.
    + intros (mid & H1 & (rest & Ha & H2)%IH). apply step1_iff in H1 as (d & rest' & Hd & Hc & ->).
      apply N.eqb_eq in Hc as ->. simpl in *. exists rest. rewrite Hd, Ha, <- app_assoc. done.
    + intros (rest & Ha & H). exists (MState (c :: before st) (w ++ rest) (caps st)). split.
      * apply step1_iff. exists c, (w ++ rest). split_and!; [done | apply N.eqb_refl | done].
      * apply IH. exists rest. simpl in *. by rewrite <- app_assoc in H.
Qed.

(** Which files are skipped: exactly those under a directory [third_party], provided no line break comes before its
    name. *)
Theorem should_skip_spec path :
  should_skip path = true <-> exists a b, path = a ++ "/third_party/" ++ b /\ c_nl ∉ a.
Proof.
  unfold should_skip. cbn [ignore_pats lits map existsb]. rewrite orb_false_r.
  erewrite MatchB_iff; [|by vm_compute | done]. cbn [rx_flags rx_re].
  set (tl := RSeq (RRep true 0 None RAny) REmpty). rewrite state_at_0. split.
  - intros (st' & mid & (n & _ & Hi) & H). apply iter_class in Hi as (u & r & Ha & _ & Hu & ->).
    apply (sem_text "/third_party/" tl) in H as (rest & Hr & _). simpl in Ha, Hr. exists u, rest.
    rewrite Ha, Hr. split; [done|]. intros Hin%list_elem_of_In. rewrite forallb_forall in Hu. by apply Hu in Hin.
  - intros (a & b & -> & Hn).
    exists (MState (rev "/third_party/" ++ rev a) b []), (MState (rev a) ("/third_party/" ++ b) []). split.
    + rewrite <- (app_nil_r (rev a)). eapply sem_star; [reflexivity|]. apply forallb_forall.
      intros c Hc%list_elem_of_In. simpl. apply negb_true_iff, N.eqb_neq. by intros ->.
    + apply (sem_text "/third_party/" tl). exists b. split; [done|].
      eexists. split; [|done]. exists 0%nat. split; [by split; [lia|] | constructor].
Qed.

(** ** Finding the database *)

Fixpoint ups (n : nat) : str := match n with O => lit "./" | S n' => ups n' ++ "../" end.

(** Whether the search stops at a level. *)
Definition stops (path : str) (n : nat) : bool :=
  isfile (OsPath.join2 (ups n) path) || str_eqb (realpath (ups n)) "/".

(** Every [..] leads to a directory with a shorter name, until the root is reached. *)
Definition climb_law : Prop := forall n, realpath (ups n) <> lit "/" -> (n < length (realpath "./"))%nat.

Lemma first_stop (p : nat -> bool) n : p n = true -> exists k, (k <= n)%nat /\ p k = true /\ forall j, (j < k)%nat -> p j = false.
Proof.
  revert p. induction n as [|n IH]; intros p H; [exists 0%nat; split_and!; [done.. | lia]|].
  destruct (p 0%nat) eqn:E0; [exists 0%nat; split_and!; [lia | done | lia]|].
  destruct (IH (fun k => p (S k)) H) as (k & Hk & Hp & Hb). exists (S k). split_and!; [lia | done|].
  intros [|j] Hj; [done | apply Hb; lia].
Qed.

Lemma find_db_at fuel path n k w :
  stops path (n + k) = true -> (forall j, (j < n + k)%nat -> stops path j = false) -> (k < fuel)%nat ->
  fst (find_db_loop fuel path (ups n) w) =
  if isfile (OsPath.join2 (ups (n + k)) path) then Ok (realpath (ups (n + k))) else Raise (SystemExit 1).
Proof.
  unfold stops. revert n fuel. induction k as [|k IH]; intros n fuel Hs Hb Hf; (destruct fuel as [|fuel]; [lia|]); cbn [find_db_loop].
  - rewrite Nat.add_0_r in *. destruct (isfile _); [done|]. simpl in Hs. by rewrite Hs.
  - assert (Hn := Hb n ltac:(lia)). apply orb_false_iff in Hn as [-> ->].
    change (ups n ++ "../") with (ups (S n)). replace (n + S k)%nat with (S n + k)%nat in * by lia.
    apply IH; [done | done | lia].
Qed.

(** [find_compilation_database] always comes to an end: it climbs from the working directory, passing the directories
    that are neither the root nor hold the database; at the first that holds it, its real path is returned; where
    the root is reached first, the script exits with status 1. *)
Theorem find_compilation_database_total path w (Hl : climb_law) :
  exists n, (forall j, (j < n)%nat -> isfile (OsPath.join2 (ups j) path) = false /\ realpath (ups j) <> lit "/") /\
    ((isfile (OsPath.join2 (ups n) path) = true /\ fst (find_compilation_database path w) = Ok (realpath (ups n))) \/
     (isfile (OsPath.join2 (ups n) path) = false /\ realpath (ups n) = lit "/" /\
      fst (find_compilation_database path w) = Raise (SystemExit 1))).
Proof.
  set (m := length (realpath "./")). assert (Hm : stops path m = true).
  { unfold stops. apply orb_true_iff. right. apply str_eqb_eq. destruct (decide (realpath (ups m) = "/")) as [|H]; [done|].
    apply Hl in H. fold m in H. lia. }
  destruct (first_stop _ _ Hm) as (n & Hn & Hs & Hb). exists n. split.
  - intros j Hj%Hb. apply orb_false_iff in Hj as [? Hr]. split; [done|]. intros Er. by rewrite Er, str_eqb_refl in Hr.
  - unfold find_compilation_database. fold m. change (lit "./") with (ups 0).
    rewrite (find_db_at (S m) path 0 n w Hs Hb ltac:(lia)). unfold stops in Hs. rewrite Nat.add_0_l.
    destruct (isfile (OsPath.join2 (ups n) path)); [by left | right]. simpl in Hs. by apply str_eqb_eq in Hs.
Qed.

End ClangTidy.

(** ** Instances *)

(** A build directory [/w/b] whose database names one file that fails and one that is skipped. *)
Definition small_env : TidyEnv := {|
  isfile := fun p => str_eqb p "./../compile_commands.json";
  realpath := fun p => if str_eqb p "./" then lit "/w/b" else if str_eqb p "./../" then lit "/w" else lit "/";
  mkstemp := fun d n => d ++ "/" ++ str_of_N (N.of_nat n) ++ ".yaml";
  mkdtemp := "/tmp/t";
  cpu_count := 2;
  load_json := fun _ => Ok [(lit "a.cpp", lit "/w/b"); (lit "/w/third_party/x.cpp", lit "/w")];
  check_call := fun _ => true;
  call := fun _ => true;
  open_w := fun _ => true;
  rmtree_ok := fun _ => true;
  tidy := fun f => if str_eqb f "/w/b/a.cpp" then Some (Proc 1 (Some (lit "a.cpp:1: error")) (Some [])) else Some (Proc 0 (Some []) (Some []));
  pformat := fun l => PyStr.join ", " l;
  format_exc := fun _ => [];
  excepthook := fun _ => []
|}.

Definition no_output : tworld := TWorld [] [] [] [].

Definition small_job : job :=
  match fst (setup (E := small_env) default_args no_output) with
  | Ok jb => jb
  | Raise _ => Job [] [] 0 None {| rx_flags := no_flags; rx_groups := 0; rx_re := REmpty |}
  end.

Lemma small_climb : climb_law (E := small_env).
Proof.
  intros n Hn. destruct n as [|[|n]]; [simpl; lia.. |]. exfalso. apply Hn. cbn [realpath small_env].
  assert (Hl : (8 <= length (ups (S (S n))))%nat).
  { clear Hn. induction n as [|n IH]; [simpl; lia|]. cbn [ups] in *. rewrite !length_app in *. lia. }
  destruct (str_eqb _ "./") eqn:E1; [apply str_eqb_eq in E1; rewrite E1 in Hl; simpl in Hl; lia|].
  destruct (str_eqb _ "./../") eqn:E2; [apply str_eqb_eq in E2; rewrite E2 in Hl; simpl in Hl; lia | done].
Defined.

Lemma find_compilation_database_total_witness :
  climb_law (E := small_env) /\
  exists n, fst (find_compilation_database (E := small_env) "compile_commands.json" no_output)
            = Ok (realpath (TidyEnv := small_env) (ups n)).
Proof.
  split; [exact small_climb|].
  destruct (find_compilation_database_total (E := small_env) "compile_commands.json" no_output small_climb)
    as (n & _ & [[_ H]|(_ & _ & H)]); [by exists n | by vm_compute in H].
Defined.
