(* ===== verification/TidyThreads.v ===== *)
(** * run_clang_tidy.py: the queue, its threads and how [main] ends

    [main] puts the files of the database into a bounded queue; the threads of [run_tidy] take them, announce them, run
    clang-tidy and print what it wrote while they hold a lock.  [advance] is one action of a thread, as a function of
    where it is in its loop and of what the threads share; [tidy_step] interleaves the threads with [main], its
    time-outs and the interrupt of the user.  [main_run] puts the pieces together. *)

From S2P Require Import Prelude PyStr PyRe PyEff Regexps Paths ClangTidy.

Local Open Scope Z_scope.

(** One call of [write] on the standard output: the announcement of a file, the line break before its report, the
    report, or a text of [main]. *)
Inductive chunk :=
| Checking (f : str)
| Opening (f : str)
| Output (f o : str)
| Notice (s : str).

Definition text (c : chunk) : str :=
  match c with
  | Checking f => c_cr :: lit " Checking: " ++ f
  | Opening _ => nl
  | Output _ o => o
  | Notice s => s
  end.

(** Where a thread is in the loop of [run_tidy], with the local variables it still needs. *)
Inductive stage :=
| Taken                (* [queue.get()] has returned *)
| Announced            (* the name is printed *)
| Prepared             (* the command line is built *)
| Ended (p : proc)     (* the process has ended, [failed_files] is up to date *)
| Locked (p : proc)    (* inside [with lock] *)
| Decoded (o : str)    (* both streams are decoded *)
| Opened (o : str)     (* the line break is written *)
| Printed              (* the report is written, or there is none *)
| Released             (* the [with] block is left *)
| Dead.                (* an exception has ended the thread *)

(** What the threads share.  [finished] are the files [task_done] was called for. *)
Record shared := Shared {
  lock : bool;
  finished : list str;
  failed_files : list str;
  invocations : list (list str);
  out : list chunk;
  err : list str
}.

Definition set_lock (b : bool) (sh : shared) : shared :=
  Shared b (finished sh) (failed_files sh) (invocations sh) (out sh) (err sh).
Definition task_done (f : str) (sh : shared) : shared :=
  Shared (lock sh) (finished sh ++ [f]) (failed_files sh) (invocations sh) (out sh) (err sh).
Definition append_failed (f : str) (sh : shared) : shared :=
  Shared (lock sh) (finished sh) (failed_files sh ++ [f]) (invocations sh) (out sh) (err sh).
Definition note_invocation (i : list str) (sh : shared) : shared :=
  Shared (lock sh) (finished sh) (failed_files sh) (invocations sh ++ [i]) (out sh) (err sh).
Definition write (c : chunk) (sh : shared) : shared :=
  Shared (lock sh) (finished sh) (failed_files sh) (invocations sh) (out sh ++ [c]) (err sh).
Definition complain (s : str) (sh : shared) : shared :=
  Shared (lock sh) (finished sh) (failed_files sh) (invocations sh) (out sh) (err sh ++ [s]).

(** Where [main] is: filling the queue or waiting for it, about to end the line of a notice, in the handler of
    [KeyboardInterrupt], or out of that handler with an exception. *)
Inductive main_pc := Filling | LineEnd | CtrlC | Goodbye | Cleaned | Killed | Escaped.

(** [todo] are the files [main] has not put into the queue; [workers] the files in the hands of a thread. *)
Record tidy_state := TidyState {
  main_at : main_pc;
  todo : list str;
  task_queue : list str;
  workers : list (str * stage);
  sh : shared;
  removed : list str
}.

Definition start_state (files : list str) : tidy_state := TidyState Filling files [] [] (Shared false [] [] [] [] []) [].

Section Threads.
Context {U : UnicodeDB} {E : TidyEnv}.

Section Job.
Context (args : tidy_args) (jb : job).

Definition name_matches (name : str) : bool := is_some (rx_search (j_file_name_re jb) name).

(** A bound of the queue that is not positive is none. *)
Definition has_room (q : list str) : bool := (len q <? j_max_task jb) || (j_max_task jb <=? 0).

Definition invocation (made : nat) (name : str) : list str :=
  get_tidy_invocation made name (clang_tidy_binary args) (t_checks args) (j_tmpdir jb) (j_build_path jb)
    (header_filter args) (extra_arg args) (extra_arg_before args) (t_quiet args) (t_config args).

(** ** One action of the thread that works on [f]

    [None] where it has to wait, or is dead; otherwise where it is next ([None] when it is done with the file) and what
    the threads share then.  A [with] block releases the lock when an exception leaves it. *)
Definition advance (f : str) (s : stage) (sh : shared) : option (option stage * shared) :=
  match s with
  | Taken => Some (Some Announced, write (Checking f) sh)
  | Announced => Some (Some Prepared, note_invocation (invocation (length (invocations sh)) f) sh)
  | Prepared =>
      if should_skip f then Some (None, task_done f sh)
      else match tidy f with
           | Some p => Some (Some (Ended p), if negb (returncode p =? 0) then append_failed f sh else sh)
           | None => Some (Some Dead, complain (excepthook IOError) sh)
           end
  | Ended p => if lock sh then None else Some (Some (Locked p), set_lock true sh)
  | Locked p =>
      match p_output p, p_err p with
      | Some o, Some _ => Some (Some (Decoded o), sh)
      | _, _ => Some (Some Dead, complain (excepthook UnicodeDecodeError) (set_lock false sh))
      end
  | Decoded o => if nonempty o then Some (Some (Opened o), write (Opening f) sh) else Some (Some Printed, sh)
  | Opened o => Some (Some Printed, write (Output f o) sh)
  | Printed => Some (Some Released, set_lock false sh)
  | Released => Some (None, task_done f sh)
  | Dead => None
  end.

Definition next (f : str) (r : option stage) : list (str * stage) :=
  match r with Some s => [(f, s)] | None => [] end.

(** ** One action of a thread or of [main]

    [print] writes its text and the line break in two calls.  [Queue.put] gives up after its timeout where the queue
    is full; the handler's [shutil.rmtree] may fail, as the threads still make files in the directory; [os.kill(0, 9)] ends the
    threads too. *)
Inductive tidy_step : tidy_state -> tidy_state -> Prop :=
| step_thread m fs q ws1 f s ws2 h rm r h' :
    m <> Killed -> advance f s h = Some (r, h') ->
    tidy_step (TidyState m fs q (ws1 ++ (f, s) :: ws2) h rm) (TidyState m fs q (ws1 ++ next f r ++ ws2) h' rm)
| step_get m f fs q ws h rm :
    m <> Killed -> len ws < j_max_task jb ->
    tidy_step (TidyState m fs (f :: q) ws h rm) (TidyState m fs q (ws ++ [(f, Taken)]) h rm)
| step_put f fs q ws h rm :
    name_matches f = true -> has_room q = true ->
    tidy_step (TidyState Filling (f :: fs) q ws h rm) (TidyState Filling fs (q ++ [f]) ws h rm)
| step_full f fs q ws h rm :
    name_matches f = true -> has_room q = false ->
    tidy_step (TidyState Filling (f :: fs) q ws h rm)
      (TidyState LineEnd (f :: fs) q ws (write (Notice "Still waiting to put files into clang-tidy queue.") h) rm)
| step_line_end fs q ws h rm :
    tidy_step (TidyState LineEnd fs q ws h rm) (TidyState Filling fs q ws (write (Notice nl) h) rm)
| step_spin f fs q ws h rm :
    name_matches f = false ->
    tidy_step (TidyState Filling (f :: fs) q ws h rm) (TidyState Filling (f :: fs) q ws h rm)
| step_interrupt m fs q ws h rm :
    m = Filling \/ m = LineEnd ->
    tidy_step (TidyState m fs q ws h rm)
      (TidyState CtrlC fs q ws (write (Notice (nl ++ "Ctrl-C detected, goodbye.")) h) rm)
| step_goodbye fs q ws h rm :
    tidy_step (TidyState CtrlC fs q ws h rm) (TidyState Goodbye fs q ws (write (Notice nl) h) rm)
| step_clean fs q ws h rm :
    tidy_step (TidyState Goodbye fs q ws h rm)
      (TidyState Cleaned fs q ws h (rm ++ match j_tmpdir jb with Some ((_ :: _) as d) => [d] | _ => [] end))
| step_kill fs q ws h rm :
    tidy_step (TidyState Cleaned fs q ws h rm) (TidyState Killed fs q ws h rm)
| step_clean_fails fs q ws h rm :
    truthy (j_tmpdir jb) = true -> tidy_step (TidyState Goodbye fs q ws h rm) (TidyState Escaped fs q ws h rm).

(** [task_queue.join()] returns: everything was put, and every file put was marked done. *)
Definition queue_joined (st : tidy_state) : Prop :=
  main_at st = Filling /\ todo st = [] /\ task_queue st = [] /\ workers st = [].

(** The files of the temporary directory. *)
Definition replacefiles (st : tidy_state) : list str :=
  match j_tmpdir jb with Some d => imap (fun n _ => mkstemp d n) (invocations (sh st)) | None => [] end.

End Job.

(** What the threads and [main] have written so far, after what was there before. *)
Definition after_threads (w : tworld) (st : tidy_state) : tworld :=
  TWorld (t_stdout w ++ map text (out (sh st))) (t_stderr w ++ err (sh st)) (t_emptied w) (t_removed w ++ removed st).

Inductive ending := Exits (e : exn) | Dies.

(** A run of [main]: how it ends and what it leaves behind. *)
Inductive main_run (args : tidy_args) (w : tworld) : ending -> tworld -> Prop :=
| main_setup_fails e w' : setup args w = (Raise e, w') -> main_run args w (Exits e) w'
| main_exits jb w1 st e w' :
    setup args w = (Ok jb, w1) -> rtc (tidy_step args jb) (start_state (j_files jb)) st -> queue_joined st ->
    finish args (j_tmpdir jb) (replacefiles jb st) (failed_files (sh st)) (after_threads w1 st) = (Raise e, w') ->
    main_run args w (Exits e) w'
| main_killed jb w1 st :
    setup args w = (Ok jb, w1) -> rtc (tidy_step args jb) (start_state (j_files jb)) st -> main_at st = Killed ->
    main_run args w Dies (after_threads w1 st)
| main_escapes jb w1 st :
    setup args w = (Ok jb, w1) -> rtc (tidy_step args jb) (start_state (j_files jb)) st -> main_at st = Escaped ->
    main_run args w (Exits IOError) (after_threads w1 st).


(** ** Invariants *)

(** A file that makes the run fail. *)
Definition fails (f : str) : bool :=
  negb (should_skip f) && match tidy f with Some p => negb (returncode p =? 0) | None => false end.

(** The calls of [write] that print the report of a file: none where it is skipped or clang-tidy wrote nothing. *)
Definition report (f : str) : list chunk :=
  if should_skip f then [] else
  match tidy f with
  | Some p => match p_output p with Some ((_ :: _) as o) => [Opening f; Output f o] | _ => [] end
  | None => []
  end.

Definition is_report (c : chunk) : bool := match c with Opening _ | Output _ _ => true | _ => false end.
Definition is_checking (c : chunk) : bool := match c with Checking _ => true | _ => false end.

Definition announced (s : stage) : bool := match s with Taken => false | _ => true end.
Definition prepared (s : stage) : bool := match s with Taken | Announced => false | _ => true end.
Definition ended (s : stage) : bool := match s with Taken | Announced | Prepared => false | _ => true end.
Definition printed (s : stage) : bool := match s with Printed | Released => true | _ => false end.
Definition critical (s : stage) : bool := match s with Locked _ | Decoded _ | Opened _ | Printed => true | _ => false end.
Definition is_dead (s : stage) : bool := match s with Dead => true | _ => false end.

Definition at_stage (P : stage -> bool) (ws : list (str * stage)) : list str :=
  map fst (List.filter (fun w => P (snd w)) ws).

(** The files a thread is done with, or with which it has come to a stage. *)
Definition past (P : stage -> bool) (st : tidy_state) : list str := finished (sh st) ++ at_stage P (workers st).

Definition all_files (st : tidy_state) : list str :=
  finished (sh st) ++ map fst (workers st) ++ task_queue st ++ todo st.

(** The part of a report that is written already. *)
Definition opened (w : str * stage) : list chunk := match snd w with Opened _ => [Opening (fst w)] | _ => [] end.

(** The local variables of a thread are what the process left. *)
Definition worker_ok (w : str * stage) : Prop :=
  match snd w with
  | Taken | Announced | Prepared => True
  | Ended p | Locked p => should_skip (fst w) = false /\ tidy (fst w) = Some p
  | Decoded o => should_skip (fst w) = false /\ exists p, tidy (fst w) = Some p /\ p_output p = Some o /\ decodes p = true
  | Opened o =>
      should_skip (fst w) = false /\ (exists p, tidy (fst w) = Some p /\ p_output p = Some o /\ decodes p = true) /\
      nonempty o = true
  | Printed | Released => should_skip (fst w) = false /\ exists p, tidy (fst w) = Some p /\ decodes p = true
  | Dead => True
  end.

Record tidy_inv (files : list str) (st : tidy_state) : Prop := {
  inv_files : all_files st ≡ₚ files;
  inv_workers : Forall worker_ok (workers st);
  inv_failed : failed_files (sh st) ≡ₚ List.filter fails (past ended st);
  inv_invocations : length (invocations (sh st)) = length (past prepared st);
  inv_checking : List.filter is_checking (out (sh st)) ≡ₚ map Checking (past announced st);
  inv_lock : length (at_stage critical (workers st)) = if lock (sh st) then 1%nat else 0%nat;
  inv_reports : exists order, order ≡ₚ past printed st /\
      List.filter is_report (out (sh st)) = concat (map report order) ++ concat (map opened (workers st))
}.

#[local] Instance filter_perm (f : str -> bool) : Proper ((≡ₚ) ==> (≡ₚ)) (List.filter f).
Proof.
  intros l l' H. induction H as [|x l l' H IH|x y l|l l' l'' _ IH1 _ IH2]; simpl.
  - done.
  - destruct (f x); [by rewrite IH | done].
  - destruct (f x), (f y); [apply Permutation_swap | done | done | done].
  - by rewrite IH1.
Qed.

Lemma at_stage_app P ws ws' : at_stage P (ws ++ ws') = at_stage P ws ++ at_stage P ws'.
Proof. unfold at_stage. by rewrite List.filter_app, map_app. Qed.

Lemma at_stage_cons P f s ws : at_stage P ((f, s) :: ws) = (if P s then [f] else []) ++ at_stage P ws.
Proof. unfold at_stage. simpl. by destruct (P s). Qed.

Lemma at_stage_none P ws : length (at_stage P ws) = 0%nat <-> Forall (fun w => P (snd w) = false) ws.
Proof.
  induction ws as [|[f s] ws IH]; [done|]. rewrite at_stage_cons, length_app, Forall_cons, <- IH. simpl.
  destruct (P s); simpl; [split; [lia | by intros [[=] _]] | split; [by split | by intros [_ ?]]].
Qed.

Definition holds (P : stage -> bool) (r : option stage) : bool := match r with Some s => P s | None => true end.

Lemma at_stage_next P f r : at_stage P (next f r) = match r with Some s => if P s then [f] else [] | None => [] end.
Proof. destruct r as [s|]; [|done]. simpl. rewrite at_stage_cons. apply app_nil_r. Qed.

Lemma advance_finished args jb f s h r h' :
  advance args jb f s h = Some (r, h') -> finished h' = finished h ++ match r with None => [f] | Some _ => [] end.
Proof.
  destruct s; cbn [advance]; intros Ha; repeat case_match; simplify_eq; cbn; rewrite ?app_nil_r; done.
Qed.

(** How an action of a thread changes the files that have come to a stage. *)
Lemma past_step P args jb m fs q ws1 f s ws2 h rm r h' :
  advance args jb f s h = Some (r, h') -> (P s = true -> holds P r = true) ->
  past P (TidyState m fs q (ws1 ++ next f r ++ ws2) h' rm) ≡ₚ
  past P (TidyState m fs q (ws1 ++ (f, s) :: ws2) h rm) ++ if negb (P s) && holds P r then [f] else [].
Proof.
  intros Ha Hm. unfold past. cbn [sh workers]. rewrite (advance_finished _ _ _ _ _ _ _ Ha).
  rewrite !at_stage_app, at_stage_cons, at_stage_next.
  destruct r as [s'|]; simpl in *; destruct (P s); try destruct (P s'); try (by specialize (Hm eq_refl));
    simpl; rewrite ?app_nil_r; solve_Permutation.
Qed.

(** The branches of one action of a thread. *)
Ltac by_stage Ha :=
  match type of Ha with advance _ _ _ ?s _ = _ => destruct s end;
  cbn [advance] in Ha;
  repeat match type of Ha with context [match ?x with _ => _ end] => destruct x eqn:? end; simplify_eq.

Section Action.
Context (args : tidy_args) (jb : job) (m : main_pc) (fs q : list str) (ws1 ws2 : list (str * stage)) (f : str) (s : stage)
  (h h' : shared) (rm : list str) (r : option stage) (Ha : advance args jb f s h = Some (r, h')).

Notation st := (TidyState m fs q (ws1 ++ (f, s) :: ws2) h rm).
Notation st' := (TidyState m fs q (ws1 ++ next f r ++ ws2) h' rm).

Lemma action_files : all_files st' ≡ₚ all_files st.
Proof.
  unfold all_files. cbn [sh workers task_queue todo]. rewrite (advance_finished _ _ _ _ _ _ _ Ha), !map_app.
  destruct r; simpl; rewrite ?app_nil_r; solve_Permutation.
Qed.

Lemma action_workers : Forall worker_ok (workers st) -> Forall worker_ok (workers st').
Proof.
  cbn [workers]. rewrite !Forall_app, Forall_cons. intros (H1 & Hw & H2). split_and!; [done | | done].
  by_stage Ha; cbn [next]; rewrite ?Forall_singleton; try apply Forall_nil_2; unfold worker_ok in *; cbn [fst snd] in *;
    try done; destruct Hw as [? Hw]; (split; [done|]); [|naive_solver..].
  eexists. split_and!; [exact Hw | done|]. unfold decodes. by repeat match goal with H : _ = Some _ |- _ => rewrite H; clear H end.
Qed.

Lemma action_failed :
  failed_files h ≡ₚ List.filter fails (past ended st) -> failed_files h' ≡ₚ List.filter fails (past ended st').
Proof.
  intros Hf. rewrite (past_step ended _ _ _ _ _ _ _ _ _ _ _ _ _ Ha), List.filter_app, <- Hf by (by_stage Ha; done).
  by_stage Ha; cbn; rewrite ?app_nil_r; try done; unfold fails;
    repeat match goal with H : _ = _ |- _ => rewrite H end; by rewrite ?app_nil_r.
Qed.

Lemma action_invocations :
  length (invocations h) = length (past prepared st) -> length (invocations h') = length (past prepared st').
Proof.
  intros Hi. rewrite (past_step prepared _ _ _ _ _ _ _ _ _ _ _ _ _ Ha), length_app, <- Hi by (by_stage Ha; done).
  by_stage Ha; cbn; rewrite ?length_app; simpl; lia.
Qed.

Lemma action_checking :
  List.filter is_checking (out h) ≡ₚ map Checking (past announced st) ->
  List.filter is_checking (out h') ≡ₚ map Checking (past announced st').
Proof.
  intros Hc. rewrite (past_step announced _ _ _ _ _ _ _ _ _ _ _ _ _ Ha), map_app, <- Hc by (by_stage Ha; done).
  by_stage Ha; cbn; rewrite ?List.filter_app; simpl; by rewrite ?app_nil_r.
Qed.

Lemma action_lock :
  length (at_stage critical (workers st)) = (if lock h then 1 else 0)%nat ->
  length (at_stage critical (workers st')) = (if lock h' then 1 else 0)%nat.
Proof.
  cbn [workers]. rewrite !at_stage_app, at_stage_cons, at_stage_next, !length_app.
  by_stage Ha; simpl; repeat case_match; simpl in *; try lia; congruence.
Qed.

Lemma opened_critical ws : Forall (fun w => critical (snd w) = false) ws -> concat (map opened ws) = [].
Proof. induction 1 as [|[g []] ws Hw _ IH]; simpl in *; done. Qed.

(** The holder of the lock is alone. *)
Lemma holder_alone :
  critical s = true -> length (at_stage critical (workers st)) = (if lock h then 1 else 0)%nat ->
  concat (map opened ws1) = [] /\ concat (map opened ws2) = [].
Proof.
  intros Hs. cbn [workers]. rewrite at_stage_app, at_stage_cons, Hs, !length_app. simpl. intros Hl.
  split; apply opened_critical, at_stage_none; destruct (lock h); lia.
Qed.

Lemma report_skipped g : should_skip g = true -> report g = [].
Proof. unfold report. by intros ->. Qed.

Lemma report_spoken g o :
  should_skip g = false /\ (exists p, tidy g = Some p /\ p_output p = Some o /\ decodes p = true) ->
  report g = if nonempty o then [Opening g; Output g o] else [].
Proof. unfold report. intros (-> & p & -> & -> & _). by destruct o. Qed.

Lemma action_reports :
  worker_ok (f, s) -> length (at_stage critical (workers st)) = (if lock h then 1 else 0)%nat ->
  (exists order, order ≡ₚ past printed st /\
      List.filter is_report (out h) = concat (map report order) ++ concat (map opened (workers st))) ->
  exists order, order ≡ₚ past printed st' /\
      List.filter is_report (out h') = concat (map report order) ++ concat (map opened (workers st')).
Proof.
  intros Hw Hl (order & Ho & Hr). exists (order ++ if negb (printed s) && holds printed r then [f] else []). split.
  { rewrite (past_step printed _ _ _ _ _ _ _ _ _ _ _ _ _ Ha) by (by_stage Ha; done). by rewrite Ho. }
  pose proof (fun Hs => holder_alone Hs Hl) as Hx. clear Hl. revert Hr. cbn [workers] in *. rewrite !map_app, !concat_app, map_cons. cbn [concat]. intros Hr.
  by_stage Ha; cbn [opened snd fst next map concat negb andb printed holds is_some app out write note_invocation task_done
    append_failed complain set_lock] in *; rewrite ?List.filter_app; cbn [List.filter is_report]; rewrite ?app_nil_r, ?Hr;
    try done.
  - by rewrite report_skipped, app_nil_r.
  - destruct (Hx eq_refl) as [-> ->]. by rewrite app_nil_r.
  - rewrite (report_spoken f o) by done. destruct o; [by rewrite app_nil_r | done].
  - destruct (Hx eq_refl) as [-> ->], Hw as (? & ? & Hn). rewrite (report_spoken f o), Hn by done. by rewrite <- !app_assoc.
Qed.
End Action.


Lemma notice_inv files m m' fs q ws h rm s :
  tidy_inv files (TidyState m fs q ws h rm) -> tidy_inv files (TidyState m' fs q ws (write (Notice s) h) rm).
Proof. intros []. split; try done; cbn [sh write out]; rewrite List.filter_app; cbn; by rewrite app_nil_r. Qed.

Lemma tidy_step_inv args jb files st st' : tidy_step args jb st st' -> tidy_inv files st -> tidy_inv files st'.
Proof.
  intros H Hinv. pose proof Hinv as [Hp Hw Hf Hi Hc Hl Hr]. destruct H as [m fs q ws1 f s ws2 h rm r h' _ Ha|m f fs q ws h rm _ _| | | | | | | | |].
  - assert (Hs : worker_ok (f, s)) by (apply Forall_app in Hw as [_ [? _]%Forall_cons]; done).
    split; cbn [sh] in *.
    + by rewrite (action_files args jb m fs q ws1 ws2 f s h h' rm r Ha).
    + by eapply action_workers.
    + by eapply action_failed.
    + by eapply action_invocations.
    + by eapply action_checking.
    + by eapply action_lock.
    + by eapply action_reports.
  - unfold past in *. cbn [sh workers task_queue todo] in *.
    split; unfold past; cbn [sh workers task_queue todo]; rewrite ?at_stage_app, ?app_nil_r; try done.
    + rewrite <- Hp. unfold all_files. cbn [sh workers task_queue todo]. rewrite map_app. simpl. solve_Permutation.
    + apply Forall_app. split; [done | by apply Forall_singleton].
    + destruct Hr as (order & ? & ?). exists order. by rewrite map_app, concat_app, !app_nil_r.
  - split; [|done..]. rewrite <- Hp. unfold all_files. cbn [sh workers task_queue todo]. solve_Permutation.
  - by eapply notice_inv.
  - by eapply notice_inv.
  - by split.
  - by eapply notice_inv.
  - by eapply notice_inv.
  - by split.
  - by split.
  - by split.
Qed.

Lemma tidy_reachable_inv args jb files st :
  rtc (tidy_step args jb) (start_state files) st -> tidy_inv files st.
Proof.
  intros H. assert (Hi : tidy_inv files (start_state files)).
  { split; try done; cbn; by exists []. }
  revert Hi. induction H; eauto using tidy_step_inv.
Qed.

Lemma joined_past P files st :
  tidy_inv files st -> queue_joined st -> past P st ≡ₚ files /\ finished (sh st) ≡ₚ files.
Proof.
  intros Hi (_ & Ht & Hq & Hw). pose proof (inv_files _ _ Hi) as Hp. unfold all_files, past in *.
  rewrite Hw, Ht, Hq, ?app_nil_r in *. simpl in *. by rewrite ?app_nil_r in *.
Qed.

(** What holds when the queue is joined. *)
Lemma joined_outcome args jb files st :
  rtc (tidy_step args jb) (start_state files) st -> queue_joined st ->
  finished (sh st) ≡ₚ files /\ failed_files (sh st) ≡ₚ List.filter fails files /\
  length (invocations (sh st)) = length files.
Proof.
  intros Hr%tidy_reachable_inv Hj. destruct (joined_past ended _ _ Hr Hj) as [He ?], (joined_past prepared _ _ Hr Hj) as [Hp _].
  by rewrite (inv_failed _ _ Hr), (inv_invocations _ _ Hr), He, Hp.
Qed.

(** C28. When the queue is joined, in whatever order the threads took the files, every file of the database has been
    worked on exactly once, one command line was built for each, and the list of failed files holds
    exactly those that are not skipped and for which clang-tidy reports a failure. *)
Theorem joined_complete args jb st
    (Hr : rtc (tidy_step args jb) (start_state (j_files jb)) st) (Hj : queue_joined st) :
  finished (sh st) ≡ₚ j_files jb /\ length (invocations (sh st)) = length (j_files jb) /\
  failed_files (sh st) ≡ₚ
    List.filter (fun f => negb (should_skip f) &&
                          match tidy f with Some p => negb (returncode p =? 0) | None => false end) (j_files jb).
Proof. destruct (joined_outcome _ _ _ _ Hr Hj) as (? & ? & ?). done. Qed.

(** ** What is printed *)

Lemma at_stage_submseteq P ws : at_stage P ws ⊆+ map fst ws.
Proof. induction ws as [|[f s] ws IH]; [done|]. rewrite at_stage_cons. simpl. destruct (P s); by constructor. Qed.

(** At most one report is begun. *)
Lemma begun_report ws :
  Forall worker_ok ws -> (length (at_stage critical ws) <= 1)%nat ->
  concat (map opened ws) = [] \/
  exists f o, concat (map opened ws) = [Opening f] /\ report f = [Opening f; Output f o].
Proof.
  induction 1 as [|[f s] ws Hw _ IH]; [by left|]. rewrite at_stage_cons, length_app. intros Hl.
  destruct s; simpl in Hl |- *; try (apply IH; lia).
  right. destruct Hw as (? & ? & Hn). exists f, o. rewrite opened_critical by (apply at_stage_none; lia).
  by rewrite (report_spoken f o), Hn.
Qed.

(** C31. The lock does its work: at every moment of every run at most one thread is between taking the lock and releasing
    it, and what the threads have printed as reports so far, whoever printed it, is a
    sequence of whole reports (the line break, then what clang-tidy wrote), after which at most one has been
    begun; only announcements and notices can stand between the two parts of a report.  When the queue is
    joined there is one report for every file of the database that has one, and every file was
    announced exactly once. *)
Theorem reports_stay_whole args jb st (Hr : rtc (tidy_step args jb) (start_state (j_files jb)) st) :
  (length (at_stage critical (workers st)) <= 1)%nat /\
  exists order begun,
    List.filter is_report (out (sh st)) = concat (map report order) ++ begun /\
    (begun = [] \/ exists f o, begun = [Opening f] /\ report f = [Opening f; Output f o]) /\
    order ⊆+ j_files jb /\
    (queue_joined st -> order ≡ₚ j_files jb /\ begun = [] /\
       List.filter is_checking (out (sh st)) ≡ₚ map Checking (j_files jb)).
Proof.
  apply tidy_reachable_inv in Hr as Hi. destruct (inv_reports _ _ Hi) as (order & Ho & Hf). split.
  { rewrite (inv_lock _ _ Hi). destruct (lock (sh st)); lia. }
  exists order, (concat (map opened (workers st))). split_and!; [done | | |].
  - apply begun_report; [exact (inv_workers _ _ Hi)|]. rewrite (inv_lock _ _ Hi). destruct (lock (sh st)); lia.
  - rewrite Ho, <- (inv_files _ _ Hi). unfold past, all_files. apply submseteq_skips_l.
    rewrite <- (app_nil_r (at_stage _ _)). apply submseteq_app; [apply at_stage_submseteq | apply submseteq_nil_l].
  - intros Hj. destruct (joined_past printed _ _ Hi Hj) as [Hp _], (joined_past announced _ _ Hi Hj) as [Ha _].
    rewrite Ho, (inv_checking _ _ Hi), Hp, Ha. destruct Hj as (_ & _ & _ & ->). done.
Qed.


(** ** The run ends *)

(** clang-tidy can be run on the file, or need not be. *)
Definition runnable (f : str) : Prop := should_skip f = true \/ exists p, tidy f = Some p /\ decodes p = true.

(** Nothing stands in the way: every name matches, and clang-tidy can be run on every file that is not skipped. *)
Definition smooth (jb : job) : Prop :=
  0 < j_max_task jb /\ Forall (fun f => name_matches jb f = true /\ runnable f) (j_files jb).

Definition uninterrupted (st : tidy_state) : Prop := main_at st = Filling \/ main_at st = LineEnd.

Definition rank (s : stage) : nat :=
  match s with
  | Taken => 9 | Announced => 8 | Prepared => 7 | Ended _ => 6 | Locked _ => 5 | Decoded _ => 4 | Opened _ => 3
  | Printed => 2 | Released => 1 | Dead => 0
  end.

Definition worker_rank (ws : list (str * stage)) : nat := list_sum (map (fun w => rank (snd w)) ws).

Definition work_left (st : tidy_state) : nat :=
  (11 * length (todo st) + 10 * length (task_queue st) + worker_rank (workers st)
   + match main_at st with LineEnd => 1 | _ => 0 end)%nat.

Lemma worker_rank_app ws ws' : worker_rank (ws ++ ws') = (worker_rank ws + worker_rank ws')%nat.
Proof. unfold worker_rank. by rewrite map_app, list_sum_app. Qed.

(** A thread that holds the lock, or meets it free, gets on. *)
Lemma can_advance args jb f s h :
  worker_ok (f, s) -> runnable f -> is_dead s = false -> (critical s = true \/ lock h = false) ->
  exists r h', advance args jb f s h = Some (r, h') /\ (worker_rank (next f r) < rank s)%nat.
Proof.
  intros Hw Hrun Hd Hl. assert (Hdec : forall p, should_skip f = false -> tidy f = Some p -> decodes p = true).
  { intros p Hs Ht. destruct Hrun as [|(p' & Ht' & Hd')]; congruence. }
  destruct s; cbn [advance]; try (by eexists _, _; split; [done | cbn; lia]); simpl in Hl, Hd; try done.
  - destruct (should_skip f) eqn:Es; [eexists _, _; split; [done | cbn; lia]|].
    destruct Hrun as [?|(p & -> & _)]; [congruence|]. eexists _, _; split; [done | cbn; lia].
  - destruct Hl as [? | ->]; [done|]. eexists _, _; split; [done | cbn; lia].
  - destruct Hw as [Hs Ht]. specialize (Hdec _ Hs Ht). unfold decodes in Hdec.
    destruct (p_output p), (p_err p); try done. eexists _, _; split; [done | cbn; lia].
  - destruct (nonempty o); eexists _, _; (split; [done | cbn; lia]).
Qed.

(** Some thread can act. *)
Lemma some_worker st files :
  tidy_inv files st -> at_stage is_dead (workers st) = [] -> workers st <> [] ->
  exists ws1 f s ws2, workers st = ws1 ++ (f, s) :: ws2 /\ worker_ok (f, s) /\ is_dead s = false /\
                      (critical s = true \/ lock (sh st) = false).
Proof.
  intros Hi Hd Hn. assert (Hd' : Forall (fun w => is_dead (snd w) = false) (workers st)).
  { apply at_stage_none. by rewrite Hd. }
  pose proof (inv_workers _ _ Hi) as Hw. destruct (lock (sh st)) eqn:El.
  - pose proof (inv_lock _ _ Hi) as Hl. rewrite El in Hl.
    assert (Hex : Exists (fun w => critical (snd w) = true) (workers st)).
    { apply dec_stable. intros Hx. assert (length (at_stage critical (workers st)) = 0%nat) as H0; [|lia].
      apply at_stage_none. apply Forall_forall. intros w Hw'. apply not_true_is_false. intros Hc. by apply Hx, Exists_exists; eauto. }
    apply Exists_exists in Hex as ([f s] & Hin & Hc). apply list_elem_of_split in Hin as (ws1 & ws2 & Heq).
    rewrite Heq in *. apply Forall_app in Hw as [_ [? _]%Forall_cons], Hd' as [_ [? _]%Forall_cons]. eauto 10.
  - destruct (workers st) as [|[f s] ws]; [done|]. apply Forall_cons in Hw as [? _], Hd' as [? _]. by exists [], f, s, ws; auto.
Qed.

Lemma smooth_step args jb st :
  smooth jb -> tidy_inv (j_files jb) st -> uninterrupted st -> at_stage is_dead (workers st) = [] ->
  queue_joined st \/ exists st', tidy_step args jb st st' /\ uninterrupted st' /\ (work_left st' < work_left st)%nat.
Proof.
  unfold uninterrupted. intros [Hm Hs] Hi Hu Hd. pose proof (inv_files _ _ Hi) as Hp. rewrite <- Hp in Hs.
  destruct (decide (workers st = [])) as [Hw|Hw].
  - destruct st as [m fs q ws h rm]. cbn in Hw, Hu. subst ws. unfold all_files in Hs. rewrite !Forall_app in Hs.
    cbn in Hs. destruct Hs as (_ & _ & _ & Hf). destruct Hu as [-> | ->]; [|right].
    + destruct q as [|f q]; [destruct fs as [|f fs]; [by left|]|]; right.
      * apply Forall_inv in Hf as [? _]. eexists. split; [apply step_put; [done|]|]; [|split; [by left | cbn; lia]].
        unfold has_room. cbn. apply orb_true_iff. left. by apply Z.ltb_lt.
      * eexists. split; [by apply step_get|]. split; [by left | cbn; lia].
    + eexists. split; [apply step_line_end|]. split; [by left | cbn; lia].
  - right. destruct (some_worker _ _ Hi Hd Hw) as (ws1 & f & s & ws2 & Heq & Hok & Hnd & Hl).
    assert (Hrun : runnable f).
    { unfold all_files in Hs. rewrite Heq, map_app, !Forall_app in Hs.
      destruct Hs as (_ & (_ & [[_ ?] _]%Forall_cons) & _). done. }
    destruct (can_advance args jb f s (sh st) Hok Hrun Hnd Hl) as (r & h' & Ha & Hlt).
    destruct st as [m fs q ws h rm]. cbn [workers sh main_at] in *. subst ws. eexists. split; [eapply step_thread; [|done]|].
    + by destruct Hu as [-> | ->].
    + split; [done|]. unfold work_left. cbn [todo task_queue workers main_at].
      rewrite !worker_rank_app. change (worker_rank ((f, s) :: ws2)) with (rank s + worker_rank ws2)%nat. lia.
Qed.

(** No thread dies. *)
Lemma advance_dead args jb f s h h' :
  worker_ok (f, s) -> runnable f -> advance args jb f s h <> Some (Some Dead, h').
Proof.
  intros Hw Hrun Ha. by_stage Ha; [destruct Hrun as [?|(? & ? & _)]; congruence|..].
  all: destruct Hw as [Hs Ht], Hrun as [?|(p' & Ht' & Hp)]; simpl in *; [congruence|].
  all: assert (p' = p) as -> by congruence; unfold decodes in Hp.
  all: destruct (p_output p), (p_err p); done.
Qed.

Lemma smooth_no_loss args jb st :
  smooth jb -> rtc (tidy_step args jb) (start_state (j_files jb)) st -> at_stage is_dead (workers st) = [].
Proof.
  intros [_ Hs]. apply (rtc_ind_r (fun st => at_stage is_dead (workers st) = [])); [done|].
  intros y z Hy%tidy_reachable_inv Hz Hd. destruct Hz as [m fs q ws1 f s ws2 h rm r h' _ Ha| | | | | | | | | |]; try done.
  - pose proof (inv_files _ _ Hy) as Hp. rewrite <- Hp in Hs. unfold all_files in Hs. cbn [workers] in *.
    rewrite map_app, !Forall_app in Hs. destruct Hs as (_ & (_ & [[_ Hrun] _]%Forall_cons) & _).
    pose proof (inv_workers _ _ Hy) as Hw. apply Forall_app in Hw as [_ [Hw _]%Forall_cons].
    rewrite !at_stage_app, at_stage_cons, at_stage_next in *. apply app_eq_nil in Hd as [-> Hd], Hd as [Hd ->].
    destruct r as [[]|]; try done. by apply advance_dead in Ha.
  - cbn [workers] in *. by rewrite at_stage_app, Hd.
Qed.

Lemma smooth_ends args jb n st :
  smooth jb -> rtc (tidy_step args jb) (start_state (j_files jb)) st -> uninterrupted st -> (work_left st < n)%nat ->
  exists st', rtc (tidy_step args jb) st st' /\ queue_joined st'.
Proof.
  intros Hs. revert st. induction n as [|n IH]; intros st Hr Hu Hw; [lia|].
  destruct (smooth_step args jb st Hs (tidy_reachable_inv _ _ _ _ Hr) Hu (smooth_no_loss _ _ _ Hs Hr))
    as [Hj|(st' & Hst & Hu' & Hlt)]; [by exists st|].
  destruct (IH st') as (st2 & Hr2 & Hj); [by eapply rtc_r | done | lia|]. exists st2. split; [by eapply rtc_l | done].
Qed.

(** C29. No deadlock: when there is a thread, every name matches the filter and clang-tidy can be run on every file that is
    not skipped, then from every state that can be reached before an interrupt, whatever the threads have done so
    far and whoever holds the lock, a state can be reached in which the queue is joined. *)
Theorem tidy_run_ends args jb st (Hs : smooth jb)
    (Hr : rtc (tidy_step args jb) (start_state (j_files jb)) st) (Hu : uninterrupted st) :
  exists st', rtc (tidy_step args jb) st st' /\ queue_joined st'.
Proof. apply (smooth_ends args jb (S (work_left st))); eauto. Qed.


Lemma unmatched_stays args jb f st st' :
  name_matches jb f = false -> tidy_step args jb st st' -> f ∈ todo st -> f ∈ todo st'.
Proof.
  intros Hf H. destruct H; cbn [todo]; try done. intros [->|?]%elem_of_cons; [congruence | done].
Qed.

(** A file of the database whose name the filter does not match keeps [main] busy for ever: in no state that can be
    reached is the queue joined. *)
Theorem unmatched_name_never_joins args jb f st (Hin : f ∈ j_files jb) (Hf : name_matches jb f = false)
    (Hr : rtc (tidy_step args jb) (start_state (j_files jb)) st) : ~ queue_joined st.
Proof.
  change (f ∈ todo (start_state (j_files jb))) in Hin. induction Hr as [st|s1 s2 s3 H _ IH].
  - intros (_ & H & _). rewrite H in Hin. by apply not_elem_of_nil in Hin.
  - apply IH. by eapply unmatched_stays.
Qed.

Lemma dead_stays args jb st st' f : tidy_step args jb st st' -> (f, Dead) ∈ workers st -> (f, Dead) ∈ workers st'.
Proof.
  intros H. destruct H as [m fs q ws1 g s ws2 h rm r h' _ Ha| | | | | | | | | |]; cbn [workers]; try done;
    rewrite !elem_of_app, ?elem_of_cons; [|by left]. intros [?|[[= -> <-]|?]]; [by left | done | by right; right].
Qed.

(** A thread that dies on a file (clang-tidy cannot be started, or its output is not UTF-8) keeps the queue from
    ever being joined, although it releases the lock. *)
Theorem dead_thread_never_joins args jb st st' f
    (Hr : rtc (tidy_step args jb) st st') (Hd : (f, Dead) ∈ workers st) : ~ queue_joined st'.
Proof.
  induction Hr as [st|s1 s2 s3 H _ IH]; [|eauto using dead_stays].
  intros (_ & _ & _ & Hw). rewrite Hw in Hd. by apply not_elem_of_nil in Hd.
Qed.

(** ** The exit status *)

Lemma fails_filter l : nonempty (List.filter fails l) = existsb fails l.
Proof. induction l as [|x l IH]; simpl; [done|]. by destruct (fails x). Qed.

Lemma run_status args jb w1 st e w' :
  rtc (tidy_step args jb) (start_state (j_files jb)) st -> queue_joined st ->
  finish args (j_tmpdir jb) (replacefiles jb st) (failed_files (sh st)) w1 = (Raise e, w') ->
  e = if removable (j_tmpdir jb) then SystemExit (exit_status args (j_tmpdir jb) (replacefiles jb st) (List.filter fails (j_files jb))) else IOError.
Proof.
  intros Hr Hj Hfin. pose proof (finish_status args (j_tmpdir jb) (replacefiles jb st) (failed_files (sh st)) w1) as Hx.
  rewrite Hfin in Hx. injection Hx as ->. destruct (removable _); [|done]. unfold exit_status.
  destruct (joined_outcome _ _ _ _ Hr Hj) as (_ & Hf & _).
  destruct (failed_files (sh st)), (List.filter fails (j_files jb)); try done.
  - by apply Permutation_nil_cons in Hf.
  - symmetry in Hf. by apply Permutation_nil_cons in Hf.
Qed.

(** ** Interrupts *)

Definition goodbye : chunk := Notice (nl ++ "Ctrl-C detected, goodbye.").

(** What the handler of [KeyboardInterrupt] has done so far. *)
Definition handler_inv (jb : job) (st : tidy_state) : Prop :=
  match main_at st with
  | Filling | LineEnd => removed st = []
  | CtrlC | Goodbye => goodbye ∈ out (sh st) /\ removed st = []
  | Cleaned | Killed =>
      goodbye ∈ out (sh st) /\ removed st = match j_tmpdir jb with Some ((_ :: _) as d) => [d] | _ => [] end
  | Escaped => goodbye ∈ out (sh st) /\ removed st = [] /\ truthy (j_tmpdir jb) = true
  end.

Lemma advance_out args jb f s h r h' : advance args jb f s h = Some (r, h') -> exists cs, out h' = out h ++ cs.
Proof. intros Ha. by_stage Ha; cbn; first [by eexists | exists []; by rewrite app_nil_r]. Qed.

Lemma handler_step args jb st st' : tidy_step args jb st st' -> handler_inv jb st -> handler_inv jb st'.
Proof.
  unfold handler_inv.
  intros H. destruct H as [m fs q ws1 f s ws2 h rm r h' _ Ha| | | | | |m fs q ws h rm [-> | ->]| | | |]; cbn; try done.
  - apply advance_out in Ha as (cs & ->). destruct m; rewrite ?elem_of_app; naive_solver.
  - rewrite elem_of_app. intros ->. split; [right; apply list_elem_of_here | done].
  - rewrite elem_of_app. intros ->. split; [right; apply list_elem_of_here | done].
  - rewrite elem_of_app. naive_solver.
  - by intros [? ->].
  - by intros [? ->].
Qed.

Lemma handler_reachable args jb st : rtc (tidy_step args jb) (start_state (j_files jb)) st -> handler_inv jb st.
Proof. apply (rtc_ind_r (handler_inv jb)); [done|]. eauto using handler_step. Qed.

Lemma goodbye_said w st : goodbye ∈ out (sh st) -> text goodbye ∈ t_stdout (after_threads w st).
Proof. intros H. cbn. rewrite elem_of_app, list_elem_of_fmap. right. by exists goodbye. Qed.

(** ** How [main] ends *)

(** A temporary directory was made, and has a name. *)
Definition tmpdir_made (args : tidy_args) : bool := (t_fix args || truthy (export_fixes args)) && nonempty mkdtemp.

Lemma tmpdir_made_job args w jb w1 :
  setup args w = (Ok jb, w1) -> truthy (j_tmpdir jb) = tmpdir_made args /\ removable (j_tmpdir jb) = negb (tmpdir_made args) || rmtree_ok mkdtemp.
Proof.
  intros Hs. rewrite (setup_tmpdir _ _ _ _ Hs). unfold tmpdir_made. destruct (t_fix args || truthy (export_fixes args)); [|done].
  by destruct mkdtemp.
Qed.

(** The removal of the temporary directory failed: at the end, or in the handler of an interrupt. *)
Definition removal_failed (args : tidy_args) (e : exn) (w' : tworld) : Prop :=
  e = IOError /\ tmpdir_made args = true /\ (rmtree_ok mkdtemp = false \/ text goodbye ∈ t_stdout w').

(** C30. The exit status of [main], once its set-up has succeeded and no interrupt has ended it, whatever the order in which
    the threads worked: 1 if clang-tidy reports a failure for a file that is not skipped, or fixes are to
    be exported and the database is not empty (reading the replacement files always fails, the module for it is
    not imported) or the file for them cannot be opened, or fixes are to be applied and the program for it cannot be started; 0 otherwise.
    Only where a temporary directory was made and its removal fails there is no status, but the exception of the removal. *)
Theorem main_exit_status args w jb w1 e w'
    (Hs : setup args w = (Ok jb, w1)) (Hm : main_run args w (Exits e) w') :
  (e = SystemExit (if existsb (fun f => negb (should_skip f) &&
                                 match tidy f with Some p => negb (returncode p =? 0) | None => false end) (j_files jb)
                      || truthy (export_fixes args) && (nonempty (j_files jb) || negb (open_w (default [] (export_fixes args))))
                      || t_fix args && negb (call (apply_invocation args mkdtemp))
                   then 1 else 0) /\
   (tmpdir_made args = true -> rmtree_ok mkdtemp = true)) \/
  removal_failed args e w'.
Proof.
  destruct (tmpdir_made_job _ _ _ _ Hs) as [Ht Hrm].
  inversion Hm as [e' w2 H|jb' w1' st e' w2 H Hr Hj Hfin| |jb' w1' st H Hr He]; subst; [congruence|..];
    (assert (jb' = jb) as -> by congruence).
  2: { right. pose proof (handler_reachable _ _ _ Hr) as Hi. unfold handler_inv in Hi. rewrite He in Hi. destruct Hi as (Hg & _ & Hi).
       split_and!; [done | congruence|]. right. by apply goodbye_said. }
  rewrite (run_status _ _ _ _ _ _ Hr Hj Hfin), Hrm. destruct (tmpdir_made args) eqn:Em; [destruct (rmtree_ok mkdtemp) eqn:Er|]; cbn [negb orb].
  2: { right. split_and!; [done..|]. by left. }
  all: left; split; [|done]; unfold exit_status; rewrite fails_filter.
  all: replace (truthy (export_fixes args) && (nonempty (replacefiles jb st) || negb (open_w (default [] (export_fixes args)))))
    with (truthy (export_fixes args) && (nonempty (j_files jb) || negb (open_w (default [] (export_fixes args))))).
  1, 3: rewrite (setup_tmpdir _ _ _ _ Hs); by destruct (t_fix args).
  all: destruct (joined_outcome _ _ _ _ Hr Hj) as (_ & _ & Hi); unfold replacefiles;
    rewrite (setup_tmpdir _ _ _ _ Hs); destruct (truthy (export_fixes args)); [|done];
    rewrite orb_true_r; cbn [andb]; by destruct (invocations (sh st)), (j_files jb).
Qed.


End Threads.

(** ** Instances *)

Notation small_step := (tidy_step (U := ascii_db) (E := small_env) default_args small_job).

Ltac a_thread := eapply rtc_l; [refine (step_thread _ _ _ _ _ [] _ _ [] _ _ _ _ _ _); [discriminate | vm_compute; reflexivity]|].
Ltac put_and_get :=
  eapply rtc_l; [apply step_put; reflexivity|]; eapply rtc_l; [apply step_get; [discriminate | reflexivity]|].

(** One thread takes both files, in order. *)
Lemma small_run :
  exists st, rtc small_step (start_state (j_files small_job)) st /\ queue_joined st /\
             failed_files (sh st) = [lit "/w/b/a.cpp"] /\ finished (sh st) = j_files small_job /\
             map text (out (sh st)) = [c_cr :: lit " Checking: /w/b/a.cpp"; nl; lit "a.cpp:1: error";
                                       c_cr :: lit " Checking: /w/third_party/x.cpp"].
Proof.
  eexists. split.
  - put_and_get. do 9 a_thread. put_and_get. do 3 a_thread. apply rtc_refl.
  - vm_compute. done.
Defined.

Lemma joined_complete_witness :
  exists st, rtc small_step (start_state (j_files small_job)) st /\ queue_joined st /\
             failed_files (sh st) ≡ₚ [lit "/w/b/a.cpp"].
Proof.
  destruct small_run as (st & Hr & Hj & _). exists st. split; [exact Hr|]. split; [exact Hj|].
  destruct (joined_complete default_args small_job st Hr Hj) as (_ & _ & H). exact H.
Defined.

(** One thread stops before it has written its report, the other announces its file meanwhile. *)
Lemma half_written :
  exists st, rtc small_step (start_state (j_files small_job)) st /\
             map text (out (sh st)) = [c_cr :: lit " Checking: /w/b/a.cpp"; nl; c_cr :: lit " Checking: /w/third_party/x.cpp"].
Proof.
  eexists. split.
  - put_and_get. do 6 a_thread. put_and_get.
    eapply rtc_l; [refine (step_thread _ _ _ _ _ [_] _ _ [] _ _ _ _ _ _); [discriminate | vm_compute; reflexivity]|].
    apply rtc_refl.
  - vm_compute. done.
Defined.

Lemma reports_stay_whole_witness :
  exists st, rtc small_step (start_state (j_files small_job)) st /\
             (length (at_stage critical (workers st)) <= 1)%nat /\ length (out (sh st)) = 3%nat.
Proof.
  destruct half_written as (st & Hr & Ho). exists st. split; [exact Hr|]. split.
  - exact (proj1 (reports_stay_whole default_args small_job st Hr)).
  - apply (f_equal length) in Ho. rewrite length_map in Ho. exact Ho.
Defined.

Lemma small_smooth : smooth (U := ascii_db) (E := small_env) small_job.
Proof.
  split; [reflexivity|]. change (j_files small_job) with (lits ["/w/b/a.cpp"; "/w/third_party/x.cpp"]).
  apply Forall_cons. split; [|apply Forall_cons; split; [|apply Forall_nil_2]];
    (split; [reflexivity|]); right; eexists; split; reflexivity.
Defined.

Lemma tidy_run_ends_witness :
  exists st, rtc small_step (start_state (j_files small_job)) st /\ queue_joined st.
Proof. exact (tidy_run_ends default_args small_job _ small_smooth (rtc_refl _ _) (or_introl eq_refl)). Defined.

(** The same database with a filter that matches neither of its files. *)
Definition picky_job : job :=
  Job (j_build_path small_job) (j_files small_job) 2 None
    (default {| rx_flags := no_flags; rx_groups := 0; rx_re := REmpty |} (re_parse "\.h$")).

Lemma unmatched_name_never_joins_witness :
  ~ queue_joined (start_state (j_files picky_job)).
Proof.
  apply (unmatched_name_never_joins (U := ascii_db) (E := small_env) default_args picky_job "/w/b/a.cpp" _).
  - apply list_elem_of_here.
  - reflexivity.
  - apply rtc_refl.
Defined.

Lemma dead_thread_never_joins_witness :
  ~ queue_joined (TidyState Filling [] [] [(lit "/w/b/a.cpp", Dead)] (Shared false [] [] [] [] []) []).
Proof.
  refine (dead_thread_never_joins (U := ascii_db) (E := small_env) default_args small_job _ _ "/w/b/a.cpp" (rtc_refl _ _) _).
  apply list_elem_of_here.
Defined.

Definition small_world : tworld := snd (setup (E := small_env) default_args no_output).

Lemma small_setup : setup (E := small_env) default_args no_output = (Ok small_job, small_world).
Proof. vm_compute. reflexivity. Defined.

Lemma main_exit_status_witness :
  exists w', main_run (U := ascii_db) (E := small_env) default_args no_output (Exits (SystemExit 1)) w'.
Proof.
  destruct small_run as (st & Hr & Hj & Hf & _).
  destruct (finish (E := small_env) default_args (j_tmpdir small_job) (replacefiles (E := small_env) small_job st)
              (failed_files (sh st)) (after_threads small_world st)) as [[[]|e] w'] eqn:Hfin; [by rewrite Hf in Hfin|].
  exists w'. assert (Hm := main_exits (U := ascii_db) (E := small_env) default_args no_output small_job _ st e w' small_setup Hr Hj Hfin).
  destruct (main_exit_status (U := ascii_db) (E := small_env) default_args no_output small_job _ e w' small_setup Hm) as [[-> _]|(_ & Ht & _)];
    [exact Hm | discriminate Ht].
Defined.


